(** * Lighthouse agent tooling: batch transfer engine

    A shallow embedding of the batch upload / download paths of the
    repository:

    - [MockLighthouseService.batchUploadFiles] / [batchDownloadFiles]
      (apps/mcp-server/src/services/MockLighthouseService.ts),
    - [LighthouseBatchUploadTool] / [LighthouseBatchDownloadTool]
      (apps/mcp-server/src/tools),
    - [LighthouseAISDK.uploadFile], [batchUpload], [batchDownload]
      (packages/sdk-wrapper/src/LighthouseAISDK.ts),

    together with the collaborators they call.

    Conventions.  Asynchronous methods are written in state-passing
    style: a method is a function from the state of the object it
    belongs to, to an outcome ([Return v] or [Throw e]) and a new state.
    JavaScript numbers that hold counts and millisecond timestamps are
    [nat] and [Z]; numbers produced by a division are exact rationals
    ([Q]) inside [Js.number], which also has the non-finite results of
    a division by zero.  Floating-point rounding is not modelled: where
    the program holds the double nearest to a quotient, the model holds
    the quotient itself.  The theorems therefore state of such a value
    only what rounding to the nearest double keeps: that it is finite,
    its bounds, and its value where the quotient is itself a double
    (0, 1 and their multiples), never a value the program would round. *)

From Stdlib Require Import ZArith QArith Qminmax Qround List Bool Ascii String Lia.
From stdpp Require Import base option list strings pretty gmap.

Import ListNotations.
Set Warnings "-register-all".
Local Open Scope Z_scope.

(* ===================================================================== *)
(** * JavaScript values                                                    *)
(* ===================================================================== *)

Module Js.

(** A JavaScript number: a finite value, or one of the three non-finite
    values. *)
Inductive number : Type :=
| Fin (q : Q)
| NaN
| PosInf
| NegInf.

Definition ofZ (z : Z) : number := Fin (inject_Z z).
Definition ofNat (n : nat) : number := Fin (inject_Z (Z.of_nat n)).

(** [a / b] on finite operands.  A zero divisor gives [NaN] (for [0/0])
    or an infinity, never an exception.  The result is the exact
    quotient; the program holds the double nearest to it. *)
Definition div (a b : Q) : number :=
  if Qeq_bool b 0 then
    if Qeq_bool a 0 then NaN
    else if Qle_bool 0 a then PosInf else NegInf
  else Fin (a / b).

(** [x * k] for a finite constant [k > 0]: the exact product, where the
    program holds the double nearest to it. *)
Definition scale (x : number) (k : Q) : number :=
  match x with
  | Fin q => Fin (q * k)
  | other => other
  end.

Definition isFinite (x : number) : bool :=
  match x with Fin _ => true | _ => false end.

(** Numeric equality ([===] on numbers): [NaN] differs from itself. *)
Definition eqb (x y : number) : bool :=
  match x, y with
  | Fin a, Fin b => Qeq_bool a b
  | PosInf, PosInf | NegInf, NegInf => true
  | _, _ => false
  end.

(** [x < y] and [x > y]; every comparison with [NaN] is false. *)
Definition ltb (x y : number) : bool :=
  match x, y with
  | NaN, _ | _, NaN => false
  | Fin a, Fin b => Qle_bool a b && negb (Qeq_bool a b)
  | NegInf, NegInf => false
  | NegInf, _ => true
  | _, PosInf => match x with PosInf => false | _ => true end
  | _, _ => false
  end.

Definition gtb (x y : number) : bool := ltb y x.

(** A dynamically typed value, as far as the tools inspect one. *)
Inductive value : Type :=
| VUndefined
| VNull
| VBool (b : bool)
| VNumber (n : number)
| VString (s : string)
| VArray (elems : list value)
| VObject.

Inductive type_tag : Type :=
| TUndefined | TObject | TBoolean | TNumber | TString.

Definition typeof (v : value) : type_tag :=
  match v with
  | VUndefined => TUndefined
  | VNull => TObject
  | VBool _ => TBoolean
  | VNumber _ => TNumber
  | VString _ => TString
  | VArray _ => TObject
  | VObject => TObject
  end.

Definition type_tag_eqb (a b : type_tag) : bool :=
  match a, b with
  | TUndefined, TUndefined | TObject, TObject | TBoolean, TBoolean
  | TNumber, TNumber | TString, TString => true
  | _, _ => false
  end.

(** Truthiness: [undefined], [null], [false], [0], [NaN] and the empty
    string are falsy. *)
Definition truthy (v : value) : bool :=
  match v with
  | VUndefined | VNull => false
  | VBool b => b
  | VNumber (Fin q) => negb (Qeq_bool q 0)
  | VNumber NaN => false
  | VNumber _ => true
  | VString s => negb (String.eqb s "")
  | VArray _ | VObject => true
  end.

Definition isArray (v : value) : bool :=
  match v with VArray _ => true | _ => false end.

Definition isUndefined (v : value) : bool :=
  match v with VUndefined => true | _ => false end.

(** [a || b] *)
Definition or (a b : value) : value := if truthy a then a else b.

(** [a ?? b] *)
Definition nullish (a b : value) : value :=
  match a with
  | VUndefined | VNull => b
  | _ => a
  end.

(** [o ?? d] for an optional field of a typed options object. *)
Definition orDefault {A : Type} (o : option A) (d : A) : A :=
  match o with Some a => a | None => d end.

(** [String(v)], given the runtime's rendering of numbers.  Inside an
    array, [undefined] and [null] render as the empty string. *)
Fixpoint toString (show : number -> string) (v : value) : string :=
  match v with
  | VUndefined => "undefined"
  | VNull => "null"
  | VBool true => "true"
  | VBool false => "false"
  | VNumber n => show n
  | VString s => s
  | VArray elems =>
      (fix joinElems (l : list value) : string :=
         match l with
         | [] => ""
         | x :: rest =>
             let sx := match x with
                       | VUndefined | VNull => ""
                       | _ => toString show x
                       end in
             match rest with
             | [] => sx
             | _ => sx +:+ "," +:+ joinElems rest
             end
         end) elems
  | VObject => "[object Object]"
  end.

(** [hay.includes(needle)] *)
Fixpoint includes (needle hay : string) : bool :=
  String.prefix needle hay ||
  match hay with
  | EmptyString => false
  | String _ rest => includes needle rest
  end.

(** [strs.join(sep)] on an array of strings. *)
Fixpoint join (sep : string) (strs : list string) : string :=
  match strs with
  | [] => ""
  | [x] => x
  | x :: rest => x +:+ sep +:+ join sep rest
  end.

(** A thrown [Error]: its message and, when the retry executor gave up
    on it, the number of attempts it was tagged with. *)
Record Error : Type := mkError {
  message : string;
  attemptCount : option nat;
}.

(** [new Error(msg)] *)
Definition newError (msg : string) : Error :=
  {| message := msg; attemptCount := None |}.

(** The result of awaiting a promise. *)
Inductive outcome (A : Type) : Type :=
| Return (a : A)
| Throw (e : Error).
Arguments Return {A} a.
Arguments Throw {A} e.

Definition isReturn {A : Type} (o : outcome A) : bool :=
  match o with Return _ => true | Throw _ => false end.

(** [path.split("/").pop()]: the text after the last slash. *)
Fixpoint lastSegment (acc : string) (s : string) : string :=
  match s with
  | EmptyString => acc
  | String c rest =>
      if Ascii.eqb c "/"%char then lastSegment EmptyString rest
      else lastSegment (acc +:+ String c EmptyString) rest
  end.

(** [s.split("/").pop() || dflt] *)
Definition popOr (s dflt : string) : string :=
  let seg := lastSegment EmptyString s in
  if String.eqb seg "" then dflt else seg.

End Js.


(* ===================================================================== *)
(** * Batch types (packages/sdk-wrapper/src/types.ts)                      *)
(* ===================================================================== *)

Module Types.

(** An access condition is an object the batch paths only pass along. *)
Definition AccessCondition : Type := Js.value.

(** [FileInfo], the fields the batch paths fill in. *)
Record FileInfo : Type := mkFileInfo {
  hash : string;
  name : string;
  size : Z;
  encrypted : bool;
  mimeType : string;
  uploadedAt : Z;
}.

Record BatchDownloadFileResult : Type := mkBatchDownloadFileResult {
  dl_cid : string;
  dl_filePath : string;
  dl_size : Z;
  dl_decrypted : bool;
}.

(** [onProgress?: (completed, total, failures) => void].  The callback is
    user code; a call is modelled by appending its arguments to a log. *)
Definition ProgressCall : Type := (Z * Z * Z)%type.

(** [BatchUploadOptions]; an omitted field is [None]. *)
Record BatchUploadOptions : Type := mkBatchUploadOptions {
  concurrency : option Js.number;
  encrypt : option bool;
  accessConditions : option (list AccessCondition);
  tags : option (list string);
  onProgress : bool;
  continueOnError : option bool;
  maxRetries : option nat;
}.

(** [BatchDownloadOptions] *)
Record BatchDownloadOptions : Type := mkBatchDownloadOptions {
  d_concurrency : option Js.number;
  outputDir : option string;
  decrypt : option bool;
  d_onProgress : bool;
  d_continueOnError : option bool;
  d_maxRetries : option nat;
}.

(** [BatchFileResult<T>] *)
Record BatchFileResult (T : Type) : Type := mkBatchFileResult {
  id : string;
  success : bool;
  data : option T;
  error : option string;
  duration : Z;
  retries : nat;
}.
Arguments mkBatchFileResult {T}.
Arguments id {T}.
Arguments success {T}.
Arguments data {T}.
Arguments error {T}.
Arguments duration {T}.
Arguments retries {T}.

(** [BatchOperationResult<T>].  The interface documents [successRate] as
    "Success rate (0-1)". *)
Record BatchOperationResult (T : Type) : Type := mkBatchOperationResult {
  total : nat;
  successful : nat;
  failed : nat;
  results : list (BatchFileResult T);
  totalDuration : Z;
  averageDuration : Js.number;
  successRate : Js.number;
}.
Arguments mkBatchOperationResult {T}.
Arguments total {T}.
Arguments successful {T}.
Arguments failed {T}.
Arguments results {T}.
Arguments totalDuration {T}.
Arguments averageDuration {T}.
Arguments successRate {T}.

(** [results.filter((r) => r.success).length] and its complement. *)
Definition countSuccess {T : Type} (rs : list (BatchFileResult T)) : nat :=
  length (List.filter (fun r => success r) rs).
Definition countFailed {T : Type} (rs : list (BatchFileResult T)) : nat :=
  length (List.filter (fun r => negb (success r)) rs).

End Types.

(* ===================================================================== *)
(** * The outside world                                                    *)
(* ===================================================================== *)

Module Env.

(** What [fs.stat] reports for a path. *)
Record FileStat : Type := mkFileStat {
  isFile : bool;
  st_size : Z;
}.

(** The collaborators outside the repository: the file system, the CID
    helper of the mock service and the random delay of [simulateDelay]. *)
Record World : Type := mkWorld {
  (** [fs.stat(path)]: [None] when the call throws (no such entry). *)
  fsStat : string -> option FileStat;
  (** [CIDGenerator.generate(path)] *)
  cidGenerate : string -> string;
  (** [CIDGenerator.isValid(cid)] *)
  cidIsValid : string -> bool;
  (** The delay [simulateDelay(min, max)] draws when called at time [now]. *)
  randomDelay : Z -> Z -> Z -> Z;
  (** [fs.access(dir, W_OK)] succeeds. *)
  canWrite : string -> bool;
  (** [fs.mkdir(dir, { recursive: true })] succeeds. *)
  canMkdir : string -> bool;
  (** The runtime's [Number.prototype.toString]. *)
  numberToString : Js.number -> string;
}.

End Env.

(* ===================================================================== *)
(** * MockLighthouseService                                                *)
(* ===================================================================== *)

Module Mock.
Import Js Types Env.

Record StoredFile : Type := mkStoredFile {
  sf_cid : string;
  sf_filePath : string;
  sf_size : Z;
  sf_encrypted : bool;
  sf_accessConditions : option (list AccessCondition);
  sf_tags : option (list string);
  sf_uploadedAt : Z;
  sf_pinned : bool;
}.

(** The fields of the service object, and the wall clock read by
    [Date.now()]. *)
Record State : Type := mkState {
  fileStore : gmap string StoredFile;
  maxStorageSize : Z;
  currentStorageSize : Z;
  clock : Z;
}.

(** [new MockLighthouseService()] started at time [t0]. *)
Definition create (t0 : Z) : State :=
  {| fileStore := ∅;
     maxStorageSize := 1024 * 1024 * 1024;
     currentStorageSize := 0;
     clock := t0 |}.

(** [await this.simulateDelay(minMs, maxMs)] *)
Definition simulateDelay (w : World) (minMs maxMs : Z) (st : State) : State :=
  {| fileStore := fileStore st;
     maxStorageSize := maxStorageSize st;
     currentStorageSize := currentStorageSize st;
     clock := clock st + randomDelay w minMs maxMs (clock st) |}.

Record UploadParams : Type := mkUploadParams {
  up_filePath : string;
  up_encrypt : option bool;
  up_accessConditions : option (list AccessCondition);
  up_tags : option (list string);
}.

Record UploadResult : Type := mkUploadResult {
  ur_cid : string;
  ur_size : Z;
  ur_encrypted : bool;
  ur_uploadedAt : Z;
  ur_originalPath : string;
}.

(** [uploadFile(params)], for a call during which no other call of the
    service runs: the method awaits between its quota check and its
    update of the counter, and this definition takes both as one step
    ([MockFiles.uploadCheck] and [MockFiles.uploadCommit] are the two
    halves).  [FileUtils.fileExists] succeeds when the path can be
    stat'ed; the size comes from [FileUtils.getFileInfo] or, when that
    throws, from [fs.stat] directly. *)
Definition uploadFile (w : World) (params : UploadParams) (st : State)
  : outcome UploadResult * State :=
  let st1 := simulateDelay w 50 100 st in
  match fsStat w (up_filePath params) with
  | None =>
      (Throw (newError ("File not found: " +:+ up_filePath params)), st1)
  | Some stats =>
      if currentStorageSize st1 + st_size stats >? maxStorageSize st1 then
        (Throw (newError "Storage quota exceeded"), st1)
      else
        let cid := cidGenerate w (up_filePath params) in
        let st2 := simulateDelay w 200 400 st1 in
        let storedFile :=
          {| sf_cid := cid;
             sf_filePath := up_filePath params;
             sf_size := st_size stats;
             sf_encrypted := orDefault (up_encrypt params) false;
             sf_accessConditions := up_accessConditions params;
             sf_tags := up_tags params;
             sf_uploadedAt := clock st2;
             sf_pinned := true |} in
        (Return {| ur_cid := cid;
                   ur_size := st_size stats;
                   ur_encrypted := orDefault (up_encrypt params) false;
                   ur_uploadedAt := clock st2;
                   ur_originalPath := up_filePath params |},
         {| fileStore := <[cid := storedFile]> (fileStore st2);
            maxStorageSize := maxStorageSize st2;
            currentStorageSize := currentStorageSize st2 + st_size stats;
            clock := clock st2 |})
  end.

Record FetchParams : Type := mkFetchParams {
  fp_cid : string;
  fp_outputPath : option string;
  fp_decrypt : option bool;
}.

Record DownloadResult : Type := mkDownloadResult {
  dr_filePath : string;
  dr_cid : string;
  dr_size : Z;
  dr_decrypted : bool;
  dr_downloadedAt : Z;
}.

(** [params.outputPath || storedFile.filePath] *)
Definition outputPathOr (o : option string) (dflt : string) : string :=
  match o with
  | Some s => if String.eqb s "" then dflt else s
  | None => dflt
  end.

(** [fetchFile(params)] *)
Definition fetchFile (w : World) (params : FetchParams) (st : State)
  : outcome DownloadResult * State :=
  if negb (cidIsValid w (fp_cid params)) then
    (Throw (newError ("Invalid CID format: " +:+ fp_cid params)), st)
  else
    match fileStore st !! fp_cid params with
    | None => (Throw (newError ("File not found: " +:+ fp_cid params)), st)
    | Some storedFile =>
        let st1 := simulateDelay w 50 200 st in
        (Return {| dr_filePath := outputPathOr (fp_outputPath params) (sf_filePath storedFile);
                   dr_cid := fp_cid params;
                   dr_size := sf_size storedFile;
                   dr_decrypted := orDefault (fp_decrypt params) false;
                   dr_downloadedAt := clock st1 |},
         st1)
    end.

(** [!options?.continueOnError]: true when the options object or the field
    is missing, and when the field is [false]. *)
Definition stopOnError {O : Type} (field : O -> option bool) (options : option O) : bool :=
  match options with
  | None => true
  | Some o => match field o with
              | None => true
              | Some b => negb b
              end
  end.

(** [options?.f]: the field of an optional options object. *)
Definition optField {O A : Type} (field : O -> option A) (options : option O) : option A :=
  match options with
  | None => None
  | Some o => field o
  end.

(** The [for (const filePath of filePaths)] loop of [batchUploadFiles];
    [results] is the array built so far. *)
Fixpoint uploadLoop (w : World) (options : option BatchUploadOptions)
    (filePaths : list string) (results : list (BatchFileResult FileInfo))
    (st : State) : outcome (list (BatchFileResult FileInfo)) * State :=
  match filePaths with
  | [] => (Return results, st)
  | filePath :: rest =>
      let itemStartTime := clock st in
      match uploadFile w
              {| up_filePath := filePath;
                 up_encrypt := optField encrypt options;
                 up_accessConditions := optField accessConditions options;
                 up_tags := optField tags options |} st with
      | (Return uploadResult, st') =>
          uploadLoop w options rest
            (results ++
             [ {| id := filePath;
                  success := true;
                  data := Some {| hash := ur_cid uploadResult;
                                  name := popOr filePath filePath;
                                  size := ur_size uploadResult;
                                  encrypted := ur_encrypted uploadResult;
                                  mimeType := "application/octet-stream";
                                  uploadedAt := ur_uploadedAt uploadResult |};
                  error := None;
                  duration := clock st' - itemStartTime;
                  retries := 0 |} ]) st'
      | (Throw err, st') =>
          if stopOnError continueOnError options then (Throw err, st')
          else
            uploadLoop w options rest
              (results ++
               [ {| id := filePath;
                    success := false;
                    data := None;
                    error := Some (message err);
                    duration := clock st' - itemStartTime;
                    retries := 0 |} ]) st'
      end
  end.

(** The aggregate both mock batch methods return; [n] is the length of
    the input array. *)
Definition summarize {T : Type} (n : nat) (startTime endTime : Z)
    (results : list (BatchFileResult T)) : BatchOperationResult T :=
  let successful := countSuccess results in
  let failed := countFailed results in
  let totalDuration := endTime - startTime in
  {| total := n;
     successful := successful;
     failed := failed;
     successRate :=
       if (0 <? n)%nat
       then scale (div (inject_Z (Z.of_nat successful)) (inject_Z (Z.of_nat n))) 100
       else ofZ 0;
     totalDuration := totalDuration;
     averageDuration :=
       if (0 <? length results)%nat
       then div (inject_Z totalDuration) (inject_Z (Z.of_nat (length results)))
       else ofZ 0;
     results := results |}.

(** [batchUploadFiles(filePaths, options?)] *)
Definition batchUploadFiles (w : World) (filePaths : list string)
    (options : option BatchUploadOptions) (st : State)
  : outcome (BatchOperationResult FileInfo) * State :=
  let startTime := clock st in
  match uploadLoop w options filePaths [] st with
  | (Throw err, st') => (Throw err, st')
  | (Return results, st') =>
      (Return (summarize (length filePaths) startTime (clock st') results), st')
  end.

(** The [for (const cid of cids)] loop of [batchDownloadFiles]. *)
Fixpoint downloadLoop (w : World) (options : option BatchDownloadOptions)
    (cids : list string) (results : list (BatchFileResult BatchDownloadFileResult))
    (st : State) : outcome (list (BatchFileResult BatchDownloadFileResult)) * State :=
  match cids with
  | [] => (Return results, st)
  | cid :: rest =>
      let itemStartTime := clock st in
      match fetchFile w
              {| fp_cid := cid;
                 fp_outputPath :=
                   match optField outputDir options with
                   | Some dir => if String.eqb dir "" then None
                                 else Some (dir +:+ "/" +:+ cid)
                   | None => None
                   end;
                 fp_decrypt := optField decrypt options |} st with
      | (Return downloadResult, st') =>
          downloadLoop w options rest
            (results ++
             [ {| id := cid;
                  success := true;
                  data := Some {| dl_cid := dr_cid downloadResult;
                                  dl_filePath := dr_filePath downloadResult;
                                  dl_size := dr_size downloadResult;
                                  dl_decrypted := dr_decrypted downloadResult |};
                  error := None;
                  duration := clock st' - itemStartTime;
                  retries := 0 |} ]) st'
      | (Throw err, st') =>
          if stopOnError d_continueOnError options then (Throw err, st')
          else
            downloadLoop w options rest
              (results ++
               [ {| id := cid;
                    success := false;
                    data := None;
                    error := Some (message err);
                    duration := clock st' - itemStartTime;
                    retries := 0 |} ]) st'
      end
  end.

(** [batchDownloadFiles(cids, options?)] *)
Definition batchDownloadFiles (w : World) (cids : list string)
    (options : option BatchDownloadOptions) (st : State)
  : outcome (BatchOperationResult BatchDownloadFileResult) * State :=
  let startTime := clock st in
  match downloadLoop w options cids [] st with
  | (Throw err, st') => (Throw err, st')
  | (Return results, st') =>
      (Return (summarize (length cids) startTime (clock st') results), st')
  end.

End Mock.

(* ===================================================================== *)
(** * The batch tools of the MCP server                                    *)
(* ===================================================================== *)

Module Tools.
Import Js Types Env.

(** The batch methods of [ILighthouseService], over a service state [S].
    A method the implementation lacks is [None]. *)
Record Service (S : Type) : Type := mkService {
  now : S -> Z;
  batchUploadFiles :
    option (list string -> option BatchUploadOptions -> S ->
            outcome (BatchOperationResult FileInfo) * S);
  batchDownloadFiles :
    option (list string -> option BatchDownloadOptions -> S ->
            outcome (BatchOperationResult BatchDownloadFileResult) * S);
}.
Arguments now {S}.
Arguments batchUploadFiles {S}.
Arguments batchDownloadFiles {S}.

(** [BatchUploadParams]: the arguments of [lighthouse_batch_upload] as
    they arrive, before any check.  An absent key is [VUndefined]. *)
Record BatchUploadParams : Type := mkBatchUploadParams {
  u_apiKey : value;
  u_filePaths : value;
  u_concurrency : value;
  u_encrypt : value;
  u_accessConditions : value;
  u_tags : value;
  u_continueOnError : value;
}.

(** [Math.round(size / 1024 / 1024)] for a size in bytes. *)
Definition roundMB (size : Z) : Z := (2 * size + 1048576) / 2097152.

(** [list.slice(0, k).join(", ")] followed by [" and N more"] when the
    list has more than [k] entries. *)
Definition summarizeList (k : nat) (l : list string) : string :=
  join ", " (take k l) +:+
  (if (k <? length l)%nat
   then " and " +:+ pretty (length l - k)%nat +:+ " more"
   else "").

(** The [for (const filePath of params.filePaths)] loop of the upload
    tool's [validateParams]: an immediate error, or the two lists it
    collects. *)
Fixpoint checkFilePaths (w : World) (paths : list value)
    (invalidFiles oversizedFiles : list string)
  : string + (list string * list string) :=
  match paths with
  | [] => inr (invalidFiles, oversizedFiles)
  | v :: rest =>
      match v with
      | VString filePath =>
          if (String.length filePath =? 0)%nat
          then inl "Each filePath must be a non-empty string"
          else
            match fsStat w filePath with
            | Some stats =>
                if negb (isFile stats)
                then checkFilePaths w rest (invalidFiles ++ [filePath]) oversizedFiles
                else if st_size stats >? 100 * 1024 * 1024
                then checkFilePaths w rest invalidFiles
                       (oversizedFiles ++
                        [filePath +:+ " (" +:+ pretty (roundMB (st_size stats)) +:+ "MB)"])
                else checkFilePaths w rest invalidFiles oversizedFiles
            | None => checkFilePaths w rest (invalidFiles ++ [filePath]) oversizedFiles
            end
      | _ => inl "Each filePath must be a non-empty string"
      end
  end.

(** The concurrency check shared by both tools:
    [typeof c !== "number" || c < 1 || c > 10]. *)
Definition concurrencyRejected (c : value) : bool :=
  match c with
  | VNumber n => ltb n (ofZ 1) || gtb n (ofZ 10)
  | _ => true
  end.

(** The [for (let i = 0; ...)] loop over [params.tags]. *)
Fixpoint checkTags (i : nat) (tags : list value) : option string :=
  match tags with
  | [] => None
  | VString _ :: rest => checkTags (S i) rest
  | _ :: _ => Some ("tags[" +:+ pretty i +:+ "] must be a string")
  end.

(** [LighthouseBatchUploadTool.validateParams]: the error text, or [None]
    when the parameters are accepted. *)
Definition validateUploadParams (w : World) (params : BatchUploadParams) : option string :=
  match u_filePaths params with
  | VArray paths =>
      if (length paths =? 0)%nat then Some "filePaths cannot be empty"
      else if (100 <? length paths)%nat
      then Some "filePaths cannot exceed 100 files per batch"
      else
        match checkFilePaths w paths [] [] with
        | inl err => Some err
        | inr (invalidFiles, oversizedFiles) =>
            if (0 <? length invalidFiles)%nat
            then Some ("Cannot access files: " +:+ summarizeList 5 invalidFiles)
            else if (0 <? length oversizedFiles)%nat
            then Some ("Files exceed 100MB limit: " +:+ summarizeList 3 oversizedFiles)
            else if negb (isUndefined (u_concurrency params))
                    && concurrencyRejected (u_concurrency params)
            then Some "concurrency must be a number between 1 and 10"
            else if negb (isUndefined (u_encrypt params))
                    && negb (type_tag_eqb (typeof (u_encrypt params)) TBoolean)
            then Some "encrypt must be a boolean"
            else
              match
                (if truthy (u_accessConditions params) then
                   match u_accessConditions params with
                   | VArray conds =>
                       if (0 <? length conds)%nat && negb (truthy (u_encrypt params))
                       then Some "Access conditions require encryption to be enabled"
                       else None
                   | _ => Some "accessConditions must be an array"
                   end
                 else None)
              with
              | Some err => Some err
              | None =>
                  if truthy (u_tags params) then
                    match u_tags params with
                    | VArray tags => checkTags 0 tags
                    | _ => Some "tags must be an array"
                    end
                  else None
              end
        end
  | _ => Some "filePaths is required and must be an array"
  end.

(** Reading a checked argument at its declared type. *)
Definition asBool (v : value) : option bool :=
  match v with VBool b => Some b | _ => None end.
Definition asNumber (v : value) : option number :=
  match v with VNumber n => Some n | _ => None end.
Definition asString (v : value) : option string :=
  match v with VString s => Some s | _ => None end.
Definition asArray (v : value) : option (list value) :=
  match v with VArray l => Some l | _ => None end.
Definition asStrings (v : value) : option (list string) :=
  match v with
  | VArray l => Some (omap asString l)
  | _ => None
  end.
Definition stringsOf (l : list value) : list string := omap asString l.

(** The options object [execute] hands to [service.batchUploadFiles]:
    [concurrency: params.concurrency || 3] and
    [continueOnError: params.continueOnError ?? true].  The services only
    test [continueOnError] for truth, so the value is passed as its
    truth value. *)
Definition uploadOptions (params : BatchUploadParams) : BatchUploadOptions :=
  {| concurrency := asNumber (or (u_concurrency params) (VNumber (ofZ 3)));
     encrypt := asBool (u_encrypt params);
     accessConditions := asArray (u_accessConditions params);
     tags := asStrings (u_tags params);
     onProgress := false;
     continueOnError := Some (truthy (nullish (u_continueOnError params) (VBool true)));
     maxRetries := None |}.

Record UploadResponseItem : Type := mkUploadResponseItem {
  ri_id : string;
  ri_success : bool;
  ri_cid : option string;
  ri_fileName : option string;
  ri_size : option Z;
  ri_encrypted : option bool;
  ri_error : option string;
  ri_duration : Z;
  ri_retries : nat;
}.

Record ResponseData (I : Type) : Type := mkResponseData {
  rd_success : bool;
  rd_total : nat;
  rd_successful : nat;
  rd_failed : nat;
  rd_successRate : number;
  rd_totalDuration : Z;
  rd_averageDuration : number;
  rd_results : list I;
}.
Arguments mkResponseData {I}.
Arguments rd_success {I}.
Arguments rd_total {I}.
Arguments rd_successful {I}.
Arguments rd_failed {I}.
Arguments rd_successRate {I}.
Arguments rd_totalDuration {I}.
Arguments rd_averageDuration {I}.
Arguments rd_results {I}.

Record Metadata : Type := mkMetadata {
  md_executionTime : Z;
  md_totalFiles : option nat;
  md_successful : option nat;
  md_failed : option nat;
  md_successRate : option number;
  md_outputDir : option string;
}.

(** [ProgressAwareToolResult] *)
Record ToolResult (I : Type) : Type := mkToolResult {
  tr_success : bool;
  tr_data : option (ResponseData I);
  tr_error : option string;
  tr_executionTime : Z;
  tr_metadata : option Metadata;
}.
Arguments mkToolResult {I}.
Arguments tr_success {I}.
Arguments tr_data {I}.
Arguments tr_error {I}.
Arguments tr_executionTime {I}.
Arguments tr_metadata {I}.

Definition uploadResponseItem (r : BatchFileResult FileInfo) : UploadResponseItem :=
  {| ri_id := id r;
     ri_success := success r;
     ri_cid := hash <$> data r;
     ri_fileName := name <$> data r;
     ri_size := size <$> data r;
     ri_encrypted := encrypted <$> data r;
     ri_error := error r;
     ri_duration := duration r;
     ri_retries := retries r |}.

(** [LighthouseBatchUploadTool.execute(args)] against a service in state
    [st]. *)
Definition executeUpload {S : Type} (w : World) (service : Service S)
    (params : BatchUploadParams) (st : S)
  : ToolResult UploadResponseItem * S :=
  let startTime := now service st in
  match validateUploadParams w params with
  | Some validationError =>
      ({| tr_success := false;
          tr_data := None;
          tr_error := Some ("Invalid parameters: " +:+ validationError);
          tr_executionTime := now service st - startTime;
          tr_metadata := None |}, st)
  | None =>
      match batchUploadFiles service with
      | None =>
          ({| tr_success := false;
              tr_data := None;
              tr_error := Some "Batch upload not available in current service implementation";
              tr_executionTime := now service st - startTime;
              tr_metadata := None |}, st)
      | Some batchUpload =>
          match batchUpload (stringsOf (default [] (asArray (u_filePaths params))))
                  (Some (uploadOptions params)) st with
          | (Return result, st') =>
              let executionTime := now service st' - startTime in
              ({| tr_success := (failed result =? 0)%nat;
                  tr_data :=
                    Some {| rd_success := (failed result =? 0)%nat;
                            rd_total := total result;
                            rd_successful := successful result;
                            rd_failed := failed result;
                            rd_successRate := successRate result;
                            rd_totalDuration := totalDuration result;
                            rd_averageDuration := averageDuration result;
                            rd_results := map uploadResponseItem (results result) |};
                  tr_error := None;
                  tr_executionTime := executionTime;
                  tr_metadata :=
                    Some {| md_executionTime := executionTime;
                            md_totalFiles := Some (total result);
                            md_successful := Some (successful result);
                            md_failed := Some (failed result);
                            md_successRate := Some (successRate result);
                            md_outputDir := None |} |}, st')
          | (Throw err, st') =>
              let executionTime := now service st' - startTime in
              ({| tr_success := false;
                  tr_data := None;
                  tr_error := Some ("Batch upload failed: " +:+ message err);
                  tr_executionTime := executionTime;
                  tr_metadata :=
                    Some {| md_executionTime := executionTime;
                            md_totalFiles := None;
                            md_successful := None;
                            md_failed := None;
                            md_successRate := None;
                            md_outputDir := None |} |}, st')
          end
      end
  end.

(** [BatchDownloadParams]: the arguments of [lighthouse_batch_download]. *)
Record BatchDownloadParams : Type := mkBatchDownloadParams {
  b_apiKey : value;
  b_cids : value;
  b_outputDir : value;
  b_concurrency : value;
  b_decrypt : value;
  b_continueOnError : value;
}.

Definition inRange (lo hi c : ascii) : bool :=
  (nat_of_ascii lo <=? nat_of_ascii c)%nat && (nat_of_ascii c <=? nat_of_ascii hi)%nat.

(** The character class [[a-zA-Z0-9]]. *)
Definition isAlnum (c : ascii) : bool :=
  inRange "a" "z" c || inRange "A" "Z" c || inRange "0" "9" c.

(** The character class [[1-9A-HJ-NP-Za-km-z]]. *)
Definition isBase58 (c : ascii) : bool :=
  inRange "1" "9" c || inRange "A" "H" c || inRange "J" "N" c
  || inRange "P" "Z" c || inRange "a" "k" c || inRange "m" "z" c.

Definition allChars (p : ascii -> bool) (s : string) : bool :=
  forallb p (list_ascii_of_string s).

(** [/^[a-zA-Z0-9]+$/.test(s)] *)
Definition alnumOnly (s : string) : bool :=
  (0 <? String.length s)%nat && allChars isAlnum s.

(** [LighthouseBatchDownloadTool.isValidCID] (strings are ASCII). *)
Definition isValidCID (v : value) : bool :=
  match v with
  | VString cid =>
      if (String.length cid =? 0)%nat then false
      else if String.prefix "Qm" cid && (String.length cid =? 46)%nat
      then allChars isBase58 (String.substring 2 44 cid)
      else if String.prefix "baf" cid && (59 <=? String.length cid)%nat
      then alnumOnly cid
      else if String.prefix "QmTest" cid || String.prefix "QmNonExist" cid
      then (32 <=? String.length cid)%nat && alnumOnly cid
      else if String.prefix "Qm" cid && (46 <=? String.length cid)%nat
      then alnumOnly cid
      else false
  | _ => false
  end.

(** How [Array.prototype.join] renders one element. *)
Definition elementString (w : World) (v : value) : string :=
  match v with
  | VUndefined | VNull => ""
  | _ => toString (numberToString w) v
  end.

(** [LighthouseBatchDownloadTool.validateParams] *)
Definition validateDownloadParams (w : World) (params : BatchDownloadParams) : option string :=
  match b_cids params with
  | VArray cids =>
      if (length cids =? 0)%nat then Some "cids cannot be empty"
      else if (100 <? length cids)%nat
      then Some "cids cannot exceed 100 files per batch"
      else
        let invalidCIDs := List.filter (fun cid => negb (isValidCID cid)) cids in
        if (0 <? length invalidCIDs)%nat
        then Some ("Invalid CID format: " +:+
                   summarizeList 5 (map (elementString w) invalidCIDs))
        else
          match
            (if truthy (b_outputDir params) then
               match b_outputDir params with
               | VString dir =>
                   if canWrite w dir then None
                   else if canMkdir w dir then None
                   else Some ("Cannot write to output directory: " +:+ dir)
               | _ => Some "outputDir must be a string"
               end
             else None)
          with
          | Some err => Some err
          | None =>
              if negb (isUndefined (b_concurrency params))
                 && concurrencyRejected (b_concurrency params)
              then Some "concurrency must be a number between 1 and 10"
              else if negb (isUndefined (b_decrypt params))
                      && negb (type_tag_eqb (typeof (b_decrypt params)) TBoolean)
              then Some "decrypt must be a boolean"
              else None
          end
  | _ => Some "cids is required and must be an array"
  end.

(** The options object [execute] hands to [service.batchDownloadFiles]. *)
Definition downloadOptions (params : BatchDownloadParams) : BatchDownloadOptions :=
  {| d_concurrency := asNumber (or (b_concurrency params) (VNumber (ofZ 3)));
     outputDir := asString (b_outputDir params);
     decrypt := asBool (b_decrypt params);
     d_onProgress := false;
     d_continueOnError := Some (truthy (nullish (b_continueOnError params) (VBool true)));
     d_maxRetries := None |}.

Record DownloadResponseItem : Type := mkDownloadResponseItem {
  di_id : string;
  di_success : bool;
  di_cid : option string;
  di_filePath : option string;
  di_size : option Z;
  di_decrypted : option bool;
  di_error : option string;
  di_duration : Z;
  di_retries : nat;
}.

Definition downloadResponseItem (r : BatchFileResult BatchDownloadFileResult)
  : DownloadResponseItem :=
  {| di_id := id r;
     di_success := success r;
     di_cid := dl_cid <$> data r;
     di_filePath := dl_filePath <$> data r;
     di_size := dl_size <$> data r;
     di_decrypted := dl_decrypted <$> data r;
     di_error := error r;
     di_duration := duration r;
     di_retries := retries r |}.

(** [params.outputDir || "."] *)
Definition outputDirOrDot (v : value) : string :=
  match or v (VString ".") with
  | VString s => s
  | _ => "."
  end.

(** [LighthouseBatchDownloadTool.execute(args)] *)
Definition executeDownload {S : Type} (w : World) (service : Service S)
    (params : BatchDownloadParams) (st : S)
  : ToolResult DownloadResponseItem * S :=
  let startTime := now service st in
  match validateDownloadParams w params with
  | Some validationError =>
      ({| tr_success := false;
          tr_data := None;
          tr_error := Some ("Invalid parameters: " +:+ validationError);
          tr_executionTime := now service st - startTime;
          tr_metadata := None |}, st)
  | None =>
      match batchDownloadFiles service with
      | None =>
          ({| tr_success := false;
              tr_data := None;
              tr_error := Some "Batch download not available in current service implementation";
              tr_executionTime := now service st - startTime;
              tr_metadata := None |}, st)
      | Some batchDownload =>
          match batchDownload (stringsOf (default [] (asArray (b_cids params))))
                  (Some (downloadOptions params)) st with
          | (Return result, st') =>
              let executionTime := now service st' - startTime in
              ({| tr_success := (failed result =? 0)%nat;
                  tr_data :=
                    Some {| rd_success := (failed result =? 0)%nat;
                            rd_total := total result;
                            rd_successful := successful result;
                            rd_failed := failed result;
                            rd_successRate := successRate result;
                            rd_totalDuration := totalDuration result;
                            rd_averageDuration := averageDuration result;
                            rd_results := map downloadResponseItem (results result) |};
                  tr_error := None;
                  tr_executionTime := executionTime;
                  tr_metadata :=
                    Some {| md_executionTime := executionTime;
                            md_totalFiles := Some (total result);
                            md_successful := Some (successful result);
                            md_failed := Some (failed result);
                            md_successRate := Some (successRate result);
                            md_outputDir := Some (outputDirOrDot (b_outputDir params)) |} |}, st')
          | (Throw err, st') =>
              let executionTime := now service st' - startTime in
              ({| tr_success := false;
                  tr_data := None;
                  tr_error := Some ("Batch download failed: " +:+ message err);
                  tr_executionTime := executionTime;
                  tr_metadata :=
                    Some {| md_executionTime := executionTime;
                            md_totalFiles := None;
                            md_successful := None;
                            md_failed := None;
                            md_successRate := None;
                            md_outputDir := None |} |}, st')
          end
      end
  end.

(** The mock service behind the tools. *)
Definition mockService (w : World) : Service Mock.State :=
  {| now := Mock.clock;
     batchUploadFiles := Some (Mock.batchUploadFiles w);
     batchDownloadFiles := Some (Mock.batchDownloadFiles w) |}.

End Tools.

(* ===================================================================== *)
(** * CircuitBreaker                                                       *)
(* ===================================================================== *)

Module CircuitBreaker.

(** Modelled from the spec: packages/sdk-wrapper/src/errors/CircuitBreaker.ts
    is missing.  "State ∈ {CLOSED, OPEN, HALF_OPEN}." *)
Inductive CircuitState : Type := CLOSED | OPEN | HALF_OPEN.

(** Modelled from the spec: the breaker's [CircuitBreakerConfig]
    (errors/types.ts is missing): [failureThreshold] and [resetTimeout]. *)
Record Config : Type := mkConfig {
  failureThreshold : nat;
  resetTimeout : Z;
}.

(** Modelled from the spec: packages/sdk-wrapper/src/errors/CircuitBreaker.ts
    is missing.  "State ∈ {CLOSED, OPEN, HALF_OPEN}.  Counters: consecutive
    failures, consecutive successes, last-failure timestamp", the time
    the circuit opened, and whether the single HALF_OPEN probe is in
    flight. *)
Record State : Type := mkState {
  state : CircuitState;
  failureCount : nat;
  successCount : nat;
  lastFailureTime : Z;
  openedAt : Z;
  probing : bool;
}.

(** Modelled from the spec: [new CircuitBreaker()] starts CLOSED with the
    counters at zero. *)
Definition create : State :=
  {| state := CLOSED; failureCount := 0; successCount := 0;
     lastFailureTime := 0; openedAt := 0; probing := false |}.

(** Modelled from the spec: what a call is told on entry to the missing
    [CircuitBreaker.execute]: let through (as the probe or as an ordinary
    call), or rejected with the circuit-open error. *)
Inductive Admission : Type :=
| LetThrough (probe : bool)
| Rejected.

(** Modelled from the spec: the entry half of [execute(fn, label)].
    "CLOSED — calls pass through.  OPEN — calls are rejected immediately
    (no network call attempted) until now - openedAt >= resetTimeout;
    then the next call transitions to HALF_OPEN and is allowed through as
    a probe.  HALF_OPEN — exactly one in-flight probe permitted; a
    concurrent second call while probing is rejected." *)
Definition enter (cfg : Config) (now : Z) (cb : State) : Admission * State :=
  match state cb with
  | CLOSED => (LetThrough false, cb)
  | OPEN =>
      if resetTimeout cfg <=? now - openedAt cb
      then (LetThrough true,
            {| state := HALF_OPEN;
               failureCount := failureCount cb;
               successCount := successCount cb;
               lastFailureTime := lastFailureTime cb;
               openedAt := openedAt cb;
               probing := true |})
      else (Rejected, cb)
  | HALF_OPEN =>
      if probing cb then (Rejected, cb)
      else (LetThrough true,
            {| state := HALF_OPEN;
               failureCount := failureCount cb;
               successCount := successCount cb;
               lastFailureTime := lastFailureTime cb;
               openedAt := openedAt cb;
               probing := true |})
  end.

(** Modelled from the spec: a call that was let through succeeded.
    "Probe success → CLOSED (reset counters)"; an ordinary success ends
    the run of consecutive failures. *)
Definition onSuccess (probe : bool) (cb : State) : State :=
  if probe then
    {| state := CLOSED; failureCount := 0; successCount := 0;
       lastFailureTime := lastFailureTime cb;
       openedAt := openedAt cb; probing := false |}
  else
    {| state := state cb; failureCount := 0;
       successCount := S (successCount cb);
       lastFailureTime := lastFailureTime cb;
       openedAt := openedAt cb; probing := probing cb |}.

(** Modelled from the spec: a call that was let through failed.
    "On failure, increment failure counter; if counter reaches
    failureThreshold, transition to OPEN and record openedAt.  Probe
    failure → OPEN (reset openedAt)." *)
Definition onFailure (cfg : Config) (now : Z) (probe : bool) (cb : State) : State :=
  if probe then
    {| state := OPEN; failureCount := S (failureCount cb); successCount := 0;
       lastFailureTime := now; openedAt := now; probing := false |}
  else
    match state cb with
    | CLOSED =>
        if (failureThreshold cfg <=? S (failureCount cb))%nat
        then {| state := OPEN; failureCount := S (failureCount cb);
                successCount := 0; lastFailureTime := now;
                openedAt := now; probing := probing cb |}
        else {| state := CLOSED; failureCount := S (failureCount cb);
                successCount := 0; lastFailureTime := now;
                openedAt := openedAt cb; probing := probing cb |}
    | other =>
        {| state := other; failureCount := S (failureCount cb);
           successCount := 0; lastFailureTime := now;
           openedAt := openedAt cb; probing := probing cb |}
    end.

(** Modelled from the spec: the exit half of the missing
    [CircuitBreaker.execute], which records the result of a call that was
    let through. *)
Definition leave (cfg : Config) (now : Z) (probe ok : bool) (cb : State) : State :=
  if ok then onSuccess probe cb else onFailure cfg now probe cb.

(** Modelled from the spec: the "circuit open" error of the missing
    [CircuitBreaker.execute]; the spec does not give its text. *)
Definition circuitOpenError (label : string) : Js.Error :=
  Js.newError ("Circuit breaker is open for " +:+ label).




End CircuitBreaker.

(* ===================================================================== *)
(** * RateLimiter                                                          *)
(* ===================================================================== *)

Module RateLimiter.

(** Modelled from the spec: packages/sdk-wrapper/src/utils/RateLimiter.ts
    is missing.  "Token bucket: capacity, refillRate (tokens per
    interval), current token count." *)
Record State : Type := mkState {
  capacity : positive;
  refillRate : positive;
  interval : positive;
  tokens : Q;
  lastRefill : Z;
}.

(** Modelled from the spec: the constructor of the missing
    [RateLimiter], called as [new RateLimiter(10, 1, 1000)], at time
    [t0] and with a full bucket. *)
Definition create (capacity refillRate interval : positive) (t0 : Z) : State :=
  {| capacity := capacity; refillRate := refillRate; interval := interval;
     tokens := inject_Z (Zpos capacity); lastRefill := t0 |}.

(** Modelled from the spec: the refill of the missing [RateLimiter],
    "tokens accrue continuously at refillRate per unit time up to
    capacity". *)
Definition refilled (now : Z) (rl : State) : Q :=
  Qmin (inject_Z (Zpos (capacity rl)))
       (tokens rl + inject_Z (Z.max 0 (now - lastRefill rl)) * (Zpos (refillRate rl) # interval rl)).

(** Modelled from the spec: for the missing [RateLimiter.acquire], the
    wait in milliseconds until a bucket holding [t < 1] tokens holds
    one. *)
Definition waitFor (t : Q) (rl : State) : Z :=
  Qceiling ((1 - t) * (Zpos (interval rl) # refillRate rl)).

(** Modelled from the spec: the missing [RateLimiter.acquire].
    "acquire() returns immediately if a token is available (decrements by
    1); otherwise suspends until the refill schedule produces a token."
    Returns the time at which the caller resumes. *)
Definition acquire (now : Z) (rl : State) : Z * State :=
  let t := refilled now rl in
  if Qle_bool 1 t then
    (now, {| capacity := capacity rl; refillRate := refillRate rl;
             interval := interval rl; tokens := t - 1; lastRefill := now |})
  else
    let resume := now + waitFor t rl in
    (resume, {| capacity := capacity rl; refillRate := refillRate rl;
                interval := interval rl;
                tokens := refilled resume
                            {| capacity := capacity rl; refillRate := refillRate rl;
                               interval := interval rl; tokens := t; lastRefill := now |} - 1;
                lastRefill := resume |}).

End RateLimiter.

(* ===================================================================== *)
(** * MemoryManager                                                        *)
(* ===================================================================== *)

Module MemoryManager.

(** Modelled from the spec: the [MemoryManagerConfig] of the missing
    memory/MemoryManager.ts, as far as [LighthouseAISDK] sets it:
    [maxMemory] and the two thresholds, fractions of it. *)
Record Config : Type := mkConfig {
  maxMemory : Z;
  backpressureThreshold : Q;
  cleanupThreshold : Q;
}.

(** Modelled from the spec: packages/sdk-wrapper/src/memory/MemoryManager.ts
    is missing.  "Maps an operation id → reserved byte size; maintains
    running total reserved", and the [underBackpressure] flag. *)
Record State : Type := mkState {
  reservations : gmap string Z;
  underBackpressure : bool;
}.

(** Modelled from the spec: the missing [MemoryManager] starts with no
    reservation and without backpressure. *)
Definition create : State :=
  {| reservations := ∅; underBackpressure := false |}.

(** Modelled from the spec: the events of the missing [MemoryManager],
    [backpressure:start], [backpressure:end] and [cleanup:needed]. *)
Inductive Event : Type :=
| BackpressureStart
| BackpressureEnd
| CleanupNeeded.

(** Modelled from the spec: the [totalReserved] of the missing
    [MemoryManager], recomputed from the entries. *)
Definition totalReserved (m : gmap string Z) : Z :=
  map_fold (fun _ sz acc => sz + acc) 0 m.

(** Modelled from the spec: the threshold test of the missing
    [MemoryManager], [total / maxMemory >= threshold]. *)
Definition ratioAtLeast (cfg : Config) (total : Z) (threshold : Q) : bool :=
  Qle_bool (threshold * inject_Z (maxMemory cfg)) (inject_Z total).

(** Modelled from the spec: the missing [MemoryManager.track].
    "track(id, sizeBytes, meta): records
    reservation; recomputes totalReserved; if resulting ratio ≥
    backpressureThreshold, sets underBackpressure=true and emits
    backpressure:start; if ratio ≥ cleanupThreshold, emits
    cleanup:needed." *)
Definition track (cfg : Config) (id : string) (sizeBytes : Z) (mm : State)
  : State * list Event :=
  let m := <[id := sizeBytes]> (reservations mm) in
  let total := totalReserved m in
  let bp := ratioAtLeast cfg total (backpressureThreshold cfg) in
  ({| reservations := m;
      underBackpressure := bp || underBackpressure mm |},
   (if bp && negb (underBackpressure mm) then [BackpressureStart] else []) ++
   (if ratioAtLeast cfg total (cleanupThreshold cfg) then [CleanupNeeded] else [])).

(** Modelled from the spec: the missing [MemoryManager.untrack].
    "untrack(id): removes reservation; recomputes;
    if ratio drops below backpressureThreshold, emits backpressure:end."
    Untracking an id that is not tracked changes no entry. *)
Definition untrack (cfg : Config) (id : string) (mm : State)
  : State * list Event :=
  let m := delete id (reservations mm) in
  let total := totalReserved m in
  let bp := ratioAtLeast cfg total (backpressureThreshold cfg) in
  ({| reservations := m;
      underBackpressure := bp && underBackpressure mm |},
   if underBackpressure mm && negb bp then [BackpressureEnd] else []).

(** Modelled from the spec: the missing
    [MemoryManager.isUnderBackpressure() -> bool]. *)
Definition isUnderBackpressure (mm : State) : bool := underBackpressure mm.

(** Modelled from the spec: the missing [MemoryManager.waitForRelief].
    "waitForRelief(timeoutMs): suspends the caller until
    underBackpressure becomes false or timeout elapses (returns without
    error either way)".  The time the caller waits when nothing is
    released meanwhile. *)
Definition waitForRelief (timeoutMs : Z) (mm : State) : Z :=
  if underBackpressure mm then timeoutMs else 0.

End MemoryManager.

(* ===================================================================== *)
(** * ErrorHandler                                                         *)
(* ===================================================================== *)

Module ErrorHandler.

(** Modelled from the spec: the configuration of the missing
    [ErrorHandler], constructed as [new ErrorHandler({ maxRetries,
    timeout })]; the base delay and the cap of its backoff are those of
    the missing errors/types.ts. *)
Record Config : Type := mkConfig {
  maxRetries : nat;
  timeout : Z;
  baseDelay : Z;
  maxDelay : Z;
}.

(** Modelled from the spec: packages/sdk-wrapper/src/errors/ErrorHandler.ts
    is missing.  "Records aggregate metrics: attempts, successes,
    failures". *)
Record Metrics : Type := mkMetrics {
  attempts : nat;
  successes : nat;
  failures : nat;
}.

(** Modelled from the spec: the metrics of a new [ErrorHandler] (missing)
    are all zero. *)
Definition create : Metrics :=
  {| attempts := 0; successes := 0; failures := 0 |}.

(** Modelled from the spec: the delay of the missing [ErrorHandler]
    before a retry, "exponential backoff (e.g. base delay × 2^attempt,
    capped)". *)
Definition backoff (cfg : Config) (attempt : nat) : Z :=
  Z.min (maxDelay cfg) (baseDelay cfg * 2 ^ Z.of_nat attempt).

(** Modelled from the spec: the missing [ErrorHandler] counts an
    attempt. *)
Definition countAttempt (m : Metrics) : Metrics :=
  {| attempts := S (attempts m); successes := successes m; failures := failures m |}.

(** Modelled from the spec: the missing [ErrorHandler] counts a unit of
    work that succeeded. *)
Definition countSuccess (m : Metrics) : Metrics :=
  {| attempts := attempts m; successes := S (successes m); failures := failures m |}.

(** Modelled from the spec: the missing [ErrorHandler] counts a unit of
    work that failed for good. *)
Definition countFailure (m : Metrics) : Metrics :=
  {| attempts := attempts m; successes := successes m; failures := S (failures m) |}.

End ErrorHandler.

(* ===================================================================== *)
(** * BatchProcessor                                                       *)
(* ===================================================================== *)

Module BatchProcessor.

(** Modelled from the spec: the [BatchOperation<T>] of the missing
    batch/BatchProcessor.ts, as [LighthouseAISDK] builds one: an id and
    the input. *)
Record Operation (T : Type) : Type := mkOperation {
  op_id : string;
  op_data : T;
}.
Arguments mkOperation {T}.
Arguments op_id {T}.
Arguments op_data {T}.

(** Modelled from the spec: the [BatchResult<R>] of the missing
    batch/BatchProcessor.ts, the spec's BatchItemResult "{id, success,
    result|error, duration, retries}", with the fields [LighthouseAISDK]
    reads. *)
Record BatchResult (R : Type) : Type := mkBatchResult {
  br_id : string;
  br_success : bool;
  br_result : option R;
  br_error : option Js.Error;
  br_duration : Z;
  br_retries : nat;
}.
Arguments mkBatchResult {R}.
Arguments br_id {R}.
Arguments br_success {R}.
Arguments br_result {R}.
Arguments br_error {R}.
Arguments br_duration {R}.
Arguments br_retries {R}.

(** Modelled from the spec: the options of the missing
    [BatchProcessor]: those [LighthouseAISDK] constructs it with
    ([concurrency], [retryOnFailure], [maxRetries], [onProgress] of two
    arguments), and the [continueOnError] setting of the spec's runner
    ("{concurrency, maxRetries, continueOnError}", default true), which a
    caller may leave out.  [U] is the state the progress callback acts
    on. *)
Record Config (U : Type) : Type := mkConfig {
  concurrency : Js.number;
  retryOnFailure : bool;
  maxRetries : nat;
  continueOnError : option bool;
  onProgress : nat -> nat -> U -> U;
}.
Arguments mkConfig {U}.
Arguments concurrency {U}.
Arguments retryOnFailure {U}.
Arguments maxRetries {U}.
Arguments continueOnError {U}.
Arguments onProgress {U}.

(** Modelled from the spec: an entry of the "active-set" of the missing
    [BatchProcessor], an item whose worker call is in flight. *)
Record Active (T K : Type) : Type := mkActive {
  a_index : nat;
  a_op : Operation T;
  a_startTime : Z;
  a_retries : nat;
  a_token : K;
}.
Arguments mkActive {T K}.
Arguments a_index {T K}.
Arguments a_op {T K}.
Arguments a_startTime {T K}.
Arguments a_retries {T K}.
Arguments a_token {T K}.

(** Modelled from the spec: the bookkeeping of one [addBatch] call of
    the missing [BatchProcessor]: the pending queue, the active set, one
    result slot per operation, the count of completed items, and the
    first error when it is to be re-thrown. *)
Record Run (T R K : Type) : Type := mkRun {
  pending : list (nat * Operation T);
  active : list (Active T K);
  slots : list (option (BatchResult R));
  completed : nat;
  firstError : option Js.Error;
}.
Arguments mkRun {T R K}.
Arguments pending {T R K}.
Arguments active {T R K}.
Arguments slots {T R K}.
Arguments completed {T R K}.
Arguments firstError {T R K}.

(** Modelled from the spec: the bound of the active set of the missing
    [BatchProcessor].  "Maintain an
    active-set bounded by concurrency (... the runner itself accepts any
    positive integer)"; any other number is read as a bound of one. *)
Definition bound (c : Js.number) : nat :=
  match c with
  | Js.Fin q => Z.to_nat (Z.max 1 (Qfloor q))
  | _ => 1%nat
  end.

(** Modelled from the spec: for the missing [BatchProcessor], whether an
    optional value is present. *)
Definition isSome {A : Type} (o : option A) : bool :=
  match o with Some _ => true | None => false end.

(** The missing [BatchProcessor], over the state [U] its worker acts on,
    the inputs [T], the results [R] and what a worker keeps while its
    transfer is in flight, [K]. *)
Section Processor.
Context {U T R K : Type}.

(** [Date.now()] in the state the worker acts on. *)
Variable clock : U -> Z.

(** The processor function, cut at the point where it waits for the
    transfer: [workerBegin] runs up to there and either has thrown
    already or leaves a token for the transfer in flight; [workerFinish]
    is the rest of the call, run when the transfer settles. *)
Variable workerBegin : T -> U -> (Js.Error + K) * U.
Variable workerFinish : K -> U -> Js.outcome R * U.

(** The options the processor was constructed with. *)
Variable cfg : Config U.

(** Modelled from the spec: for the missing [BatchProcessor], whether an
    item that failed after [retries] retries may be tried again
    ([retryOnFailure] and [maxRetries], "Maximum retries per file"). *)
Definition mayRetry (retries : nat) : bool :=
  retryOnFailure cfg && (retries <? maxRetries cfg)%nat.

(** Modelled from the spec: the missing [BatchProcessor] starts the
    worker for one item, and starts it again while it throws before the
    transfer and a retry is allowed. *)
Fixpoint beginItem (fuel retries : nat) (d : T) (u : U)
  : (Js.Error * nat + K * nat) * U :=
  match workerBegin d u with
  | (inr k, u') => (inr (k, retries), u')
  | (inl e, u') =>
      match fuel with
      | S fuel' =>
          if mayRetry retries then beginItem fuel' (S retries) d u'
          else (inl (e, retries), u')
      | O => (inl (e, retries), u')
      end
  end.

(** Modelled from the spec: completion of an item in the missing
    [BatchProcessor].  "On completion (success or exhausted
    failure), record a BatchItemResult with wall-clock duration and
    retries; invoke the onProgress(completed, total, ...) callback
    synchronously."  With [continueOnError = false] the first failure is
    kept to be re-thrown. *)
Definition complete (total : nat) (index : nat) (res : BatchResult R)
    (run : Run T R K) (u : U) : Run T R K * U :=
  ({| pending := pending run;
      active := active run;
      slots := <[index := Some res]> (slots run);
      completed := S (completed run);
      firstError :=
        match firstError run with
        | Some e => Some e
        | None =>
            if br_success res then None
            else match continueOnError cfg with
                 | Some false => br_error res
                 | _ => None
                 end
        end |},
   onProgress cfg (S (completed run)) total u).

(** Modelled from the spec: the result the missing [BatchProcessor]
    records for an item that failed for good. *)
Definition failure (op : Operation T) (startTime : Z) (e : Js.Error)
    (retries : nat) (u : U) : BatchResult R :=
  {| br_id := op_id op; br_success := false; br_result := None;
     br_error := Some e; br_duration := clock u - startTime;
     br_retries := retries |}.

(** Modelled from the spec: the missing [BatchProcessor] starts (or
    starts again) the item [op]: it becomes active, or is completed as a
    failure when the worker throws before the transfer and no retry is
    left. *)
Definition launch (total index : nat) (op : Operation T) (startTime : Z)
    (retries : nat) (run : Run T R K) (u : U) : Run T R K * U :=
  match beginItem (maxRetries cfg) retries (op_data op) u with
  | (inr (k, retries'), u') =>
      ({| pending := pending run;
          active := active run ++
                    [ {| a_index := index; a_op := op; a_startTime := startTime;
                         a_retries := retries'; a_token := k |} ];
          slots := slots run;
          completed := completed run;
          firstError := firstError run |}, u')
  | (inl (e, retries'), u') =>
      complete total index (failure op startTime e retries' u') run u'
  end.

(** Modelled from the spec: scheduling in the missing [BatchProcessor].
    "Pull the next queued item whenever the
    active-set has a free slot", in FIFO order; "if continueOnError=false
    and an item fails terminally, stop scheduling new items". *)
Fixpoint fill (total : nat) (queue : list (nat * Operation T))
    (run : Run T R K) (u : U) : Run T R K * U :=
  match queue with
  | [] => (run, u)
  | (index, op) :: rest =>
      if (length (active run) <? bound (concurrency cfg))%nat
         && negb (isSome (firstError run))
      then
        match launch total index op (clock u) 0
                {| pending := rest; active := active run; slots := slots run;
                   completed := completed run; firstError := firstError run |} u with
        | (run', u') => fill total rest run' u'
        end
      else (run, u)
  end.

(** Modelled from the spec: in the missing [BatchProcessor], the
    in-flight item at position [i] of the active set settles: its result
    is recorded, or it is started again when it failed and a retry is
    allowed. *)
Definition settle (total : nat) (i : nat) (run : Run T R K) (u : U)
  : Run T R K * U :=
  match active run !! i with
  | None => (run, u)
  | Some a =>
      let run0 := {| pending := pending run;
                     active := take i (active run) ++ drop (S i) (active run);
                     slots := slots run;
                     completed := completed run;
                     firstError := firstError run |} in
      match workerFinish (a_token a) u with
      | (Js.Return r, u') =>
          complete total (a_index a)
            {| br_id := op_id (a_op a); br_success := true; br_result := Some r;
               br_error := None; br_duration := clock u' - a_startTime a;
               br_retries := a_retries a |} run0 u'
      | (Js.Throw e, u') =>
          if mayRetry (a_retries a)
          then launch total (a_index a) (a_op a) (a_startTime a) (S (a_retries a)) run0 u'
          else complete total (a_index a)
                 (failure (a_op a) (a_startTime a) e (a_retries a) u') run0 u'
      end
  end.

(** Modelled from the spec: the scheduling loop of the missing
    [BatchProcessor]: fill the free slots, then let one transfer settle.
    [pick n] chooses which in-flight item settles at the [n]-th step
    ("the active worker set has no ordering guarantee on completion"). *)
Fixpoint loop (fuel : nat) (total : nat) (pick : nat -> nat) (step : nat)
    (run : Run T R K) (u : U) : Run T R K * U :=
  match fuel with
  | O => (run, u)
  | S fuel' =>
      match fill total (pending run) run u with
      | (run1, u1) =>
          match active run1 with
          | [] => (run1, u1)
          | _ :: _ =>
              match settle total (pick step mod length (active run1)) run1 u1 with
              | (run2, u2) => loop fuel' total pick (S step) run2 u2
              end
          end
      end
  end.

(** Modelled from the spec: for the missing [BatchProcessor], the
    operations of a batch with their positions. *)
Fixpoint indexed {A : Type} (i : nat) (l : list A) : list (nat * A) :=
  match l with
  | [] => []
  | x :: rest => (i, x) :: indexed (S i) rest
  end.

(** Modelled from the spec: packages/sdk-wrapper/src/batch/BatchProcessor.ts
    is missing.  [addBatch(operations)] runs every operation and returns
    one result per operation in input order ("result list order matches
    input order regardless of completion order"), or re-throws the first
    error when [continueOnError] is false. *)
Definition addBatch (pick : nat -> nat) (operations : list (Operation T)) (u : U)
  : Js.outcome (list (BatchResult R)) * U :=
  let total := length operations in
  let run0 := {| pending := indexed 0 operations;
                 active := [];
                 slots := replicate total None;
                 completed := 0;
                 firstError := None |} in
  match loop (S (total * S (maxRetries cfg))) total pick 0 run0 u with
  | (run, u') =>
      match firstError run with
      | Some e => (Js.Throw e, u')
      | None => (Js.Return (omap (fun o => o) (slots run)), u')
      end
  end.

End Processor.

End BatchProcessor.

(* ===================================================================== *)
(** * LighthouseAISDK                                                      *)
(* ===================================================================== *)

Module Sdk.
Import Js Types Env.

(** [LighthouseConfig] *)
Record LighthouseConfig : Type := mkLighthouseConfig {
  apiKey : string;
  cfg_timeout : option Z;
  cfg_maxRetries : option nat;
}.

(** Modelled from the spec: what the missing classes are constructed
    with by default, which the spec leaves to configuration: the
    thresholds of [new CircuitBreaker()] and the backoff of
    [ErrorHandler]. *)
Record Defaults : Type := mkDefaults {
  breakerConfig : CircuitBreaker.Config;
  retryBaseDelay : Z;
  retryMaxDelay : Z;
}.

(** The remote end, as an oracle indexed by the number of network calls
    made before: what [lighthouse.uploadBuffer], the direct API fallback
    and the gateway answer, how long the call takes, and how the error
    handler classifies an error. *)
Record GatewayResponse : Type := mkGatewayResponse {
  status : Z;
  statusText : string;
  (** bytes written to the output file, or the stream / write error *)
  body : outcome Z;
}.

Record Remote : Type := mkRemote {
  (** the [Hash] of the response, [None] for a response without one *)
  uploadBuffer : nat -> string -> outcome (option string);
  directUpload : nat -> string -> outcome (option string);
  gatewayGet : nat -> string -> outcome GatewayResponse;
  latency : nat -> Z;
  (** Modelled from the spec: the classification of [ErrorHandler],
      "retryable (network/timeout/5xx-equivalent) vs fatal (validation,
      not-found, auth, quota)". *)
  isRetryable : Error -> bool;
}.

Inductive TransferKind : Type := Upload | Download.

(** The events the SDK emits on itself. *)
Inductive Event : Type :=
| BatchStart (k : TransferKind) (operationId : string) (totalFiles : nat)
| BatchProgress (k : TransferKind) (operationId : string) (completed total failures : Z)
| BatchComplete (k : TransferKind) (operationId : string) (total successful failed : nat)
| BatchError (k : TransferKind) (operationId : string) (msg : string)
| BatchBackpressure (operationId : string) (waiting : bool)
| MemoryEvent (e : MemoryManager.Event)
| CircuitOpen
| CircuitClosed
| CircuitBlocked (label : string)
| Retry (label : string) (attempt : nat)
| ErrorEvent (msg : string).

Record State : Type := mkState {
  (** the [LighthouseConfig] the SDK was constructed with *)
  sdkConfig : LighthouseConfig;
  (** [this.rateLimiter] *)
  rateLimiter : RateLimiter.State;
  (** [this.circuitBreaker] *)
  circuitBreaker : CircuitBreaker.State;
  (** [this.errorHandler]'s metrics *)
  errorHandler : ErrorHandler.Metrics;
  (** [this.memoryManager] *)
  memoryManager : MemoryManager.State;
  (** [Date.now()] *)
  clock : Z;
  (** network calls made so far (indexes the remote oracle) *)
  netCalls : nat;
  (** ids handed out by [generateOperationId] *)
  opCounter : nat;
  (** files written by downloads, with their sizes *)
  written : gmap string Z;
  (** events emitted on the SDK, oldest first *)
  emitted : list Event;
  (** calls of the caller's [onProgress], oldest first *)
  progressCalls : list ProgressCall;
}.

Definition setRateLimiter (x : RateLimiter.State) (st : State) : State :=
  {| sdkConfig := sdkConfig st;
     rateLimiter := x;
     circuitBreaker := circuitBreaker st;
     errorHandler := errorHandler st;
     memoryManager := memoryManager st;
     clock := clock st;
     netCalls := netCalls st;
     opCounter := opCounter st;
     written := written st;
     emitted := emitted st;
     progressCalls := progressCalls st |}.
Definition setCircuitBreaker (x : CircuitBreaker.State) (st : State) : State :=
  {| sdkConfig := sdkConfig st;
     rateLimiter := rateLimiter st;
     circuitBreaker := x;
     errorHandler := errorHandler st;
     memoryManager := memoryManager st;
     clock := clock st;
     netCalls := netCalls st;
     opCounter := opCounter st;
     written := written st;
     emitted := emitted st;
     progressCalls := progressCalls st |}.
Definition setErrorHandler (x : ErrorHandler.Metrics) (st : State) : State :=
  {| sdkConfig := sdkConfig st;
     rateLimiter := rateLimiter st;
     circuitBreaker := circuitBreaker st;
     errorHandler := x;
     memoryManager := memoryManager st;
     clock := clock st;
     netCalls := netCalls st;
     opCounter := opCounter st;
     written := written st;
     emitted := emitted st;
     progressCalls := progressCalls st |}.
Definition setMemoryManager (x : MemoryManager.State) (st : State) : State :=
  {| sdkConfig := sdkConfig st;
     rateLimiter := rateLimiter st;
     circuitBreaker := circuitBreaker st;
     errorHandler := errorHandler st;
     memoryManager := x;
     clock := clock st;
     netCalls := netCalls st;
     opCounter := opCounter st;
     written := written st;
     emitted := emitted st;
     progressCalls := progressCalls st |}.
Definition setClock (x : Z) (st : State) : State :=
  {| sdkConfig := sdkConfig st;
     rateLimiter := rateLimiter st;
     circuitBreaker := circuitBreaker st;
     errorHandler := errorHandler st;
     memoryManager := memoryManager st;
     clock := x;
     netCalls := netCalls st;
     opCounter := opCounter st;
     written := written st;
     emitted := emitted st;
     progressCalls := progressCalls st |}.
Definition setNetCalls (x : nat) (st : State) : State :=
  {| sdkConfig := sdkConfig st;
     rateLimiter := rateLimiter st;
     circuitBreaker := circuitBreaker st;
     errorHandler := errorHandler st;
     memoryManager := memoryManager st;
     clock := clock st;
     netCalls := x;
     opCounter := opCounter st;
     written := written st;
     emitted := emitted st;
     progressCalls := progressCalls st |}.
Definition setOpCounter (x : nat) (st : State) : State :=
  {| sdkConfig := sdkConfig st;
     rateLimiter := rateLimiter st;
     circuitBreaker := circuitBreaker st;
     errorHandler := errorHandler st;
     memoryManager := memoryManager st;
     clock := clock st;
     netCalls := netCalls st;
     opCounter := x;
     written := written st;
     emitted := emitted st;
     progressCalls := progressCalls st |}.
Definition setWritten (x : gmap string Z) (st : State) : State :=
  {| sdkConfig := sdkConfig st;
     rateLimiter := rateLimiter st;
     circuitBreaker := circuitBreaker st;
     errorHandler := errorHandler st;
     memoryManager := memoryManager st;
     clock := clock st;
     netCalls := netCalls st;
     opCounter := opCounter st;
     written := x;
     emitted := emitted st;
     progressCalls := progressCalls st |}.
Definition setEmitted (x : list Event) (st : State) : State :=
  {| sdkConfig := sdkConfig st;
     rateLimiter := rateLimiter st;
     circuitBreaker := circuitBreaker st;
     errorHandler := errorHandler st;
     memoryManager := memoryManager st;
     clock := clock st;
     netCalls := netCalls st;
     opCounter := opCounter st;
     written := written st;
     emitted := x;
     progressCalls := progressCalls st |}.
Definition setProgressCalls (x : list ProgressCall) (st : State) : State :=
  {| sdkConfig := sdkConfig st;
     rateLimiter := rateLimiter st;
     circuitBreaker := circuitBreaker st;
     errorHandler := errorHandler st;
     memoryManager := memoryManager st;
     clock := clock st;
     netCalls := netCalls st;
     opCounter := opCounter st;
     written := written st;
     emitted := emitted st;
     progressCalls := x |}.

Definition emit (e : Event) (st : State) : State :=
  setEmitted (emitted st ++ [e]) st.

Definition emitAll (es : list Event) (st : State) : State :=
  setEmitted (emitted st ++ es) st.

Definition sleep (ms : Z) (st : State) : State :=
  setClock (clock st + ms) st.

(** The configuration of the memory manager, as the constructor sets it:
    512MB, thresholds 0.8 and 0.9. *)
Definition memoryConfig : MemoryManager.Config :=
  {| MemoryManager.maxMemory := 512 * 1024 * 1024;
     MemoryManager.backpressureThreshold := 8 # 10;
     MemoryManager.cleanupThreshold := 9 # 10 |}.

(** [config.maxRetries || 3]: an omitted or zero setting gives 3. *)
Definition retryConfig (d : Defaults) (c : LighthouseConfig) : ErrorHandler.Config :=
  {| ErrorHandler.maxRetries :=
       match cfg_maxRetries c with
       | Some (S n) => S n
       | _ => 3%nat
       end;
     ErrorHandler.timeout :=
       match cfg_timeout c with
       | Some t => if t =? 0 then 30000 else t
       | None => 30000
       end;
     ErrorHandler.baseDelay := retryBaseDelay d;
     ErrorHandler.maxDelay := retryMaxDelay d |}.

(** [new LighthouseAISDK(config)] at time [t0]. *)
Definition create (c : LighthouseConfig) (t0 : Z) : State :=
  {| sdkConfig := c;
     rateLimiter := RateLimiter.create 10 1 1000 t0;
     circuitBreaker := CircuitBreaker.create;
     errorHandler := ErrorHandler.create;
     memoryManager := MemoryManager.create;
     clock := t0;
     netCalls := 0;
     opCounter := 0;
     written := ∅;
     emitted := [];
     progressCalls := [] |}.

(** Modelled from the spec: utils/helpers.ts is missing;
    [generateOperationId()] returns an id it has not returned before. *)
Definition generateOperationId (st : State) : string * State :=
  ("op_" +:+ pretty (opCounter st), setOpCounter (S (opCounter st)) st).

(** Modelled from the spec: utils/helpers.ts is missing; [validateFile]
    is the "file-size/validate-before-transfer probe": it returns the
    file's stats, and throws when the path is not a readable file. *)
Definition validateFile (w : World) (filePath : string) : outcome FileStat :=
  match fsStat w filePath with
  | Some stats =>
      if isFile stats then Return stats
      else Throw (newError ("Path is not a file: " +:+ filePath))
  | None => Throw (newError ("File not found: " +:+ filePath))
  end.

(** Modelled from the spec: the missing [CircuitBreaker.execute] on the
    SDK's own breaker, [this.circuitBreaker.execute(operation,
    operationName)]: entry, the operation, exit; the breaker's
    transitions are forwarded as SDK events, as the constructor wires
    them. *)
Definition breakerExecute {A : Type} (d : Defaults)
    (operation : State -> outcome A * State) (operationName : string)
    (st : State) : outcome A * State :=
  match CircuitBreaker.enter (breakerConfig d) (clock st) (circuitBreaker st) with
  | (CircuitBreaker.Rejected, cb) =>
      (Throw (CircuitBreaker.circuitOpenError operationName),
       emit (CircuitBlocked operationName) (setCircuitBreaker cb st))
  | (CircuitBreaker.LetThrough probe, cb) =>
      match operation (setCircuitBreaker cb st) with
      | (r, st') =>
          let before := circuitBreaker st' in
          let after := CircuitBreaker.leave (breakerConfig d) (clock st') probe
                         (isReturn r) before in
          (r,
           emitAll
             (match CircuitBreaker.state before, CircuitBreaker.state after with
              | CircuitBreaker.CLOSED, CircuitBreaker.OPEN
              | CircuitBreaker.HALF_OPEN, CircuitBreaker.OPEN => [CircuitOpen]
              | CircuitBreaker.HALF_OPEN, CircuitBreaker.CLOSED => [CircuitClosed]
              | _, _ => []
              end)
             (setCircuitBreaker after st'))
      end
  end.

(** [executeWithRateLimit(operation, operationName)]:
    [await this.rateLimiter.acquire()] and then
    [this.circuitBreaker.execute(operation, operationName)]. *)
Definition executeWithRateLimit {A : Type} (d : Defaults)
    (operation : State -> outcome A * State) (operationName : string)
    (st : State) : outcome A * State :=
  match RateLimiter.acquire (clock st) (rateLimiter st) with
  | (resume, rl) =>
      breakerExecute d operation operationName (setClock resume (setRateLimiter rl st))
  end.

(** Modelled from the spec: the retry loop of the missing
    [ErrorHandler.executeWithRetry]; [attempt] counts the retries made so
    far and [fuel] bounds those left. *)
Fixpoint retryLoop {A : Type} (rc : ErrorHandler.Config) (net : Remote)
    (label : string) (fuel attempt : nat)
    (fn : State -> outcome A * State) (st : State) : outcome A * State :=
  match fn (setErrorHandler (ErrorHandler.countAttempt (errorHandler st)) st) with
  | (Return a, st') =>
      (Return a, setErrorHandler (ErrorHandler.countSuccess (errorHandler st')) st')
  | (Throw e, st') =>
      if isRetryable net e then
        match fuel with
        | S fuel' =>
            retryLoop rc net label fuel' (S attempt) fn
              (sleep (ErrorHandler.backoff rc attempt) (emit (Retry label (S attempt)) st'))
        | O =>
            (Throw {| message := message e; attemptCount := Some (S attempt) |},
             emit (ErrorEvent (message e))
               (setErrorHandler (ErrorHandler.countFailure (errorHandler st')) st'))
        end
      else
        (Throw e,
         emit (ErrorEvent (message e))
           (setErrorHandler (ErrorHandler.countFailure (errorHandler st')) st'))
  end.

(** Modelled from the spec: the missing
    [ErrorHandler.executeWithRetry(fn, label)].  "Retryable errors: retry
    up to maxRetries with exponential backoff; fatal errors: surfaced
    immediately, no retry; exhausting retries surfaces the last error,
    tagged with attempt count."  The handler is constructed from
    [maxRetries] and [timeout] alone. *)
Definition executeWithRetry {A : Type} (d : Defaults) (net : Remote)
    (fn : State -> outcome A * State) (label : string) (st : State)
  : outcome A * State :=
  let rc := retryConfig d (sdkConfig st) in
  retryLoop rc net label (ErrorHandler.maxRetries rc) 0 fn st.

(** [UploadOptions], the fields [uploadFile] reads. *)
Record UploadOptions : Type := mkUploadOptions {
  uo_fileName : option string;
  uo_mimeType : option string;
  uo_encrypt : option bool;
  uo_accessConditions : option (list AccessCondition);
}.

(** [o || dflt] for an optional string. *)
Definition strOr (o : option string) (dflt : string) : string :=
  match o with
  | Some s => if String.eqb s "" then dflt else s
  | None => dflt
  end.

(** One network call: the oracle is consulted at the current call index
    and the clock advances by the call's latency. *)
Definition remoteCall {A : Type} (net : Remote) (call : nat -> outcome A) (st : State)
  : outcome A * State :=
  (call (netCalls st),
   sleep (latency net (netCalls st)) (setNetCalls (S (netCalls st)) st)).

(** The check of the upload response and the [FileInfo] built from it. *)
Definition uploadedInfo (filePath : string) (options : UploadOptions)
    (stats : FileStat) (response : option string) (st : State) : outcome FileInfo :=
  match response with
  | None => Throw (newError "Invalid upload response from Lighthouse")
  | Some h =>
      if String.eqb h "" then Throw (newError "Invalid upload response from Lighthouse")
      else
        Return {| hash := h;
                  name := strOr (uo_fileName options) (popOr filePath "unknown");
                  size := st_size stats;
                  encrypted := orDefault (uo_encrypt options) false;
                  mimeType := strOr (uo_mimeType options) "application/octet-stream";
                  uploadedAt := clock st |}
  end.

(** The function [uploadFile] hands to [executeWithRetry]: one upload
    attempt.  Error texts are given by their first line.  When the
    direct API fallback succeeds, its response is assigned and control
    leaves the [if] for the [throw error] that ends the handler: the
    attempt fails with the error of the first call. *)
Definition uploadAttempt (w : World) (net : Remote) (filePath : string)
    (options : UploadOptions) (st : State) : outcome FileInfo * State :=
  match validateFile w filePath with
  | Throw e => (Throw e, st)
  | Return stats =>
      match remoteCall net (fun n => uploadBuffer net n filePath) st with
      | (Return response, st1) => (uploadedInfo filePath options stats response st1, st1)
      | (Throw err, st1) =>
          let errorMessage := message err in
          if includes "ETIMEDOUT" errorMessage || includes "timeout" errorMessage
             || includes "ENOTFOUND" errorMessage || includes "ECONNREFUSED" errorMessage
          then
            match remoteCall net (fun n => directUpload net n filePath) st1 with
            | (Return _, st2) => (Throw err, st2)
            | (Throw fallbackError, st2) =>
                (Throw (newError ("Upload failed with both methods: Primary error: "
                                  +:+ errorMessage +:+ " Fallback error: "
                                  +:+ message fallbackError)), st2)
            end
          else if includes "401" errorMessage || includes "unauthorized" errorMessage
          then (Throw (newError "Authentication failed. Please check:"), st1)
          else if includes "413" errorMessage || includes "too large" errorMessage
          then (Throw (newError "File too large"), st1)
          else if includes "429" errorMessage || includes "rate limit" errorMessage
          then (Throw (newError
                  "Rate limit exceeded. Please wait a moment before trying again."), st1)
          else (Throw err, st1)
      end
  end.

(** [uploadFile(filePath, options)]:
    [executeWithRateLimit(() => errorHandler.executeWithRetry(attempt,
    "upload"), "uploadFile")]. *)
Definition uploadFile (w : World) (d : Defaults) (net : Remote)
    (filePath : string) (options : UploadOptions) (st : State)
  : outcome FileInfo * State :=
  match generateOperationId st with
  | (_, st0) =>
      executeWithRateLimit d
        (fun s => executeWithRetry d net (uploadAttempt w net filePath options) "upload" s)
        "uploadFile" st0
  end.

(** The [catch] of a download attempt: the error it re-throws. *)
Definition downloadError (cid outputPath : string) (err : Error) : Error :=
  let errorMessage := message err in
  if includes "ENOTFOUND" errorMessage || includes "ECONNREFUSED" errorMessage
     || includes "ETIMEDOUT" errorMessage
  then newError ("Network error downloading file: " +:+ errorMessage +:+ ".")
  else if includes "404" errorMessage || includes "not found" errorMessage
  then newError ("File not found: CID " +:+ cid
                 +:+ " does not exist or is not accessible.")
  else if includes "EACCES" errorMessage || includes "permission" errorMessage
  then newError ("Permission denied: Cannot write to " +:+ outputPath)
  else err.

(** The [try] of a download attempt. *)
Definition downloadTry (net : Remote) (cid outputPath : string) (st : State)
  : outcome string * State :=
  if String.eqb cid "" then
    (Throw (newError "Invalid CID: CID is required and must be a string"), st)
  else if negb (String.prefix "Qm" cid || String.prefix "baf" cid
                || String.prefix "bafy" cid)
          && negb (String.prefix "test_" cid)
  then (Throw (newError ("Invalid CID format: " +:+ cid
                         +:+ ". Expected CIDv0 (Qm...) or CIDv1 (baf...)")), st)
  else
    match remoteCall net (fun n => gatewayGet net n cid) st with
    | (Throw err, st1) => (Throw err, st1)
    | (Return response, st1) =>
        if negb (status response =? 200) then
          if status response =? 404
          then (Throw (newError ("File not found: CID " +:+ cid
                                 +:+ " does not exist on the network")), st1)
          else (Throw (newError ("Download failed with status "
                                 +:+ pretty (status response) +:+ ": "
                                 +:+ statusText response)), st1)
        else
          match body response with
          | Throw err => (Throw err, st1)
          | Return bytes =>
              if bytes =? 0
              then (Throw (newError "Downloaded file is empty"), st1)
              else (Return outputPath,
                    setWritten (<[outputPath := bytes]> (written st1)) st1)
          end
    end.

(** One download attempt. *)
Definition downloadAttempt (net : Remote) (cid outputPath : string) (st : State)
  : outcome string * State :=
  match downloadTry net cid outputPath st with
  | (Return p, st') => (Return p, st')
  | (Throw err, st') => (Throw (downloadError cid outputPath err), st')
  end.

(** [downloadFile(cid, outputPath, options)] *)
Definition downloadFile (d : Defaults) (net : Remote)
    (cid outputPath : string) (st : State) : outcome string * State :=
  match generateOperationId st with
  | (_, st0) =>
      executeWithRateLimit d
        (fun s => executeWithRetry d net (downloadAttempt net cid outputPath) "download" s)
        "downloadFile" st0
  end.

(** [BatchUploadInput] *)
Record BatchUploadInput : Type := mkBatchUploadInput {
  filePath : string;
  fileName : option string;
}.

(** [BatchDownloadInput] *)
Record BatchDownloadInput : Type := mkBatchDownloadInput {
  cid : string;
  outputFileName : option string;
  expectedSize : option Z;
}.

(** What a batch worker keeps across its wait for the transfer. *)
Record InFlight (I : Type) : Type := mkInFlight {
  memoryId : string;
  input : I;
}.
Arguments mkInFlight {I}.
Arguments memoryId {I}.
Arguments input {I}.

(** The backpressure check at the head of both batch workers. *)
Definition awaitRelief (operationId : string) (st : State) : State :=
  if MemoryManager.isUnderBackpressure (memoryManager st) then
    emit (BatchBackpressure operationId false)
      (sleep (MemoryManager.waitForRelief 30000 (memoryManager st))
         (emit (BatchBackpressure operationId true) st))
  else st.

(** [this.memoryManager.track(id, size, ...)] with its events forwarded. *)
Definition track (id : string) (sizeBytes : Z) (st : State) : State :=
  match MemoryManager.track memoryConfig id sizeBytes (memoryManager st) with
  | (mm, evs) => emitAll (map MemoryEvent evs) (setMemoryManager mm st)
  end.

(** [this.memoryManager.untrack(id)] with its events forwarded. *)
Definition untrack (id : string) (st : State) : State :=
  match MemoryManager.untrack memoryConfig id (memoryManager st) with
  | (mm, evs) => emitAll (map MemoryEvent evs) (setMemoryManager mm st)
  end.

(** The upload worker of [batchUpload] up to [await this.uploadFile]:
    backpressure check, [validateFile], [track]. *)
Definition uploadWorkerBegin (w : World) (operationId : string)
    (inp : BatchUploadInput) (st : State)
  : (Error + InFlight BatchUploadInput) * State :=
  let st1 := awaitRelief operationId st in
  match validateFile w (filePath inp) with
  | Throw e => (inl e, st1)
  | Return fileStats =>
      let memId := "upload_" +:+ operationId +:+ "_" +:+ filePath inp in
      (inr {| memoryId := memId; input := inp |}, track memId (st_size fileStats) st1)
  end.

(** The rest of the upload worker: the transfer, and [untrack] in the
    [finally]. *)
Definition uploadWorkerFinish (w : World) (d : Defaults) (net : Remote)
    (options : BatchUploadOptions) (t : InFlight BatchUploadInput) (st : State)
  : outcome FileInfo * State :=
  match uploadFile w d net (filePath (input t))
          {| uo_fileName := fileName (input t);
             uo_mimeType := None;
             uo_encrypt := encrypt options;
             uo_accessConditions := accessConditions options |} st with
  | (r, st') => (r, untrack (memoryId t) st')
  end.

(** The [onProgress] the SDK gives the processor:
    [failedCount = total - completed], the progress event, and the
    caller's callback with [(completedCount, files.length, failedCount)]. *)
Definition progressCallback (k : TransferKind) (operationId : string)
    (files : nat) (userCallback : bool) (completed total : nat) (st : State) : State :=
  let completedCount := Z.of_nat completed in
  let failedCount := Z.of_nat total - Z.of_nat completed in
  let st1 := emit (BatchProgress k operationId completedCount (Z.of_nat files) failedCount) st in
  if userCallback
  then setProgressCalls
         (progressCalls st1 ++ [(completedCount, Z.of_nat files, failedCount)]) st1
  else st1.

(** [batchResults.map((br) => ({ id, success, data, error, duration,
    retries }))] *)
Definition toFileResult {T : Type} (br : BatchProcessor.BatchResult T) : BatchFileResult T :=
  {| id := BatchProcessor.br_id br;
     success := BatchProcessor.br_success br;
     data := BatchProcessor.br_result br;
     error := message <$> BatchProcessor.br_error br;
     duration := BatchProcessor.br_duration br;
     retries := BatchProcessor.br_retries br |}.

(** The aggregate both SDK batch methods build; [n] is [files.length]. *)
Definition operationResult {T : Type} (n : nat) (totalDuration : Z)
    (results : list (BatchFileResult T)) : BatchOperationResult T :=
  let successful := countSuccess results in
  let failed := countFailed results in
  {| total := n;
     successful := successful;
     failed := failed;
     results := results;
     totalDuration := totalDuration;
     averageDuration := div (inject_Z totalDuration) (inject_Z (Z.of_nat n));
     successRate :=
       if (0 <? n)%nat
       then div (inject_Z (Z.of_nat successful)) (inject_Z (Z.of_nat n))
       else ofZ 0 |}.

(** The processor options both batch methods construct. *)
Definition processorConfig (k : TransferKind) (operationId : string) (files : nat)
    (concurrency : option number) (continueOnError : option bool)
    (maxRetries : option nat) (userCallback : bool) : BatchProcessor.Config State :=
  {| BatchProcessor.concurrency := orDefault concurrency (ofZ 3);
     BatchProcessor.retryOnFailure := orDefault continueOnError true;
     BatchProcessor.maxRetries := orDefault maxRetries 3%nat;
     BatchProcessor.continueOnError := None;
     BatchProcessor.onProgress := progressCallback k operationId files userCallback |}.

(** [batchUpload(files, options)].  [pick] is the order in which the
    transfers in flight settle. *)
Definition batchUpload (w : World) (d : Defaults) (net : Remote) (pick : nat -> nat)
    (files : list BatchUploadInput) (options : BatchUploadOptions) (st : State)
  : outcome (BatchOperationResult FileInfo) * State :=
  match generateOperationId st with
  | (operationId, st0) =>
      let startTime := clock st0 in
      let st1 := emit (BatchStart Upload operationId (length files)) st0 in
      let operations :=
        imap (fun index file =>
                {| BatchProcessor.op_id :=
                     "upload_" +:+ pretty index +:+ "_" +:+ filePath file;
                   BatchProcessor.op_data := file |}) files in
      match BatchProcessor.addBatch clock
              (uploadWorkerBegin w operationId)
              (uploadWorkerFinish w d net options)
              (processorConfig Upload operationId (length files)
                 (concurrency options) (continueOnError options)
                 (maxRetries options) (onProgress options))
              pick operations st1 with
      | (Return batchResults, st2) =>
          let res := operationResult (length files) (clock st2 - startTime)
                       (map toFileResult batchResults) in
          (Return res,
           emit (BatchComplete Upload operationId (total res) (successful res) (failed res)) st2)
      | (Throw err, st2) =>
          (Throw err, emit (BatchError Upload operationId (message err)) st2)
      end
  end.

(** [fsPromises.stat(path)] after a download: the size of the file the
    download wrote, or of a file already there. *)
Definition statSize (w : World) (path : string) (st : State) : outcome Z :=
  match written st !! path with
  | Some bytes => Return bytes
  | None =>
      match fsStat w path with
      | Some stats => Return (st_size stats)
      | None => Throw (newError ("ENOENT: no such file or directory, stat '"
                                 +:+ path +:+ "'"))
      end
  end.

(** The download worker up to [await this.downloadFile]: backpressure
    check and [track] of the expected size (10MB when not given). *)
Definition downloadWorkerBegin (operationId : string)
    (inp : BatchDownloadInput) (st : State)
  : (Error + InFlight BatchDownloadInput) * State :=
  let st1 := awaitRelief operationId st in
  let size := orDefault (expectedSize inp) (10 * 1024 * 1024) in
  let memId := "download_" +:+ operationId +:+ "_" +:+ cid inp in
  (inr {| memoryId := memId; input := inp |}, track memId size st1).

(** The rest of the download worker. *)
Definition downloadWorkerFinish (w : World) (d : Defaults) (net : Remote)
    (options : BatchDownloadOptions) (t : InFlight BatchDownloadInput) (st : State)
  : outcome BatchDownloadFileResult * State :=
  let fileName := orDefault (outputFileName (input t)) ("downloaded_" +:+ cid (input t)) in
  let outputPath := orDefault (outputDir options) "./downloads" +:+ "/" +:+ fileName in
  match downloadFile d net (cid (input t)) outputPath st with
  | (Throw e, st') => (Throw e, untrack (memoryId t) st')
  | (Return path, st') =>
      match statSize w path st' with
      | Throw e => (Throw e, untrack (memoryId t) st')
      | Return bytes =>
          (Return {| dl_cid := cid (input t);
                     dl_filePath := path;
                     dl_size := bytes;
                     dl_decrypted := orDefault (decrypt options) false |},
           untrack (memoryId t) st')
      end
  end.

(** [batchDownload(files, options)] *)
Definition batchDownload (w : World) (d : Defaults) (net : Remote) (pick : nat -> nat)
    (files : list BatchDownloadInput) (options : BatchDownloadOptions) (st : State)
  : outcome (BatchOperationResult BatchDownloadFileResult) * State :=
  match generateOperationId st with
  | (operationId, st0) =>
      let startTime := clock st0 in
      let st1 := emit (BatchStart Download operationId (length files)) st0 in
      let operations :=
        imap (fun index file =>
                {| BatchProcessor.op_id :=
                     "download_" +:+ pretty index +:+ "_" +:+ cid file;
                   BatchProcessor.op_data := file |}) files in
      match BatchProcessor.addBatch clock
              (downloadWorkerBegin operationId)
              (downloadWorkerFinish w d net options)
              (processorConfig Download operationId (length files)
                 (d_concurrency options) (d_continueOnError options)
                 (d_maxRetries options) (d_onProgress options))
              pick operations st1 with
      | (Return batchResults, st2) =>
          let res := operationResult (length files) (clock st2 - startTime)
                       (map toFileResult batchResults) in
          (Return res,
           emit (BatchComplete Download operationId (total res) (successful res) (failed res)) st2)
      | (Throw err, st2) =>
          (Throw err, emit (BatchError Download operationId (message err)) st2)
      end
  end.

End Sdk.

(* ===================================================================== *)
(** * ConnectionPool                                                       *)
(* ===================================================================== *)

Module ConnectionPool.

(** Modelled from the spec: the [ConnectionPoolConfig] of the missing
    pool/ConnectionPool.ts, as far as [acquire] depends on it. *)
Record Config : Type := mkConfig {
  maxConnections : nat;
  acquireTimeout : Z;
}.

(** Modelled from the spec: a connection of the missing [ConnectionPool].
    "Each Connection has identity, idle/active status, creation time." *)
Record Connection : Type := mkConnection {
  conn_id : nat;
  createdAt : Z;
  isActive : bool;
}.

(** Modelled from the spec: an entry of the wait queue of the missing
    [ConnectionPool], "each entry carries a deadline (acquire
    timeout)". *)
Record Waiter : Type := mkWaiter {
  waiter_id : nat;
  deadline : Z;
}.

(** Modelled from the spec: the "lifecycle events (create, acquire,
    release, queue)" of the missing [ConnectionPool], and its warning. *)
Inductive Event : Type :=
| Create (c : nat)
| Acquire (c : nat)
| Release (c : nat)
| Queue (waiter : nat)
| Warn (msg : string).

(** Modelled from the spec: packages/sdk-wrapper/src/pool/ConnectionPool.ts
    is missing (its test file is there).  The pool owns its connections
    and a FIFO wait queue, oldest first; [settled] holds the promises of
    queued [acquire()] calls that have been resolved with a connection or
    rejected. *)
Record State : Type := mkState {
  config : Config;
  connections : list Connection;
  queue : list Waiter;
  settled : gmap nat (Js.outcome nat);
  nextId : nat;
  totalRequests : nat;
  events : list Event;
}.

(** Modelled from the spec: [new ConnectionPool(config)] of the missing
    class; the pool starts empty ("created lazily"). *)
Definition create (cfg : Config) : State :=
  {| config := cfg; connections := []; queue := []; settled := ∅;
     nextId := 0; totalRequests := 0; events := [] |}.

(** Modelled from the spec: [pool.size] of the missing [ConnectionPool],
    the total number of connections. *)
Definition size (p : State) : nat := length (connections p).

(** Modelled from the spec: [pool.activeCount] of the missing
    [ConnectionPool]. *)
Definition activeCount (p : State) : nat :=
  length (List.filter isActive (connections p)).

(** Modelled from the spec: the idle count of the missing
    [ConnectionPool]. *)
Definition idleCount (p : State) : nat :=
  length (List.filter (fun c => negb (isActive c)) (connections p)).

(** Modelled from the spec: [pool.queueSize] of the missing
    [ConnectionPool]. *)
Definition queueSize (p : State) : nat := length (queue p).

(** Modelled from the spec: for the missing [ConnectionPool.acquire],
    the first idle connection, if any. *)
Definition firstIdle (cs : list Connection) : option Connection :=
  List.find (fun c => negb (isActive c)) cs.

(** Modelled from the spec: the missing [ConnectionPool] sets the status
    of the connection with identity [i]. *)
Definition setActive (i : nat) (b : bool) (cs : list Connection) : list Connection :=
  map (fun c => if (conn_id c =? i)%nat
                then {| conn_id := conn_id c; createdAt := createdAt c; isActive := b |}
                else c) cs.


(** Modelled from the spec: what the missing [ConnectionPool.acquire]
    gives back at once: a connection, a promise that stays pending in
    the wait queue, or a rejection. *)
Inductive Acquired : Type :=
| Connected (c : nat)
| Waiting (waiter : nat)
| Refused (e : Js.Error).

(** Modelled from the spec: the timeout error of the missing
    [ConnectionPool.acquire]; its text is the one ConnectionPool.test.ts
    expects. *)
Definition timeoutError : Js.Error := Js.newError "Connection acquire timeout".

(** Modelled from the spec: the "pool destroyed" error of the missing
    [ConnectionPool.destroy]; its text is the one ConnectionPool.test.ts
    expects. *)
Definition destroyedError : Js.Error := Js.newError "Connection pool destroyed".

(** Modelled from the spec: the missing [ConnectionPool.acquire].
    "acquire(timeout): returns an idle connection
    if one exists; otherwise creates a new one if total < max; otherwise
    enqueues the request and waits up to timeout"; and "acquiring with
    maxConnections=0 must immediately time out": such a pool rejects the
    request at once with the timeout error and queues nothing. *)
Definition acquire (now : Z) (p : State) : Acquired * State :=
  if (maxConnections (config p) =? 0)%nat then
    (Refused timeoutError,
     {| config := config p; connections := connections p; queue := queue p;
        settled := settled p; nextId := nextId p;
        totalRequests := S (totalRequests p); events := events p |})
  else
  match firstIdle (connections p) with
  | Some c =>
      (Connected (conn_id c),
       {| config := config p;
          connections := setActive (conn_id c) true (connections p);
          queue := queue p; settled := settled p; nextId := nextId p;
          totalRequests := S (totalRequests p);
          events := events p ++ [Acquire (conn_id c)] |})
  | None =>
      if (length (connections p) <? maxConnections (config p))%nat then
        (Connected (nextId p),
         {| config := config p;
            connections := connections p ++
                           [ {| conn_id := nextId p; createdAt := now; isActive := true |} ];
            queue := queue p; settled := settled p; nextId := S (nextId p);
            totalRequests := S (totalRequests p);
            events := events p ++ [Create (nextId p); Acquire (nextId p)] |})
      else
        (Waiting (nextId p),
         {| config := config p;
            connections := connections p;
            queue := queue p ++
                     [ {| waiter_id := nextId p;
                          deadline := now + acquireTimeout (config p) |} ];
            settled := settled p; nextId := S (nextId p);
            totalRequests := S (totalRequests p);
            events := events p ++ [Queue (nextId p)] |})
  end.




(** Modelled from the spec: the missing [ConnectionPool.destroy].
    "destroy(): clears all idle/active
    bookkeeping and rejects every queued waiter with a pool destroyed
    error". *)
Definition destroy (p : State) : State :=
  {| config := config p; connections := []; queue := [];
     settled := fold_left (fun m x => <[waiter_id x := Js.Throw destroyedError]> m)
                          (queue p) (settled p);
     nextId := nextId p; totalRequests := totalRequests p; events := events p |}.

End ConnectionPool.

(* ===================================================================== *)
(** * Requests that differ in one argument                                 *)
(* ===================================================================== *)

Module Requests.
Import Js Types Env.

(** The upload request [params] with its [concurrency] argument set to
    [c] ([VUndefined]: left out). *)
Definition uploadWithConcurrency (c : value) (params : Tools.BatchUploadParams)
  : Tools.BatchUploadParams :=
  {| Tools.u_apiKey := Tools.u_apiKey params;
     Tools.u_filePaths := Tools.u_filePaths params;
     Tools.u_concurrency := c;
     Tools.u_encrypt := Tools.u_encrypt params;
     Tools.u_accessConditions := Tools.u_accessConditions params;
     Tools.u_tags := Tools.u_tags params;
     Tools.u_continueOnError := Tools.u_continueOnError params |}.

Definition downloadWithConcurrency (c : value) (params : Tools.BatchDownloadParams)
  : Tools.BatchDownloadParams :=
  {| Tools.b_apiKey := Tools.b_apiKey params;
     Tools.b_cids := Tools.b_cids params;
     Tools.b_outputDir := Tools.b_outputDir params;
     Tools.b_concurrency := c;
     Tools.b_decrypt := Tools.b_decrypt params;
     Tools.b_continueOnError := Tools.b_continueOnError params |}.

(** The tool refused the request for its concurrency: no data, and the
    validation error as the error text. *)
Definition refusedForConcurrency {I : Type} (r : Tools.ToolResult I) : Prop :=
  Tools.tr_success r = false /\
  Tools.tr_data r = None /\
  Tools.tr_error r
  = Some "Invalid parameters: concurrency must be a number between 1 and 10"%string.

(** The file paths and the CIDs of a request, as [execute] hands them
    to the service. *)
Definition filePathsOf (params : Tools.BatchUploadParams) : list string :=
  Tools.stringsOf (default [] (Tools.asArray (Tools.u_filePaths params))).

Definition cidsOf (params : Tools.BatchDownloadParams) : list string :=
  Tools.stringsOf (default [] (Tools.asArray (Tools.b_cids params))).

(** The tool answered from the outcome [call] of one call to the
    service: the service is left as that call left it; a returned batch
    result is reported item by item, with success when nothing failed;
    a thrown error is reported after the text [failure]. *)
Definition answeredFrom {S T I : Type} (item : BatchFileResult T -> I) (failure : string)
    (call : outcome (BatchOperationResult T) * S) (res : Tools.ToolResult I * S) : Prop :=
  snd res = snd call /\
  match fst call with
  | Return result =>
      Tools.tr_success (fst res) = (failed result =? 0)%nat /\
      Tools.tr_error (fst res) = None /\
      Tools.rd_results <$> Tools.tr_data (fst res) = Some (map item (results result))
  | Throw err =>
      Tools.tr_success (fst res) = false /\
      Tools.tr_data (fst res) = None /\
      Tools.tr_error (fst res) = Some (failure +:+ message err)
  end.

(** A call as a service receives it. *)
Inductive Received : Type :=
| UploadCall (filePaths : list string) (options : option BatchUploadOptions)
| DownloadCall (cids : list string) (options : option BatchDownloadOptions).

(** A service that does nothing but record the calls it receives, in
    order, and answer each with an empty batch result. *)
Definition recorder : Tools.Service (list Received) :=
  {| Tools.now := fun _ => 0;
     Tools.batchUploadFiles :=
       Some (fun filePaths options calls =>
               (Return (Mock.summarize 0 0 0 []), calls ++ [UploadCall filePaths options]));
     Tools.batchDownloadFiles :=
       Some (fun cids options calls =>
               (Return (Mock.summarize 0 0 0 []), calls ++ [DownloadCall cids options])) |}.

(** An upload request for one existing file. *)
Definition oneFile (c : value) : Tools.BatchUploadParams :=
  {| Tools.u_apiKey := VUndefined;
     Tools.u_filePaths := VArray [VString "/data/a.txt"];
     Tools.u_concurrency := c;
     Tools.u_encrypt := VUndefined;
     Tools.u_accessConditions := VUndefined;
     Tools.u_tags := VUndefined;
     Tools.u_continueOnError := VUndefined |}.

(** A download request for one well-formed CID. *)
Definition oneCid (c : value) : Tools.BatchDownloadParams :=
  {| Tools.b_apiKey := VUndefined;
     Tools.b_cids := VArray [VString "QmTestAAAAAAAAAAAAAAAAAAAAAAAAAAAAAA"];
     Tools.b_outputDir := VUndefined;
     Tools.b_concurrency := c;
     Tools.b_decrypt := VUndefined;
     Tools.b_continueOnError := VUndefined |}.

End Requests.

(* ===================================================================== *)
(** * What an operation leaves alone                                       *)
(* ===================================================================== *)

Module Frames.
Import Js.

(** The operation never touches the SDK's circuit breaker. *)
Definition keepsBreaker {A : Type} (fn : Sdk.State -> outcome A * Sdk.State) : Prop :=
  forall st, Sdk.circuitBreaker (snd (fn st)) = Sdk.circuitBreaker st.

(** The operation never touches the error handler's metrics. *)
Definition keepsMetrics {A : Type} (fn : Sdk.State -> outcome A * Sdk.State) : Prop :=
  forall st, Sdk.errorHandler (snd (fn st)) = Sdk.errorHandler st.

(** The operation never touches the memory manager. *)
Definition keepsMemory {A : Type} (fn : Sdk.State -> outcome A * Sdk.State) : Prop :=
  forall st, Sdk.memoryManager (snd (fn st)) = Sdk.memoryManager st.

End Frames.

(* ===================================================================== *)
(** * Concrete worlds for the examples                                     *)
(* ===================================================================== *)

Module Fixtures.
Import Js Types Env.

(** A file system with two small files and one directory. *)
Definition world : World :=
  {| fsStat := fun p =>
       if String.eqb p "/data/a.txt" then Some {| isFile := true; st_size := 10 |}
       else if String.eqb p "/data/b.txt" then Some {| isFile := true; st_size := 20 |}
       else if String.eqb p "/data" then Some {| isFile := false; st_size := 4096 |}
       else None;
     cidGenerate := fun p => "Qm" +:+ p;
     cidIsValid := fun c => String.prefix "Qm" c;
     randomDelay := fun lo _ _ => lo;
     canWrite := fun _ => true;
     canMkdir := fun _ => true;
     numberToString := fun _ => "0" |}.

Definition uploadOptions (continue : option bool) : BatchUploadOptions :=
  {| concurrency := None; encrypt := None; accessConditions := None;
     tags := None; onProgress := true; continueOnError := continue;
     maxRetries := None |}.

Definition downloadOptions (continue : option bool) : BatchDownloadOptions :=
  {| d_concurrency := None; outputDir := None; decrypt := None;
     d_onProgress := true; d_continueOnError := continue; d_maxRetries := None |}.

Definition defaults : Sdk.Defaults :=
  {| Sdk.breakerConfig :=
       {| CircuitBreaker.failureThreshold := 3; CircuitBreaker.resetTimeout := 60000 |};
     Sdk.retryBaseDelay := 1000;
     Sdk.retryMaxDelay := 30000 |}.

(** A remote end that answers every call. *)
Definition remoteUp : Sdk.Remote :=
  {| Sdk.uploadBuffer := fun _ p => Return (Some ("Qm" +:+ p));
     Sdk.directUpload := fun _ p => Return (Some ("Qm" +:+ p));
     Sdk.gatewayGet := fun _ _ =>
       Return {| Sdk.status := 200; Sdk.statusText := "OK"; Sdk.body := Return 7 |};
     Sdk.latency := fun _ => 5;
     Sdk.isRetryable := fun e => includes "socket" (message e) |}.

(** A remote end that fails every call with a retryable network error. *)
Definition remoteDown : Sdk.Remote :=
  {| Sdk.uploadBuffer := fun _ _ => Throw (newError "socket hang up");
     Sdk.directUpload := fun _ _ => Throw (newError "socket hang up");
     Sdk.gatewayGet := fun _ _ => Throw (newError "socket hang up");
     Sdk.latency := fun _ => 5;
     Sdk.isRetryable := fun e => includes "socket" (message e) |}.

Definition sdk : Sdk.State :=
  Sdk.create {| Sdk.apiKey := "key"; Sdk.cfg_timeout := None; Sdk.cfg_maxRetries := None |} 0.

Definition plainUpload : Sdk.UploadOptions :=
  {| Sdk.uo_fileName := None; Sdk.uo_mimeType := None;
     Sdk.uo_encrypt := None; Sdk.uo_accessConditions := None |}.

Definition fileA : Sdk.BatchUploadInput :=
  {| Sdk.filePath := "/data/a.txt"; Sdk.fileName := None |}.
Definition fileB : Sdk.BatchUploadInput :=
  {| Sdk.filePath := "/data/b.txt"; Sdk.fileName := None |}.
Definition fileMissing : Sdk.BatchUploadInput :=
  {| Sdk.filePath := "/nope"; Sdk.fileName := None |}.

(** Transfers settle in the order they were started. *)
Definition fifo : nat -> nat := fun _ => 0%nat.

End Fixtures.

(* ===================================================================== *)
(** * A batch that names the same file twice                               *)
(* ===================================================================== *)

Module Duplicates.
Import Js Types Env.

(** The reservations of the SDK's memory manager. *)
Definition reserved (st : Sdk.State) : gmap string Z :=
  MemoryManager.reservations (Sdk.memoryManager st).

Definition options : BatchUploadOptions := Fixtures.uploadOptions (Some false).

(** [batchUpload([{ filePath: "/data/a.txt" }, { filePath: "/data/a.txt" }],
    { continueOnError: false })] against a remote end that is down, taken
    step by step: the state in which the processor is created ... *)
Definition st0 : Sdk.State :=
  Sdk.emit (Sdk.BatchStart Sdk.Upload "op_0" 2)
    (snd (Sdk.generateOperationId Fixtures.sdk)).

Definition config : BatchProcessor.Config Sdk.State :=
  Sdk.processorConfig Sdk.Upload "op_0" 2
    (concurrency options) (continueOnError options)
    (maxRetries options) (onProgress options).

Definition operations : list (BatchProcessor.Operation Sdk.BatchUploadInput) :=
  imap (fun index file =>
          {| BatchProcessor.op_id :=
               "upload_" +:+ pretty index +:+ "_" +:+ Sdk.filePath file;
             BatchProcessor.op_data := file |}) [Fixtures.fileA; Fixtures.fileA].

Definition run0
  : BatchProcessor.Run Sdk.BatchUploadInput FileInfo (Sdk.InFlight Sdk.BatchUploadInput) :=
  {| BatchProcessor.pending := BatchProcessor.indexed 0 operations;
     BatchProcessor.active := [];
     BatchProcessor.slots := replicate 2 None;
     BatchProcessor.completed := 0;
     BatchProcessor.firstError := None |}.

(** ... the state when only the first item has been started ... *)
Definition firstStarted : Sdk.State :=
  snd (Sdk.uploadWorkerBegin Fixtures.world "op_0" Fixtures.fileA st0).

(** ... the processor fills its three slots: both items are in flight ... *)
Definition bothStarted :=
  BatchProcessor.fill Sdk.clock (Sdk.uploadWorkerBegin Fixtures.world "op_0")
    config 2 (BatchProcessor.pending run0) run0 st0.

(** ... and the transfer of the second item settles first, with an
    error. *)
Definition secondSettled :=
  BatchProcessor.settle Sdk.clock
    (Sdk.uploadWorkerBegin Fixtures.world "op_0")
    (Sdk.uploadWorkerFinish Fixtures.world Fixtures.defaults Fixtures.remoteDown options)
    config 2 1 (fst bothStarted) (snd bothStarted).

End Duplicates.

(* ===================================================================== *)
(** * A pool of one connection and a breaker with threshold three          *)
(* ===================================================================== *)

Module Scenarios.




Definition poolConfig : ConnectionPool.Config :=
  {| ConnectionPool.maxConnections := 1; ConnectionPool.acquireTimeout := 5000 |}.

(** A pool of one connection, its connection checked out at time 0 ... *)
Definition busy : ConnectionPool.State :=
  snd (ConnectionPool.acquire 0 (ConnectionPool.create poolConfig)).

(** ... a second request, made at time 100, waiting for it ... *)
Definition waiting : ConnectionPool.State :=
  snd (ConnectionPool.acquire 100 busy).




(** A memory tracker of 1000 bytes with backpressure from 80%. *)
Definition smallMemory : MemoryManager.Config :=
  {| MemoryManager.maxMemory := 1000;
     MemoryManager.backpressureThreshold := 8 # 10;
     MemoryManager.cleanupThreshold := 9 # 10 |}.

(** Five files, the third of which does not exist. *)
Definition fiveFiles : list Sdk.BatchUploadInput :=
  [Fixtures.fileA; Fixtures.fileB; Fixtures.fileMissing; Fixtures.fileA; Fixtures.fileB].

Definition twoAtATime : Types.BatchUploadOptions :=
  {| Types.concurrency := Some (Js.ofZ 2); Types.encrypt := None;
     Types.accessConditions := None; Types.tags := None; Types.onProgress := true;
     Types.continueOnError := Some true; Types.maxRetries := None |}.

End Scenarios.

(* ===================================================================== *)
(** * What holds of a batch run at every step                              *)
(* ===================================================================== *)

Module Scheduling.
Import BatchProcessor.
Local Open Scope nat_scope.

Section Invariant.
Context {T R K : Type}.

(** The retry budget and the operations of the batch. *)
Variable budget : nat.
Variable ops : list (Operation T).

(** Item [i] is still to be run or is running. *)
Definition scheduled (run : Run T R K) (i : nat) : Prop :=
  (exists op, In (i, op) (pending run)) \/
  (exists a, In a (active run) /\ a_index a = i).

(** The bookkeeping is sound for every item but [skip] (the item that is
    being moved): one slot per operation; an empty slot belongs to an
    item that is still scheduled; a filled slot carries the id of its
    operation; queued and running items are items of the batch, and no
    running item has used more than its retry budget; no error is kept
    for re-throwing. *)
Record sound (skip : option nat) (run : Run T R K) : Prop := mkSound {
  sound_slots : length (slots run) = length ops;
  sound_empty : forall i, slots run !! i = Some None -> skip <> Some i -> scheduled run i;
  sound_filled : forall i r, slots run !! i = Some (Some r) ->
                             exists op, ops !! i = Some op /\ br_id r = op_id op;
  sound_pending : forall i op, In (i, op) (pending run) -> ops !! i = Some op;
  sound_active : forall a, In a (active run) ->
                           ops !! a_index a = Some (a_op a) /\ a_retries a <= budget;
  sound_no_error : firstError run = None;
}.

(** The work left: every queued item may still use its whole budget,
    every running item what is left of it. *)
Definition work (run : Run T R K) : nat :=
  length (pending run) * S budget +
  list_sum (map (fun a => S budget - a_retries a) (active run)).

End Invariant.

End Scheduling.

(* ===================================================================== *)
(** * MockLighthouseService: the file operations                           *)
(* ===================================================================== *)

Module MockFiles.
Import Js Types Env Mock.

(** What [pinFile] and [unpinFile] resolve to. *)
Record PinResult : Type := mkPinResult {
  pin_success : bool;
  pin_cid : string;
  pin_pinned : bool;
}.

(** [storedFile.pinned = b] *)
Definition setPinned (b : bool) (f : StoredFile) : StoredFile :=
  {| sf_cid := sf_cid f;
     sf_filePath := sf_filePath f;
     sf_size := sf_size f;
     sf_encrypted := sf_encrypted f;
     sf_accessConditions := sf_accessConditions f;
     sf_tags := sf_tags f;
     sf_uploadedAt := sf_uploadedAt f;
     sf_pinned := b |}.

(** The service with another file store. *)
Definition withFileStore (m : gmap string StoredFile) (st : State) : State :=
  {| fileStore := m;
     maxStorageSize := maxStorageSize st;
     currentStorageSize := currentStorageSize st;
     clock := clock st |}.

(** [pinFile(cid)].  The assignment goes to the object the store holds. *)
Definition pinFile (w : World) (cid : string) (st : State)
  : outcome PinResult * State :=
  if negb (cidIsValid w cid) then
    (Throw (newError ("Invalid CID format: " +:+ cid)), st)
  else
    match fileStore st !! cid with
    | None => (Throw (newError ("File not found: " +:+ cid)), st)
    | Some storedFile =>
        let st1 := simulateDelay w 50 100 st in
        (Return {| pin_success := true; pin_cid := cid; pin_pinned := true |},
         withFileStore (<[cid := setPinned true storedFile]> (fileStore st1)) st1)
    end.

(** [unpinFile(cid)] *)
Definition unpinFile (w : World) (cid : string) (st : State)
  : outcome PinResult * State :=
  match fileStore st !! cid with
  | None => (Throw (newError ("File not found: " +:+ cid)), st)
  | Some storedFile =>
      let st1 := simulateDelay w 50 100 st in
      (Return {| pin_success := true; pin_cid := cid; pin_pinned := false |},
       withFileStore (<[cid := setPinned false storedFile]> (fileStore st1)) st1)
  end.

(** [getFileInfo(cid)]; [undefined] is [None]. *)
Definition getFileInfo (cid : string) (st : State) : option StoredFile :=
  fileStore st !! cid.

(** What [getStorageStats()] returns. *)
Record StorageStats : Type := mkStorageStats {
  fileCount : nat;
  totalSize : Z;
  maxSize : Z;
  utilization : number;
}.

(** [getStorageStats()]:
    [utilization: (this.currentStorageSize / this.maxStorageSize) * 100]. *)
Definition getStorageStats (st : State) : StorageStats :=
  {| fileCount := base.size (fileStore st);
     totalSize := currentStorageSize st;
     maxSize := maxStorageSize st;
     utilization :=
       scale (div (inject_Z (currentStorageSize st)) (inject_Z (maxStorageSize st))) 100 |}.

(** [new MockLighthouseService(maxStorageSize)] started at time [t0]. *)
Definition createWith (maxStorageSize : Z) (t0 : Z) : State :=
  {| fileStore := ∅;
     maxStorageSize := maxStorageSize;
     currentStorageSize := 0;
     clock := t0 |}.

(** What a call of [uploadFile] holds while it awaits its upload delay:
    its parameters, the size it has checked against the quota, and the
    CID. *)
Record PendingUpload : Type := mkPendingUpload {
  pu_params : UploadParams;
  pu_size : Z;
  pu_cid : string;
}.

(** [uploadFile(params)] up to its [await this.simulateDelay(200, 400)]:
    the validation delay, the look at the file, the quota check and the
    CID.  Nothing is stored yet. *)
Definition uploadCheck (w : World) (params : UploadParams) (st : State)
  : outcome PendingUpload * State :=
  let st1 := simulateDelay w 50 100 st in
  match fsStat w (up_filePath params) with
  | None =>
      (Throw (newError ("File not found: " +:+ up_filePath params)), st1)
  | Some stats =>
      if currentStorageSize st1 + st_size stats >? maxStorageSize st1 then
        (Throw (newError "Storage quota exceeded"), st1)
      else
        (Return {| pu_params := params;
                   pu_size := st_size stats;
                   pu_cid := cidGenerate w (up_filePath params) |}, st1)
  end.

(** [uploadFile(params)] from that [await] on: the upload delay passes,
    the record is stored and the counter grows by the size that was
    checked, whatever the counter is by now. *)
Definition uploadCommit (w : World) (pending : PendingUpload) (st : State)
  : UploadResult * State :=
  let params := pu_params pending in
  let st2 := simulateDelay w 200 400 st in
  let storedFile :=
    {| sf_cid := pu_cid pending;
       sf_filePath := up_filePath params;
       sf_size := pu_size pending;
       sf_encrypted := orDefault (up_encrypt params) false;
       sf_accessConditions := up_accessConditions params;
       sf_tags := up_tags params;
       sf_uploadedAt := clock st2;
       sf_pinned := true |} in
  ({| ur_cid := pu_cid pending;
      ur_size := pu_size pending;
      ur_encrypted := orDefault (up_encrypt params) false;
      ur_uploadedAt := clock st2;
      ur_originalPath := up_filePath params |},
   {| fileStore := <[pu_cid pending := storedFile]> (fileStore st2);
      maxStorageSize := maxStorageSize st2;
      currentStorageSize := currentStorageSize st2 + pu_size pending;
      clock := clock st2 |}).

(** Two calls of [uploadFile] in flight at once, [a] started first: both
    reach their upload delay before either stores its file.  The result
    is [None] when one of the two throws before its upload delay. *)
Definition uploadOverlapping (w : World) (a b : UploadParams) (st : State)
  : option (UploadResult * UploadResult * State) :=
  match uploadCheck w a st with
  | (Return pendingA, st1) =>
      match uploadCheck w b st1 with
      | (Return pendingB, st2) =>
          let (resultA, st3) := uploadCommit w pendingA st2 in
          let (resultB, st4) := uploadCommit w pendingB st3 in
          Some (resultA, resultB, st4)
      | (Throw _, _) => None
      end
  | (Throw _, _) => None
  end.

End MockFiles.

(* ===================================================================== *)
(** * Invariants and sample runs of the mock service                       *)
(* ===================================================================== *)

Module MockFacts.
Import Js Types Env.

(** Every entry of [results] that carries data names a CID the store
    holds. *)
Definition stored_successes (results : list (BatchFileResult FileInfo))
    (st : Mock.State) : Prop :=
  forall x info, In x results -> data x = Some info ->
                 is_Some (Mock.fileStore st !! hash info).

(** [uploadFile({ filePath })] *)
Definition plain (filePath : string) : Mock.UploadParams :=
  {| Mock.up_filePath := filePath; Mock.up_encrypt := None;
     Mock.up_accessConditions := None; Mock.up_tags := None |}.

(** A fresh service, and the service after uploading /data/a.txt once. *)
Definition fresh : Mock.State := Mock.create 0.
Definition resultA : Mock.UploadResult :=
  {| Mock.ur_cid := "Qm/data/a.txt"; Mock.ur_size := 10; Mock.ur_encrypted := false;
     Mock.ur_uploadedAt := 250; Mock.ur_originalPath := "/data/a.txt" |}.
Definition afterA : Mock.State :=
  snd (Mock.uploadFile Fixtures.world (plain "/data/a.txt") fresh).
Definition recordA : Mock.StoredFile :=
  {| Mock.sf_cid := "Qm/data/a.txt"; Mock.sf_filePath := "/data/a.txt";
     Mock.sf_size := 10; Mock.sf_encrypted := false;
     Mock.sf_accessConditions := None; Mock.sf_tags := None;
     Mock.sf_uploadedAt := 250; Mock.sf_pinned := true |}.

(** The sizes [fs.stat] reports for [paths], added up. *)
Definition totalSizeOf (w : World) (paths : list string) : Z :=
  foldr (fun p acc => from_option st_size 0 (fsStat w p) + acc) 0 paths.

(** All characters of [s] are decimal digits. *)
Definition allDigits (s : string) : Prop :=
  Forall (fun c => (48 <= nat_of_ascii c <= 57)%nat) (list_ascii_of_string s).

End MockFacts.

(* ===================================================================== *)
(** * JavaScript strings, arrays and maps                                  *)
(* ===================================================================== *)

Module Strings.

(** [s.split(sep)] for a separator of one character; [acc] is the piece
    being read. *)
Fixpoint splitFrom (sep : ascii) (acc s : string) : list string :=
  match s with
  | EmptyString => [acc]
  | String c rest =>
      if Ascii.eqb c sep then acc :: splitFrom sep EmptyString rest
      else splitFrom sep (acc +:+ String c EmptyString) rest
  end.

Definition split (sep : ascii) (s : string) : list string :=
  splitFrom sep EmptyString s.

(** White space as [parseInt] skips it (strings are ASCII): tab, line
    feed, vertical tab, form feed, carriage return, space. *)
Definition isWhiteSpace (c : ascii) : bool :=
  let n := nat_of_ascii c in
  ((9 <=? n) && (n <=? 13) || (n =? 32))%nat.

Fixpoint trimStart (s : string) : string :=
  match s with
  | String c rest => if isWhiteSpace c then trimStart rest else s
  | EmptyString => s
  end.

(** The value of a digit in a radix up to 36. *)
Definition digitValue (c : ascii) : option Z :=
  let n := Z.of_nat (nat_of_ascii c) in
  if (48 <=? n) && (n <=? 57) then Some (n - 48)
  else if (97 <=? n) && (n <=? 122) then Some (n - 87)
  else if (65 <=? n) && (n <=? 90) then Some (n - 55)
  else None.

(** The longest prefix of digits of the radix, as a number; [None] when
    there is no digit at all.  [seen] tells whether a digit was read. *)
Fixpoint digits (radix : Z) (s : string) (seen : bool) (acc : Z) : option Z :=
  match s with
  | String c rest =>
      match digitValue c with
      | Some d =>
          if d <? radix then digits radix rest true (acc * radix + d)
          else if seen then Some acc else None
      | None => if seen then Some acc else None
      end
  | EmptyString => if seen then Some acc else None
  end.

(** [parseInt(s)] without a radix: leading white space, a sign, a [0x]
    or [0X] prefix for radix 16, and then the digits; [None] is [NaN]. *)
Definition parseInt (s : string) : option Z :=
  let s1 := trimStart s in
  let signed :=
    match s1 with
    | String c rest =>
        if Ascii.eqb c "-" then (-1, rest)
        else if Ascii.eqb c "+" then (1, rest)
        else (1, s1)
    | EmptyString => (1, s1)
    end in
  let prefixed :=
    match snd signed with
    | String c0 (String c1 rest) =>
        if Ascii.eqb c0 "0" && (Ascii.eqb c1 "x" || Ascii.eqb c1 "X")
        then (16, rest) else (10, snd signed)
    | other => (10, other)
    end in
  Z.mul (fst signed) <$> digits (fst prefixed) (snd prefixed) false 0.

(** [String(n)] for a number that is an integer or [NaN]. *)
Definition ofNumber (n : option Z) : string :=
  match n with
  | Some z => pretty z
  | None => "NaN"
  end.

End Strings.

Module Arrays.

(** An index argument of [slice], made relative to the length. *)
Definition relativeIndex (len i : Z) : Z :=
  if i <? 0 then Z.max (len + i) 0 else Z.min i len.

(** [l.slice(start, end)] for integer arguments; an omitted [end] is
    [None].  A negative argument counts from the end of the array. *)
Definition slice {A : Type} (start : Z) (stop : option Z) (l : list A) : list A :=
  let len := Z.of_nat (length l) in
  let k := relativeIndex len start in
  let final := match stop with
               | None => len
               | Some e => relativeIndex len e
               end in
  take (Z.to_nat (final - k)) (drop (Z.to_nat k) l).

End Arrays.

(** A JavaScript [Map] with string keys: the entries in insertion order. *)
Module OrderedMap.
Section OrderedMap.
Context {V : Type}.

Definition t : Type := list (string * V).

(** [m.get(k)] *)
Fixpoint get (k : string) (m : t) : option V :=
  match m with
  | [] => None
  | (k', v) :: rest => if String.eqb k' k then Some v else get k rest
  end.

(** [m.set(k, v)]: an existing key keeps its place, a new key goes to
    the end. *)
Fixpoint set (k : string) (v : V) (m : t) : t :=
  match m with
  | [] => [(k, v)]
  | (k', v') :: rest =>
      if String.eqb k' k then (k, v) :: rest else (k', v') :: set k v rest
  end.

(** [m.delete(k)] *)
Definition delete (k : string) (m : t) : t :=
  List.filter (fun kv => negb (String.eqb (fst kv) k)) m.

(** [Array.from(m.values())] *)
Definition values (m : t) : list V := map snd m.

Definition keys (m : t) : list string := map fst m.

End OrderedMap.
End OrderedMap.

(* ===================================================================== *)
(** * MockLighthouseService: datasets                                      *)
(* ===================================================================== *)

Module MockDatasets.
Import Js Types Env.

(** [DatasetMetadata], as the service fills it in. *)
Record DatasetMetadata : Type := mkDatasetMetadata {
  author : string;
  license : string;
  category : string;
  keywords : option (list string);
  custom : option (gmap string value);
}.

(** [Dataset] *)
Record Dataset : Type := mkDataset {
  ds_id : string;
  ds_name : string;
  ds_description : string;
  ds_files : list Mock.UploadResult;
  ds_metadata : DatasetMetadata;
  ds_version : string;
  ds_createdAt : Z;
  ds_updatedAt : Z;
  ds_encrypted : bool;
  ds_accessConditions : option (list AccessCondition);
}.

(** The service with its dataset store, and the number of values drawn
    from [Math.random()] for dataset ids. *)
Record State : Type := mkState {
  service : Mock.State;
  datasetStore : OrderedMap.t (V := Dataset);
  draws : nat;
}.

Definition create (t0 : Z) : State :=
  {| service := Mock.create t0; datasetStore := []; draws := 0 |}.

Definition withService (svc : Mock.State) (st : State) : State :=
  {| service := svc; datasetStore := datasetStore st; draws := draws st |}.

(** The store holding [ds] under [datasetId]. *)
Definition withDataset (datasetId : string) (ds : Dataset) (st : State) : State :=
  {| service := service st;
     datasetStore := OrderedMap.set datasetId ds (datasetStore st);
     draws := draws st |}.

(** The parameters of [createDataset]. *)
Record CreateParams : Type := mkCreateParams {
  cp_name : string;
  cp_description : option string;
  cp_filePaths : list string;
  cp_encrypt : option bool;
  cp_accessConditions : option (list AccessCondition);
  cp_tags : option (list string);
  cp_metadata : option (gmap string value);
}.

(** The [for (const filePath of params.filePaths)] loop of
    [createDataset]: every file is uploaded in turn, the first failure
    ends the loop. *)
Fixpoint uploadAll (w : World) (params : CreateParams) (filePaths : list string)
    (uploadedFiles : list Mock.UploadResult) (svc : Mock.State)
  : outcome (list Mock.UploadResult) * Mock.State :=
  match filePaths with
  | [] => (Return uploadedFiles, svc)
  | filePath :: rest =>
      match Mock.uploadFile w
              {| Mock.up_filePath := filePath;
                 Mock.up_encrypt := cp_encrypt params;
                 Mock.up_accessConditions := cp_accessConditions params;
                 Mock.up_tags := cp_tags params |} svc with
      | (Return uploadResult, svc') =>
          uploadAll w params rest (uploadedFiles ++ [uploadResult]) svc'
      | (Throw e, svc') => (Throw e, svc')
      end
  end.

(** [createDataset(params)].  [random n] is the text
    [Math.random().toString(36).substr(2, 9)] of the [n]-th draw. *)
Definition createDataset (w : World) (random : nat -> string)
    (params : CreateParams) (st : State) : outcome Dataset * State :=
  match uploadAll w params (cp_filePaths params) [] (service st) with
  | (Throw e, svc) => (Throw e, withService svc st)
  | (Return uploadedFiles, svc) =>
      let datasetId :=
        "dataset_" +:+ pretty (Mock.clock svc) +:+ "_" +:+ random (draws st) in
      let now := Mock.clock svc in
      let dataset :=
        {| ds_id := datasetId;
           ds_name := cp_name params;
           ds_description := default "" (cp_description params);
           ds_files := uploadedFiles;
           ds_metadata :=
             {| author := "Mock Service";
                license := "Custom";
                category := "Test";
                keywords := cp_tags params;
                custom := cp_metadata params |};
           ds_version := "1.0.0";
           ds_createdAt := now;
           ds_updatedAt := now;
           ds_encrypted := orDefault (cp_encrypt params) false;
           ds_accessConditions := cp_accessConditions params |} in
      (Return dataset,
       {| service := svc;
          datasetStore := OrderedMap.set datasetId dataset (datasetStore st);
          draws := S (draws st) |})
  end.

(** The parameters of [updateDataset]. *)
Record UpdateParams : Type := mkUpdateParams {
  upd_datasetId : string;
  upd_addFiles : option (list string);
  upd_removeFiles : option (list string);
  upd_description : option string;
  upd_metadata : option (gmap string value);
  upd_tags : option (list string);
}.

Definition withFiles (files : list Mock.UploadResult) (ds : Dataset) : Dataset :=
  {| ds_id := ds_id ds;
     ds_name := ds_name ds;
     ds_description := ds_description ds;
     ds_files := files;
     ds_metadata := ds_metadata ds;
     ds_version := ds_version ds;
     ds_createdAt := ds_createdAt ds;
     ds_updatedAt := ds_updatedAt ds;
     ds_encrypted := ds_encrypted ds;
     ds_accessConditions := ds_accessConditions ds |}.

(** The [for (const filePath of params.addFiles)] loop of
    [updateDataset].  [dataset] is the object the store holds, so every
    [dataset.files.push(uploadResult)] shows in the store at once, also
    when a later upload throws. *)
Fixpoint addFiles (w : World) (filePaths : list string) (dataset : Dataset)
    (svc : Mock.State) : option Error * Dataset * Mock.State :=
  match filePaths with
  | [] => (None, dataset, svc)
  | filePath :: rest =>
      match Mock.uploadFile w (MockFacts.plain filePath) svc with
      | (Return uploadResult, svc') =>
          addFiles w rest (withFiles (ds_files dataset ++ [uploadResult]) dataset) svc'
      | (Throw e, svc') => (Some e, dataset, svc')
      end
  end.

(** The new version text: the second part of the dotted version is
    parsed and incremented; a version without a second part becomes
    ["1.1.0"]. *)
Definition bumpVersion (version : string) : string :=
  match Strings.split "." version with
  | major :: minor :: rest =>
      if String.eqb minor "" then "1.1.0"
      else join "." (major
                     :: Strings.ofNumber (Z.add 1 <$> Strings.parseInt minor)
                     :: rest)
  | _ => "1.1.0"
  end.

(** The part of [updateDataset] after the uploads: the removals, the new
    description, metadata and tags, the version and the time stamp. *)
Definition applyUpdate (params : UpdateParams) (now : Z) (dataset : Dataset) : Dataset :=
  {| ds_id := ds_id dataset;
     ds_name := ds_name dataset;
     ds_description := orDefault (upd_description params) (ds_description dataset);
     ds_files :=
       match upd_removeFiles params with
       | Some (c :: cs) =>
           List.filter
             (fun file => negb (bool_decide (Mock.ur_cid file ∈ c :: cs)))
             (ds_files dataset)
       | _ => ds_files dataset
       end;
     ds_metadata :=
       {| author := author (ds_metadata dataset);
          license := license (ds_metadata dataset);
          category := category (ds_metadata dataset);
          keywords :=
            match upd_tags params with
            | Some tags => Some tags
            | None => keywords (ds_metadata dataset)
            end;
          custom :=
            match upd_metadata params with
            | Some md => Some (md ∪ default ∅ (custom (ds_metadata dataset)))
            | None => custom (ds_metadata dataset)
            end |};
     ds_version := bumpVersion (ds_version dataset);
     ds_createdAt := ds_createdAt dataset;
     ds_updatedAt := now;
     ds_encrypted := ds_encrypted dataset;
     ds_accessConditions := ds_accessConditions dataset |}.

(** [updateDataset(params)] *)
Definition updateDataset (w : World) (params : UpdateParams) (st : State)
  : outcome Dataset * State :=
  match OrderedMap.get (upd_datasetId params) (datasetStore st) with
  | None =>
      (Throw (newError ("Dataset not found: " +:+ upd_datasetId params)), st)
  | Some dataset =>
      match addFiles w (default [] (upd_addFiles params)) dataset (service st) with
      | (Some e, partial, svc) =>
          (Throw e, withDataset (upd_datasetId params) partial (withService svc st))
      | (None, extended, svc) =>
          let updated := applyUpdate params (Mock.clock svc) extended in
          (Return updated,
           withDataset (upd_datasetId params) updated (withService svc st))
      end
  end.

(** [getDataset(datasetId)] *)
Definition getDataset (datasetId : string) (st : State) : option Dataset :=
  OrderedMap.get datasetId (datasetStore st).

(** What [listDatasets] resolves to. *)
Record DatasetPage : Type := mkDatasetPage {
  datasets : list Dataset;
  pageTotal : nat;
  hasMore : bool;
}.

(** [listDatasets(params?)] with [limit = params?.limit || 10] and
    [offset = params?.offset || 0]. *)
Definition listDatasets (limit offset : option Z) (st : State) : DatasetPage :=
  let limit := match limit with
               | Some l => if l =? 0 then 10 else l
               | None => 10
               end in
  let offset := orDefault offset 0 in
  let allDatasets := OrderedMap.values (datasetStore st) in
  {| datasets := Arrays.slice offset (Some (offset + limit)) allDatasets;
     pageTotal := length allDatasets;
     hasMore := offset + limit <? Z.of_nat (length allDatasets) |}.

(** One step of the [for (const file of dataset.files)] loop of
    [deleteDataset]. *)
Definition dropFile (svc : Mock.State) (file : Mock.UploadResult) : Mock.State :=
  {| Mock.fileStore := base.delete (Mock.ur_cid file) (Mock.fileStore svc);
     Mock.maxStorageSize := Mock.maxStorageSize svc;
     Mock.currentStorageSize := Mock.currentStorageSize svc - Mock.ur_size file;
     Mock.clock := Mock.clock svc |}.

(** [deleteDataset(datasetId, deleteFiles?)] *)
Definition deleteDataset (datasetId : string) (deleteFiles : option bool) (st : State)
  : outcome unit * State :=
  match OrderedMap.get datasetId (datasetStore st) with
  | None => (Throw (newError ("Dataset not found: " +:+ datasetId)), st)
  | Some dataset =>
      (Return tt,
       {| service :=
            if orDefault deleteFiles false
            then fold_left dropFile (ds_files dataset) (service st)
            else service st;
          datasetStore := OrderedMap.delete datasetId (datasetStore st);
          draws := draws st |})
  end.

(** [clear()] *)
Definition clear (st : State) : State :=
  {| service :=
       {| Mock.fileStore := ∅;
          Mock.maxStorageSize := Mock.maxStorageSize (service st);
          Mock.currentStorageSize := 0;
          Mock.clock := Mock.clock (service st) |};
     datasetStore := [];
     draws := draws st |}.

End MockDatasets.

(** Sample runs of the dataset operations. *)
Module DatasetFacts.
Import Js Types Env.

(** The random texts drawn for dataset ids. *)
Definition random (n : nat) : string := "r" +:+ pretty n.

Definition create (filePaths : list string) : MockDatasets.CreateParams :=
  {| MockDatasets.cp_name := "set";
     MockDatasets.cp_description := None;
     MockDatasets.cp_filePaths := filePaths;
     MockDatasets.cp_encrypt := None;
     MockDatasets.cp_accessConditions := None;
     MockDatasets.cp_tags := None;
     MockDatasets.cp_metadata := None |}.

(** A service with one dataset of two files. *)
Definition created : MockDatasets.State :=
  snd (MockDatasets.createDataset Fixtures.world random
         (create ["/data/a.txt"; "/data/b.txt"]%string) (MockDatasets.create 0)).

Definition sampleId : string := "dataset_500_r0".

Definition sample : MockDatasets.Dataset :=
  {| MockDatasets.ds_id := sampleId;
     MockDatasets.ds_name := "set";
     MockDatasets.ds_description := "";
     MockDatasets.ds_files :=
       [ {| Mock.ur_cid := "Qm/data/a.txt"; Mock.ur_size := 10;
            Mock.ur_encrypted := false; Mock.ur_uploadedAt := 250;
            Mock.ur_originalPath := "/data/a.txt" |};
         {| Mock.ur_cid := "Qm/data/b.txt"; Mock.ur_size := 20;
            Mock.ur_encrypted := false; Mock.ur_uploadedAt := 500;
            Mock.ur_originalPath := "/data/b.txt" |} ];
     MockDatasets.ds_metadata :=
       {| MockDatasets.author := "Mock Service";
          MockDatasets.license := "Custom";
          MockDatasets.category := "Test";
          MockDatasets.keywords := None;
          MockDatasets.custom := None |};
     MockDatasets.ds_version := "1.0.0";
     MockDatasets.ds_createdAt := 500;
     MockDatasets.ds_updatedAt := 500;
     MockDatasets.ds_encrypted := false;
     MockDatasets.ds_accessConditions := None |}.

(** An update of the sample that adds [addFiles]. *)
Definition update (addFiles : list string) : MockDatasets.UpdateParams :=
  {| MockDatasets.upd_datasetId := sampleId;
     MockDatasets.upd_addFiles := Some addFiles;
     MockDatasets.upd_removeFiles := None;
     MockDatasets.upd_description := None;
     MockDatasets.upd_metadata := None;
     MockDatasets.upd_tags := None |}.

End DatasetFacts.

(* ===================================================================== *)
(** * InMemoryStorageService (apps/mcp-server/src/storage)                 *)
(* ===================================================================== *)

Module Storage.
Import Js Types.

(** [StoredFile] of [ILighthouseService]. *)
Record StoredFile : Type := mkStoredFile {
  f_cid : string;
  f_filePath : string;
  f_size : Z;
  f_encrypted : bool;
  f_accessConditions : option (list AccessCondition);
  f_tags : option (list string);
  f_uploadedAt : Z;
  f_pinned : bool;
  f_hash : option string;
}.

(** The two maps of the service. *)
Record State : Type := mkState {
  files : OrderedMap.t (V := StoredFile);
  datasets : OrderedMap.t (V := MockDatasets.Dataset);
}.

(** [new InMemoryStorageService()] *)
Definition create : State := {| files := []; datasets := [] |}.

(** [saveFile(file)] stores a copy under [file.cid]. *)
Definition saveFile (file : StoredFile) (st : State) : State :=
  {| files := OrderedMap.set (f_cid file) file (files st); datasets := datasets st |}.

(** [getFile(cid)] returns a copy, or [undefined]. *)
Definition getFile (cid : string) (st : State) : option StoredFile :=
  OrderedMap.get cid (files st).

(** Where [Array.prototype.sort] with the comparator
    [(a, b) => key(b) - key(a)] puts [x] among elements that came before
    it: after every element whose key is not smaller (the sort is
    stable). *)
Fixpoint insertDesc {A : Type} (key : A -> Z) (x : A) (sorted : list A) : list A :=
  match sorted with
  | [] => [x]
  | y :: rest =>
      if key y <? key x then x :: y :: rest else y :: insertDesc key x rest
  end.

(** [l.sort((a, b) => key(b) - key(a))]: largest key first. *)
Definition sortDesc {A : Type} (key : A -> Z) (l : list A) : list A :=
  fold_left (fun sorted x => insertDesc key x sorted) l [].

(** [all.slice(start, end)] with [start = offset || 0] and
    [end = limit ? start + limit : undefined]. *)
Definition page {A : Type} (limit offset : option Z) (all : list A) : list A :=
  let start := orDefault offset 0 in
  let stop := match limit with
              | Some l => if l =? 0 then None else Some (start + l)
              | None => None
              end in
  Arrays.slice start stop all.

(** [listFiles(limit?, offset?)]: newest upload first. *)
Definition listFiles (limit offset : option Z) (st : State) : list StoredFile :=
  page limit offset (sortDesc f_uploadedAt (OrderedMap.values (files st))).

(** [getFileCount()] *)
Definition getFileCount (st : State) : nat := length (files st).

(** [getTotalSize()] *)
Definition getTotalSize (st : State) : Z :=
  fold_left (fun total file => total + f_size file) (OrderedMap.values (files st)) 0.

(** [deleteFile(cid)] *)
Definition deleteFile (cid : string) (st : State) : State :=
  {| files := OrderedMap.delete cid (files st); datasets := datasets st |}.

(** [saveDataset(dataset)] *)
Definition saveDataset (dataset : MockDatasets.Dataset) (st : State) : State :=
  {| files := files st;
     datasets := OrderedMap.set (MockDatasets.ds_id dataset) dataset (datasets st) |}.

(** [getDataset(datasetId)] *)
Definition getDataset (datasetId : string) (st : State) : option MockDatasets.Dataset :=
  OrderedMap.get datasetId (datasets st).

(** [listDatasets(limit?, offset?)]: most recently updated first, with
    the number of all datasets. *)
Definition listDatasets (limit offset : option Z) (st : State)
  : list MockDatasets.Dataset * nat :=
  let allDatasets := sortDesc MockDatasets.ds_updatedAt (OrderedMap.values (datasets st)) in
  (page limit offset allDatasets, length allDatasets).

(** [deleteDataset(datasetId, deleteFiles = false)] *)
Definition deleteDataset (datasetId : string) (deleteFiles : bool) (st : State) : State :=
  {| files :=
       if deleteFiles then
         match OrderedMap.get datasetId (datasets st) with
         | Some dataset =>
             fold_left (fun fs file => OrderedMap.delete (Mock.ur_cid file) fs)
               (MockDatasets.ds_files dataset) (files st)
         | None => files st
         end
       else files st;
     datasets := OrderedMap.delete datasetId (datasets st) |}.

(** [updateFilePinned(cid, pinned)] *)
Definition updateFilePinned (cid : string) (pinned : bool) (st : State) : State :=
  match OrderedMap.get cid (files st) with
  | Some file =>
      {| files :=
           OrderedMap.set cid
             {| f_cid := f_cid file; f_filePath := f_filePath file;
                f_size := f_size file; f_encrypted := f_encrypted file;
                f_accessConditions := f_accessConditions file;
                f_tags := f_tags file; f_uploadedAt := f_uploadedAt file;
                f_pinned := pinned; f_hash := f_hash file |} (files st);
         datasets := datasets st |}
  | None => st
  end.

(** [clear()] *)
Definition clear (st : State) : State := create.

(** The calls that change the service. *)
Inductive Call : Type :=
| SaveFile (file : StoredFile)
| DeleteFile (cid : string)
| SaveDataset (dataset : MockDatasets.Dataset)
| DeleteDataset (datasetId : string) (deleteFiles : bool)
| UpdateFilePinned (cid : string) (pinned : bool)
| Clear.

Definition call (st : State) (c : Call) : State :=
  match c with
  | SaveFile file => saveFile file st
  | DeleteFile cid => deleteFile cid st
  | SaveDataset dataset => saveDataset dataset st
  | DeleteDataset datasetId deleteFiles => deleteDataset datasetId deleteFiles st
  | UpdateFilePinned cid pinned => updateFilePinned cid pinned st
  | Clear => clear st
  end.

(** A new service after the calls [cs], made in that order. *)
Definition after (cs : list Call) : State := fold_left call cs create.

(** [LighthouseService.migrateStorage(oldStorage, newStorage)], both
    storages being in-memory ones: every file and every dataset the old
    storage lists is saved into the new one. *)
Definition migrateStorage (oldStorage newStorage : State) : State :=
  let files := listFiles None None oldStorage in
  let st1 := fold_left (fun st file => saveFile file st) files newStorage in
  let datasets := fst (listDatasets None None oldStorage) in
  fold_left (fun st dataset => saveDataset dataset st) datasets st1.

End Storage.

(** What holds of every in-memory storage, and sample records. *)
Module StorageFacts.

(** Largest key first. *)
Fixpoint descending {A : Type} (key : A -> Z) (l : list A) : Prop :=
  match l with
  | [] => True
  | x :: rest => Forall (fun y => key y <= key x) rest /\ descending key rest
  end.

(** No key occurs twice, and every entry is stored under its own id. *)
Definition wellKeyed {V : Type} (id : V -> string) (m : OrderedMap.t (V := V)) : Prop :=
  NoDup (OrderedMap.keys m) /\ forall k v, In (k, v) m -> id v = k.

Definition file (cid : string) (size uploadedAt : Z) : Storage.StoredFile :=
  {| Storage.f_cid := cid; Storage.f_filePath := "/data/" +:+ cid;
     Storage.f_size := size; Storage.f_encrypted := false;
     Storage.f_accessConditions := None; Storage.f_tags := None;
     Storage.f_uploadedAt := uploadedAt; Storage.f_pinned := true;
     Storage.f_hash := Some cid |}.

(** Three files saved in the order a, b, c; b is the newest. *)
Definition three : list Storage.Call :=
  [ Storage.SaveFile (file "a" 10 100);
    Storage.SaveFile (file "b" 20 300);
    Storage.SaveFile (file "c" 30 200) ].

End StorageFacts.

(* ===================================================================== *)
(** * MetricsCollector (apps/mcp-server/src/auth)                          *)
(* ===================================================================== *)

Module MetricsCollector.
Import Js.

(** [AuthenticationResult], as [AuthManager.authenticate] builds it:
    [authTime] is [Date.now() - startTime], whole milliseconds. *)
Record AuthenticationResult : Type := mkAuthenticationResult {
  ar_success : bool;
  ar_keyHash : string;
  ar_usedFallback : bool;
  ar_rateLimited : bool;
  ar_authTime : option Z;
  ar_errorMessage : option string;
}.

(** [KeyUsageStats] *)
Record KeyUsageStats : Type := mkKeyUsageStats {
  ks_keyHash : string;
  ks_requestCount : nat;
  ks_lastUsed : Z;
  ks_errorCount : nat;
  ks_averageResponseTime : number;
  ks_totalResponseTime : Z;
  ks_rateLimitedCount : nat;
}.

(** [AuthMetrics] *)
Record AuthMetrics : Type := mkAuthMetrics {
  totalRequests : nat;
  authenticatedRequests : nat;
  fallbackRequests : nat;
  failedAuthentications : nat;
  averageAuthTime : number;
  cacheHitRate : number;
  rateLimitedRequests : nat;
  uniqueApiKeys : nat;
  keyUsageStats : OrderedMap.t (V := KeyUsageStats);
}.

Inductive SecurityEventType : Type :=
| AUTHENTICATION_FAILURE
| RATE_LIMIT_EXCEEDED
| INVALID_KEY_FORMAT
| SUSPICIOUS_ACTIVITY
| MULTIPLE_FAILURES.

Inductive Severity : Type := low | medium | high | critical.

(** [SecurityEvent]; [ev_details] lists the fields of the details object
    and [ev_timestamp] is the time value of the date. *)
Record SecurityEvent : Type := mkSecurityEvent {
  ev_type : SecurityEventType;
  ev_keyHash : string;
  ev_timestamp : Z;
  ev_details : list (string * value);
  ev_severity : Severity;
}.

(** [MetricsConfig], the alert thresholds flattened. *)
Record MetricsConfig : Type := mkMetricsConfig {
  enabled : bool;
  retentionPeriodHours : Q;
  failureRatePercent : Q;
  rateLimitThreshold : Q;
  suspiciousActivityThreshold : Q;
  cleanupIntervalMinutes : Q;
}.

(** [DEFAULT_METRICS_CONFIG] *)
Definition DEFAULT_METRICS_CONFIG : MetricsConfig :=
  {| enabled := true;
     retentionPeriodHours := 24;
     failureRatePercent := 10;
     rateLimitThreshold := 100;
     suspiciousActivityThreshold := 50;
     cleanupIntervalMinutes := 60 |}.

(** The fields of the collector. *)
Record State : Type := mkState {
  metrics : AuthMetrics;
  config : MetricsConfig;
  securityEvents : list SecurityEvent;
  authTimings : list Z;
  cacheHits : nat;
  cacheMisses : nat;
}.

Definition emptyMetrics : AuthMetrics :=
  {| totalRequests := 0;
     authenticatedRequests := 0;
     fallbackRequests := 0;
     failedAuthentications := 0;
     averageAuthTime := ofZ 0;
     cacheHitRate := ofZ 0;
     rateLimitedRequests := 0;
     uniqueApiKeys := 0;
     keyUsageStats := [] |}.

(** [new MetricsCollector(config)] *)
Definition create (cfg : MetricsConfig) : State :=
  {| metrics := emptyMetrics;
     config := cfg;
     securityEvents := [];
     authTimings := [];
     cacheHits := 0;
     cacheMisses := 0 |}.

Definition withMetrics (m : AuthMetrics) (st : State) : State :=
  {| metrics := m; config := config st; securityEvents := securityEvents st;
     authTimings := authTimings st; cacheHits := cacheHits st;
     cacheMisses := cacheMisses st |}.

Definition withEvents (es : list SecurityEvent) (st : State) : State :=
  {| metrics := metrics st; config := config st; securityEvents := es;
     authTimings := authTimings st; cacheHits := cacheHits st;
     cacheMisses := cacheMisses st |}.

Definition withTimings (ts : list Z) (st : State) : State :=
  {| metrics := metrics st; config := config st; securityEvents := securityEvents st;
     authTimings := ts; cacheHits := cacheHits st; cacheMisses := cacheMisses st |}.

Definition withKeyUsageStats (n : nat) (stats : OrderedMap.t) (m : AuthMetrics)
  : AuthMetrics :=
  {| totalRequests := totalRequests m;
     authenticatedRequests := authenticatedRequests m;
     fallbackRequests := fallbackRequests m;
     failedAuthentications := failedAuthentications m;
     averageAuthTime := averageAuthTime m;
     cacheHitRate := cacheHitRate m;
     rateLimitedRequests := rateLimitedRequests m;
     uniqueApiKeys := n;
     keyUsageStats := stats |}.

Definition withAverageAuthTime (x : number) (m : AuthMetrics) : AuthMetrics :=
  {| totalRequests := totalRequests m;
     authenticatedRequests := authenticatedRequests m;
     fallbackRequests := fallbackRequests m;
     failedAuthentications := failedAuthentications m;
     averageAuthTime := x;
     cacheHitRate := cacheHitRate m;
     rateLimitedRequests := rateLimitedRequests m;
     uniqueApiKeys := uniqueApiKeys m;
     keyUsageStats := keyUsageStats m |}.

Definition withCacheHitRate (x : number) (m : AuthMetrics) : AuthMetrics :=
  {| totalRequests := totalRequests m;
     authenticatedRequests := authenticatedRequests m;
     fallbackRequests := fallbackRequests m;
     failedAuthentications := failedAuthentications m;
     averageAuthTime := averageAuthTime m;
     cacheHitRate := x;
     rateLimitedRequests := rateLimitedRequests m;
     uniqueApiKeys := uniqueApiKeys m;
     keyUsageStats := keyUsageStats m |}.

(** The time value of [new Date(x)]: [x] without its fraction, and no
    time ([None], an invalid date) beyond 8.64e15 milliseconds. *)
Definition timeClip (x : Q) : option Z :=
  if Qle_bool (-8640000000000000) x && Qle_bool x 8640000000000000
  then Some (if Qle_bool 0 x then Qfloor x else Qceiling x)
  else None.

(** [timestamp > cutoff] on dates; nothing is later than an invalid date. *)
Definition laterThan (cutoff : option Z) (timestamp : Z) : bool :=
  match cutoff with
  | Some c => c <? timestamp
  | None => false
  end.

(** [timestamp < cutoff] on dates *)
Definition earlierThan (cutoff : option Z) (timestamp : Z) : bool :=
  match cutoff with
  | Some c => timestamp <? c
  | None => false
  end.

(** [timestamp >= cutoff] on dates *)
Definition notEarlierThan (cutoff : option Z) (timestamp : Z) : bool :=
  match cutoff with
  | Some c => c <=? timestamp
  | None => false
  end.

(** [new Date(Date.now() - this.config.retentionPeriodHours * 60 * 60 * 1000)] *)
Definition cutoffTime (now : Z) (cfg : MetricsConfig) : option Z :=
  timeClip (inject_Z now - retentionPeriodHours cfg * 60 * 60 * 1000).

(** [recordSecurityEvent(event)] at time [now] *)
Definition recordSecurityEvent (now : Z) (event : SecurityEvent) (st : State) : State :=
  if negb (enabled (config st)) then st
  else
    let pushed := securityEvents st ++ [event] in
    let cutoff := cutoffTime now (config st) in
    withEvents (List.filter (fun e => laterThan cutoff (ev_timestamp e)) pushed) st.

(** [result.authTime] and [result.errorMessage] as fields of a details
    object. *)
Definition timeValue (t : option Z) : value :=
  match t with
  | Some z => VNumber (ofZ z)
  | None => VUndefined
  end.

Definition textValue (s : option string) : value :=
  match s with
  | Some x => VString x
  | None => VUndefined
  end.

(** [updateKeyStats(keyHash, result)] at time [now].  The statistics of
    a key live in the map and are updated there. *)
Definition updateKeyStats (now : Z) (keyHash : string) (result : AuthenticationResult)
    (m : AuthMetrics) : AuthMetrics :=
  let found := OrderedMap.get keyHash (keyUsageStats m) in
  let stats :=
    match found with
    | Some s => s
    | None =>
        {| ks_keyHash := keyHash; ks_requestCount := 0; ks_lastUsed := now;
           ks_errorCount := 0; ks_averageResponseTime := ofZ 0;
           ks_totalResponseTime := 0; ks_rateLimitedCount := 0 |}
    end in
  let requestCount := S (ks_requestCount stats) in
  let totalResponseTime :=
    match ar_authTime result with
    | Some t => ks_totalResponseTime stats + t
    | None => ks_totalResponseTime stats
    end in
  let updated :=
    {| ks_keyHash := ks_keyHash stats;
       ks_requestCount := requestCount;
       ks_lastUsed := now;
       ks_errorCount :=
         if ar_success result then ks_errorCount stats else S (ks_errorCount stats);
       ks_averageResponseTime :=
         match ar_authTime result with
         | Some _ => div (inject_Z totalResponseTime) (inject_Z (Z.of_nat requestCount))
         | None => ks_averageResponseTime stats
         end;
       ks_totalResponseTime := totalResponseTime;
       ks_rateLimitedCount :=
         if ar_rateLimited result then S (ks_rateLimitedCount stats)
         else ks_rateLimitedCount stats |} in
  let stored := OrderedMap.set keyHash updated (keyUsageStats m) in
  withKeyUsageStats
    match found with
    | Some _ => uniqueApiKeys m
    | None => length stored
    end
    stored m.

(** [updateAverageAuthTime()] *)
Definition updateAverageAuthTime (st : State) : State :=
  if (length (authTimings st) =? 0)%nat then st
  else
    let kept :=
      if (1000 <? length (authTimings st))%nat
      then Arrays.slice (-1000) None (authTimings st)
      else authTimings st in
    let sum := fold_left Z.add kept 0 in
    withMetrics
      (withAverageAuthTime (div (inject_Z sum) (inject_Z (Z.of_nat (length kept))))
         (metrics st))
      (withTimings kept st).

Definition eventTypeEqb (a b : SecurityEventType) : bool :=
  match a, b with
  | AUTHENTICATION_FAILURE, AUTHENTICATION_FAILURE
  | RATE_LIMIT_EXCEEDED, RATE_LIMIT_EXCEEDED
  | INVALID_KEY_FORMAT, INVALID_KEY_FORMAT
  | SUSPICIOUS_ACTIVITY, SUSPICIOUS_ACTIVITY
  | MULTIPLE_FAILURES, MULTIPLE_FAILURES => true
  | _, _ => false
  end.

(** [checkSuspiciousActivity(keyHash)] at time [now] *)
Definition checkSuspiciousActivity (now : Z) (keyHash : string) (st : State) : State :=
  match OrderedMap.get keyHash (keyUsageStats (metrics st)) with
  | None => st
  | Some _ =>
      let recentEvents :=
        List.filter
          (fun event =>
             String.eqb (ev_keyHash event) keyHash
             && laterThan (timeClip (inject_Z (now - 5 * 60 * 1000))) (ev_timestamp event)
             && eventTypeEqb (ev_type event) AUTHENTICATION_FAILURE)
          (securityEvents st) in
      if Qle_bool (suspiciousActivityThreshold (config st))
           (inject_Z (Z.of_nat (length recentEvents)))
      then
        recordSecurityEvent now
          {| ev_type := SUSPICIOUS_ACTIVITY;
             ev_keyHash := keyHash;
             ev_timestamp := now;
             ev_details :=
               [ ("recentFailures", VNumber (ofNat (length recentEvents)));
                 ("threshold", VNumber (Fin (suspiciousActivityThreshold (config st))));
                 ("timeWindow", VString "5 minutes") ];
             ev_severity := critical |} st
      else st
  end.

(** The counters at the head of [recordAuthentication]. *)
Definition countRequest (result : AuthenticationResult) (m : AuthMetrics) : AuthMetrics :=
  {| totalRequests := S (totalRequests m);
     authenticatedRequests :=
       if ar_success result then S (authenticatedRequests m) else authenticatedRequests m;
     fallbackRequests :=
       if ar_success result && ar_usedFallback result
       then S (fallbackRequests m) else fallbackRequests m;
     failedAuthentications :=
       if ar_success result then failedAuthentications m else S (failedAuthentications m);
     averageAuthTime := averageAuthTime m;
     cacheHitRate := cacheHitRate m;
     rateLimitedRequests := rateLimitedRequests m;
     uniqueApiKeys := uniqueApiKeys m;
     keyUsageStats := keyUsageStats m |}.

(** [this.metrics.rateLimitedRequests++] *)
Definition countRateLimited (m : AuthMetrics) : AuthMetrics :=
  {| totalRequests := totalRequests m;
     authenticatedRequests := authenticatedRequests m;
     fallbackRequests := fallbackRequests m;
     failedAuthentications := failedAuthentications m;
     averageAuthTime := averageAuthTime m;
     cacheHitRate := cacheHitRate m;
     rateLimitedRequests := S (rateLimitedRequests m);
     uniqueApiKeys := uniqueApiKeys m;
     keyUsageStats := keyUsageStats m |}.

(** [recordAuthentication(result)] at time [now] *)
Definition recordAuthentication (now : Z) (result : AuthenticationResult) (st : State)
  : State :=
  if negb (enabled (config st)) then st
  else
    let st1 := withMetrics (countRequest result (metrics st)) st in
    let st2 :=
      if ar_success result then st1
      else
        recordSecurityEvent now
          {| ev_type := AUTHENTICATION_FAILURE;
             ev_keyHash := ar_keyHash result;
             ev_timestamp := now;
             ev_details :=
               [ ("errorMessage", textValue (ar_errorMessage result));
                 ("usedFallback", VBool (ar_usedFallback result));
                 ("authTime", timeValue (ar_authTime result)) ];
             ev_severity := medium |} st1 in
    let st3 :=
      if ar_rateLimited result then
        recordSecurityEvent now
          {| ev_type := RATE_LIMIT_EXCEEDED;
             ev_keyHash := ar_keyHash result;
             ev_timestamp := now;
             ev_details := [ ("authTime", timeValue (ar_authTime result)) ];
             ev_severity := high |}
          (withMetrics (countRateLimited (metrics st2)) st2)
      else st2 in
    let st4 :=
      withMetrics (updateKeyStats now (ar_keyHash result) result (metrics st3)) st3 in
    let st5 :=
      match ar_authTime result with
      | Some t => updateAverageAuthTime (withTimings (authTimings st4 ++ [t]) st4)
      | None => st4
      end in
    checkSuspiciousActivity now (ar_keyHash result) st5.

(** [updateCacheHitRate()] *)
Definition updateCacheHitRate (st : State) : State :=
  let total := (cacheHits st + cacheMisses st)%nat in
  withMetrics
    (withCacheHitRate
       (if (0 <? total)%nat
        then scale (div (inject_Z (Z.of_nat (cacheHits st))) (inject_Z (Z.of_nat total))) 100
        else ofZ 0)
       (metrics st))
    st.

(** [recordCacheAccess(hit)] *)
Definition recordCacheAccess (hit : bool) (st : State) : State :=
  if negb (enabled (config st)) then st
  else
    updateCacheHitRate
      {| metrics := metrics st;
         config := config st;
         securityEvents := securityEvents st;
         authTimings := authTimings st;
         cacheHits := if hit then S (cacheHits st) else cacheHits st;
         cacheMisses := if hit then cacheMisses st else S (cacheMisses st) |}.

(** [getCacheCounters()]: hits and misses *)
Definition getCacheCounters (st : State) : nat * nat := (cacheHits st, cacheMisses st).

(** [getSecurityEvents(since)] at time [now] *)
Definition getSecurityEvents (now : Z) (since : option Z) (st : State)
  : list SecurityEvent :=
  let cutoff :=
    match since with
    | Some d => Some d
    | None => timeClip (inject_Z (now - 60 * 60 * 1000))
    end in
  List.filter (fun event => notEarlierThan cutoff (ev_timestamp event)) (securityEvents st).

(** [getKeyMetrics(keyHash)] *)
Definition getKeyMetrics (keyHash : string) (st : State) : option KeyUsageStats :=
  OrderedMap.get keyHash (keyUsageStats (metrics st)).

(** [getKeyFailureRate(keyHash)] *)
Definition getKeyFailureRate (keyHash : string) (st : State) : number :=
  match OrderedMap.get keyHash (keyUsageStats (metrics st)) with
  | None => ofZ 0
  | Some stats =>
      if (ks_requestCount stats =? 0)%nat then ofZ 0
      else scale (div (inject_Z (Z.of_nat (ks_errorCount stats)))
                      (inject_Z (Z.of_nat (ks_requestCount stats)))) 100
  end.

(** [overallFailureRate] of [checkAlerts] *)
Definition overallFailureRate (m : AuthMetrics) : number :=
  if (0 <? totalRequests m)%nat
  then scale (div (inject_Z (Z.of_nat (failedAuthentications m)))
                  (inject_Z (Z.of_nat (totalRequests m)))) 100
  else ofZ 0.

(** [checkAlerts()] at time [now] *)
Definition checkAlerts (now : Z) (st : State) : list SecurityEvent :=
  let m := metrics st in
  let threshold := failureRatePercent (config st) in
  let overall :=
    if gtb (overallFailureRate m) (Fin threshold)
    then [ {| ev_type := MULTIPLE_FAILURES;
              ev_keyHash := "system";
              ev_timestamp := now;
              ev_details :=
                [ ("failureRate", VNumber (overallFailureRate m));
                  ("threshold", VNumber (Fin threshold));
                  ("totalRequests", VNumber (ofNat (totalRequests m)));
                  ("failedRequests", VNumber (ofNat (failedAuthentications m))) ];
              ev_severity := critical |} ]
    else [] in
  fold_left
    (fun alerts kv =>
       let keyFailureRate := getKeyFailureRate (fst kv) st in
       if gtb keyFailureRate (Fin threshold) && (10 <=? ks_requestCount (snd kv))%nat
       then alerts ++
            [ {| ev_type := MULTIPLE_FAILURES;
                 ev_keyHash := fst kv;
                 ev_timestamp := now;
                 ev_details :=
                   [ ("failureRate", VNumber keyFailureRate);
                     ("threshold", VNumber (Fin threshold));
                     ("requestCount", VNumber (ofNat (ks_requestCount (snd kv))));
                     ("errorCount", VNumber (ofNat (ks_errorCount (snd kv)))) ];
                 ev_severity := high |} ]
       else alerts)
    (keyUsageStats m) overall.

(** [reset()] *)
Definition reset (st : State) : State := create (config st).

(** [cleanupOldData()], as the cleanup timer runs it at time [now] *)
Definition cleanupOldData (now : Z) (st : State) : State :=
  let cutoff := cutoffTime now (config st) in
  let events :=
    List.filter (fun event => laterThan cutoff (ev_timestamp event)) (securityEvents st) in
  let stats :=
    fold_left
      (fun m kv =>
         if earlierThan cutoff (ks_lastUsed (snd kv)) then OrderedMap.delete (fst kv) m
         else m)
      (keyUsageStats (metrics st)) (keyUsageStats (metrics st)) in
  withMetrics (withKeyUsageStats (length stats) stats (metrics st)) (withEvents events st).

(** What happens to a collector: the calls of its users and the runs of
    its cleanup timer. *)
Inductive Call : Type :=
| RecordAuthentication (now : Z) (result : AuthenticationResult)
| RecordCacheAccess (hit : bool)
| RecordSecurityEvent (now : Z) (event : SecurityEvent)
| Reset
| CleanupOldData (now : Z).

Definition call (st : State) (c : Call) : State :=
  match c with
  | RecordAuthentication now result => recordAuthentication now result st
  | RecordCacheAccess hit => recordCacheAccess hit st
  | RecordSecurityEvent now event => recordSecurityEvent now event st
  | Reset => reset st
  | CleanupOldData now => cleanupOldData now st
  end.

(** A collector constructed with [cfg], after the calls [cs]. *)
Definition after (cfg : MetricsConfig) (cs : list Call) : State :=
  fold_left call cs (create cfg).

End MetricsCollector.

Module MetricsFacts.
Import Js MetricsCollector.

(** The requests and the failures counted under the keys of the per-key
    statistics. *)
Definition requestsByKey (m : AuthMetrics) : nat :=
  list_sum (map ks_requestCount (OrderedMap.values (keyUsageStats m))).

Definition errorsByKey (m : AuthMetrics) : nat :=
  list_sum (map ks_errorCount (OrderedMap.values (keyUsageStats m))).

(** The authentication times a collector has been given since it was
    last reset, oldest first. *)
Definition timingsGiven (cs : list Call) : list Z :=
  fold_left
    (fun ts c =>
       match c with
       | RecordAuthentication _ result =>
           match ar_authTime result with
           | Some t => ts ++ [t]
           | None => ts
           end
       | Reset => []
       | _ => ts
       end)
    cs [].

(** The cache hits and misses a collector has been given since it was
    last reset. *)
Definition accessesGiven (cs : list Call) : nat * nat :=
  fold_left
    (fun counters c =>
       match c with
       | RecordCacheAccess true => (S (fst counters), snd counters)
       | RecordCacheAccess false => (fst counters, S (snd counters))
       | Reset => (0, 0)%nat
       | _ => counters
       end)
    cs (0, 0)%nat.

(** The last [n] elements of a list. *)
Definition lastN {A : Type} (n : nat) (l : list A) : list A :=
  drop (length l - n) l.

(** No call of [cs] is a run of the cleanup. *)
Definition noCleanup (cs : list Call) : bool :=
  forallb (fun c => match c with CleanupOldData _ => false | _ => true end) cs.

(** The counters of the requests agree with each other. *)
Definition countersAgree (m : AuthMetrics) : Prop :=
  totalRequests m = (authenticatedRequests m + failedAuthentications m)%nat
  /\ (fallbackRequests m <= authenticatedRequests m)%nat
  /\ (rateLimitedRequests m <= totalRequests m)%nat.

(** The statistics of one key agree with each other. *)
Definition keyStatsAgree (kv : string * KeyUsageStats) : Prop :=
  ks_keyHash (snd kv) = fst kv
  /\ (1 <= ks_requestCount (snd kv))%nat
  /\ (ks_errorCount (snd kv) <= ks_requestCount (snd kv))%nat
  /\ (ks_rateLimitedCount (snd kv) <= ks_requestCount (snd kv))%nat.

(** The per-key statistics agree with the counters. *)
Definition keysAgree (m : AuthMetrics) : Prop :=
  NoDup (OrderedMap.keys (keyUsageStats m))
  /\ uniqueApiKeys m = length (keyUsageStats m)
  /\ Forall keyStatsAgree (keyUsageStats m)
  /\ (requestsByKey m <= totalRequests m)%nat
  /\ (errorsByKey m <= failedAuthentications m)%nat.

(** The hit rate of [hits] hits and [misses] misses, in percent. *)
Definition hitRate (hits misses : nat) : number :=
  if (0 <? hits + misses)%nat
  then Fin (inject_Z (Z.of_nat hits) / inject_Z (Z.of_nat (hits + misses)) * 100)
  else ofZ 0.

(** The mean of a list of times, 0 for none. *)
Definition mean (ts : list Z) : number :=
  match ts with
  | [] => ofZ 0
  | _ => Fin (inject_Z (fold_left Z.add ts 0) / inject_Z (Z.of_nat (length ts)))
  end.

(** The counters and the per-key statistics once [recordAuthentication]
    has counted [result]. *)
Definition counted (now : Z) (result : AuthenticationResult) (m : AuthMetrics)
  : AuthMetrics :=
  updateKeyStats now (ar_keyHash result) result
    (if ar_rateLimited result then countRateLimited (countRequest result m)
     else countRequest result m).

(** The collector once [recordAuthentication] has taken the time of
    [result]. *)
Definition timed (result : AuthenticationResult) (st : State) : State :=
  match ar_authTime result with
  | Some t => updateAverageAuthTime (withTimings (authTimings st ++ [t]) st)
  | None => st
  end.

Definition failing (keyHash : string) (t : option Z) : AuthenticationResult :=
  {| ar_success := false; ar_keyHash := keyHash; ar_usedFallback := false;
     ar_rateLimited := false; ar_authTime := t; ar_errorMessage := Some "Invalid API key" |}.

Definition passing (keyHash : string) (t : option Z) : AuthenticationResult :=
  {| ar_success := true; ar_keyHash := keyHash; ar_usedFallback := false;
     ar_rateLimited := false; ar_authTime := t; ar_errorMessage := None |}.

(** A collector that is switched off, and a short history of calls. *)
Definition disabledConfig : MetricsConfig :=
  {| enabled := false;
     retentionPeriodHours := 24;
     failureRatePercent := 10;
     rateLimitThreshold := 100;
     suspiciousActivityThreshold := 50;
     cleanupIntervalMinutes := 60 |}.

Definition sampleCalls : list Call :=
  [ RecordAuthentication 1000 (failing "k1" (Some 5));
    RecordCacheAccess true;
    RecordAuthentication 2000 (passing "k1" (Some 7));
    RecordCacheAccess false ].

End MetricsFacts.

(* ===================================================================== *)
(** * Properties                                                           *)
(* ===================================================================== *)

Import Js Types Env.

(** ** JavaScript numbers *)

Lemma positive_count_nonzero (n : nat) :
  (0 < n)%nat -> Qeq_bool (inject_Z (Z.of_nat n)) 0 = false.
Proof.
  intros Hn. destruct (Qeq_bool (inject_Z (Z.of_nat n)) 0) eqn:E; [|reflexivity].
  apply Qeq_bool_eq in E. unfold Qeq in E. simpl in E. lia.
Qed.

Lemma div_by_count_finite (a : Q) (n : nat) :
  (0 < n)%nat -> Js.div a (inject_Z (Z.of_nat n)) = Fin (a / inject_Z (Z.of_nat n)).
Proof.
  intros Hn. unfold Js.div. now rewrite positive_count_nonzero.
Qed.

(** ** The mock service: counting results *)

Lemma count_success_failed {T : Type} (rs : list (BatchFileResult T)) :
  (countSuccess rs + countFailed rs = length rs)%nat.
Proof.
  unfold countSuccess, countFailed.
  induction rs as [|r rs IH]; simpl; [reflexivity|].
  destruct (success r); simpl; lia.
Qed.

(** Each turn of the upload loop adds exactly one entry, until it throws. *)
Lemma uploadLoop_length w options filePaths :
  forall results st rs st',
    Mock.uploadLoop w options filePaths results st = (Return rs, st') ->
    length rs = (length results + length filePaths)%nat.
Proof.
  induction filePaths as [|p rest IH]; intros results st rs st' H; simpl in H.
  - inversion H; subst. simpl. lia.
  - destruct (Mock.uploadFile w _ st) as [[u|e] st1].
    + apply IH in H. rewrite H, length_app. simpl. lia.
    + destruct (Mock.stopOnError continueOnError options); [discriminate|].
      apply IH in H. rewrite H, length_app. simpl. lia.
Qed.

Lemma downloadLoop_length w options cids :
  forall results st rs st',
    Mock.downloadLoop w options cids results st = (Return rs, st') ->
    length rs = (length results + length cids)%nat.
Proof.
  induction cids as [|c rest IH]; intros results st rs st' H; simpl in H.
  - inversion H; subst. simpl. lia.
  - destruct (Mock.fetchFile w _ st) as [[u|e] st1].
    + apply IH in H. rewrite H, length_app. simpl. lia.
    + destruct (Mock.stopOnError d_continueOnError options); [discriminate|].
      apply IH in H. rewrite H, length_app. simpl. lia.
Qed.

Lemma summarize_finite {T : Type} (n : nat) (t0 t1 : Z) (rs : list (BatchFileResult T)) :
  Js.isFinite (successRate (Mock.summarize n t0 t1 rs)) = true /\
  Js.isFinite (averageDuration (Mock.summarize n t0 t1 rs)) = true.
Proof.
  unfold Mock.summarize; simpl. split.
  - destruct (0 <? n)%nat eqn:E; [|reflexivity].
    apply Nat.ltb_lt in E. now rewrite div_by_count_finite.
  - destruct (0 <? length rs)%nat eqn:E; [|reflexivity].
    apply Nat.ltb_lt in E. now rewrite div_by_count_finite.
Qed.

(** C10: on an empty input both mock batch methods return the all-zero
    aggregate with an empty result list, from any state and with any
    options; and on every input the two divisions are guarded: whenever a
    result is returned, [successRate] and [averageDuration] are finite
    numbers (never the [NaN] or infinity of a division by zero). *)
Theorem mock_batch_empty_input :
  (forall w options st,
      Mock.batchUploadFiles w [] options st =
      (Return {| total := 0; successful := 0; failed := 0; results := [];
                 totalDuration := 0; averageDuration := Js.ofZ 0;
                 successRate := Js.ofZ 0 |}, st)) /\
  (forall w options st,
      Mock.batchDownloadFiles w [] options st =
      (Return {| total := 0; successful := 0; failed := 0; results := [];
                 totalDuration := 0; averageDuration := Js.ofZ 0;
                 successRate := Js.ofZ 0 |}, st)) /\
  (forall w filePaths options st,
      match fst (Mock.batchUploadFiles w filePaths options st) with
      | Return r =>
          Js.isFinite (successRate r) = true /\ Js.isFinite (averageDuration r) = true
      | Throw _ => True
      end) /\
  (forall w cids options st,
      match fst (Mock.batchDownloadFiles w cids options st) with
      | Return r =>
          Js.isFinite (successRate r) = true /\ Js.isFinite (averageDuration r) = true
      | Throw _ => True
      end).
Proof.
  split; [|split; [|split]].
  - intros w options st. unfold Mock.batchUploadFiles, Mock.summarize; simpl.
    now rewrite Z.sub_diag.
  - intros w options st. unfold Mock.batchDownloadFiles, Mock.summarize; simpl.
    now rewrite Z.sub_diag.
  - intros w filePaths options st. unfold Mock.batchUploadFiles.
    destruct (Mock.uploadLoop w options filePaths [] st) as [[rs|e] st1]; simpl;
      [apply summarize_finite | exact I].
  - intros w cids options st. unfold Mock.batchDownloadFiles.
    destruct (Mock.downloadLoop w options cids [] st) as [[rs|e] st1]; simpl;
      [apply summarize_finite | exact I].
Qed.

(** Every result the mock returns counts each input once: the successes
    and the failures add up to [total], which is the length of
    [results]. *)
Lemma mock_upload_counts w filePaths options st r st' :
  Mock.batchUploadFiles w filePaths options st = (Return r, st') ->
  total r = length filePaths /\ length (results r) = total r /\
  (successful r + failed r = total r)%nat.
Proof.
  unfold Mock.batchUploadFiles. intros H.
  destruct (Mock.uploadLoop w options filePaths [] st) as [[rs|e] st1] eqn:E; [|discriminate].
  inversion H; subst; clear H. apply uploadLoop_length in E. simpl in *.
  repeat split; try assumption. rewrite count_success_failed. assumption.
Qed.

Lemma mock_download_counts w cids options st r st' :
  Mock.batchDownloadFiles w cids options st = (Return r, st') ->
  total r = length cids /\ length (results r) = total r /\
  (successful r + failed r = total r)%nat.
Proof.
  unfold Mock.batchDownloadFiles. intros H.
  destruct (Mock.downloadLoop w options cids [] st) as [[rs|e] st1] eqn:E; [|discriminate].
  inversion H; subst; clear H. apply downloadLoop_length in E. simpl in *.
  repeat split; try assumption. rewrite count_success_failed. assumption.
Qed.

(** The rate the mock reports is the success fraction times one hundred. *)
Lemma mock_success_rate_formula {T : Type} (n : nat) (t0 t1 : Z)
    (rs : list (BatchFileResult T)) :
  (0 < n)%nat ->
  successRate (Mock.summarize n t0 t1 rs) =
  Fin (inject_Z (Z.of_nat (countSuccess rs)) / inject_Z (Z.of_nat n) * 100).
Proof.
  intros Hn. unfold Mock.summarize; simpl.
  apply Nat.ltb_lt in Hn as Hb. rewrite Hb.
  now rewrite div_by_count_finite.
Qed.

(** The rate the SDK reports is the success fraction itself. *)
Lemma sdk_success_rate_formula {T : Type} (n : nat) (d : Z)
    (rs : list (BatchFileResult T)) :
  (0 < n)%nat ->
  successRate (Sdk.operationResult n d rs) =
  Fin (inject_Z (Z.of_nat (countSuccess rs)) / inject_Z (Z.of_nat n)).
Proof.
  intros Hn. unfold Sdk.operationResult; simpl.
  apply Nat.ltb_lt in Hn as Hb. rewrite Hb.
  now rewrite div_by_count_finite.
Qed.

(** C1: one file, uploaded successfully through
    [MockLighthouseService.batchUploadFiles]: [successful] and [total]
    are both 1 and add up, but the reported [successRate] is 100, not the
    fraction successful/total = 1 that the claim and the interface
    ("Success rate (0-1)") call for. *)
Theorem mock_success_rate_is_a_percentage :
  match fst (Mock.batchUploadFiles Fixtures.world ["/data/a.txt"]
               (Some (Fixtures.uploadOptions (Some true))) (Mock.create 0)) with
  | Return r =>
      total r = 1%nat /\ successful r = 1%nat /\ failed r = 0%nat /\
      exists q, successRate r = Fin q /\ (q == 100)%Q /\
                ~ (q == inject_Z (Z.of_nat (successful r)) / inject_Z (Z.of_nat (total r)))%Q /\
                ~ (q <= 1)%Q
  | Throw _ => False
  end.
Proof.
  vm_compute. repeat split; try reflexivity.
  eexists. split; [reflexivity|]. split; [reflexivity|]. split.
  - discriminate.
  - intros H. apply H. reflexivity.
Qed.

(** ** The mock service: stopping at the first error *)

Lemma uploadLoop_app w options l1 l2 :
  forall results st,
    Mock.uploadLoop w options (l1 ++ l2) results st =
    match Mock.uploadLoop w options l1 results st with
    | (Return rs, st1) => Mock.uploadLoop w options l2 rs st1
    | (Throw e, st1) => (Throw e, st1)
    end.
Proof.
  induction l1 as [|p l1 IH]; intros results st; simpl; [reflexivity|].
  destruct (Mock.uploadFile w _ st) as [[u|e] st1]; [apply IH|].
  destruct (Mock.stopOnError continueOnError options); [reflexivity|apply IH].
Qed.

Lemma downloadLoop_app w options l1 l2 :
  forall results st,
    Mock.downloadLoop w options (l1 ++ l2) results st =
    match Mock.downloadLoop w options l1 results st with
    | (Return rs, st1) => Mock.downloadLoop w options l2 rs st1
    | (Throw e, st1) => (Throw e, st1)
    end.
Proof.
  induction l1 as [|p l1 IH]; intros results st; simpl; [reflexivity|].
  destruct (Mock.fetchFile w _ st) as [[u|e] st1]; [apply IH|].
  destruct (Mock.stopOnError d_continueOnError options); [reflexivity|apply IH].
Qed.

(** When the loop stops on errors, a result list it returns holds no
    failed entry beyond those it started with. *)
Lemma uploadLoop_stop_no_failure w options filePaths :
  Mock.stopOnError continueOnError options = true ->
  forall results st rs st',
    Mock.uploadLoop w options filePaths results st = (Return rs, st') ->
    countFailed rs = countFailed results.
Proof.
  intros Hstop. induction filePaths as [|p rest IH]; intros results st rs st' H; simpl in H.
  - now inversion H.
  - destruct (Mock.uploadFile w _ st) as [[u|e] st1].
    + apply IH in H. rewrite H. unfold countFailed. rewrite List.filter_app, length_app.
      simpl. lia.
    + rewrite Hstop in H. discriminate.
Qed.

Lemma downloadLoop_stop_no_failure w options cids :
  Mock.stopOnError d_continueOnError options = true ->
  forall results st rs st',
    Mock.downloadLoop w options cids results st = (Return rs, st') ->
    countFailed rs = countFailed results.
Proof.
  intros Hstop. induction cids as [|p rest IH]; intros results st rs st' H; simpl in H.
  - now inversion H.
  - destruct (Mock.fetchFile w _ st) as [[u|e] st1].
    + apply IH in H. rewrite H. unfold countFailed. rewrite List.filter_app, length_app.
      simpl. lia.
    + rewrite Hstop in H. discriminate.
Qed.

(** The mock re-throws the first error: when the files before [p] go
    through and the upload of [p] throws [e], the batch throws [e] and
    returns no result, whatever follows [p]. *)
Lemma mock_upload_rethrows_first_error w options before p after st rs st1 e st2 :
  Mock.stopOnError continueOnError options = true ->
  Mock.uploadLoop w options before [] st = (Return rs, st1) ->
  Mock.uploadFile w
    {| Mock.up_filePath := p;
       Mock.up_encrypt := Mock.optField encrypt options;
       Mock.up_accessConditions := Mock.optField accessConditions options;
       Mock.up_tags := Mock.optField tags options |} st1 = (Throw e, st2) ->
  Mock.batchUploadFiles w (before ++ p :: after) options st = (Throw e, st2).
Proof.
  intros Hstop Hbefore Hp. unfold Mock.batchUploadFiles.
  rewrite uploadLoop_app, Hbefore. simpl. now rewrite Hp, Hstop.
Qed.

(** C3: [MockLighthouseService.batchUploadFiles] called without options
    (or with options that leave [continueOnError] out) throws the error
    of the first failing file and never reaches the second file, whereas
    with [continueOnError: true] the same call returns the aggregate with
    one failure and one success.  The default is therefore "stop", not
    the documented [true]. *)
Theorem mock_default_stops_on_first_error :
  fst (Mock.batchUploadFiles Fixtures.world ["/nope"; "/data/a.txt"] None (Mock.create 0))
  = Throw (newError "File not found: /nope") /\
  fst (Mock.batchUploadFiles Fixtures.world ["/nope"; "/data/a.txt"]
         (Some (Fixtures.uploadOptions None)) (Mock.create 0))
  = Throw (newError "File not found: /nope") /\
  fst (Mock.batchDownloadFiles Fixtures.world ["Qm/missing"] None (Mock.create 0))
  = Throw (newError "File not found: Qm/missing") /\
  match fst (Mock.batchUploadFiles Fixtures.world ["/nope"; "/data/a.txt"]
               (Some (Fixtures.uploadOptions (Some true))) (Mock.create 0)) with
  | Return r => total r = 2%nat /\ failed r = 1%nat /\ successful r = 1%nat
  | Throw _ => False
  end.
Proof.
  repeat split; vm_compute; reflexivity.
Qed.

(** The SDK and the tools do default to [true]. *)
Lemma sdk_default_continue k operationId n c r cb :
  Sdk.processorConfig k operationId n c None r cb =
  Sdk.processorConfig k operationId n c (Some true) r cb.
Proof. reflexivity. Qed.

Lemma tools_default_continue (params : Tools.BatchUploadParams) :
  Tools.u_continueOnError params = VUndefined ->
  continueOnError (Tools.uploadOptions params) = Some true.
Proof. intros H. unfold Tools.uploadOptions. simpl. now rewrite H. Qed.

(** ** The batch tools: the concurrency argument *)

Lemma concurrency_rejected_iff (q : Q) :
  Tools.concurrencyRejected (VNumber (Fin q)) = true <-> (q < 1 \/ 10 < q)%Q.
Proof.
  unfold Tools.concurrencyRejected, Js.gtb, Js.ltb, Js.ofZ.
  rewrite orb_true_iff, !andb_true_iff, !negb_true_iff, !Qle_bool_iff.
  change (inject_Z 1) with 1%Q. change (inject_Z 10) with 10%Q.
  split.
  - intros [[Hle Hne]|[Hle Hne]].
    + left. apply Qle_lteq in Hle as [Hlt|Heq]; [assumption|].
      apply Qeq_bool_iff in Heq. congruence.
    + right. apply Qle_lteq in Hle as [Hlt|Heq]; [assumption|].
      apply Qeq_bool_iff in Heq. congruence.
  - intros [Hlt|Hlt].
    + left. split; [now apply Qlt_le_weak|].
      destruct (Qeq_bool q 1) eqn:E; [|reflexivity].
      apply Qeq_bool_iff in E. rewrite E in Hlt. now apply Qlt_irrefl in Hlt.
    + right. split; [now apply Qlt_le_weak|].
      destruct (Qeq_bool 10 q) eqn:E; [|reflexivity].
      apply Qeq_bool_iff in E. rewrite E in Hlt. now apply Qlt_irrefl in Hlt.
Qed.

Lemma concurrency_accepted_iff (q : Q) :
  Tools.concurrencyRejected (VNumber (Fin q)) = false <-> (1 <= q /\ q <= 10)%Q.
Proof.
  split.
  - intros H. split; apply Qnot_lt_le; intros Hlt;
      (assert (Tools.concurrencyRejected (VNumber (Fin q)) = true)
         by (apply concurrency_rejected_iff; auto)); congruence.
  - intros [H1 H10].
    destruct (Tools.concurrencyRejected (VNumber (Fin q))) eqn:E; [|reflexivity].
    apply concurrency_rejected_iff in E as [Hlt|Hlt].
    + exfalso. apply (Qlt_not_le _ _ Hlt H1).
    + exfalso. apply (Qlt_not_le _ _ Hlt H10).
Qed.

(** Only one check of [validateParams] looks at [concurrency]: if the
    request passes without the argument, then with the argument it passes
    or fails on that check alone. *)
Lemma validateUpload_concurrency w params c :
  Tools.validateUploadParams w (Requests.uploadWithConcurrency VUndefined params) = None ->
  Tools.validateUploadParams w (Requests.uploadWithConcurrency c params) =
  if negb (isUndefined c) && Tools.concurrencyRejected c
  then Some "concurrency must be a number between 1 and 10"%string
  else None.
Proof.
  unfold Tools.validateUploadParams, Requests.uploadWithConcurrency; simpl.
  destruct (Tools.u_filePaths params) as [| | | | |paths|]; try discriminate.
  destruct (length paths =? 0)%nat; try discriminate.
  destruct (100 <? length paths)%nat; try discriminate.
  destruct (Tools.checkFilePaths w paths [] []) as [err|[invalidFiles oversizedFiles]];
    try discriminate.
  destruct (0 <? length invalidFiles)%nat; try discriminate.
  destruct (0 <? length oversizedFiles)%nat; try discriminate.
  intros H.
  destruct (negb (isUndefined c) && Tools.concurrencyRejected c); [reflexivity|exact H].
Qed.

Lemma validateDownload_concurrency w params c :
  Tools.validateDownloadParams w (Requests.downloadWithConcurrency VUndefined params) = None ->
  Tools.validateDownloadParams w (Requests.downloadWithConcurrency c params) =
  if negb (isUndefined c) && Tools.concurrencyRejected c
  then Some "concurrency must be a number between 1 and 10"%string
  else None.
Proof.
  unfold Tools.validateDownloadParams, Requests.downloadWithConcurrency; simpl.
  destruct (Tools.b_cids params) as [| | | | |cids|]; try discriminate.
  destruct (length cids =? 0)%nat; try discriminate.
  destruct (100 <? length cids)%nat; try discriminate.
  destruct (0 <? length (List.filter _ cids))%nat; try discriminate.
  destruct (if truthy (Tools.b_outputDir params) then _ else _); try discriminate.
  intros H.
  destruct (negb (isUndefined c) && Tools.concurrencyRejected c); [reflexivity|exact H].
Qed.

(** C6, as the claim states it, fails: a request for one existing file
    with [concurrency: 20] is refused with the validation error and the
    service is left untouched, although the same request with
    [concurrency: 10] is carried out.  Nothing is clamped. *)
Lemma tool_refuses_concurrency_20 :
  let refusedUpload :=
    Tools.executeUpload Fixtures.world (Tools.mockService Fixtures.world)
      (Requests.oneFile (VNumber (Js.ofZ 20))) (Mock.create 0) in
  let refusedDownload :=
    Tools.executeDownload Fixtures.world (Tools.mockService Fixtures.world)
      (Requests.oneCid (VNumber (Js.ofZ 0))) (Mock.create 0) in
  let accepted :=
    Tools.executeUpload Fixtures.world (Tools.mockService Fixtures.world)
      (Requests.oneFile (VNumber (Js.ofZ 10))) (Mock.create 0) in
  Requests.refusedForConcurrency (fst refusedUpload) /\
  Mock.fileStore (snd refusedUpload) = ∅ /\
  Mock.clock (snd refusedUpload) = 0 /\
  Requests.refusedForConcurrency (fst refusedDownload) /\
  Tools.tr_success (fst accepted) = true /\
  Mock.currentStorageSize (snd accepted) = 10.
Proof. vm_compute. repeat split. Qed.

(** What [execute] does with a request that [validateParams] accepts:
    it makes one call to the batch method of the service, with the file
    paths (or CIDs) and the options built from the request, and answers
    from the outcome of that call. *)
Lemma executeUpload_answers {S : Type} w (service : Tools.Service S) batchUpload params st :
  Tools.validateUploadParams w params = None ->
  Tools.batchUploadFiles service = Some batchUpload ->
  Requests.answeredFrom Tools.uploadResponseItem "Batch upload failed: "
    (batchUpload (Requests.filePathsOf params) (Some (Tools.uploadOptions params)) st)
    (Tools.executeUpload w service params st).
Proof.
  intros Hok Hservice. unfold Requests.answeredFrom, Tools.executeUpload.
  rewrite Hok, Hservice. fold (Requests.filePathsOf params).
  destruct (batchUpload (Requests.filePathsOf params) (Some (Tools.uploadOptions params)) st)
    as [[result|err] st']; cbn; repeat split.
Qed.

Lemma executeDownload_answers {S : Type} w (service : Tools.Service S) batchDownload
    params st :
  Tools.validateDownloadParams w params = None ->
  Tools.batchDownloadFiles service = Some batchDownload ->
  Requests.answeredFrom Tools.downloadResponseItem "Batch download failed: "
    (batchDownload (Requests.cidsOf params) (Some (Tools.downloadOptions params)) st)
    (Tools.executeDownload w service params st).
Proof.
  intros Hok Hservice. unfold Requests.answeredFrom, Tools.executeDownload.
  rewrite Hok, Hservice. fold (Requests.cidsOf params).
  destruct (batchDownload (Requests.cidsOf params) (Some (Tools.downloadOptions params)) st)
    as [[result|err] st']; cbn; repeat split.
Qed.

Lemma concurrency_in_range_passed (q : Q) :
  (1 <= q /\ q <= 10)%Q ->
  Tools.asNumber (Js.or (VNumber (Fin q)) (VNumber (Js.ofZ 3))) = Some (Fin q).
Proof.
  intros [H1 _]. unfold Js.or; simpl.
  destruct (Qeq_bool q 0) eqn:E; [|reflexivity].
  apply Qeq_bool_iff in E. rewrite E in H1.
  exfalso. revert H1. apply Qlt_not_le. reflexivity.
Qed.

(** C6 (amended): the batch tools validate [concurrency] and do not
    clamp it.  For a request that is acceptable without the argument:
    when [concurrency] is left out, [execute] calls the service with the
    concurrency 3; a number in the range 1 to 10 is accepted and
    [execute] calls the service with that number, unchanged; and a number
    below 1 or above 10 makes the tool refuse the request with
    "concurrency must be a number between 1 and 10", without calling the
    service (whatever the service is, its state is unchanged).  That
    [execute] calls the service with a concurrency is said twice: for
    every service, [execute] leaves the service as one call of its batch
    method with that concurrency leaves it, and answers from the outcome
    of that call; and a service that records its calls has recorded
    exactly that call. *)
Theorem tool_concurrency_is_validated :
  (forall w (params : Tools.BatchUploadParams),
      Tools.validateUploadParams w (Requests.uploadWithConcurrency VUndefined params) = None ->
      concurrency (Tools.uploadOptions (Requests.uploadWithConcurrency VUndefined params))
      = Some (Js.ofZ 3) /\
      (forall S (service : Tools.Service S) batchUpload (st : S),
         Tools.batchUploadFiles service = Some batchUpload ->
         Requests.answeredFrom Tools.uploadResponseItem "Batch upload failed: "
           (batchUpload (Requests.filePathsOf params)
              (Some (Tools.uploadOptions (Requests.uploadWithConcurrency VUndefined params)))
              st)
           (Tools.executeUpload w service
              (Requests.uploadWithConcurrency VUndefined params) st)) /\
      snd (Tools.executeUpload w Requests.recorder
             (Requests.uploadWithConcurrency VUndefined params) [])
      = [ Requests.UploadCall (Requests.filePathsOf params)
            (Some (Tools.uploadOptions (Requests.uploadWithConcurrency VUndefined params))) ] /\
      (forall q, (1 <= q /\ q <= 10)%Q ->
         Tools.validateUploadParams w
           (Requests.uploadWithConcurrency (VNumber (Fin q)) params) = None /\
         concurrency (Tools.uploadOptions
                        (Requests.uploadWithConcurrency (VNumber (Fin q)) params))
         = Some (Fin q) /\
         (forall S (service : Tools.Service S) batchUpload (st : S),
            Tools.batchUploadFiles service = Some batchUpload ->
            Requests.answeredFrom Tools.uploadResponseItem "Batch upload failed: "
              (batchUpload (Requests.filePathsOf params)
                 (Some (Tools.uploadOptions
                          (Requests.uploadWithConcurrency (VNumber (Fin q)) params)))
                 st)
              (Tools.executeUpload w service
                 (Requests.uploadWithConcurrency (VNumber (Fin q)) params) st)) /\
         snd (Tools.executeUpload w Requests.recorder
                (Requests.uploadWithConcurrency (VNumber (Fin q)) params) [])
         = [ Requests.UploadCall (Requests.filePathsOf params)
               (Some (Tools.uploadOptions
                        (Requests.uploadWithConcurrency (VNumber (Fin q)) params))) ]) /\
      (forall q S (service : Tools.Service S) (st : S), (q < 1 \/ 10 < q)%Q ->
         let res := Tools.executeUpload w service
                      (Requests.uploadWithConcurrency (VNumber (Fin q)) params) st in
         Requests.refusedForConcurrency (fst res) /\ snd res = st)) /\
  (forall w (params : Tools.BatchDownloadParams),
      Tools.validateDownloadParams w (Requests.downloadWithConcurrency VUndefined params) = None ->
      d_concurrency (Tools.downloadOptions (Requests.downloadWithConcurrency VUndefined params))
      = Some (Js.ofZ 3) /\
      (forall S (service : Tools.Service S) batchDownload (st : S),
         Tools.batchDownloadFiles service = Some batchDownload ->
         Requests.answeredFrom Tools.downloadResponseItem "Batch download failed: "
           (batchDownload (Requests.cidsOf params)
              (Some (Tools.downloadOptions
                       (Requests.downloadWithConcurrency VUndefined params)))
              st)
           (Tools.executeDownload w service
              (Requests.downloadWithConcurrency VUndefined params) st)) /\
      snd (Tools.executeDownload w Requests.recorder
             (Requests.downloadWithConcurrency VUndefined params) [])
      = [ Requests.DownloadCall (Requests.cidsOf params)
            (Some (Tools.downloadOptions
                     (Requests.downloadWithConcurrency VUndefined params))) ] /\
      (forall q, (1 <= q /\ q <= 10)%Q ->
         Tools.validateDownloadParams w
           (Requests.downloadWithConcurrency (VNumber (Fin q)) params) = None /\
         d_concurrency (Tools.downloadOptions
                          (Requests.downloadWithConcurrency (VNumber (Fin q)) params))
         = Some (Fin q) /\
         (forall S (service : Tools.Service S) batchDownload (st : S),
            Tools.batchDownloadFiles service = Some batchDownload ->
            Requests.answeredFrom Tools.downloadResponseItem "Batch download failed: "
              (batchDownload (Requests.cidsOf params)
                 (Some (Tools.downloadOptions
                          (Requests.downloadWithConcurrency (VNumber (Fin q)) params)))
                 st)
              (Tools.executeDownload w service
                 (Requests.downloadWithConcurrency (VNumber (Fin q)) params) st)) /\
         snd (Tools.executeDownload w Requests.recorder
                (Requests.downloadWithConcurrency (VNumber (Fin q)) params) [])
         = [ Requests.DownloadCall (Requests.cidsOf params)
               (Some (Tools.downloadOptions
                        (Requests.downloadWithConcurrency (VNumber (Fin q)) params))) ]) /\
      (forall q S (service : Tools.Service S) (st : S), (q < 1 \/ 10 < q)%Q ->
         let res := Tools.executeDownload w service
                      (Requests.downloadWithConcurrency (VNumber (Fin q)) params) st in
         Requests.refusedForConcurrency (fst res) /\ snd res = st)).
Proof.
  split.
  - intros w params Hok. split; [reflexivity|].
    split; [intros S service batchUpload st Hs;
            exact (executeUpload_answers w service batchUpload _ st Hok Hs)|].
    split; [exact (proj1 (executeUpload_answers w Requests.recorder _ _ [] Hok eq_refl))|].
    split.
    + intros q Hq.
      assert (Hokq : Tools.validateUploadParams w
                       (Requests.uploadWithConcurrency (VNumber (Fin q)) params) = None).
      { rewrite (validateUpload_concurrency _ _ _ Hok). simpl.
        apply concurrency_accepted_iff in Hq. simpl in Hq. now rewrite Hq. }
      split; [exact Hokq|].
      split; [unfold Tools.uploadOptions; simpl; now apply concurrency_in_range_passed|].
      split; [intros S service batchUpload st Hs;
              exact (executeUpload_answers w service batchUpload _ st Hokq Hs)|].
      exact (proj1 (executeUpload_answers w Requests.recorder _ _ [] Hokq eq_refl)).
    + intros q S service st Hq. unfold Tools.executeUpload.
      rewrite (validateUpload_concurrency _ _ _ Hok). simpl.
      apply concurrency_rejected_iff in Hq. simpl in Hq. rewrite Hq.
      repeat split.
  - intros w params Hok. split; [reflexivity|].
    split; [intros S service batchDownload st Hs;
            exact (executeDownload_answers w service batchDownload _ st Hok Hs)|].
    split; [exact (proj1 (executeDownload_answers w Requests.recorder _ _ [] Hok eq_refl))|].
    split.
    + intros q Hq.
      assert (Hokq : Tools.validateDownloadParams w
                       (Requests.downloadWithConcurrency (VNumber (Fin q)) params) = None).
      { rewrite (validateDownload_concurrency _ _ _ Hok). simpl.
        apply concurrency_accepted_iff in Hq. simpl in Hq. now rewrite Hq. }
      split; [exact Hokq|].
      split; [unfold Tools.downloadOptions; simpl; now apply concurrency_in_range_passed|].
      split; [intros S service batchDownload st Hs;
              exact (executeDownload_answers w service batchDownload _ st Hokq Hs)|].
      exact (proj1 (executeDownload_answers w Requests.recorder _ _ [] Hokq eq_refl)).
    + intros q S service st Hq. unfold Tools.executeDownload.
      rewrite (validateDownload_concurrency _ _ _ Hok). simpl.
      apply concurrency_rejected_iff in Hq. simpl in Hq. rewrite Hq.
      repeat split.
Qed.

(** ** The SDK: where the circuit breaker sits *)

Ltac split_ifs :=
  repeat match goal with
         | |- context [if ?b then _ else _] => destruct b
         end.

Lemma uploadAttempt_keeps_breaker w net filePath options :
  Frames.keepsBreaker (Sdk.uploadAttempt w net filePath options).
Proof.
  intros st. unfold Sdk.uploadAttempt, Sdk.remoteCall.
  destruct (Sdk.validateFile w filePath); [|reflexivity].
  destruct (Sdk.uploadBuffer net (Sdk.netCalls st) filePath); [reflexivity|].
  split_ifs; try reflexivity.
  destruct (Sdk.directUpload net _ filePath); reflexivity.
Qed.

Lemma uploadAttempt_keeps_metrics w net filePath options :
  Frames.keepsMetrics (Sdk.uploadAttempt w net filePath options).
Proof.
  intros st. unfold Sdk.uploadAttempt, Sdk.remoteCall.
  destruct (Sdk.validateFile w filePath); [|reflexivity].
  destruct (Sdk.uploadBuffer net (Sdk.netCalls st) filePath); [reflexivity|].
  split_ifs; try reflexivity.
  destruct (Sdk.directUpload net _ filePath); reflexivity.
Qed.

(** The retry loop itself never touches the breaker: if no attempt does,
    the breaker comes out of [executeWithRetry] as it went in. *)
Lemma retryLoop_keeps_breaker {A : Type} rc net label
    (fn : Sdk.State -> outcome A * Sdk.State) :
  Frames.keepsBreaker fn ->
  forall fuel attempt st,
    Sdk.circuitBreaker (snd (Sdk.retryLoop rc net label fuel attempt fn st))
    = Sdk.circuitBreaker st.
Proof.
  intros Hfn. induction fuel as [|fuel IH]; intros attempt st; simpl.
  - specialize (Hfn (Sdk.setErrorHandler (ErrorHandler.countAttempt (Sdk.errorHandler st)) st)).
    destruct (fn _) as [[a|e] st']; simpl in *; [exact Hfn|].
    destruct (Sdk.isRetryable net e); exact Hfn.
  - specialize (Hfn (Sdk.setErrorHandler (ErrorHandler.countAttempt (Sdk.errorHandler st)) st)).
    destruct (fn _) as [[a|e] st']; simpl in *; [exact Hfn|].
    destruct (Sdk.isRetryable net e); [|exact Hfn].
    rewrite IH. exact Hfn.
Qed.

(** The loop makes at least one attempt and at most one more than the
    retries it is allowed. *)
Lemma retryLoop_attempts {A : Type} rc net label
    (fn : Sdk.State -> outcome A * Sdk.State) :
  Frames.keepsMetrics fn ->
  forall fuel attempt st,
    let after := ErrorHandler.attempts
                   (Sdk.errorHandler (snd (Sdk.retryLoop rc net label fuel attempt fn st))) in
    let before := ErrorHandler.attempts (Sdk.errorHandler st) in
    (before + 1 <= after <= before + 1 + fuel)%nat.
Proof.
  intros Hfn. induction fuel as [|fuel IH]; intros attempt st; simpl.
  - specialize (Hfn (Sdk.setErrorHandler (ErrorHandler.countAttempt (Sdk.errorHandler st)) st)).
    destruct (fn _) as [[a|e] st']; simpl in *.
    + rewrite Hfn. simpl. lia.
    + destruct (Sdk.isRetryable net e); simpl; rewrite Hfn; simpl; lia.
  - specialize (Hfn (Sdk.setErrorHandler (ErrorHandler.countAttempt (Sdk.errorHandler st)) st)).
    destruct (fn _) as [[a|e] st']; simpl in *.
    + rewrite Hfn. simpl. lia.
    + destruct (Sdk.isRetryable net e); simpl.
      * specialize (IH (S attempt)
                       (Sdk.sleep (ErrorHandler.backoff rc attempt)
                          (Sdk.emit (Sdk.Retry label (S attempt)) st'))).
        simpl in IH. rewrite Hfn in IH. simpl in IH. lia.
      * rewrite Hfn. simpl. lia.
Qed.

Lemma enter_keeps_failureCount cfg now cb :
  CircuitBreaker.failureCount (snd (CircuitBreaker.enter cfg now cb))
  = CircuitBreaker.failureCount cb.
Proof.
  unfold CircuitBreaker.enter.
  destruct (CircuitBreaker.state cb); simpl; try reflexivity.
  - destruct (_ <=? _); reflexivity.
  - destruct (CircuitBreaker.probing cb); reflexivity.
Qed.

Lemma leave_failureCount cfg now probe ok cb :
  (CircuitBreaker.failureCount (CircuitBreaker.leave cfg now probe ok cb)
   <= S (CircuitBreaker.failureCount cb))%nat.
Proof.
  unfold CircuitBreaker.leave, CircuitBreaker.onSuccess, CircuitBreaker.onFailure.
  destruct ok, probe; simpl; try lia.
  destruct (CircuitBreaker.state cb); simpl; try lia.
  destruct (_ <=? _)%nat; simpl; lia.
Qed.

(** C4, as the claim states it, fails: against an endpoint that fails
    every call with a retryable error, one [uploadFile] makes four
    attempts (the first and three retries), more than the failure
    threshold of three, yet the shared circuit breaker has recorded a
    single failure and is still CLOSED; it opens only with the third
    whole [uploadFile].  The attempts do not pass through the breaker one
    by one. *)
Lemma upload_attempts_bypass_breaker :
  let run := Sdk.uploadFile Fixtures.world Fixtures.defaults Fixtures.remoteDown
               "/data/a.txt" Fixtures.plainUpload in
  let st1 := snd (run Fixtures.sdk) in
  let st3 := snd (run (snd (run st1))) in
  CircuitBreaker.failureThreshold (Sdk.breakerConfig Fixtures.defaults) = 3%nat /\
  ErrorHandler.attempts (Sdk.errorHandler st1) = 4%nat /\
  CircuitBreaker.failureCount (Sdk.circuitBreaker st1) = 1%nat /\
  CircuitBreaker.state (Sdk.circuitBreaker st1) = CircuitBreaker.CLOSED /\
  ErrorHandler.attempts (Sdk.errorHandler st3) = 12%nat /\
  CircuitBreaker.failureCount (Sdk.circuitBreaker st3) = 3%nat /\
  CircuitBreaker.state (Sdk.circuitBreaker st3) = CircuitBreaker.OPEN.
Proof. repeat split; vm_compute; reflexivity. Qed.

(** C4 (amended): in [uploadFile] the circuit breaker wraps the whole
    retry loop.  After the rate limiter has let the call through, the
    breaker is entered once: if it rejects, no attempt is made at all;
    otherwise the retry executor makes between one and [maxRetries + 1]
    attempts, none of which touches the breaker, and on the way out the
    breaker records the single overall result, so its failure counter
    grows by at most one per [uploadFile]. *)
Theorem upload_breaker_wraps_retry_loop w d net filePath options st :
  let st0 := snd (Sdk.generateOperationId st) in
  let resume := fst (RateLimiter.acquire (Sdk.clock st0) (Sdk.rateLimiter st0)) in
  let res := Sdk.uploadFile w d net filePath options st in
  match CircuitBreaker.enter (Sdk.breakerConfig d) resume (Sdk.circuitBreaker st) with
  | (CircuitBreaker.Rejected, cb) =>
      fst res = Throw (CircuitBreaker.circuitOpenError "uploadFile") /\
      Sdk.circuitBreaker (snd res) = cb /\
      Sdk.errorHandler (snd res) = Sdk.errorHandler st
  | (CircuitBreaker.LetThrough probe, cb) =>
      Sdk.circuitBreaker (snd res)
      = CircuitBreaker.leave (Sdk.breakerConfig d) (Sdk.clock (snd res)) probe
          (isReturn (fst res)) cb /\
      (ErrorHandler.attempts (Sdk.errorHandler st) + 1
       <= ErrorHandler.attempts (Sdk.errorHandler (snd res))
       <= ErrorHandler.attempts (Sdk.errorHandler st) + 1
          + ErrorHandler.maxRetries (Sdk.retryConfig d (Sdk.sdkConfig st)))%nat /\
      (CircuitBreaker.failureCount (Sdk.circuitBreaker (snd res))
       <= S (CircuitBreaker.failureCount (Sdk.circuitBreaker st)))%nat
  end.
Proof.
  cbv zeta. unfold Sdk.uploadFile, Sdk.executeWithRateLimit, Sdk.breakerExecute.
  unfold Sdk.generateOperationId. cbn [fst snd].
  set (st0 := Sdk.setOpCounter (S (Sdk.opCounter st)) st).
  destruct (RateLimiter.acquire (Sdk.clock st0) (Sdk.rateLimiter st0)) as [resume rl] eqn:Eacq.
  cbn [fst snd].
  set (st1 := Sdk.setClock resume (Sdk.setRateLimiter rl st0)).
  change (Sdk.clock st1) with resume.
  change (Sdk.circuitBreaker st1) with (Sdk.circuitBreaker st).
  pose proof (enter_keeps_failureCount (Sdk.breakerConfig d) resume (Sdk.circuitBreaker st)) as Hfc.
  destruct (CircuitBreaker.enter (Sdk.breakerConfig d) resume (Sdk.circuitBreaker st))
    as [[probe|] cb] eqn:Eenter; simpl in Hfc.
  - unfold Sdk.executeWithRetry.
    set (st2 := Sdk.setCircuitBreaker cb st1).
    pose proof (retryLoop_keeps_breaker
                  (Sdk.retryConfig d (Sdk.sdkConfig st2)) net "upload"
                  (Sdk.uploadAttempt w net filePath options)
                  (uploadAttempt_keeps_breaker w net filePath options)
                  (ErrorHandler.maxRetries (Sdk.retryConfig d (Sdk.sdkConfig st2))) 0%nat st2) as Hcb.
    pose proof (retryLoop_attempts
                  (Sdk.retryConfig d (Sdk.sdkConfig st2)) net "upload"
                  (Sdk.uploadAttempt w net filePath options)
                  (uploadAttempt_keeps_metrics w net filePath options)
                  (ErrorHandler.maxRetries (Sdk.retryConfig d (Sdk.sdkConfig st2))) 0%nat st2) as Hat.
    cbv zeta in Hat.
    destruct (Sdk.retryLoop _ net "upload" _ 0 _ st2) as [r st3]; simpl in *.
    rewrite Hcb. split; [reflexivity|]. split; [exact Hat|].
    rewrite <- Hfc. apply leave_failureCount.
  - simpl. repeat split.
Qed.

(** ** The SDK: what the progress callback is told *)

(** Whatever the processor reports, the SDK passes on
    [total - completed] in the place of the failure count. *)
Lemma sdk_progress_passes_remaining k operationId n completed total st :
  Sdk.progressCalls (Sdk.progressCallback k operationId n true completed total st)
  = Sdk.progressCalls st ++
    [(Z.of_nat completed, Z.of_nat n, Z.of_nat total - Z.of_nat completed)].
Proof. reflexivity. Qed.

(** C5: [batchUpload] of two files that both upload successfully calls
    the caller's [onProgress] with (1, 2, 1) and then (2, 2, 0): after
    the first file the callback is told of one failure although nothing
    has failed, and the batch ends with [failed = 0].  And a batch of one
    file that fails calls it with (1, 1, 0), no failure, while the
    result has [failed = 1].  The third argument is the number of items
    not yet completed, not the number of failures. *)
Theorem sdk_progress_reports_remaining_not_failed :
  let ok := Sdk.batchUpload Fixtures.world Fixtures.defaults Fixtures.remoteUp
              Fixtures.fifo [Fixtures.fileA; Fixtures.fileB]
              (Fixtures.uploadOptions (Some true)) Fixtures.sdk in
  let ko := Sdk.batchUpload Fixtures.world Fixtures.defaults Fixtures.remoteUp
              Fixtures.fifo [Fixtures.fileMissing]
              (Fixtures.uploadOptions (Some true)) Fixtures.sdk in
  match fst ok with
  | Return r => successful r = 2%nat /\ failed r = 0%nat
  | Throw _ => False
  end /\
  Sdk.progressCalls (snd ok) = [(1, 2, 1); (2, 2, 0)] /\
  match fst ko with
  | Return r => successful r = 0%nat /\ failed r = 1%nat
  | Throw _ => False
  end /\
  Sdk.progressCalls (snd ko) = [(1, 1, 0)].
Proof. vm_compute. repeat split. Qed.

(** ** The SDK: [continueOnError] *)

(** C2: [batchUpload] with [continueOnError: false] on a batch whose
    first file does not exist does not re-throw: it returns a result with
    two entries, one failed and one successful (the second file was still
    uploaded).  The option only reaches the processor as
    [retryOnFailure].  The mock service, given the same batch and option,
    throws the first error. *)
Theorem sdk_continueOnError_false_does_not_rethrow :
  match fst (Sdk.batchUpload Fixtures.world Fixtures.defaults Fixtures.remoteUp
               Fixtures.fifo [Fixtures.fileMissing; Fixtures.fileA]
               (Fixtures.uploadOptions (Some false)) Fixtures.sdk) with
  | Return r =>
      total r = 2%nat /\ length (results r) = 2%nat /\
      failed r = 1%nat /\ successful r = 1%nat /\
      map (fun x => error x) (results r) = [Some "File not found: /nope"%string; None]
  | Throw _ => False
  end /\
  BatchProcessor.retryOnFailure
    (Sdk.processorConfig Sdk.Upload "op_0" 2 None (Some false) None true) = false /\
  BatchProcessor.continueOnError
    (Sdk.processorConfig Sdk.Upload "op_0" 2 None (Some false) None true) = None /\
  fst (Mock.batchUploadFiles Fixtures.world ["/nope"; "/data/a.txt"]
         (Some (Fixtures.uploadOptions (Some false))) (Mock.create 0))
  = Throw (newError "File not found: /nope").
Proof. vm_compute. repeat split. Qed.

(** ** The SDK: memory reservations of the batch workers *)

Lemma uploadAttempt_keeps_memory w net filePath options :
  Frames.keepsMemory (Sdk.uploadAttempt w net filePath options).
Proof.
  intros st. unfold Sdk.uploadAttempt, Sdk.remoteCall.
  destruct (Sdk.validateFile w filePath); [|reflexivity].
  destruct (Sdk.uploadBuffer net (Sdk.netCalls st) filePath); [reflexivity|].
  split_ifs; try reflexivity.
  destruct (Sdk.directUpload net _ filePath); reflexivity.
Qed.

Lemma downloadAttempt_keeps_memory net cid outputPath :
  Frames.keepsMemory (Sdk.downloadAttempt net cid outputPath).
Proof.
  intros st. unfold Sdk.downloadAttempt, Sdk.downloadTry, Sdk.remoteCall.
  destruct (String.eqb cid ""); [reflexivity|].
  destruct (negb _ && negb _); [reflexivity|].
  destruct (Sdk.gatewayGet net (Sdk.netCalls st) cid) as [response|e]; [|reflexivity].
  destruct (negb (Sdk.status response =? 200)).
  - destruct (Sdk.status response =? 404); reflexivity.
  - destruct (Sdk.body response) as [bytes|e]; [|reflexivity].
    destruct (bytes =? 0); reflexivity.
Qed.

Lemma retryLoop_keeps_memory {A : Type} rc net label
    (fn : Sdk.State -> outcome A * Sdk.State) :
  Frames.keepsMemory fn ->
  forall fuel attempt st,
    Sdk.memoryManager (snd (Sdk.retryLoop rc net label fuel attempt fn st))
    = Sdk.memoryManager st.
Proof.
  intros Hfn. induction fuel as [|fuel IH]; intros attempt st; simpl.
  - specialize (Hfn (Sdk.setErrorHandler (ErrorHandler.countAttempt (Sdk.errorHandler st)) st)).
    destruct (fn _) as [[a|e] st']; simpl in *; [exact Hfn|].
    destruct (Sdk.isRetryable net e); exact Hfn.
  - specialize (Hfn (Sdk.setErrorHandler (ErrorHandler.countAttempt (Sdk.errorHandler st)) st)).
    destruct (fn _) as [[a|e] st']; simpl in *; [exact Hfn|].
    destruct (Sdk.isRetryable net e); [|exact Hfn].
    rewrite IH. exact Hfn.
Qed.

(** Neither the rate limiter nor the circuit breaker touches the memory
    manager. *)
Lemma executeWithRateLimit_keeps_memory {A : Type} d
    (operation : Sdk.State -> outcome A * Sdk.State) label :
  Frames.keepsMemory operation ->
  Frames.keepsMemory (Sdk.executeWithRateLimit d operation label).
Proof.
  intros Hop st. unfold Sdk.executeWithRateLimit, Sdk.breakerExecute.
  destruct (RateLimiter.acquire _ _) as [resume rl].
  destruct (CircuitBreaker.enter _ _ _) as [[probe|] cb]; [|reflexivity].
  specialize (Hop (Sdk.setCircuitBreaker cb (Sdk.setClock resume (Sdk.setRateLimiter rl st)))).
  destruct (operation _) as [r st']. exact Hop.
Qed.

Lemma uploadFile_keeps_memory w d net filePath options :
  Frames.keepsMemory (Sdk.uploadFile w d net filePath options).
Proof.
  intros st. unfold Sdk.uploadFile, Sdk.generateOperationId.
  rewrite executeWithRateLimit_keeps_memory; [reflexivity|].
  intros s. unfold Sdk.executeWithRetry.
  apply retryLoop_keeps_memory, uploadAttempt_keeps_memory.
Qed.

Lemma downloadFile_keeps_memory d net cid outputPath :
  Frames.keepsMemory (Sdk.downloadFile d net cid outputPath).
Proof.
  intros st. unfold Sdk.downloadFile, Sdk.generateOperationId.
  rewrite executeWithRateLimit_keeps_memory; [reflexivity|].
  intros s. unfold Sdk.executeWithRetry.
  apply retryLoop_keeps_memory, downloadAttempt_keeps_memory.
Qed.

Lemma awaitRelief_reservations operationId st :
  Sdk.memoryManager (Sdk.awaitRelief operationId st) = Sdk.memoryManager st.
Proof.
  unfold Sdk.awaitRelief. destruct (MemoryManager.isUnderBackpressure _); reflexivity.
Qed.

Lemma track_reservations id sz st :
  MemoryManager.reservations (Sdk.memoryManager (Sdk.track id sz st))
  = <[id := sz]> (MemoryManager.reservations (Sdk.memoryManager st)).
Proof. reflexivity. Qed.

Lemma untrack_reservations id st :
  MemoryManager.reservations (Sdk.memoryManager (Sdk.untrack id st))
  = delete id (MemoryManager.reservations (Sdk.memoryManager st)).
Proof. reflexivity. Qed.

Import Duplicates.

(** C7, as the claim states it, fails when a batch names the same file
    twice: both items reserve memory under the one id
    ["upload_" + operationId + "_" + filePath].  With both in flight, the
    second item fails and its [finally] untracks that id: the
    reservation that was there before the second item started (the one
    the first item made, 10 bytes) is gone although the first item is
    still in flight.  So the failed item did not leave the set of
    reservations as it found it. *)
Lemma duplicate_path_drops_reservation :
  reserved firstStarted !! "upload_op_0_/data/a.txt"%string = Some 10 /\
  reserved (snd bothStarted) !! "upload_op_0_/data/a.txt"%string = Some 10 /\
  map BatchProcessor.a_index (BatchProcessor.active (fst bothStarted)) = [0%nat; 1%nat] /\
  map BatchProcessor.a_index (BatchProcessor.active (fst secondSettled)) = [0%nat] /\
  match BatchProcessor.slots (fst secondSettled) !! 1%nat with
  | Some (Some r) => BatchProcessor.br_success r = false
  | _ => False
  end /\
  reserved (snd secondSettled) !! "upload_op_0_/data/a.txt"%string = None /\
  reserved (snd secondSettled) <> reserved firstStarted.
Proof.
  assert (H1 : reserved firstStarted !! "upload_op_0_/data/a.txt"%string = Some 10)
    by (vm_compute; reflexivity).
  assert (H2 : reserved (snd secondSettled) !! "upload_op_0_/data/a.txt"%string = None)
    by (vm_compute; reflexivity).
  split; [exact H1|].
  split; [vm_compute; reflexivity|].
  split; [vm_compute; reflexivity|].
  split; [vm_compute; reflexivity|].
  split; [vm_compute; reflexivity|].
  split; [exact H2|].
  intros Heq. rewrite Heq in H2. congruence.
Qed.

(** C7 (amended): each batch worker pairs its [track] with an [untrack]
    of the same id.  The upload worker either throws before the transfer
    without having reserved anything, or reserves under its memory id
    and, when the transfer settles, removes exactly that id, whether the
    transfer succeeded or threw and whatever happened to the tracker in
    between; the download worker always reserves and removes likewise.
    Consequently an item (failed or not) leaves the set of reservations
    as it was before the item started, provided its memory id was not
    already reserved then and nothing else changed the tracker while it
    ran. *)
Theorem batch_worker_releases_reservation :
  (forall w d net options operationId inp st,
      match Sdk.uploadWorkerBegin w operationId inp st with
      | (inl _, st1) => reserved st1 = reserved st
      | (inr t, st1) =>
          Sdk.memoryId t = ("upload_" +:+ operationId +:+ "_" +:+ Sdk.filePath inp)%string /\
          (exists sz, reserved st1 = <[Sdk.memoryId t := sz]> (reserved st)) /\
          (forall st2,
              reserved (snd (Sdk.uploadWorkerFinish w d net options t st2))
              = delete (Sdk.memoryId t) (reserved st2)) /\
          (reserved st !! Sdk.memoryId t = None ->
           reserved (snd (Sdk.uploadWorkerFinish w d net options t st1)) = reserved st)
      end) /\
  (forall w d net options operationId inp st,
      match Sdk.downloadWorkerBegin operationId inp st with
      | (inl _, st1) => False
      | (inr t, st1) =>
          Sdk.memoryId t = ("download_" +:+ operationId +:+ "_" +:+ Sdk.cid inp)%string /\
          (exists sz, reserved st1 = <[Sdk.memoryId t := sz]> (reserved st)) /\
          (forall st2,
              reserved (snd (Sdk.downloadWorkerFinish w d net options t st2))
              = delete (Sdk.memoryId t) (reserved st2)) /\
          (reserved st !! Sdk.memoryId t = None ->
           reserved (snd (Sdk.downloadWorkerFinish w d net options t st1)) = reserved st)
      end).
Proof.
  split.
  - intros w d net options operationId inp st.
    assert (Hfin : forall t st2,
               reserved (snd (Sdk.uploadWorkerFinish w d net options t st2))
               = delete (Sdk.memoryId t) (reserved st2)).
    { intros t st2. unfold Sdk.uploadWorkerFinish, reserved.
      pose proof (uploadFile_keeps_memory w d net (Sdk.filePath (Sdk.input t))
                    {| Sdk.uo_fileName := Sdk.fileName (Sdk.input t);
                       Sdk.uo_mimeType := None;
                       Sdk.uo_encrypt := encrypt options;
                       Sdk.uo_accessConditions := accessConditions options |} st2) as Hk.
      destruct (Sdk.uploadFile _ _ _ _ _ st2) as [r st3]. cbn [snd] in *.
      rewrite untrack_reservations. now rewrite Hk. }
    unfold Sdk.uploadWorkerBegin.
    destruct (Sdk.validateFile w (Sdk.filePath inp)) as [fileStats|e].
    + split; [reflexivity|]. split.
      * exists (st_size fileStats). unfold reserved.
        now rewrite track_reservations, awaitRelief_reservations.
      * split; [apply Hfin|]. intros Hfresh. rewrite Hfin. unfold reserved.
        rewrite track_reservations, awaitRelief_reservations.
        now apply delete_insert_id.
    + unfold reserved. now rewrite awaitRelief_reservations.
  - intros w d net options operationId inp st.
    assert (Hfin : forall t st2,
               reserved (snd (Sdk.downloadWorkerFinish w d net options t st2))
               = delete (Sdk.memoryId t) (reserved st2)).
    { intros t st2. unfold Sdk.downloadWorkerFinish, reserved.
      pose proof (downloadFile_keeps_memory d net (Sdk.cid (Sdk.input t))
                    (orDefault (outputDir options) "./downloads" +:+ "/" +:+
                     orDefault (Sdk.outputFileName (Sdk.input t))
                       ("downloaded_" +:+ Sdk.cid (Sdk.input t))) st2) as Hk.
      destruct (Sdk.downloadFile _ _ _ _ st2) as [[path|e] st3]; cbn [snd] in *.
      - destruct (Sdk.statSize w path st3); cbn [snd];
          rewrite untrack_reservations; now rewrite Hk.
      - rewrite untrack_reservations. now rewrite Hk. }
    unfold Sdk.downloadWorkerBegin.
    split; [reflexivity|]. split.
    + exists (orDefault (Sdk.expectedSize inp) (10 * 1024 * 1024)). unfold reserved.
      now rewrite track_reservations, awaitRelief_reservations.
    + split; [apply Hfin|]. intros Hfresh. rewrite Hfin. unfold reserved.
      rewrite track_reservations, awaitRelief_reservations.
      now apply delete_insert_id.
Qed.

(** ** The circuit breaker *)




(** ** The connection pool *)








(** ** The theorems at concrete inputs *)

Lemma tool_concurrency_is_validated_witness :
  Tools.validateUploadParams Fixtures.world
    (Requests.uploadWithConcurrency VUndefined (Requests.oneFile VUndefined)) = None /\
  concurrency (Tools.uploadOptions
                 (Requests.uploadWithConcurrency VUndefined (Requests.oneFile VUndefined)))
  = Some (Js.ofZ 3) /\
  Tools.validateUploadParams Fixtures.world
    (Requests.uploadWithConcurrency (VNumber (Fin 7)) (Requests.oneFile VUndefined)) = None /\
  concurrency (Tools.uploadOptions
                 (Requests.uploadWithConcurrency (VNumber (Fin 7)) (Requests.oneFile VUndefined)))
  = Some (Fin 7) /\
  (exists options,
     snd (Tools.executeUpload Fixtures.world Requests.recorder
            (Requests.uploadWithConcurrency (VNumber (Fin 7)) (Requests.oneFile VUndefined))
            [])
     = [ Requests.UploadCall ["/data/a.txt"%string] (Some options) ] /\
     concurrency options = Some (Fin 7)) /\
  Requests.refusedForConcurrency
    (fst (Tools.executeUpload Fixtures.world (Tools.mockService Fixtures.world)
            (Requests.uploadWithConcurrency (VNumber (Fin 20)) (Requests.oneFile VUndefined))
            (Mock.create 0))) /\
  snd (Tools.executeUpload Fixtures.world (Tools.mockService Fixtures.world)
         (Requests.uploadWithConcurrency (VNumber (Fin 20)) (Requests.oneFile VUndefined))
         (Mock.create 0))
  = Mock.create 0.
Proof.
  assert (Hok : Tools.validateUploadParams Fixtures.world
                  (Requests.uploadWithConcurrency VUndefined (Requests.oneFile VUndefined))
                = None) by reflexivity.
  destruct (proj1 tool_concurrency_is_validated Fixtures.world
              (Requests.oneFile VUndefined) Hok) as (H3 & _ & _ & Hin & Hout).
  split; [exact Hok|]. split; [exact H3|].
  destruct (Hin 7%Q) as (Hv & Hc & _ & Hrec).
  { split; unfold Qle; simpl; lia. }
  split; [exact Hv|]. split; [exact Hc|].
  split; [eexists; split; [exact Hrec|exact Hc]|].
  apply Hout. right. unfold Qlt. simpl. lia.
Defined.

Lemma batch_worker_releases_reservation_witness :
  reserved st0 !! "upload_op_0_/data/a.txt"%string = None /\
  reserved (snd (Sdk.uploadWorkerFinish Fixtures.world Fixtures.defaults Fixtures.remoteDown
                   Duplicates.options
                   {| Sdk.memoryId := "upload_op_0_/data/a.txt";
                      Sdk.input := Fixtures.fileA |} firstStarted))
  = reserved st0.
Proof.
  assert (H0 : reserved st0 !! "upload_op_0_/data/a.txt"%string = None)
    by (vm_compute; reflexivity).
  split; [exact H0|].
  pose proof (proj1 batch_worker_releases_reservation Fixtures.world Fixtures.defaults
                Fixtures.remoteDown Duplicates.options "op_0"%string Fixtures.fileA st0) as H.
  change (Sdk.uploadWorkerBegin Fixtures.world "op_0" Fixtures.fileA st0)
    with (@inr Error _ {| Sdk.memoryId := "upload_op_0_/data/a.txt"%string;
                          Sdk.input := Fixtures.fileA |}, firstStarted) in H.
  destruct H as (_ & _ & _ & H). exact (H H0).
Defined.



(** ** The SDK behind an open circuit *)

(** While the circuit is open, an SDK operation first waits for the rate
    limiter and is then rejected by the breaker: the wrapped operation,
    whatever it is, is not run (no attempt is counted, no network call
    is made). *)
Lemma sdk_open_breaker_rejects {A : Type} d
    (operation : Sdk.State -> outcome A * Sdk.State) label st :
  let resume := fst (RateLimiter.acquire (Sdk.clock st) (Sdk.rateLimiter st)) in
  let res := Sdk.executeWithRateLimit d operation label st in
  CircuitBreaker.state (Sdk.circuitBreaker st) = CircuitBreaker.OPEN ->
  resume - CircuitBreaker.openedAt (Sdk.circuitBreaker st)
  < CircuitBreaker.resetTimeout (Sdk.breakerConfig d) ->
  fst res = Throw (CircuitBreaker.circuitOpenError label) /\
  Sdk.circuitBreaker (snd res) = Sdk.circuitBreaker st /\
  Sdk.errorHandler (snd res) = Sdk.errorHandler st /\
  Sdk.netCalls (snd res) = Sdk.netCalls st.
Proof.
  cbv zeta. intros Hopen Hearly.
  unfold Sdk.executeWithRateLimit, Sdk.breakerExecute.
  destruct (RateLimiter.acquire (Sdk.clock st) (Sdk.rateLimiter st)) as [resume rl].
  cbn [fst] in Hearly.
  unfold CircuitBreaker.enter. cbn. rewrite Hopen.
  assert (Hb : (CircuitBreaker.resetTimeout (Sdk.breakerConfig d)
                <=? resume - CircuitBreaker.openedAt (Sdk.circuitBreaker st)) = false)
    by (apply Z.leb_gt; exact Hearly).
  rewrite Hb. repeat split.
Qed.

(** ** The scenarios of the specification *)

(** Scenario A: a batch of five items, two at a time, one of which always
    fails with a fatal error, continuing on errors: five results, one
    failed, four successful. *)
Example scenario_five_items_one_fatal :
  match fst (Sdk.batchUpload Fixtures.world Fixtures.defaults Fixtures.remoteUp
               Fixtures.fifo Scenarios.fiveFiles Scenarios.twoAtATime Fixtures.sdk) with
  | Return r =>
      total r = 5%nat /\ failed r = 1%nat /\ successful r = 4%nat /\
      length (results r) = 5%nat /\
      map (fun x => success x) (results r) = [true; true; false; true; true]
  | Throw _ => False
  end.
Proof. vm_compute. repeat split. Qed.

(** Scenario D: with [maxMemory = 1000] and a threshold of 0.8, tracking
    850 bytes raises backpressure and untracking them lowers it. *)
Example scenario_backpressure_flips :
  let tracked := fst (MemoryManager.track Scenarios.smallMemory "x" 850 MemoryManager.create) in
  let released := fst (MemoryManager.untrack Scenarios.smallMemory "x" tracked) in
  MemoryManager.isUnderBackpressure MemoryManager.create = false /\
  MemoryManager.isUnderBackpressure tracked = true /\
  snd (MemoryManager.track Scenarios.smallMemory "x" 850 MemoryManager.create)
  = [MemoryManager.BackpressureStart] /\
  MemoryManager.isUnderBackpressure released = false /\
  snd (MemoryManager.untrack Scenarios.smallMemory "x" tracked)
  = [MemoryManager.BackpressureEnd].
Proof. vm_compute. repeat split. Qed.

(** ** The batch processor: every run completes *)

Import BatchProcessor Scheduling.
Local Open Scope nat_scope.

Section SchedulingFacts.
Context {U T R K : Type}.
Variable clock : U -> Z.
Variable workerBegin : T -> U -> (Js.Error + K) * U.
Variable workerFinish : K -> U -> Js.outcome R * U.
Variable cfg : Config U.
Variable ops : list (Operation T).
Hypothesis Hcontinue : continueOnError cfg <> Some false.


Lemma bound_positive c : 1 <= bound c.
Proof.
  unfold bound. destruct c; try lia.
Qed.

(** [beginItem] only ever raises the retry count, and never beyond the
    budget. *)
Lemma beginItem_retries fuel :
  forall retries d u,
    retries <= maxRetries cfg ->
    match fst (beginItem workerBegin cfg fuel retries d u) with
    | inl (_, r') => retries <= r' <= maxRetries cfg
    | inr (_, r') => retries <= r' <= maxRetries cfg
    end.
Proof.
  induction fuel as [|fuel IH]; intros retries d u Hle; simpl.
  - destruct (workerBegin d u) as [[e|k] u']; simpl; lia.
  - destruct (workerBegin d u) as [[e|k] u']; simpl; [|lia].
    unfold mayRetry. destruct (retryOnFailure cfg); simpl; [|lia].
    destruct (retries <? maxRetries cfg) eqn:E; simpl; [|lia].
    apply Nat.ltb_lt in E. specialize (IH (S retries) d u' E).
    destruct (fst (beginItem workerBegin cfg fuel (S retries) d u')) as [[e' r']|[k' r']]; lia.
Qed.

Lemma scheduled_same (run run' : Run T R K) i :
  pending run' = pending run -> active run' = active run ->
  scheduled run i -> scheduled run' i.
Proof. unfold scheduled. intros -> ->. auto. Qed.

(** Recording the result of item [j] fills its slot and keeps the
    bookkeeping sound. *)
Lemma complete_sound j (op : Operation T) (res : BatchResult R) (run : Run T R K) (u : U) :
  sound (maxRetries cfg) ops (Some j) run ->
  ops !! j = Some op ->
  br_id res = op_id op ->
  sound (maxRetries cfg) ops None (fst (complete cfg (length ops) j res run u)) /\
  pending (fst (complete cfg (length ops) j res run u)) = pending run /\
  active (fst (complete cfg (length ops) j res run u)) = active run.
Proof.
  intros [Hlen Hempty Hfilled Hpending Hactive Herr] Hop Hid.
  assert (Hj : j < length (slots run)).
  { rewrite Hlen. apply lookup_lt_Some in Hop. exact Hop. }
  split; [|split; reflexivity]. unfold complete. cbn [fst]. constructor; cbn.
  - rewrite length_insert. exact Hlen.
  - intros i Hi _. destruct (decide (j = i)) as [->|Hne].
    + rewrite list_lookup_insert_eq in Hi by exact Hj. discriminate.
    + rewrite list_lookup_insert_ne in Hi by exact Hne.
      apply Hempty in Hi; [|congruence]. exact Hi.
  - intros i r Hi. destruct (decide (j = i)) as [->|Hne].
    + rewrite list_lookup_insert_eq in Hi by exact Hj.
      exists op. split; [exact Hop|]. congruence.
    + rewrite list_lookup_insert_ne in Hi by exact Hne. eauto.
  - exact Hpending.
  - exact Hactive.
  - rewrite Herr. destruct (br_success res); [reflexivity|].
    destruct (continueOnError cfg) as [[|]|]; congruence.
Qed.

Lemma complete_work j (res : BatchResult R) (run : Run T R K) (u : U) :
  work (maxRetries cfg) (fst (complete cfg (length ops) j res run u))
  = work (maxRetries cfg) run.
Proof. reflexivity. Qed.

(** Starting item [j] keeps the bookkeeping sound and costs at most what
    is left of its budget. *)
Lemma launch_sound j (op : Operation T) startTime retries (run : Run T R K) (u : U) :
  sound (maxRetries cfg) ops (Some j) run ->
  ops !! j = Some op ->
  retries <= maxRetries cfg ->
  let run' := fst (launch clock workerBegin cfg (length ops) j op startTime retries run u) in
  sound (maxRetries cfg) ops None run' /\
  pending run' = pending run /\
  work (maxRetries cfg) run' <= work (maxRetries cfg) run + (S (maxRetries cfg) - retries).
Proof.
  intros Hs Hop Hle. cbv zeta. unfold launch.
  pose proof (beginItem_retries (maxRetries cfg) retries (op_data op) u Hle) as Hr.
  destruct (beginItem workerBegin cfg (maxRetries cfg) retries (op_data op) u)
    as [[[e r']|[k r']] u']; cbn [fst] in Hr.
  - destruct (complete_sound j op (failure clock op startTime e r' u') run u' Hs Hop eq_refl)
      as (Hs' & Hp & Ha).
    split; [exact Hs'|]. split; [exact Hp|]. rewrite complete_work. lia.
  - cbn [fst]. destruct Hs as [Hlen Hempty Hfilled Hpending Hactive Herr].
    split; [|split; [reflexivity|]].
    + constructor; cbn.
      * exact Hlen.
      * intros i Hi _. destruct (decide (j = i)) as [->|Hne].
        -- right. eexists. split; [apply in_or_app; right; left; reflexivity|reflexivity].
        -- destruct (Hempty i Hi) as [Hq|(a & Hin & Ha)]; [congruence|left; exact Hq|].
           right. exists a. split; [apply in_or_app; left; exact Hin|exact Ha].
      * exact Hfilled.
      * exact Hpending.
      * intros a Hin. apply in_app_or in Hin as [Hin|[<-|[]]]; [auto|]. cbn. split; [exact Hop|lia].
      * exact Herr.
    + unfold work. cbn. rewrite map_app, list_sum_app. cbn. lia.
Qed.

(** Filling the free slots keeps the bookkeeping sound, adds no work, and
    stops only when the queue is empty or every slot is taken. *)
Lemma fill_sound (queue : list (nat * Operation T)) :
  forall (run : Run T R K) (u : U),
    pending run = queue ->
    sound (maxRetries cfg) ops None run ->
    let run' := fst (fill clock workerBegin cfg (length ops) queue run u) in
    sound (maxRetries cfg) ops None run' /\
    work (maxRetries cfg) run' <= work (maxRetries cfg) run /\
    (pending run' = [] \/ active run' <> []).
Proof.
  induction queue as [|[j op] rest IH]; intros run u Hq Hs; cbv zeta; cbn [fill].
  - cbn [fst]. split; [exact Hs|]. split; [lia|]. left. exact Hq.
  - rewrite (sound_no_error _ _ _ _ Hs). cbn [isSome negb]. rewrite andb_true_r.
    destruct (length (active run) <? bound (concurrency cfg)) eqn:Hfree.
    + set (run1 := {| pending := rest; active := active run; slots := slots run;
                      completed := completed run; firstError := None |}).
      assert (Hop : ops !! j = Some op).
      { apply (sound_pending _ _ _ _ Hs). rewrite Hq. left. reflexivity. }
      assert (Hs1 : sound (maxRetries cfg) ops (Some j) run1).
      { destruct Hs as [Hlen Hempty Hfilled Hpending Hactive Herr]. constructor; cbn.
        - exact Hlen.
        - intros i Hi Hne. destruct (Hempty i Hi) as [(op' & Hin)|Hact]; [congruence| |].
          + left. exists op'. rewrite Hq in Hin. destruct Hin as [Heq|Hin]; [|exact Hin].
            injection Heq as -> ->. congruence.
          + right. exact Hact.
        - exact Hfilled.
        - intros i op' Hin. apply Hpending. rewrite Hq. right. exact Hin.
        - exact Hactive.
        - reflexivity. }
      destruct (launch_sound j op (clock u) 0 run1 u Hs1 Hop ltac:(lia)) as (Hs' & Hp' & Hw').
      destruct (launch clock workerBegin cfg (length ops) j op (clock u) 0 run1 u)
        as [run2 u2] eqn:El. cbn [fst] in *.
      destruct (IH run2 u2 Hp' Hs') as (Hs3 & Hw3 & Hdone).
      split; [exact Hs3|]. split; [|exact Hdone].
      assert (Hw1 : work (maxRetries cfg) run1 + S (maxRetries cfg) = work (maxRetries cfg) run).
      { unfold work. cbn [pending active run1]. rewrite Hq. cbn [length]. lia. }
      lia.
    + cbn [fst]. split; [exact Hs|]. split; [lia|]. right.
      apply Nat.ltb_ge in Hfree. pose proof (bound_positive (concurrency cfg)).
      destruct (active run); [cbn in Hfree; lia|discriminate].
Qed.

Lemma in_remove_nth {A : Type} (l : list A) i x :
  In x (take i l ++ drop (S i) l) -> In x l.
Proof.
  intros H. apply in_app_or in H as [H|H].
  - apply list_elem_of_In in H. apply list_elem_of_In. exact (subseteq_take i l x H).
  - apply list_elem_of_In in H. apply list_elem_of_In. exact (subseteq_drop (S i) l x H).
Qed.

Lemma sum_remove_nth {A : Type} (f : A -> nat) (l : list A) i a :
  l !! i = Some a ->
  list_sum (map f (take i l ++ drop (S i) l)) + f a = list_sum (map f l).
Proof.
  intros H.
  transitivity (list_sum (map f (take i l ++ a :: drop (S i) l)));
    [|now rewrite take_drop_middle].
  rewrite !map_app, !list_sum_app, map_cons.
  change (list_sum (f a :: map f (drop (S i) l)))
    with (f a + list_sum (map f (drop (S i) l))).
  lia.
Qed.

(** When a transfer settles, the bookkeeping stays sound and the work
    left goes down. *)
Lemma settle_sound i (run : Run T R K) (u : U) :
  sound (maxRetries cfg) ops None run ->
  i < length (active run) ->
  let run' := fst (settle clock workerBegin workerFinish cfg (length ops) i run u) in
  sound (maxRetries cfg) ops None run' /\
  work (maxRetries cfg) run' < work (maxRetries cfg) run.
Proof.
  intros Hs Hi. cbv zeta. unfold settle.
  destruct (active run !! i) as [a|] eqn:Ea;
    [|apply lookup_ge_None in Ea; lia].
  set (run0 := {| pending := pending run;
                  active := take i (active run) ++ drop (S i) (active run);
                  slots := slots run; completed := completed run;
                  firstError := firstError run |}).
  assert (Hin : In a (active run)).
  { apply list_elem_of_In. eapply list_elem_of_lookup_2. exact Ea. }
  destruct (sound_active _ _ _ _ Hs a Hin) as [Hop Hret].
  assert (Hs0 : sound (maxRetries cfg) ops (Some (a_index a)) run0).
  { destruct Hs as [Hlen Hempty Hfilled Hpending Hactive Herr]. constructor; cbn.
    - exact Hlen.
    - intros j Hj Hne. destruct (Hempty j Hj) as [Hq|(b & Hb & Hbj)]; [congruence|left; exact Hq|].
      right. exists b. split; [|exact Hbj].
      apply list_elem_of_In in Hb. apply list_elem_of_lookup in Hb as [n Hn].
      destruct (decide (n = i)) as [->|Hni].
      + rewrite Ea in Hn. injection Hn as ->. congruence.
      + apply list_elem_of_In. apply elem_of_app.
        destruct (decide (n < i)) as [Hlt|Hge].
        * left. apply list_elem_of_lookup. exists n. rewrite lookup_take_lt by exact Hlt. exact Hn.
        * right. apply list_elem_of_lookup. exists (n - S i).
          rewrite lookup_drop. replace (S i + (n - S i)) with n by lia. exact Hn.
    - exact Hfilled.
    - exact Hpending.
    - intros b Hb. apply Hactive. eapply in_remove_nth. exact Hb.
    - exact Herr. }
  assert (Hw0 : work (maxRetries cfg) run0 + (S (maxRetries cfg) - a_retries a)
                = work (maxRetries cfg) run).
  { unfold work. cbn [pending active run0].
    pose proof (sum_remove_nth (fun b : Active T K => S (maxRetries cfg) - a_retries b)
                  (active run) i a Ea) as Hsum.
    cbn beta in Hsum. lia. }
  destruct (workerFinish (a_token a) u) as [[r|e] u'].
  - destruct (complete_sound (a_index a) (a_op a)
                {| br_id := op_id (a_op a); br_success := true; br_result := Some r;
                   br_error := None; br_duration := (clock u' - a_startTime a)%Z;
                   br_retries := a_retries a |} run0 u' Hs0 Hop eq_refl) as (Hs' & _ & _).
    split; [exact Hs'|]. rewrite complete_work. lia.
  - destruct (mayRetry cfg (a_retries a)) eqn:Hretry.
    + unfold mayRetry in Hretry. apply andb_true_iff in Hretry as [_ Hlt].
      apply Nat.ltb_lt in Hlt.
      destruct (launch_sound (a_index a) (a_op a) (a_startTime a) (S (a_retries a))
                  run0 u' Hs0 Hop ltac:(lia)) as (Hs' & _ & Hw').
      split; [exact Hs'|]. lia.
    + destruct (complete_sound (a_index a) (a_op a)
                  (failure clock (a_op a) (a_startTime a) e (a_retries a) u')
                  run0 u' Hs0 Hop eq_refl) as (Hs' & _ & _).
      split; [exact Hs'|]. rewrite complete_work. lia.
Qed.

(** With fuel for all the work left, the loop ends with nothing queued
    and nothing in flight. *)
Lemma loop_sound pick fuel :
  forall step (run : Run T R K) (u : U),
    sound (maxRetries cfg) ops None run ->
    work (maxRetries cfg) run < fuel ->
    let run' := fst (loop clock workerBegin workerFinish cfg fuel (length ops) pick step run u) in
    sound (maxRetries cfg) ops None run' /\ pending run' = [] /\ active run' = [].
Proof.
  induction fuel as [|fuel IH]; intros step run u Hs Hw; [lia|]. cbv zeta. cbn [loop].
  destruct (fill_sound (pending run) run u eq_refl Hs) as (Hs1 & Hw1 & Hdone).
  destruct (fill clock workerBegin cfg (length ops) (pending run) run u) as [run1 u1].
  cbn [fst] in *.
  destruct (active run1) as [|a rest] eqn:Ea.
  - cbn [fst]. split; [exact Hs1|]. split; [|exact Ea].
    destruct Hdone as [Hp|Hne]; [exact Hp|congruence].
  - assert (Hi : pick step mod length (a :: rest) < length (active run1)).
    { rewrite Ea. apply Nat.mod_upper_bound. discriminate. }
    destruct (settle_sound (pick step mod length (a :: rest)) run1 u1 Hs1 Hi) as (Hs2 & Hw2).
    destruct (settle clock workerBegin workerFinish cfg (length ops)
                (pick step mod length (a :: rest)) run1 u1) as [run2 u2].
    cbn [fst] in *. apply IH; [exact Hs2|lia].
Qed.

Lemma indexed_In {A : Type} (l : list A) :
  forall k i x, In (i, x) (indexed k l) <-> k <= i /\ l !! (i - k) = Some x.
Proof.
  induction l as [|y l IH]; intros k i x; cbn [indexed].
  - split; [intros []|intros [_ H]; discriminate].
  - split.
    + intros [Heq|Hin].
      * injection Heq as -> ->. split; [lia|]. now rewrite Nat.sub_diag.
      * apply IH in Hin as [Hle Hl]. split; [lia|].
        replace (i - k) with (S (i - S k)) by lia. exact Hl.
    + intros [Hle Hl]. destruct (decide (i = k)) as [->|Hne].
      * left. rewrite Nat.sub_diag in Hl. cbn in Hl. congruence.
      * right. apply IH. split; [lia|].
        replace (i - k) with (S (i - S k)) in Hl by lia. exact Hl.
Qed.

Lemma filled_slots {A : Type} (l : list (option A)) :
  (forall i, l !! i <> Some None) ->
  map Some (omap (fun o => o) l) = l.
Proof.
  induction l as [|[x|] l IH]; intros H; cbn.
  - reflexivity.
  - f_equal. apply IH. intros i. apply (H (S i)).
  - exfalso. apply (H 0). reflexivity.
Qed.

(** A processor that is not told to stop on errors returns, for every
    order in which the transfers settle, exactly one result per
    operation, in the order of the operations. *)
Lemma addBatch_all_results pick (u : U) :
  exists rs,
    fst (addBatch clock workerBegin workerFinish cfg pick ops u) = Return rs /\
    length rs = length ops /\
    map br_id rs = map op_id ops.
Proof.
  unfold addBatch.
  set (run0 := {| pending := indexed 0 ops; active := []; slots := replicate (length ops) None;
                  completed := 0; firstError := None |} : Run T R K).
  assert (Hs0 : sound (maxRetries cfg) ops None run0).
  { constructor; cbn.
    - apply length_replicate.
    - intros i Hi _. apply lookup_replicate in Hi as [_ Hi].
      destruct (lookup_lt_is_Some_2 ops i Hi) as [op Hop].
      left. exists op. apply indexed_In. split; [lia|]. now rewrite Nat.sub_0_r.
    - intros i r Hi. apply lookup_replicate in Hi as [Hi _]. discriminate.
    - intros i op Hin. apply indexed_In in Hin as [_ Hin]. now rewrite Nat.sub_0_r in Hin.
    - intros a [].
    - reflexivity. }
  assert (Hw0 : work (maxRetries cfg) run0 < S (length ops * S (maxRetries cfg))).
  { unfold work. cbn [pending active run0 map list_sum foldr].
    assert (Hl : forall (l : list (Operation T)) k, length (indexed k l) = length l)
      by (induction l; intros; cbn; [reflexivity|f_equal; auto]).
    rewrite Hl. cbn. lia. }
  destruct (loop_sound pick _ 0 run0 u Hs0 Hw0) as (Hs & Hp & Ha).
  destruct (loop clock workerBegin workerFinish cfg (S (length ops * S (maxRetries cfg)))
              (length ops) pick 0 run0 u) as [run u']. cbn [fst] in *.
  rewrite (sound_no_error _ _ _ _ Hs). cbn [fst].
  exists (omap (fun o => o) (slots run)).
  assert (Hfull : map Some (omap (fun o => o) (slots run)) = slots run).
  { apply filled_slots. intros i Hi.
    destruct (sound_empty _ _ _ _ Hs i Hi) as [(op & Hin)|(a & Hin & _)]; [congruence| |].
    - rewrite Hp in Hin. destruct Hin.
    - rewrite Ha in Hin. destruct Hin. }
  assert (Hlen : length (omap (fun o => o) (slots run)) = length ops).
  { rewrite <- (sound_slots _ _ _ _ Hs).
    transitivity (length (map Some (omap (fun o => o) (slots run))));
      [now rewrite length_map|now rewrite Hfull]. }
  split; [reflexivity|]. split; [exact Hlen|].
  apply list_eq. intros i. rewrite !list_lookup_fmap.
  destruct (omap (fun o => o) (slots run) !! i) as [r|] eqn:Er; cbn.
  - assert (Hslot : slots run !! i = Some (Some r)).
    { rewrite <- Hfull, list_lookup_fmap, Er. reflexivity. }
    destruct (sound_filled _ _ _ _ Hs i r Hslot) as (op & Hop & Hid).
    rewrite Hop. cbn. now rewrite Hid.
  - apply lookup_ge_None in Er. rewrite Hlen in Er.
    apply lookup_ge_None in Er. now rewrite Er.
Qed.
End SchedulingFacts.

Local Close Scope nat_scope.

(** Whatever the options, the order in which transfers settle and the
    behaviour of the remote end, [batchUpload] returns a result: one
    entry per input file in input order, [successful + failed = total],
    and, for a non-empty batch, [successRate = successful / total].  It
    has no path on which the failure of an item is re-thrown. *)
Lemma sdk_batch_upload_always_returns w d net pick files options st :
  exists r,
    fst (Sdk.batchUpload w d net pick files options st) = Return r /\
    total r = length files /\
    length (results r) = length files /\
    (successful r + failed r = total r)%nat /\
    ((0 < length files)%nat ->
     successRate r
     = Fin (inject_Z (Z.of_nat (successful r)) / inject_Z (Z.of_nat (total r))))%Q.
Proof.
  unfold Sdk.batchUpload. destruct (Sdk.generateOperationId st) as [operationId st0].
  set (operations := imap _ files).
  set (cfg := Sdk.processorConfig _ _ _ _ _ _ _).
  destruct (addBatch_all_results Sdk.clock
              (Sdk.uploadWorkerBegin w operationId)
              (Sdk.uploadWorkerFinish w d net options) cfg operations
              ltac:(discriminate) pick
              (Sdk.emit (Sdk.BatchStart Sdk.Upload operationId (length files)) st0))
    as (rs & Hrs & Hlen & _).
  destruct (addBatch _ _ _ cfg pick operations _) as [[rs'|e] st2]; cbn [fst] in Hrs;
    [|discriminate].
  injection Hrs as ->. cbn [fst].
  assert (Hn : length (map (@Sdk.toFileResult FileInfo) rs) = length files).
  { rewrite length_map, Hlen. unfold operations. apply length_imap. }
  eexists. split; [reflexivity|].
  split; [reflexivity|]. split; [exact Hn|]. split.
  - unfold Sdk.operationResult. cbn [successful failed total].
    rewrite count_success_failed. exact Hn.
  - intros Hpos. now apply sdk_success_rate_formula.
Qed.

(** The same holds of [batchDownload]. *)
Lemma sdk_batch_download_always_returns w d net pick files options st :
  exists r,
    fst (Sdk.batchDownload w d net pick files options st) = Return r /\
    total r = length files /\
    length (results r) = length files /\
    (successful r + failed r = total r)%nat /\
    ((0 < length files)%nat ->
     successRate r
     = Fin (inject_Z (Z.of_nat (successful r)) / inject_Z (Z.of_nat (total r))))%Q.
Proof.
  unfold Sdk.batchDownload. destruct (Sdk.generateOperationId st) as [operationId st0].
  set (operations := imap _ files).
  set (cfg := Sdk.processorConfig _ _ _ _ _ _ _).
  destruct (addBatch_all_results Sdk.clock
              (Sdk.downloadWorkerBegin operationId)
              (Sdk.downloadWorkerFinish w d net options) cfg operations
              ltac:(discriminate) pick
              (Sdk.emit (Sdk.BatchStart Sdk.Download operationId (length files)) st0))
    as (rs & Hrs & Hlen & _).
  destruct (addBatch _ _ _ cfg pick operations _) as [[rs'|e] st2]; cbn [fst] in Hrs;
    [|discriminate].
  injection Hrs as ->. cbn [fst].
  assert (Hn : length (map (@Sdk.toFileResult BatchDownloadFileResult) rs) = length files).
  { rewrite length_map, Hlen. unfold operations. apply length_imap. }
  eexists. split; [reflexivity|].
  split; [reflexivity|]. split; [exact Hn|]. split.
  - unfold Sdk.operationResult. cbn [successful failed total].
    rewrite count_success_failed. exact Hn.
  - intros Hpos. now apply sdk_success_rate_formula.
Qed.

(* ===================================================================== *)
(** * The mock service: files                                              *)
(* ===================================================================== *)

(** ** Single uploads *)

(** What a successful [uploadFile] is made of. *)
Lemma mock_uploadFile_return w params st r st' :
  Mock.uploadFile w params st = (Return r, st') ->
  exists stats,
    fsStat w (Mock.up_filePath params) = Some stats /\
    Mock.currentStorageSize st + st_size stats <= Mock.maxStorageSize st /\
    Mock.ur_cid r = cidGenerate w (Mock.up_filePath params) /\
    Mock.ur_size r = st_size stats /\
    Mock.ur_originalPath r = Mock.up_filePath params /\
    Mock.ur_encrypted r = orDefault (Mock.up_encrypt params) false /\
    Mock.fileStore st' =
      (<[Mock.ur_cid r :=
          {| Mock.sf_cid := Mock.ur_cid r;
             Mock.sf_filePath := Mock.up_filePath params;
             Mock.sf_size := Mock.ur_size r;
             Mock.sf_encrypted := Mock.ur_encrypted r;
             Mock.sf_accessConditions := Mock.up_accessConditions params;
             Mock.sf_tags := Mock.up_tags params;
             Mock.sf_uploadedAt := Mock.ur_uploadedAt r;
             Mock.sf_pinned := true |}]> (Mock.fileStore st)) /\
    Mock.currentStorageSize st' = Mock.currentStorageSize st + st_size stats /\
    Mock.maxStorageSize st' = Mock.maxStorageSize st.
Proof.
  unfold Mock.uploadFile. intros H.
  destruct (fsStat w (Mock.up_filePath params)) as [stats|] eqn:Es; [|discriminate].
  cbn [Mock.simulateDelay Mock.currentStorageSize Mock.maxStorageSize] in H.
  destruct (Mock.currentStorageSize st + st_size stats >? Mock.maxStorageSize st) eqn:Eq;
    [discriminate|].
  injection H as <- <-. exists stats. cbn.
  repeat split; try reflexivity. rewrite Z.gtb_ltb in Eq. apply Z.ltb_ge in Eq. exact Eq.
Qed.

(** What a failed [uploadFile] leaves behind. *)
Lemma mock_uploadFile_throw w params st e st' :
  Mock.uploadFile w params st = (Throw e, st') ->
  st' = Mock.simulateDelay w 50 100 st /\
  ((fsStat w (Mock.up_filePath params) = None /\
    e = newError ("File not found: " +:+ Mock.up_filePath params)) \/
   (exists stats, fsStat w (Mock.up_filePath params) = Some stats /\
                  Mock.maxStorageSize st < Mock.currentStorageSize st + st_size stats /\
                  e = newError "Storage quota exceeded")).
Proof.
  unfold Mock.uploadFile. intros H.
  destruct (fsStat w (Mock.up_filePath params)) as [stats|] eqn:Es.
  - cbn [Mock.simulateDelay Mock.currentStorageSize Mock.maxStorageSize] in H.
    destruct (Mock.currentStorageSize st + st_size stats >? Mock.maxStorageSize st) eqn:Eq;
      [|discriminate].
    injection H as <- <-. split; [reflexivity|]. right. exists stats.
    split; [reflexivity|]. split; [|reflexivity].
    rewrite Z.gtb_ltb in Eq. apply Z.ltb_lt in Eq. exact Eq.
  - injection H as <- <-. split; [reflexivity|]. left. split; reflexivity.
Qed.

(** A failed upload, as the loops that call [uploadFile] see it. *)
Lemma mock_failed_upload_frame w params st e st' :
  Mock.uploadFile w params st = (Throw e, st') ->
  Mock.fileStore st' = Mock.fileStore st /\
  Mock.currentStorageSize st' = Mock.currentStorageSize st /\
  (message e = "File not found: " +:+ Mock.up_filePath params \/
   message e = "Storage quota exceeded"%string).
Proof.
  intros H. apply mock_uploadFile_throw in H. destruct H as [-> H].
  split; [reflexivity|]. split; [reflexivity|].
  destruct H as [[_ ->]|(stats & _ & _ & ->)]; [left|right]; reflexivity.
Qed.

(** X1.  A successful [uploadFile] can be looked up: the path names an
    entry of the file system, and [getFileInfo] of the returned CID gives
    the record of the upload (path, size of the entry, encryption flag,
    upload time, pinned); the records under every other CID are as
    before. *)
Theorem mock_upload_then_getFileInfo w params st r st' :
  Mock.uploadFile w params st = (Return r, st') ->
  exists stats,
    fsStat w (Mock.up_filePath params) = Some stats /\
    Mock.ur_cid r = cidGenerate w (Mock.up_filePath params) /\
    Mock.ur_size r = st_size stats /\
    MockFiles.getFileInfo (Mock.ur_cid r) st' =
      Some {| Mock.sf_cid := cidGenerate w (Mock.up_filePath params);
              Mock.sf_filePath := Mock.up_filePath params;
              Mock.sf_size := st_size stats;
              Mock.sf_encrypted := orDefault (Mock.up_encrypt params) false;
              Mock.sf_accessConditions := Mock.up_accessConditions params;
              Mock.sf_tags := Mock.up_tags params;
              Mock.sf_uploadedAt := Mock.ur_uploadedAt r;
              Mock.sf_pinned := true |} /\
    forall cid, cid <> Mock.ur_cid r ->
      MockFiles.getFileInfo cid st' = MockFiles.getFileInfo cid st.
Proof.
  intros H. apply mock_uploadFile_return in H.
  destruct H as (stats & Es & _ & Hc & Hs & _ & He & Hm & _ & _).
  exists stats. split; [exact Es|]. split; [exact Hc|]. split; [exact Hs|].
  unfold MockFiles.getFileInfo. rewrite Hm. split.
  - rewrite lookup_insert_eq. rewrite Hc, He, Hs. reflexivity.
  - intros cid Hne. apply lookup_insert_ne. congruence.
Qed.

(** X2.  A failed [uploadFile] stores nothing: the error is "File not
    found" exactly when the path cannot be stat'ed and "Storage quota
    exceeded" otherwise, and the file store, the storage counter and the
    quota are the ones from before the call. *)
Theorem mock_failed_upload_stores_nothing w params st e st' :
  Mock.uploadFile w params st = (Throw e, st') ->
  Mock.fileStore st' = Mock.fileStore st /\
  Mock.currentStorageSize st' = Mock.currentStorageSize st /\
  Mock.maxStorageSize st' = Mock.maxStorageSize st /\
  (fsStat w (Mock.up_filePath params) = None ->
   message e = "File not found: " +:+ Mock.up_filePath params) /\
  (fsStat w (Mock.up_filePath params) <> None ->
   message e = "Storage quota exceeded"%string).
Proof.
  intros H. apply mock_uploadFile_throw in H. destruct H as [-> H].
  split; [reflexivity|]. split; [reflexivity|]. split; [reflexivity|].
  destruct H as [[Hn ->]|(stats & Hs & _ & ->)].
  - split; [reflexivity|]. intros Hc. contradiction.
  - split; [|reflexivity]. intros Hc. congruence.
Qed.

(** ** The quota *)

Lemma mock_uploadFile_quota w params st :
  Mock.currentStorageSize st <= Mock.maxStorageSize st ->
  Mock.currentStorageSize (snd (Mock.uploadFile w params st))
    <= Mock.maxStorageSize (snd (Mock.uploadFile w params st)) /\
  Mock.maxStorageSize (snd (Mock.uploadFile w params st)) = Mock.maxStorageSize st.
Proof.
  intros Hq. destruct (Mock.uploadFile w params st) as [[r|e] st'] eqn:E.
  - apply mock_uploadFile_return in E.
    destruct E as (stats & _ & Hle & _ & _ & _ & _ & _ & Hc & Hm). cbn. lia.
  - apply mock_uploadFile_throw in E. destruct E as [-> _]. cbn. lia.
Qed.

Lemma mock_uploadLoop_quota w options filePaths :
  forall results st,
    Mock.currentStorageSize st <= Mock.maxStorageSize st ->
    Mock.currentStorageSize (snd (Mock.uploadLoop w options filePaths results st))
      <= Mock.maxStorageSize (snd (Mock.uploadLoop w options filePaths results st)) /\
    Mock.maxStorageSize (snd (Mock.uploadLoop w options filePaths results st))
      = Mock.maxStorageSize st.
Proof.
  induction filePaths as [|p rest IH]; intros results st Hq.
  - cbn. lia.
  - cbn [Mock.uploadLoop].
    match goal with
    | |- context [Mock.uploadFile w ?ps st] =>
        pose proof (mock_uploadFile_quota w ps st Hq) as [H1 H2];
        destruct (Mock.uploadFile w ps st) as [[r|e] st1]
    end; cbn [snd] in H1, H2.
    + match goal with
      | |- context [Mock.uploadLoop w options rest ?rs st1] =>
          destruct (IH rs st1 H1) as [H3 H4]
      end.
      split; [exact H3|]. rewrite H4. exact H2.
    + destruct (Mock.stopOnError Types.continueOnError options).
      * cbn. lia.
      * match goal with
        | |- context [Mock.uploadLoop w options rest ?rs st1] =>
            destruct (IH rs st1 H1) as [H3 H4]
        end.
        split; [exact H3|]. rewrite H4. exact H2.
Qed.

(** An upload during which no other call runs is its check followed at
    once by its commit. *)
Lemma mock_uploadFile_in_two_steps w params st :
  Mock.uploadFile w params st
  = match MockFiles.uploadCheck w params st with
    | (Return pending, st1) =>
        let (result, st2) := MockFiles.uploadCommit w pending st1 in (Return result, st2)
    | (Throw e, st1) => (Throw e, st1)
    end.
Proof.
  unfold Mock.uploadFile, MockFiles.uploadCheck, MockFiles.uploadCommit.
  destruct (fsStat w (Mock.up_filePath params)) as [stats|]; [|reflexivity].
  cbv zeta. destruct (_ >? _); reflexivity.
Qed.

(** X3.  The quota holds for uploads that run one at a time, and only
    for those.  From a state whose storage counter is within the quota,
    an [uploadFile] or a [batchUploadFiles] during which no other upload
    runs (whatever the options, and whether it returns or throws) ends
    in a state whose counter is within the same quota.  But [uploadFile]
    awaits between its quota check and its update of the counter: when
    two calls are in flight at once and each file fits into what is left
    of the quota while both together do not, both pass the check, both
    files are stored, and the counter ends above the quota. *)
Theorem mock_quota_needs_uploads_one_at_a_time w st :
  Mock.currentStorageSize st <= Mock.maxStorageSize st ->
  (forall params,
     Mock.currentStorageSize (snd (Mock.uploadFile w params st))
       <= Mock.maxStorageSize st /\
     Mock.maxStorageSize (snd (Mock.uploadFile w params st)) = Mock.maxStorageSize st) /\
  (forall filePaths options,
     Mock.currentStorageSize (snd (Mock.batchUploadFiles w filePaths options st))
       <= Mock.maxStorageSize st /\
     Mock.maxStorageSize (snd (Mock.batchUploadFiles w filePaths options st))
       = Mock.maxStorageSize st) /\
  (forall a b statsA statsB,
     fsStat w (Mock.up_filePath a) = Some statsA ->
     fsStat w (Mock.up_filePath b) = Some statsB ->
     Mock.currentStorageSize st + st_size statsA <= Mock.maxStorageSize st ->
     Mock.currentStorageSize st + st_size statsB <= Mock.maxStorageSize st ->
     Mock.maxStorageSize st
       < Mock.currentStorageSize st + st_size statsA + st_size statsB ->
     exists resultA resultB st',
       MockFiles.uploadOverlapping w a b st = Some (resultA, resultB, st') /\
       is_Some (MockFiles.getFileInfo (Mock.ur_cid resultA) st') /\
       is_Some (MockFiles.getFileInfo (Mock.ur_cid resultB) st') /\
       Mock.currentStorageSize st'
         = Mock.currentStorageSize st + st_size statsA + st_size statsB /\
       Mock.maxStorageSize st' = Mock.maxStorageSize st /\
       Mock.maxStorageSize st' < Mock.currentStorageSize st').
Proof.
  intros Hq. split; [|split].
  - intros params. destruct (mock_uploadFile_quota w params st Hq) as [H1 H2].
    rewrite <- H2 at 1. split; assumption.
  - intros filePaths options.
    destruct (mock_uploadLoop_quota w options filePaths [] st Hq) as [H1 H2].
    unfold Mock.batchUploadFiles.
    destruct (Mock.uploadLoop w options filePaths [] st) as [[rs|e] st'];
      cbn [snd] in *; rewrite <- H2 at 1; split; assumption.
  - intros a b statsA statsB HA HB HfitA HfitB Hover.
    unfold MockFiles.uploadOverlapping, MockFiles.uploadCheck. rewrite HA.
    cbn [Mock.simulateDelay Mock.currentStorageSize Mock.maxStorageSize].
    assert (Ha : (Mock.currentStorageSize st + st_size statsA >? Mock.maxStorageSize st)
                 = false) by (rewrite Z.gtb_ltb; apply Z.ltb_ge; exact HfitA).
    assert (Hb : (Mock.currentStorageSize st + st_size statsB >? Mock.maxStorageSize st)
                 = false) by (rewrite Z.gtb_ltb; apply Z.ltb_ge; exact HfitB).
    rewrite Ha, HB. cbn [Mock.simulateDelay Mock.currentStorageSize Mock.maxStorageSize].
    rewrite Hb. unfold MockFiles.uploadCommit, MockFiles.getFileInfo. cbv zeta.
    eexists _, _, _. split; [reflexivity|].
    cbn [Mock.ur_cid Mock.fileStore Mock.currentStorageSize Mock.maxStorageSize
         Mock.simulateDelay MockFiles.pu_cid MockFiles.pu_size].
    split.
    { apply lookup_insert_is_Some.
      destruct (decide (cidGenerate w (Mock.up_filePath b)
                        = cidGenerate w (Mock.up_filePath a))) as [Heq|Hne].
      - left. exact Heq.
      - right. split; [exact Hne|]. apply lookup_insert_is_Some. now left. }
    split; [apply lookup_insert_is_Some; now left|].
    split; [lia|]. split; [reflexivity|lia].
Qed.

(** X4.  The storage counter counts uploads, not stored files: uploading
    a path whose CID is already in the store replaces the record, so the
    number of stored files stays the same, and still adds the size of
    the file to the counter. *)
Theorem mock_reupload_is_counted_again w params st r st' :
  Mock.uploadFile w params st = (Return r, st') ->
  is_Some (Mock.fileStore st !! cidGenerate w (Mock.up_filePath params)) ->
  MockFiles.fileCount (MockFiles.getStorageStats st')
    = MockFiles.fileCount (MockFiles.getStorageStats st) /\
  MockFiles.totalSize (MockFiles.getStorageStats st')
    = MockFiles.totalSize (MockFiles.getStorageStats st) + Mock.ur_size r.
Proof.
  intros H [old Hold]. apply mock_uploadFile_return in H.
  destruct H as (stats & _ & _ & Hc & Hs & _ & _ & Hm & Hcur & _).
  unfold MockFiles.getStorageStats. cbn [MockFiles.fileCount MockFiles.totalSize].
  split.
  - rewrite Hm. rewrite Hc. apply map_size_insert_Some. exists old. exact Hold.
  - rewrite Hcur, Hs. reflexivity.
Qed.

(** ** Pinning *)

(** X5.  Pinning and unpinning a stored file set its [pinned] flag and
    nothing else: the record keeps its other fields, the records under
    all other CIDs, the number of stored files and the storage counter
    are untouched.  [unpinFile] does this for every stored CID,
    [pinFile] for the stored CIDs [CIDGenerator.isValid] accepts. *)
Theorem mock_pin_changes_only_the_flag w cid f st :
  Mock.fileStore st !! cid = Some f ->
  (cidIsValid w cid = true ->
   fst (MockFiles.pinFile w cid st)
     = Return {| MockFiles.pin_success := true; MockFiles.pin_cid := cid;
                 MockFiles.pin_pinned := true |} /\
   MockFiles.getFileInfo cid (snd (MockFiles.pinFile w cid st))
     = Some (MockFiles.setPinned true f) /\
   (forall c, c <> cid ->
      MockFiles.getFileInfo c (snd (MockFiles.pinFile w cid st))
      = MockFiles.getFileInfo c st) /\
   MockFiles.getStorageStats (snd (MockFiles.pinFile w cid st))
     = MockFiles.getStorageStats st) /\
  (fst (MockFiles.unpinFile w cid st)
     = Return {| MockFiles.pin_success := true; MockFiles.pin_cid := cid;
                 MockFiles.pin_pinned := false |} /\
   MockFiles.getFileInfo cid (snd (MockFiles.unpinFile w cid st))
     = Some (MockFiles.setPinned false f) /\
   (forall c, c <> cid ->
      MockFiles.getFileInfo c (snd (MockFiles.unpinFile w cid st))
      = MockFiles.getFileInfo c st) /\
   MockFiles.getStorageStats (snd (MockFiles.unpinFile w cid st))
     = MockFiles.getStorageStats st).
Proof.
  intros Hf. split.
  - intros Hv. unfold MockFiles.pinFile. rewrite Hv, Hf. cbn [negb fst snd].
    unfold MockFiles.getFileInfo, MockFiles.getStorageStats, MockFiles.withFileStore.
    cbn [Mock.fileStore Mock.currentStorageSize Mock.maxStorageSize Mock.simulateDelay].
    split; [reflexivity|]. split; [apply lookup_insert_eq|].
    split; [intros c Hc; apply lookup_insert_ne; congruence|].
    f_equal. apply map_size_insert_Some. exists f. exact Hf.
  - unfold MockFiles.unpinFile. rewrite Hf. cbn [fst snd].
    unfold MockFiles.getFileInfo, MockFiles.getStorageStats, MockFiles.withFileStore.
    cbn [Mock.fileStore Mock.currentStorageSize Mock.maxStorageSize Mock.simulateDelay].
    split; [reflexivity|]. split; [apply lookup_insert_eq|].
    split; [intros c Hc; apply lookup_insert_ne; congruence|].
    f_equal. apply map_size_insert_Some. exists f. exact Hf.
Qed.

(** X6.  The errors of pinning.  [pinFile] checks the CID format before
    it looks the file up, [unpinFile] does not check it at all: on a CID
    the validator rejects [pinFile] throws "Invalid CID format" even if
    the file is stored, while [unpinFile] only throws for a CID that is
    not stored.  Every failing call leaves the service as it was. *)
Theorem mock_pin_errors w cid st :
  (cidIsValid w cid = false ->
   MockFiles.pinFile w cid st
   = (Throw (newError ("Invalid CID format: " +:+ cid)), st)) /\
  (cidIsValid w cid = true -> Mock.fileStore st !! cid = None ->
   MockFiles.pinFile w cid st
   = (Throw (newError ("File not found: " +:+ cid)), st)) /\
  (Mock.fileStore st !! cid = None ->
   MockFiles.unpinFile w cid st
   = (Throw (newError ("File not found: " +:+ cid)), st)) /\
  (is_Some (Mock.fileStore st !! cid) ->
   isReturn (fst (MockFiles.unpinFile w cid st)) = true).
Proof.
  unfold MockFiles.pinFile, MockFiles.unpinFile. repeat split.
  - intros ->. reflexivity.
  - intros -> ->. reflexivity.
  - intros ->. reflexivity.
  - intros [f ->]. reflexivity.
Qed.

(** ** Reading *)

Lemma mock_fetchFile_frame w params st :
  Mock.fileStore (snd (Mock.fetchFile w params st)) = Mock.fileStore st /\
  Mock.currentStorageSize (snd (Mock.fetchFile w params st)) = Mock.currentStorageSize st /\
  Mock.maxStorageSize (snd (Mock.fetchFile w params st)) = Mock.maxStorageSize st.
Proof.
  unfold Mock.fetchFile.
  destruct (negb (cidIsValid w (Mock.fp_cid params))); [repeat split|].
  destruct (Mock.fileStore st !! Mock.fp_cid params); repeat split.
Qed.

Lemma mock_downloadLoop_frame w options cids :
  forall results st,
    Mock.fileStore (snd (Mock.downloadLoop w options cids results st)) = Mock.fileStore st /\
    Mock.currentStorageSize (snd (Mock.downloadLoop w options cids results st))
      = Mock.currentStorageSize st /\
    Mock.maxStorageSize (snd (Mock.downloadLoop w options cids results st))
      = Mock.maxStorageSize st.
Proof.
  induction cids as [|c rest IH]; intros results st.
  - repeat split.
  - cbn [Mock.downloadLoop].
    match goal with
    | |- context [Mock.fetchFile w ?ps st] =>
        pose proof (mock_fetchFile_frame w ps st) as (H1 & H2 & H3);
        destruct (Mock.fetchFile w ps st) as [[r|e] st1]
    end; cbn [snd] in H1, H2, H3.
    + match goal with
      | |- context [Mock.downloadLoop w options rest ?rs st1] =>
          destruct (IH rs st1) as (H4 & H5 & H6)
      end.
      rewrite H4, H5, H6. repeat split; assumption.
    + destruct (Mock.stopOnError d_continueOnError options).
      * cbn [snd]. repeat split; assumption.
      * match goal with
        | |- context [Mock.downloadLoop w options rest ?rs st1] =>
            destruct (IH rs st1) as (H4 & H5 & H6)
        end.
        rewrite H4, H5, H6. repeat split; assumption.
Qed.

(** X7.  Downloads only read: [fetchFile] and [batchDownloadFiles],
    whether they return or throw and whatever their arguments, leave the
    file store, the storage counter and the quota as they were. *)
Theorem mock_downloads_are_read_only w st :
  (forall params,
     Mock.fileStore (snd (Mock.fetchFile w params st)) = Mock.fileStore st /\
     MockFiles.getStorageStats (snd (Mock.fetchFile w params st))
       = MockFiles.getStorageStats st) /\
  (forall cids options,
     Mock.fileStore (snd (Mock.batchDownloadFiles w cids options st)) = Mock.fileStore st /\
     MockFiles.getStorageStats (snd (Mock.batchDownloadFiles w cids options st))
       = MockFiles.getStorageStats st).
Proof.
  split.
  - intros params. destruct (mock_fetchFile_frame w params st) as (H1 & H2 & H3).
    split; [exact H1|]. unfold MockFiles.getStorageStats. rewrite H1, H2, H3. reflexivity.
  - intros cids options.
    destruct (mock_downloadLoop_frame w options cids [] st) as (H1 & H2 & H3).
    unfold Mock.batchDownloadFiles.
    destruct (Mock.downloadLoop w options cids [] st) as [[rs|e] st'];
      cbn [snd] in *; (split; [exact H1|]);
      unfold MockFiles.getStorageStats; rewrite H1, H2, H3; reflexivity.
Qed.

(** X8.  Upload and fetch round trip: a file that was uploaded can be
    fetched by the CID the upload returned, provided the validator
    accepts that CID; the download has the size of the upload and is
    placed at [outputPath], or at the uploaded path when no (or an
    empty) [outputPath] is given. *)
Theorem mock_upload_then_fetch w params out dec st r st' :
  Mock.uploadFile w params st = (Return r, st') ->
  cidIsValid w (Mock.ur_cid r) = true ->
  exists d st'',
    Mock.fetchFile w {| Mock.fp_cid := Mock.ur_cid r; Mock.fp_outputPath := out;
                        Mock.fp_decrypt := dec |} st' = (Return d, st'') /\
    Mock.dr_cid d = Mock.ur_cid r /\
    Mock.dr_size d = Mock.ur_size r /\
    Mock.dr_filePath d = Mock.outputPathOr out (Mock.up_filePath params) /\
    Mock.dr_decrypted d = orDefault dec false.
Proof.
  intros H Hv. apply mock_uploadFile_return in H.
  destruct H as (stats & _ & _ & _ & _ & _ & _ & Hm & _ & _).
  unfold Mock.fetchFile. cbn [Mock.fp_cid Mock.fp_outputPath Mock.fp_decrypt].
  rewrite Hv. cbn [negb]. rewrite Hm, lookup_insert_eq.
  eexists _, _. split; [reflexivity|]. repeat split.
Qed.

(** ** Storage statistics *)

(** X9.  [getStorageStats] reports the utilization as a percentage: for a
    positive quota and a counter within it the value is finite and lies
    between 0 and 100; it is 0 for a counter of 0 and 100 for a counter
    at the quota.  With a quota of zero the value is not a finite
    number. *)
Theorem mock_utilization_is_a_percentage st :
  (0 < Mock.maxStorageSize st ->
   0 <= Mock.currentStorageSize st <= Mock.maxStorageSize st ->
   exists q, MockFiles.utilization (MockFiles.getStorageStats st) = Fin q /\
             (0 <= q)%Q /\ (q <= 100)%Q /\
             (Mock.currentStorageSize st = 0 -> (q == 0)%Q) /\
             (Mock.currentStorageSize st = Mock.maxStorageSize st -> (q == 100)%Q)) /\
  (Mock.maxStorageSize st = 0 ->
   isFinite (MockFiles.utilization (MockFiles.getStorageStats st)) = false).
Proof.
  unfold MockFiles.getStorageStats. cbn [MockFiles.utilization]. split.
  - intros Hmax [Hlo Hhi]. unfold div.
    assert (Hnz : ~ (inject_Z (Mock.maxStorageSize st) == 0)%Q).
    { unfold Qeq. cbn. lia. }
    destruct (Qeq_bool (inject_Z (Mock.maxStorageSize st)) 0) eqn:E.
    { apply Qeq_bool_eq in E. contradiction. }
    cbn [scale]. eexists. split; [reflexivity|].
    assert (Hpos : (0 < inject_Z (Mock.maxStorageSize st))%Q).
    { unfold Qlt. cbn. lia. }
    split; [|split; [|split]].
    + apply Qmult_le_0_compat; [|discriminate].
      apply Qle_shift_div_l; [exact Hpos|]. rewrite Qmult_0_l.
      unfold Qle. cbn. lia.
    + apply Qle_trans with (1 * 100)%Q; [|discriminate].
      apply Qmult_le_compat_r; [|discriminate].
      apply Qle_shift_div_r; [exact Hpos|]. rewrite Qmult_1_l.
      rewrite <- Zle_Qle. exact Hhi.
    + intros ->. unfold Qdiv. now rewrite !Qmult_0_l.
    + intros ->. field. exact Hnz.
  - intros ->. unfold div. cbn.
    destruct (Qeq_bool (inject_Z (Mock.currentStorageSize st)) 0); [reflexivity|].
    destruct (Qle_bool 0 (inject_Z (Mock.currentStorageSize st))); reflexivity.
Qed.

(** ** Batch uploads that continue *)

Lemma mock_uploadLoop_continue w o filePaths :
  Types.continueOnError o = Some true ->
  forall results st,
    MockFacts.stored_successes results st ->
    exists rs st',
      Mock.uploadLoop w (Some o) filePaths results st = (Return rs, st') /\
      map Types.id rs = map Types.id results ++ filePaths /\
      MockFacts.stored_successes rs st'.
Proof.
  intros Ho. induction filePaths as [|p rest IH]; intros results st Hinv.
  - exists results, st. cbn. rewrite app_nil_r. auto.
  - cbn [Mock.uploadLoop].
    match goal with
    | |- context [Mock.uploadFile w ?ps st] =>
        destruct (Mock.uploadFile w ps st) as [[r|e] st1] eqn:E
    end.
    + apply mock_uploadFile_return in E.
      destruct E as (stats & _ & _ & _ & _ & _ & _ & Hm & _ & _).
      match goal with
      | |- context [Mock.uploadLoop w (Some o) rest ?rs st1] =>
          destruct (IH rs st1) as (rs' & st' & HL & Hids & Hst)
      end.
      { intros x info Hin Hd. apply in_app_or in Hin. destruct Hin as [Hin|[<-|[]]].
        - rewrite Hm. apply lookup_insert_is_Some.
          assert (Hs := Hinv x info Hin Hd).
          destruct (decide (Mock.ur_cid r = hash info)) as [Heq|Hne].
          + left. exact Heq.
          + right. split; [exact Hne|exact Hs].
        - cbn in Hd. injection Hd as <-. cbn. rewrite Hm.
          apply lookup_insert_is_Some. left. reflexivity. }
      exists rs', st'. split; [exact HL|]. split; [|exact Hst].
      rewrite Hids, map_app. cbn. rewrite <- app_assoc. reflexivity.
    + unfold Mock.stopOnError. rewrite Ho. cbn [negb].
      apply mock_uploadFile_throw in E. destruct E as [-> _].
      match goal with
      | |- context [Mock.uploadLoop w (Some o) rest ?rs ?s1] =>
          destruct (IH rs s1) as (rs' & st' & HL & Hids & Hst)
      end.
      { intros x info Hin Hd. apply in_app_or in Hin. destruct Hin as [Hin|[<-|[]]].
        - exact (Hinv x info Hin Hd).
        - cbn in Hd. discriminate. }
      exists rs', st'. split; [exact HL|]. split; [|exact Hst].
      rewrite Hids, map_app. cbn. rewrite <- app_assoc. reflexivity.
Qed.

(** X10.  With [continueOnError: true] the mock's [batchUploadFiles]
    never throws: it returns one entry per path, in the order of the
    input and with the path as id, and every entry that carries data
    names a CID that [getFileInfo] finds afterwards. *)
Theorem mock_batch_upload_continues w filePaths o st :
  Types.continueOnError o = Some true ->
  exists r st',
    Mock.batchUploadFiles w filePaths (Some o) st = (Return r, st') /\
    map Types.id (results r) = filePaths /\
    total r = length filePaths /\
    forall x info, In x (results r) -> data x = Some info ->
                   is_Some (MockFiles.getFileInfo (hash info) st').
Proof.
  intros Ho.
  destruct (mock_uploadLoop_continue w o filePaths Ho [] st) as (rs & st' & HL & Hids & Hst).
  { intros x info []. }
  unfold Mock.batchUploadFiles. rewrite HL.
  eexists _, _. split; [reflexivity|]. cbn.
  split; [exact Hids|]. split; [reflexivity|]. exact Hst.
Qed.

(** ** The theorems about files at concrete inputs *)

Lemma pair_of_fst {A B : Type} (p : A * B) (a : A) : fst p = a -> p = (a, snd p).
Proof. intros <-. destruct p; reflexivity. Qed.

Lemma mock_sample_upload :
  Mock.uploadFile Fixtures.world (MockFacts.plain "/data/a.txt") MockFacts.fresh
  = (Return MockFacts.resultA, MockFacts.afterA).
Proof. apply pair_of_fst. vm_compute. reflexivity. Qed.

Lemma mock_sample_reupload :
  Mock.uploadFile Fixtures.world (MockFacts.plain "/data/a.txt") MockFacts.afterA
  = (Return {| Mock.ur_cid := "Qm/data/a.txt"; Mock.ur_size := 10;
               Mock.ur_encrypted := false; Mock.ur_uploadedAt := 500;
               Mock.ur_originalPath := "/data/a.txt" |},
     snd (Mock.uploadFile Fixtures.world (MockFacts.plain "/data/a.txt") MockFacts.afterA)).
Proof. apply pair_of_fst. vm_compute. reflexivity. Qed.

Lemma mock_sample_lookup :
  Mock.fileStore MockFacts.afterA !! "Qm/data/a.txt"%string = Some MockFacts.recordA.
Proof. vm_compute. reflexivity. Qed.

Lemma mock_upload_then_getFileInfo_witness :
  MockFiles.getFileInfo "Qm/data/a.txt" MockFacts.afterA = Some MockFacts.recordA /\
  MockFiles.getFileInfo "Qm/data/b.txt" MockFacts.afterA = None.
Proof.
  destruct (mock_upload_then_getFileInfo Fixtures.world (MockFacts.plain "/data/a.txt")
              MockFacts.fresh MockFacts.resultA MockFacts.afterA mock_sample_upload)
    as (stats & Hs & _ & _ & Hget & Hother).
  injection Hs as <-. split; [exact Hget|].
  rewrite (Hother "Qm/data/b.txt"%string); [reflexivity|discriminate].
Defined.

Lemma mock_failed_upload_stores_nothing_witness :
  Mock.fileStore (snd (Mock.uploadFile Fixtures.world (MockFacts.plain "/nope")
                         MockFacts.afterA))
  = Mock.fileStore MockFacts.afterA /\
  Mock.currentStorageSize (snd (Mock.uploadFile Fixtures.world (MockFacts.plain "/nope")
                                  MockFacts.afterA)) = 10.
Proof.
  assert (H : Mock.uploadFile Fixtures.world (MockFacts.plain "/nope") MockFacts.afterA
              = (Throw (newError "File not found: /nope"),
                 snd (Mock.uploadFile Fixtures.world (MockFacts.plain "/nope")
                        MockFacts.afterA)))
    by (apply pair_of_fst; vm_compute; reflexivity).
  destruct (mock_failed_upload_stores_nothing _ _ _ _ _ H) as (Hm & Hc & _).
  split; [exact Hm|]. rewrite Hc. vm_compute. reflexivity.
Defined.

Lemma mock_quota_needs_uploads_one_at_a_time_witness :
  Mock.currentStorageSize
    (snd (Mock.batchUploadFiles Fixtures.world ["/data/a.txt"; "/nope"; "/data/b.txt"]%string
            None (MockFiles.createWith 25 0)))
  <= 25 /\
  exists resultA resultB st',
    MockFiles.uploadOverlapping Fixtures.world (MockFacts.plain "/data/a.txt")
      (MockFacts.plain "/data/b.txt") (MockFiles.createWith 25 0)
    = Some (resultA, resultB, st') /\
    Mock.currentStorageSize st' = 30 /\
    Mock.maxStorageSize st' = 25.
Proof.
  assert (H : Mock.currentStorageSize (MockFiles.createWith 25 0)
              <= Mock.maxStorageSize (MockFiles.createWith 25 0)) by (cbn; lia).
  destruct (mock_quota_needs_uploads_one_at_a_time Fixtures.world (MockFiles.createWith 25 0) H)
    as (_ & Hbatch & Hoverlap).
  split; [exact (proj1 (Hbatch ["/data/a.txt"; "/nope"; "/data/b.txt"]%string None))|].
  destruct (Hoverlap (MockFacts.plain "/data/a.txt") (MockFacts.plain "/data/b.txt")
              {| isFile := true; st_size := 10 |} {| isFile := true; st_size := 20 |}
              eq_refl eq_refl)
    as (resultA & resultB & st' & Hrun & _ & _ & Hcur & Hmax & _);
    [cbn; lia|cbn; lia|cbn; lia|].
  exists resultA, resultB, st'. split; [exact Hrun|]. split; [exact Hcur|exact Hmax].
Defined.

Lemma mock_reupload_is_counted_again_witness :
  MockFiles.fileCount
    (MockFiles.getStorageStats
       (snd (Mock.uploadFile Fixtures.world (MockFacts.plain "/data/a.txt") MockFacts.afterA)))
  = MockFiles.fileCount (MockFiles.getStorageStats MockFacts.afterA) /\
  MockFiles.totalSize
    (MockFiles.getStorageStats
       (snd (Mock.uploadFile Fixtures.world (MockFacts.plain "/data/a.txt") MockFacts.afterA)))
  = MockFiles.totalSize (MockFiles.getStorageStats MockFacts.afterA) + 10.
Proof.
  apply (mock_reupload_is_counted_again Fixtures.world (MockFacts.plain "/data/a.txt")
           MockFacts.afterA _ _ mock_sample_reupload).
  exists MockFacts.recordA. exact mock_sample_lookup.
Defined.

Lemma mock_pin_changes_only_the_flag_witness :
  MockFiles.getFileInfo "Qm/data/a.txt"
    (snd (MockFiles.unpinFile Fixtures.world "Qm/data/a.txt" MockFacts.afterA))
  = Some (MockFiles.setPinned false MockFacts.recordA) /\
  MockFiles.getFileInfo "Qm/data/a.txt"
    (snd (MockFiles.pinFile Fixtures.world "Qm/data/a.txt" MockFacts.afterA))
  = Some (MockFiles.setPinned true MockFacts.recordA).
Proof.
  destruct (mock_pin_changes_only_the_flag Fixtures.world "Qm/data/a.txt"
              MockFacts.recordA MockFacts.afterA mock_sample_lookup) as [Hpin Hunpin].
  split.
  - exact (proj1 (proj2 Hunpin)).
  - exact (proj1 (proj2 (Hpin eq_refl))).
Defined.

Lemma mock_pin_errors_witness :
  MockFiles.pinFile Fixtures.world "cid" MockFacts.afterA
  = (Throw (newError "Invalid CID format: cid"), MockFacts.afterA) /\
  MockFiles.pinFile Fixtures.world "QmNone" MockFacts.fresh
  = (Throw (newError "File not found: QmNone"), MockFacts.fresh) /\
  MockFiles.unpinFile Fixtures.world "cid" MockFacts.fresh
  = (Throw (newError "File not found: cid"), MockFacts.fresh) /\
  isReturn (fst (MockFiles.unpinFile Fixtures.world "Qm/data/a.txt" MockFacts.afterA)) = true.
Proof.
  split; [exact (proj1 (mock_pin_errors Fixtures.world "cid" MockFacts.afterA) eq_refl)|].
  split; [exact (proj1 (proj2 (mock_pin_errors Fixtures.world "QmNone" MockFacts.fresh))
                   eq_refl eq_refl)|].
  split; [exact (proj1 (proj2 (proj2 (mock_pin_errors Fixtures.world "cid" MockFacts.fresh)))
                   eq_refl)|].
  apply (proj2 (proj2 (proj2 (mock_pin_errors Fixtures.world "Qm/data/a.txt"
                                MockFacts.afterA)))).
  exists MockFacts.recordA. exact mock_sample_lookup.
Defined.

Lemma mock_upload_then_fetch_witness :
  exists d st'',
    Mock.fetchFile Fixtures.world
      {| Mock.fp_cid := "Qm/data/a.txt"; Mock.fp_outputPath := Some "/tmp/out"%string;
         Mock.fp_decrypt := None |} MockFacts.afterA = (Return d, st'') /\
    Mock.dr_size d = 10 /\ Mock.dr_filePath d = "/tmp/out"%string.
Proof.
  destruct (mock_upload_then_fetch Fixtures.world (MockFacts.plain "/data/a.txt")
              (Some "/tmp/out"%string) None MockFacts.fresh MockFacts.resultA
              MockFacts.afterA mock_sample_upload eq_refl)
    as (d & st'' & Hf & _ & Hs & Hp & _).
  exists d, st''. split; [exact Hf|]. split; [exact Hs|exact Hp].
Defined.

Lemma mock_utilization_is_a_percentage_witness :
  exists q, MockFiles.utilization (MockFiles.getStorageStats MockFacts.afterA) = Fin q /\
            (0 <= q)%Q /\ (q <= 100)%Q.
Proof.
  assert (Hc : Mock.currentStorageSize MockFacts.afterA = 10) by (vm_compute; reflexivity).
  assert (Hm : Mock.maxStorageSize MockFacts.afterA = 1024 * 1024 * 1024)
    by (vm_compute; reflexivity).
  destruct (proj1 (mock_utilization_is_a_percentage MockFacts.afterA))
    as (q & Hq & Hlo & Hhi & _).
  - rewrite Hm. lia.
  - rewrite Hc, Hm. lia.
  - exists q. split; [exact Hq|]. split; assumption.
Defined.

Lemma mock_batch_upload_continues_witness :
  exists r st',
    Mock.batchUploadFiles Fixtures.world ["/data/a.txt"; "/nope"; "/data/b.txt"]%string
      (Some (Fixtures.uploadOptions (Some true))) MockFacts.fresh = (Return r, st') /\
    map Types.id (results r) = ["/data/a.txt"; "/nope"; "/data/b.txt"]%string.
Proof.
  destruct (mock_batch_upload_continues Fixtures.world
              ["/data/a.txt"; "/nope"; "/data/b.txt"]%string
              (Fixtures.uploadOptions (Some true)) MockFacts.fresh eq_refl)
    as (r & st' & H & Hids & _).
  exists r, st'. split; [exact H|exact Hids].
Defined.

(* ===================================================================== *)
(** * The mock service: datasets                                           *)
(* ===================================================================== *)

(** ** Maps in insertion order *)

Lemma omap_get_set_eq {V : Type} k (v : V) m :
  OrderedMap.get k (OrderedMap.set k v m) = Some v.
Proof.
  induction m as [|[k' v'] rest IH]; cbn.
  - now rewrite String.eqb_refl.
  - destruct (String.eqb k' k) eqn:E; cbn.
    + now rewrite String.eqb_refl.
    + rewrite E. exact IH.
Qed.

Lemma omap_get_set_ne {V : Type} k k' (v : V) m :
  k' <> k -> OrderedMap.get k' (OrderedMap.set k v m) = OrderedMap.get k' m.
Proof.
  intros Hne. induction m as [|[k0 v0] rest IH]; cbn.
  - destruct (String.eqb k k') eqn:E; [|reflexivity].
    apply String.eqb_eq in E. congruence.
  - destruct (String.eqb k0 k) eqn:E; cbn.
    + apply String.eqb_eq in E. subst k0.
      destruct (String.eqb k k') eqn:E'; [|reflexivity].
      apply String.eqb_eq in E'. congruence.
    + destruct (String.eqb k0 k'); [reflexivity|exact IH].
Qed.

Lemma omap_get_delete_eq {V : Type} k (m : OrderedMap.t (V := V)) :
  OrderedMap.get k (OrderedMap.delete k m) = None.
Proof.
  unfold OrderedMap.delete. induction m as [|[k' v'] rest IH]; cbn; [reflexivity|].
  destruct (String.eqb k' k) eqn:E; cbn; [exact IH|]. rewrite E. exact IH.
Qed.

Lemma omap_get_delete_ne {V : Type} k k' (m : OrderedMap.t (V := V)) :
  k' <> k -> OrderedMap.get k' (OrderedMap.delete k m) = OrderedMap.get k' m.
Proof.
  intros Hne. unfold OrderedMap.delete.
  induction m as [|[k0 v0] rest IH]; cbn; [reflexivity|].
  destruct (String.eqb k0 k) eqn:E; cbn.
  - apply String.eqb_eq in E. subst k0.
    destruct (String.eqb k k') eqn:E'; [|exact IH].
    apply String.eqb_eq in E'. congruence.
  - destruct (String.eqb k0 k'); [reflexivity|exact IH].
Qed.

(** ** Creating a dataset *)

Lemma mock_uploadAll_return w params filePaths :
  forall uploaded svc files svc',
    MockDatasets.uploadAll w params filePaths uploaded svc = (Return files, svc') ->
    exists new,
      files = uploaded ++ new /\
      map Mock.ur_originalPath new = filePaths /\
      map Mock.ur_cid new = map (cidGenerate w) filePaths /\
      (forall c, is_Some (Mock.fileStore svc !! c) -> is_Some (Mock.fileStore svc' !! c)) /\
      (forall f, In f new -> is_Some (Mock.fileStore svc' !! Mock.ur_cid f)).
Proof.
  induction filePaths as [|p rest IH]; intros uploaded svc files svc' H.
  - cbn in H. injection H as <- <-. exists []. rewrite app_nil_r.
    repeat split; auto. intros f [].
  - cbn [MockDatasets.uploadAll] in H.
    match type of H with
    | context [Mock.uploadFile w ?ps svc] =>
        destruct (Mock.uploadFile w ps svc) as [[r|e] svc1] eqn:E
    end; [|discriminate].
    apply mock_uploadFile_return in E.
    destruct E as (stats & _ & _ & Hc & _ & Hp & _ & Hm & _ & _).
    cbn [Mock.up_filePath] in Hc, Hp.
    apply IH in H. destruct H as (new & -> & Hpaths & Hcids & Hmono & Hnew).
    assert (Hstep : forall c, is_Some (Mock.fileStore svc !! c) ->
                              is_Some (Mock.fileStore svc1 !! c)).
    { intros c Hs. rewrite Hm. apply lookup_insert_is_Some.
      destruct (decide (Mock.ur_cid r = c)); [left; assumption|right; split; assumption]. }
    exists (r :: new). split; [now rewrite <- app_assoc|].
    split; [cbn; now rewrite Hp, Hpaths|]. split; [cbn; now rewrite Hc, Hcids|].
    split; [intros c Hs; apply Hmono, Hstep, Hs|].
    intros f [<-|Hin]; [|apply Hnew, Hin].
    apply Hmono. rewrite Hm. apply lookup_insert_is_Some. left. reflexivity.
Qed.

Lemma mock_uploadAll_throw w params filePaths :
  forall uploaded svc e svc',
    MockDatasets.uploadAll w params filePaths uploaded svc = (Throw e, svc') ->
    exists before p after,
      filePaths = before ++ p :: after /\
      (forall c, is_Some (Mock.fileStore svc !! c) -> is_Some (Mock.fileStore svc' !! c)) /\
      (forall q, In q before -> is_Some (Mock.fileStore svc' !! cidGenerate w q)) /\
      Mock.currentStorageSize svc'
        = Mock.currentStorageSize svc + MockFacts.totalSizeOf w before /\
      (message e = "File not found: " +:+ p \/
       message e = "Storage quota exceeded"%string).
Proof.
  induction filePaths as [|p rest IH]; intros uploaded svc e svc' H.
  - cbn in H. discriminate.
  - cbn [MockDatasets.uploadAll] in H.
    match type of H with
    | context [Mock.uploadFile w ?ps svc] =>
        destruct (Mock.uploadFile w ps svc) as [[r|e1] svc1] eqn:E
    end.
    + apply mock_uploadFile_return in E.
      destruct E as (stats & Hst & _ & Hc & _ & _ & _ & Hm & Hcur & _).
      cbn [Mock.up_filePath] in Hc, Hst.
      apply IH in H. destruct H as (before & q & after & -> & Hmono & Hbefore & Hsz & Hmsg).
      assert (Hstep : forall c, is_Some (Mock.fileStore svc !! c) ->
                                is_Some (Mock.fileStore svc1 !! c)).
      { intros c Hs. rewrite Hm. apply lookup_insert_is_Some.
        destruct (decide (Mock.ur_cid r = c)); [left; assumption|right; split; assumption]. }
      exists (p :: before), q, after. split; [reflexivity|].
      split; [intros c Hs; apply Hmono, Hstep, Hs|]. split.
      * intros x [<-|Hin]; [|apply Hbefore, Hin].
        apply Hmono. rewrite Hm, <- Hc. apply lookup_insert_is_Some. left. reflexivity.
      * split; [|exact Hmsg]. rewrite Hsz, Hcur. unfold MockFacts.totalSizeOf.
        cbn [foldr]. rewrite Hst. cbn [from_option]. lia.
    + injection H as <- <-. pose proof E as E'.
      apply mock_failed_upload_frame in E'. destruct E' as (Hm & Hcur & Hcases).
      exists [], p, rest. split; [reflexivity|].
      split; [intros c Hs; now rewrite Hm|]. split; [intros q []|].
      split; [cbn; lia|]. exact Hcases.
Qed.

(** X11.  A dataset that was created can be read back: [getDataset] of
    the new id returns the dataset [createDataset] returned; it holds
    one uploaded file per path, in the order of the paths, each of them
    in the file store; its version is "1.0.0" and its id is built from
    the time after the uploads and the random text drawn. *)
Theorem mock_create_dataset_round_trip w random params st ds st' :
  MockDatasets.createDataset w random params st = (Return ds, st') ->
  MockDatasets.getDataset (MockDatasets.ds_id ds) st' = Some ds /\
  MockDatasets.ds_id ds
    = "dataset_" +:+ pretty (Mock.clock (MockDatasets.service st')) +:+ "_"
      +:+ random (MockDatasets.draws st) /\
  map Mock.ur_originalPath (MockDatasets.ds_files ds) = MockDatasets.cp_filePaths params /\
  map Mock.ur_cid (MockDatasets.ds_files ds)
    = map (cidGenerate w) (MockDatasets.cp_filePaths params) /\
  MockDatasets.ds_version ds = "1.0.0"%string /\
  forall f, In f (MockDatasets.ds_files ds) ->
            is_Some (MockFiles.getFileInfo (Mock.ur_cid f) (MockDatasets.service st')).
Proof.
  unfold MockDatasets.createDataset. intros H.
  destruct (MockDatasets.uploadAll w params (MockDatasets.cp_filePaths params) []
              (MockDatasets.service st)) as [[files|e] svc] eqn:E; [|discriminate].
  injection H as <- <-.
  apply mock_uploadAll_return in E. destruct E as (new & -> & Hp & Hc & _ & Hnew).
  cbn [app MockDatasets.ds_id MockDatasets.ds_files MockDatasets.ds_version
       MockDatasets.service MockDatasets.datasetStore].
  split; [unfold MockDatasets.getDataset; cbn [MockDatasets.datasetStore];
          apply omap_get_set_eq|].
  split; [reflexivity|]. split; [exact Hp|]. split; [exact Hc|].
  split; [reflexivity|exact Hnew].
Qed.

(** X12.  [createDataset] does not roll back.  When the upload of one
    of its paths fails, no dataset is recorded, and the files of the
    paths before the failing one stay in the file store and in the
    storage counter, which has grown by their sizes. *)
Theorem mock_create_dataset_no_rollback w random params st e st' :
  MockDatasets.createDataset w random params st = (Throw e, st') ->
  MockDatasets.datasetStore st' = MockDatasets.datasetStore st /\
  exists before p after,
    MockDatasets.cp_filePaths params = before ++ p :: after /\
    (message e = "File not found: " +:+ p \/
     message e = "Storage quota exceeded"%string) /\
    (forall q, In q before ->
       is_Some (MockFiles.getFileInfo (cidGenerate w q) (MockDatasets.service st'))) /\
    Mock.currentStorageSize (MockDatasets.service st')
      = Mock.currentStorageSize (MockDatasets.service st)
        + MockFacts.totalSizeOf w before.
Proof.
  unfold MockDatasets.createDataset. intros H.
  destruct (MockDatasets.uploadAll w params (MockDatasets.cp_filePaths params) []
              (MockDatasets.service st)) as [[files|e1] svc] eqn:E; [discriminate|].
  injection H as <- <-.
  apply mock_uploadAll_throw in E.
  destruct E as (before & p & after & Hsplit & _ & Hbefore & Hsz & Hmsg).
  split; [reflexivity|]. exists before, p, after.
  split; [exact Hsplit|]. split; [exact Hmsg|]. split; [exact Hbefore|exact Hsz].
Qed.

(** ** Version numbers *)

Lemma digit_char_facts c :
  (48 <= nat_of_ascii c <= 57)%nat ->
  Strings.isWhiteSpace c = false /\ Ascii.eqb c "-" = false /\ Ascii.eqb c "+" = false /\
  Ascii.eqb c "." = false /\ Ascii.eqb c "x" = false /\ Ascii.eqb c "X" = false /\
  exists d, Strings.digitValue c = Some d /\ 0 <= d < 10 /\
            d = Z.of_nat (nat_of_ascii c) - 48.
Proof.
  intros Hc.
  assert (Hne : forall k, nat_of_ascii k <> nat_of_ascii c -> Ascii.eqb c k = false).
  { intros k Hk. destruct (Ascii.eqb_spec c k); [subst; contradiction|reflexivity]. }
  split.
  { unfold Strings.isWhiteSpace. cbv zeta.
    destruct (9 <=? nat_of_ascii c)%nat eqn:E1, (nat_of_ascii c <=? 13)%nat eqn:E2,
             (nat_of_ascii c =? 32)%nat eqn:E3; try reflexivity;
      try apply Nat.leb_le in E2; try apply Nat.eqb_eq in E3; lia. }
  repeat (split; [apply Hne;
                  match goal with
                  | |- nat_of_ascii ?k <> _ =>
                      let v := eval vm_compute in (nat_of_ascii k) in
                      change (nat_of_ascii k) with v
                  end; lia|]).
  unfold Strings.digitValue. cbv zeta.
  assert (H1 : (48 <=? Z.of_nat (nat_of_ascii c)) = true) by (apply Z.leb_le; lia).
  assert (H2 : (Z.of_nat (nat_of_ascii c) <=? 57) = true) by (apply Z.leb_le; lia).
  rewrite H1, H2. cbn [andb]. eexists. split; [reflexivity|]. split; [lia|reflexivity].
Qed.

Lemma pretty_N_char_digit x :
  (x < 10)%N ->
  (48 <= nat_of_ascii (pretty_N_char x) <= 57)%nat /\
  Z.of_nat (nat_of_ascii (pretty_N_char x)) - 48 = Z.of_N x.
Proof.
  intros Hx.
  assert (x = 0 \/ x = 1 \/ x = 2 \/ x = 3 \/ x = 4 \/ x = 5 \/ x = 6
          \/ x = 7 \/ x = 8 \/ x = 9)%N as H by lia.
  repeat (destruct H as [->|H]; [vm_compute; split; [split|]; try reflexivity;
                                  repeat constructor|]).
  subst. vm_compute. split; [split|]; try reflexivity; repeat constructor.
Qed.

Lemma pretty_N_go_digits x :
  forall s, MockFacts.allDigits s -> MockFacts.allDigits (pretty_N_go x s).
Proof.
  induction (N.lt_wf_0 x) as [x _ IH]. intros s Hs.
  destruct (decide (x = 0)%N) as [->|Hx]; [now rewrite pretty_N_go_0|].
  rewrite pretty_N_go_step by lia. apply IH.
  - apply N.div_lt; lia.
  - unfold MockFacts.allDigits. cbn [list_ascii_of_string]. constructor; [|exact Hs].
    apply pretty_N_char_digit. apply N.mod_lt. lia.
Qed.

Lemma pretty_nat_digits (n : nat) : MockFacts.allDigits (pretty n).
Proof.
  unfold pretty, pretty_nat, pretty, pretty_N. destruct (decide _).
  - repeat constructor; cbn; lia.
  - apply pretty_N_go_digits. constructor.
Qed.

Lemma pretty_N_go_parse x :
  (0 < x)%N ->
  exists k : Z, 0 <= k /\ forall s seen acc,
    Strings.digits 10 (pretty_N_go x s) seen acc
    = Strings.digits 10 s true (acc * 10 ^ k + Z.of_N x).
Proof.
  induction (N.lt_wf_0 x) as [x _ IH]. intros Hx.
  assert (Hc := pretty_N_char_digit (x mod 10) (N.mod_lt x 10 ltac:(lia))).
  destruct Hc as [Hrange Hval].
  destruct (digit_char_facts _ Hrange) as (_ & _ & _ & _ & _ & _ & d & Hd & Hd10 & Hdv).
  assert (Hdx : d = Z.of_N (x mod 10)) by lia.
  assert (Hdm := N.div_mod x 10 ltac:(lia)).
  destruct (decide (x / 10 = 0)%N) as [Hz|Hnz].
  - exists 1. split; [lia|]. intros s seen acc.
    rewrite pretty_N_go_step by exact Hx. rewrite Hz, pretty_N_go_0.
    cbn [Strings.digits]. change (x `mod` 10)%N with (x mod 10)%N. rewrite Hd.
    assert (Hlt : (d <? 10) = true) by (apply Z.ltb_lt; lia). rewrite Hlt.
    f_equal. rewrite Hz in Hdm. lia.
  - destruct (IH (x / 10)%N) as (k & Hk & Hparse).
    + apply N.div_lt; lia.
    + lia.
    + exists (k + 1). split; [lia|]. intros s seen acc.
      rewrite pretty_N_go_step by exact Hx.
      change (x `div` 10)%N with (x / 10)%N. rewrite Hparse.
      cbn [Strings.digits]. change (x `mod` 10)%N with (x mod 10)%N. rewrite Hd.
      assert (Hlt : (d <? 10) = true) by (apply Z.ltb_lt; lia). rewrite Hlt.
      f_equal. rewrite Z.pow_add_r by lia.
      assert (Hx' : Z.of_N x = 10 * Z.of_N (x / 10) + Z.of_N (x mod 10)) by lia.
      rewrite Hx', Hdx. ring.
Qed.

Lemma digits_first_facts s :
  MockFacts.allDigits s -> s <> EmptyString ->
  Strings.parseInt s = Strings.digits 10 s false 0.
Proof.
  intros Hs Hne. destruct s as [|c rest]; [contradiction|].
  unfold MockFacts.allDigits in Hs. cbn [list_ascii_of_string] in Hs.
  apply Forall_cons in Hs. destruct Hs as [Hc Hrest].
  destruct (digit_char_facts c Hc) as (Hw & Hm & Hp & _ & _ & _ & _).
  unfold Strings.parseInt. cbn [Strings.trimStart]. rewrite Hw. cbv zeta.
  rewrite Hm, Hp. cbn [fst snd].
  assert (Hone : forall o : option Z, Z.mul 1 <$> o = o).
  { intros [z|]; cbn; [f_equal; lia|reflexivity]. }
  destruct rest as [|c1 rest'].
  - cbn [fst snd]. apply Hone.
  - cbn [list_ascii_of_string] in Hrest. apply Forall_cons in Hrest.
    destruct Hrest as [Hc1 _].
    destruct (digit_char_facts c1 Hc1) as (_ & _ & _ & _ & Hx & HX & _).
    rewrite Hx, HX. cbn [orb]. rewrite andb_false_r. cbn [fst snd]. apply Hone.
Qed.

Lemma parseInt_pretty_nat (n : nat) : Strings.parseInt (pretty n) = Some (Z.of_nat n).
Proof.
  rewrite digits_first_facts.
  - unfold pretty, pretty_nat, pretty, pretty_N. destruct (decide (N.of_nat n = 0)%N) as [Hz|Hnz].
    + change (Strings.digits 10 "0" false 0) with (Some 0). f_equal. lia.
    + destruct (pretty_N_go_parse (N.of_nat n)) as (k & _ & Hparse); [lia|].
      rewrite Hparse. cbn [Strings.digits]. f_equal. lia.
  - apply pretty_nat_digits.
  - unfold pretty, pretty_nat, pretty, pretty_N. destruct (decide _); [discriminate|].
    intros Hempty. apply (pretty_N_go_ne_0 (N.of_nat n) ""); [discriminate|].
    exfalso. destruct (pretty_N_go_parse (N.of_nat n)) as (k & _ & Hparse); [lia|].
    specialize (Hparse EmptyString false 0). rewrite Hempty in Hparse. cbn in Hparse.
    discriminate.
Qed.

Lemma string_app_cons c (s t : string) : String c s +:+ t = String c (s +:+ t).
Proof. reflexivity. Qed.

Lemma string_app_nil_r (s : string) : s +:+ EmptyString = s.
Proof.
  induction s as [|c s IH]; [reflexivity|]. rewrite string_app_cons. f_equal. exact IH.
Qed.

Lemma string_app_assoc (a b c : string) : (a +:+ b) +:+ c = a +:+ (b +:+ c).
Proof.
  induction a as [|x a IH]; [reflexivity|]. rewrite !string_app_cons. f_equal. exact IH.
Qed.

Lemma splitFrom_digits sep acc s rest :
  sep = "."%char -> MockFacts.allDigits s ->
  Strings.splitFrom sep acc (s +:+ String sep rest)
  = (acc +:+ s) :: Strings.splitFrom sep EmptyString rest.
Proof.
  intros -> Hs. revert acc. induction s as [|c s IH]; intros acc.
  - change (EmptyString +:+ String "." rest) with (String "." rest).
    cbn [Strings.splitFrom]. rewrite Ascii.eqb_refl, string_app_nil_r. reflexivity.
  - unfold MockFacts.allDigits in Hs. cbn [list_ascii_of_string] in Hs.
    apply Forall_cons in Hs. destruct Hs as [Hc Hs].
    destruct (digit_char_facts c Hc) as (_ & _ & _ & Hdot & _).
    rewrite string_app_cons. cbn [Strings.splitFrom]. rewrite Hdot. rewrite (IH Hs).
    f_equal. rewrite string_app_assoc. reflexivity.
Qed.

Lemma bumpVersion_minor (n : nat) :
  MockDatasets.bumpVersion ("1." +:+ pretty n +:+ ".0") = "1." +:+ pretty (S n) +:+ ".0".
Proof.
  unfold MockDatasets.bumpVersion, Strings.split.
  change ("1." +:+ pretty n +:+ ".0")
    with (String "1" (String "." (pretty n +:+ String "." "0"))).
  cbn [Strings.splitFrom]. change (Ascii.eqb "1" ".") with false.
  change (Ascii.eqb "." ".") with true. cbv iota.
  rewrite (splitFrom_digits "." EmptyString (pretty n) "0" eq_refl (pretty_nat_digits n)).
  change (EmptyString +:+ pretty n) with (pretty n).
  change (Strings.splitFrom "." EmptyString "0") with ["0"%string].
  change (EmptyString +:+ String "1" EmptyString) with "1"%string.
  destruct (String.eqb (pretty n) "") eqn:E.
  - apply String.eqb_eq in E. pose proof (parseInt_pretty_nat n) as Hp.
    rewrite E in Hp. discriminate.
  - rewrite parseInt_pretty_nat. cbn [fmap option_fmap option_map Strings.ofNumber].
    replace (1 + Z.of_nat n) with (Z.of_nat (S n)) by lia.
    assert (Hnat : pretty (Z.of_nat (S n)) = pretty (S n)).
    { unfold pretty at 1, pretty_Z. rewrite Nat2Z.inj_succ.
      destruct (Z.succ (Z.of_nat n)) as [|p|p] eqn:Ez; try lia.
      unfold pretty at 2, pretty_nat. unfold pretty at 1, pretty_positive.
      f_equal. lia. }
    rewrite Hnat. reflexivity.
Qed.

(** What a successful [updateDataset] is made of. *)
Lemma mock_updateDataset_return w params st ds' st' :
  MockDatasets.updateDataset w params st = (Return ds', st') ->
  exists ds extended svc,
    MockDatasets.getDataset (MockDatasets.upd_datasetId params) st = Some ds /\
    MockDatasets.addFiles w (default [] (MockDatasets.upd_addFiles params)) ds
      (MockDatasets.service st) = (None, extended, svc) /\
    ds' = MockDatasets.applyUpdate params (Mock.clock svc) extended /\
    st' = MockDatasets.withDataset (MockDatasets.upd_datasetId params) ds'
            (MockDatasets.withService svc st).
Proof.
  unfold MockDatasets.updateDataset, MockDatasets.getDataset. intros H.
  destruct (OrderedMap.get (MockDatasets.upd_datasetId params)
              (MockDatasets.datasetStore st)) as [ds|]; [|discriminate].
  destruct (MockDatasets.addFiles w (default [] (MockDatasets.upd_addFiles params)) ds
              (MockDatasets.service st)) as [[[e|] extended] svc] eqn:E; [discriminate|].
  injection H as <- <-. exists ds, extended, svc. repeat split. exact E.
Qed.

Lemma mock_addFiles_keeps_version w filePaths :
  forall ds svc r ds' svc',
    MockDatasets.addFiles w filePaths ds svc = (r, ds', svc') ->
    exists added,
      ds' = MockDatasets.withFiles (MockDatasets.ds_files ds ++ added) ds /\
      map Mock.ur_cid added = map (cidGenerate w) (map Mock.ur_originalPath added) /\
      (r = None -> map Mock.ur_originalPath added = filePaths) /\
      (forall e, r = Some e ->
         exists p after, filePaths = map Mock.ur_originalPath added ++ p :: after /\
           (message e = "File not found: " +:+ p \/
            message e = "Storage quota exceeded"%string)).
Proof.
  induction filePaths as [|p rest IH]; intros ds svc r ds' svc' H.
  - cbn in H. injection H as <- <- <-. exists []. rewrite app_nil_r.
    split; [now destruct ds|]. split; [reflexivity|]. split; [reflexivity|].
    intros e He. discriminate.
  - cbn [MockDatasets.addFiles] in H.
    destruct (Mock.uploadFile w (MockFacts.plain p) svc) as [[u|e] svc1] eqn:E.
    + apply mock_uploadFile_return in E.
      destruct E as (stats & _ & _ & Hc & _ & Hp & _).
      cbn [MockFacts.plain Mock.up_filePath] in Hc, Hp.
      apply IH in H. destruct H as (added & -> & Hcids & Hok & Hko).
      exists (u :: added). cbn [MockDatasets.withFiles MockDatasets.ds_files
                                 MockDatasets.ds_id MockDatasets.ds_name
                                 MockDatasets.ds_description MockDatasets.ds_metadata
                                 MockDatasets.ds_version MockDatasets.ds_createdAt
                                 MockDatasets.ds_updatedAt MockDatasets.ds_encrypted
                                 MockDatasets.ds_accessConditions].
      split; [unfold MockDatasets.withFiles; cbn; now rewrite <- app_assoc|].
      split; [cbn; now rewrite Hc, Hp, Hcids|].
      split; [intros Hr; cbn; now rewrite Hp, (Hok Hr)|].
      intros e He. destruct (Hko e He) as (q & after & -> & Hmsg).
      exists q, after. split; [cbn; now rewrite Hp|exact Hmsg].
    + injection H as <- <- <-. apply mock_failed_upload_frame in E.
      destruct E as (_ & _ & Hmsg). exists []. rewrite app_nil_r.
      split; [now destruct ds|]. split; [reflexivity|]. split; [discriminate|].
      intros e' He'. injection He' as <-. exists p, rest. split; [reflexivity|exact Hmsg].
Qed.

(** X13.  Versions count updates.  A dataset is created with version
    "1.0.0", and every successful [updateDataset] bumps the middle part
    by one: a stored dataset with version "1.n.0" has version
    "1.(n+1).0" after the update, and that is the dataset the store then
    holds under the id.  ([n] is within the integers a JavaScript number
    represents exactly.) *)
Theorem mock_update_counts_versions w params st ds ds' st' (n : nat) :
  Z.of_nat n < 2 ^ 53 ->
  MockDatasets.getDataset (MockDatasets.upd_datasetId params) st = Some ds ->
  MockDatasets.ds_version ds = "1." +:+ pretty n +:+ ".0" ->
  MockDatasets.updateDataset w params st = (Return ds', st') ->
  MockDatasets.ds_version ds' = "1." +:+ pretty (S n) +:+ ".0" /\
  MockDatasets.ds_id ds' = MockDatasets.ds_id ds /\
  MockDatasets.getDataset (MockDatasets.upd_datasetId params) st' = Some ds'.
Proof.
  intros _ Hget Hv H. apply mock_updateDataset_return in H.
  destruct H as (ds0 & extended & svc & Hget0 & Hadd & -> & ->).
  rewrite Hget in Hget0. injection Hget0 as <-.
  apply mock_addFiles_keeps_version in Hadd. destruct Hadd as (added & -> & _).
  cbn [MockDatasets.applyUpdate MockDatasets.ds_version MockDatasets.ds_id
       MockDatasets.withFiles].
  split; [rewrite Hv; apply bumpVersion_minor|]. split; [reflexivity|].
  unfold MockDatasets.getDataset, MockDatasets.withDataset.
  cbn [MockDatasets.datasetStore]. apply omap_get_set_eq.
Qed.

(** X14.  A failed [updateDataset] is a partial update.  When adding
    files fails at some path, the files uploaded for the paths before it
    have already been pushed onto the stored dataset: the store then
    holds the dataset with those files appended, but with its old
    version and time stamp, and with none of the other changes of the
    request. *)
Theorem mock_failed_update_keeps_added_files w params st ds e st' :
  MockDatasets.getDataset (MockDatasets.upd_datasetId params) st = Some ds ->
  MockDatasets.updateDataset w params st = (Throw e, st') ->
  exists added p after,
    default [] (MockDatasets.upd_addFiles params)
      = map Mock.ur_originalPath added ++ p :: after /\
    (message e = "File not found: " +:+ p \/
     message e = "Storage quota exceeded"%string) /\
    MockDatasets.getDataset (MockDatasets.upd_datasetId params) st'
      = Some (MockDatasets.withFiles (MockDatasets.ds_files ds ++ added) ds).
Proof.
  unfold MockDatasets.updateDataset, MockDatasets.getDataset. intros Hget H.
  rewrite Hget in H.
  destruct (MockDatasets.addFiles w (default [] (MockDatasets.upd_addFiles params)) ds
              (MockDatasets.service st)) as [[[e1|] partial] svc] eqn:E; [|discriminate].
  injection H as <- <-.
  apply mock_addFiles_keeps_version in E. destruct E as (added & -> & _ & _ & Hko).
  destruct (Hko e1 eq_refl) as (p & after & Hsplit & Hmsg).
  exists added, p, after. split; [exact Hsplit|]. split; [exact Hmsg|].
  unfold MockDatasets.withDataset. cbn [MockDatasets.datasetStore].
  apply omap_get_set_eq.
Qed.

(** ** Listing datasets *)

Lemma slice_window {A : Type} (limit offset : Z) (l : list A) :
  0 < limit -> 0 <= offset ->
  Arrays.slice offset (Some (offset + limit)) l
  = take (Z.to_nat limit) (drop (Z.to_nat offset) l).
Proof.
  intros Hl Ho. unfold Arrays.slice, Arrays.relativeIndex.
  assert (H1 : (offset <? 0) = false) by (apply Z.ltb_ge; lia).
  assert (H2 : (offset + limit <? 0) = false) by (apply Z.ltb_ge; lia).
  rewrite H1, H2.
  destruct (Z_lt_le_dec offset (Z.of_nat (length l))) as [Hin|Hout].
  - rewrite (Z.min_l offset) by lia.
    destruct (Z_le_gt_dec (offset + limit) (Z.of_nat (length l))) as [Hfit|Hover].
    + rewrite Z.min_l by lia. f_equal. lia.
    + rewrite Z.min_r by lia.
      rewrite !take_ge; [reflexivity| |]; rewrite length_drop; lia.
  - rewrite (Z.min_r offset) by lia. rewrite (Z.min_r (offset + limit)) by lia.
    rewrite Z.sub_diag. cbn [Z.to_nat take].
    rewrite (drop_ge l (Z.to_nat offset)) by lia. now rewrite take_nil.
Qed.

(** X15.  [listDatasets] pages through the datasets in the order in
    which they were first stored.  For a positive limit and an offset
    that is not negative, the page is the window of [limit] datasets
    after the first [offset]; [hasMore] is true exactly when datasets
    remain after the window; when it is false the page runs to the end;
    and the page that starts where this one ends continues it without
    gap or overlap.  An omitted limit, like a limit of 0, is 10, and an
    omitted offset is 0. *)
Theorem mock_list_datasets_pages st :
  (forall limit offset, 0 < limit -> 0 <= offset ->
     MockDatasets.datasets (MockDatasets.listDatasets (Some limit) (Some offset) st)
     = take (Z.to_nat limit)
         (drop (Z.to_nat offset) (OrderedMap.values (MockDatasets.datasetStore st))) /\
     MockDatasets.pageTotal (MockDatasets.listDatasets (Some limit) (Some offset) st)
     = length (MockDatasets.datasetStore st) /\
     (MockDatasets.hasMore (MockDatasets.listDatasets (Some limit) (Some offset) st) = true
      <-> offset + limit < Z.of_nat (length (MockDatasets.datasetStore st))) /\
     (MockDatasets.hasMore (MockDatasets.listDatasets (Some limit) (Some offset) st) = false ->
      MockDatasets.datasets (MockDatasets.listDatasets (Some limit) (Some offset) st)
      = drop (Z.to_nat offset) (OrderedMap.values (MockDatasets.datasetStore st))) /\
     forall limit', 0 < limit' ->
       MockDatasets.datasets (MockDatasets.listDatasets (Some limit) (Some offset) st)
       ++ MockDatasets.datasets
            (MockDatasets.listDatasets (Some limit') (Some (offset + limit)) st)
       = MockDatasets.datasets
           (MockDatasets.listDatasets (Some (limit + limit')) (Some offset) st)) /\
  MockDatasets.listDatasets None None st
  = MockDatasets.listDatasets (Some 10) (Some 0) st /\
  (forall offset, MockDatasets.listDatasets (Some 0) offset st
                  = MockDatasets.listDatasets None offset st).
Proof.
  split; [|split; reflexivity].
  intros limit offset Hl Ho.
  assert (Hlen : length (OrderedMap.values (MockDatasets.datasetStore st))
                 = length (MockDatasets.datasetStore st))
    by (unfold OrderedMap.values; apply length_map).
  assert (Hpage : forall lim off, 0 < lim -> 0 <= off ->
            MockDatasets.datasets (MockDatasets.listDatasets (Some lim) (Some off) st)
            = take (Z.to_nat lim)
                (drop (Z.to_nat off) (OrderedMap.values (MockDatasets.datasetStore st)))).
  { intros lim off Hlim Hoff. unfold MockDatasets.listDatasets.
    assert (Hz : (lim =? 0) = false) by (apply Z.eqb_neq; lia). rewrite Hz.
    cbn [MockDatasets.datasets orDefault]. now apply slice_window. }
  assert (Hmore : MockDatasets.hasMore
                    (MockDatasets.listDatasets (Some limit) (Some offset) st)
                  = (offset + limit <? Z.of_nat (length (MockDatasets.datasetStore st)))).
  { unfold MockDatasets.listDatasets.
    assert (Hz : (limit =? 0) = false) by (apply Z.eqb_neq; lia). rewrite Hz.
    cbn [MockDatasets.hasMore orDefault]. now rewrite Hlen. }
  split; [now apply Hpage|]. split.
  { unfold MockDatasets.listDatasets. cbn [MockDatasets.pageTotal]. exact Hlen. }
  split; [rewrite Hmore; apply Z.ltb_lt|]. split.
  - rewrite Hmore. intros Hno. apply Z.ltb_ge in Hno.
    rewrite Hpage by assumption. apply take_ge. rewrite length_drop, Hlen. lia.
  - intros limit' Hl'. rewrite !Hpage by lia.
    replace (Z.to_nat (offset + limit)) with (Z.to_nat offset + Z.to_nat limit)%nat by lia.
    replace (Z.to_nat (limit + limit')) with (Z.to_nat limit + Z.to_nat limit')%nat by lia.
    rewrite <- drop_drop. rewrite take_take_drop. reflexivity.
Qed.

(** ** Deleting a dataset *)

Lemma mock_dropFiles files :
  forall svc,
    (forall f, In f files ->
       Mock.fileStore (fold_left MockDatasets.dropFile files svc) !! Mock.ur_cid f = None) /\
    (forall c, ~ In c (map Mock.ur_cid files) ->
       Mock.fileStore (fold_left MockDatasets.dropFile files svc) !! c
       = Mock.fileStore svc !! c) /\
    (forall c, Mock.fileStore svc !! c = None ->
       Mock.fileStore (fold_left MockDatasets.dropFile files svc) !! c = None) /\
    Mock.currentStorageSize (fold_left MockDatasets.dropFile files svc)
    = Mock.currentStorageSize svc - foldr (fun f acc => Mock.ur_size f + acc) 0 files /\
    Mock.maxStorageSize (fold_left MockDatasets.dropFile files svc)
    = Mock.maxStorageSize svc.
Proof.
  induction files as [|f rest IH]; intros svc.
  - cbn. split; [intros f []|]. repeat split; auto. lia.
  - cbn [fold_left]. destruct (IH (MockDatasets.dropFile svc f)) as (H1 & H2 & H3 & H4 & H5).
    split; [|split; [|split; [|split]]].
    + intros g [<-|Hin]; [|apply H1, Hin].
      apply H3. cbn. apply lookup_delete_eq.
    + intros c Hc. cbn in Hc. rewrite H2 by tauto. cbn.
      apply lookup_delete_ne. tauto.
    + intros c Hc. apply H3. cbn.
      destruct (decide (Mock.ur_cid f = c)) as [->|Hne];
        [apply lookup_delete_eq|rewrite lookup_delete_ne by exact Hne; exact Hc].
    + rewrite H4. cbn. lia.
    + rewrite H5. reflexivity.
Qed.

(** X16.  [deleteDataset].  An unknown id throws "Dataset not found" and
    changes nothing.  A known id removes that dataset and no other; the
    files are kept unless [deleteFiles] is true, in which case none of
    the dataset's files remains in the file store, files of no dataset
    of that list are untouched, and the storage counter is lowered by
    the size of every file the dataset lists, whether or not the file
    was still stored. *)
Theorem mock_delete_dataset datasetId deleteFiles st :
  (MockDatasets.getDataset datasetId st = None ->
   MockDatasets.deleteDataset datasetId deleteFiles st
   = (Throw (newError ("Dataset not found: " +:+ datasetId)), st)) /\
  (forall ds, MockDatasets.getDataset datasetId st = Some ds ->
     exists st',
       MockDatasets.deleteDataset datasetId deleteFiles st = (Return tt, st') /\
       MockDatasets.getDataset datasetId st' = None /\
       (forall other, other <> datasetId ->
          MockDatasets.getDataset other st' = MockDatasets.getDataset other st) /\
       (deleteFiles <> Some true ->
        MockDatasets.service st' = MockDatasets.service st) /\
       (deleteFiles = Some true ->
        (forall f, In f (MockDatasets.ds_files ds) ->
           MockFiles.getFileInfo (Mock.ur_cid f) (MockDatasets.service st') = None) /\
        (forall c, ~ In c (map Mock.ur_cid (MockDatasets.ds_files ds)) ->
           MockFiles.getFileInfo c (MockDatasets.service st')
           = MockFiles.getFileInfo c (MockDatasets.service st)) /\
        Mock.currentStorageSize (MockDatasets.service st')
        = Mock.currentStorageSize (MockDatasets.service st)
          - foldr (fun f acc => Mock.ur_size f + acc) 0 (MockDatasets.ds_files ds))).
Proof.
  unfold MockDatasets.deleteDataset, MockDatasets.getDataset. split.
  - intros ->. reflexivity.
  - intros ds ->. eexists. split; [reflexivity|].
    cbn [MockDatasets.datasetStore MockDatasets.service].
    split; [apply omap_get_delete_eq|].
    split; [intros other Hne; now apply omap_get_delete_ne|]. split.
    + intros Hno. destruct deleteFiles as [[|]|]; [congruence|reflexivity|reflexivity].
    + intros ->. cbn [orDefault].
      destruct (mock_dropFiles (MockDatasets.ds_files ds) (MockDatasets.service st))
        as (H1 & H2 & _ & H4 & _).
      unfold MockFiles.getFileInfo. split; [exact H1|]. split; [exact H2|exact H4].
Qed.

(** ** The theorems about datasets at concrete inputs *)

Lemma dataset_sample_created :
  MockDatasets.createDataset Fixtures.world DatasetFacts.random
    (DatasetFacts.create ["/data/a.txt"; "/data/b.txt"]%string) (MockDatasets.create 0)
  = (Return DatasetFacts.sample, DatasetFacts.created).
Proof. apply pair_of_fst. vm_compute. reflexivity. Qed.

Lemma dataset_sample_stored :
  MockDatasets.getDataset DatasetFacts.sampleId DatasetFacts.created
  = Some DatasetFacts.sample.
Proof. vm_compute. reflexivity. Qed.

Lemma mock_create_dataset_round_trip_witness :
  MockDatasets.getDataset DatasetFacts.sampleId DatasetFacts.created
  = Some DatasetFacts.sample /\
  map Mock.ur_originalPath (MockDatasets.ds_files DatasetFacts.sample)
  = ["/data/a.txt"; "/data/b.txt"]%string.
Proof.
  destruct (mock_create_dataset_round_trip _ _ _ _ _ _ dataset_sample_created)
    as (H1 & _ & H3 & _).
  split; [exact H1|exact H3].
Defined.

Lemma mock_create_dataset_no_rollback_witness :
  MockDatasets.datasetStore
    (snd (MockDatasets.createDataset Fixtures.world DatasetFacts.random
            (DatasetFacts.create ["/data/a.txt"; "/nope"; "/data/b.txt"]%string)
            (MockDatasets.create 0))) = [] /\
  Mock.currentStorageSize
    (MockDatasets.service
       (snd (MockDatasets.createDataset Fixtures.world DatasetFacts.random
               (DatasetFacts.create ["/data/a.txt"; "/nope"; "/data/b.txt"]%string)
               (MockDatasets.create 0)))) = 10.
Proof.
  assert (H : MockDatasets.createDataset Fixtures.world DatasetFacts.random
                (DatasetFacts.create ["/data/a.txt"; "/nope"; "/data/b.txt"]%string)
                (MockDatasets.create 0)
              = (Throw (newError "File not found: /nope"),
                 snd (MockDatasets.createDataset Fixtures.world DatasetFacts.random
                        (DatasetFacts.create ["/data/a.txt"; "/nope"; "/data/b.txt"]%string)
                        (MockDatasets.create 0))))
    by (apply pair_of_fst; vm_compute; reflexivity).
  destruct (mock_create_dataset_no_rollback _ _ _ _ _ _ H) as (Hstore & _).
  split; [exact Hstore|]. vm_compute. reflexivity.
Defined.

Lemma mock_update_counts_versions_witness :
  exists ds' st',
    MockDatasets.updateDataset Fixtures.world (DatasetFacts.update []) DatasetFacts.created
    = (Return ds', st') /\
    MockDatasets.ds_version ds' = "1.1.0"%string /\
    MockDatasets.getDataset DatasetFacts.sampleId st' = Some ds'.
Proof.
  assert (Hr : isReturn (fst (MockDatasets.updateDataset Fixtures.world
                                (DatasetFacts.update []) DatasetFacts.created)) = true)
    by (vm_compute; reflexivity).
  destruct (MockDatasets.updateDataset Fixtures.world (DatasetFacts.update [])
              DatasetFacts.created) as [[ds'|e] st'] eqn:E; [|discriminate].
  assert (Hbound : Z.of_nat 0 < 2 ^ 53) by (cbn; lia).
  destruct (mock_update_counts_versions Fixtures.world (DatasetFacts.update [])
              DatasetFacts.created DatasetFacts.sample ds' st' 0 Hbound
              dataset_sample_stored eq_refl E) as (Hv & _ & Hget).
  exists ds', st'. split; [reflexivity|]. split; [exact Hv|exact Hget].
Defined.

Lemma mock_failed_update_keeps_added_files_witness :
  exists added p after,
    ["/data/a.txt"; "/nope"]%string = map Mock.ur_originalPath added ++ p :: after /\
    MockDatasets.getDataset DatasetFacts.sampleId
      (snd (MockDatasets.updateDataset Fixtures.world
              (DatasetFacts.update ["/data/a.txt"; "/nope"]%string) DatasetFacts.created))
    = Some (MockDatasets.withFiles
              (MockDatasets.ds_files DatasetFacts.sample ++ added) DatasetFacts.sample).
Proof.
  assert (H : MockDatasets.updateDataset Fixtures.world
                (DatasetFacts.update ["/data/a.txt"; "/nope"]%string) DatasetFacts.created
              = (Throw (newError "File not found: /nope"),
                 snd (MockDatasets.updateDataset Fixtures.world
                        (DatasetFacts.update ["/data/a.txt"; "/nope"]%string)
                        DatasetFacts.created)))
    by (apply pair_of_fst; vm_compute; reflexivity).
  destruct (mock_failed_update_keeps_added_files Fixtures.world
              (DatasetFacts.update ["/data/a.txt"; "/nope"]%string) DatasetFacts.created
              DatasetFacts.sample _ _ dataset_sample_stored H)
    as (added & p & after & Hsplit & _ & Hget).
  exists added, p, after. split; [exact Hsplit|exact Hget].
Defined.

(* ===================================================================== *)
(** * The in-memory storage service                                        *)
(* ===================================================================== *)

(** ** More on maps in insertion order *)

Lemma omap_get_None_keys {V : Type} k (m : OrderedMap.t (V := V)) :
  OrderedMap.get k m = None <-> ~ In k (OrderedMap.keys m).
Proof.
  induction m as [|[k' v'] rest IH]; cbn; [tauto|].
  destruct (String.eqb k' k) eqn:E.
  - apply String.eqb_eq in E. subst. split; [discriminate|]. intros H. exfalso. tauto.
  - apply String.eqb_neq in E. rewrite IH. tauto.
Qed.

Lemma omap_get_In {V : Type} k (v : V) m :
  OrderedMap.get k m = Some v -> In (k, v) m.
Proof.
  induction m as [|[k' v'] rest IH]; cbn; [discriminate|].
  destruct (String.eqb k' k) eqn:E.
  - apply String.eqb_eq in E. subst. intros [= ->]. now left.
  - intros H. right. now apply IH.
Qed.

Lemma omap_In_get {V : Type} k (v : V) m :
  NoDup (OrderedMap.keys m) -> In (k, v) m -> OrderedMap.get k m = Some v.
Proof.
  induction m as [|[k' v'] rest IH]; cbn; [tauto|].
  intros Hnd [Heq|Hin].
  - injection Heq as -> ->. now rewrite String.eqb_refl.
  - apply NoDup_cons in Hnd. destruct Hnd as [Hnot Hnd].
    destruct (String.eqb k' k) eqn:E.
    + apply String.eqb_eq in E. subst. exfalso. apply Hnot.
      apply list_elem_of_In. apply (in_map fst) in Hin. exact Hin.
    + now apply IH.
Qed.

Lemma omap_keys_set {V : Type} k (v : V) m :
  OrderedMap.keys (OrderedMap.set k v m)
  = match OrderedMap.get k m with
    | Some _ => OrderedMap.keys m
    | None => OrderedMap.keys m ++ [k]
    end.
Proof.
  induction m as [|[k' v'] rest IH]; cbn; [reflexivity|].
  destruct (String.eqb k' k) eqn:E; cbn.
  - apply String.eqb_eq in E. now subst.
  - unfold OrderedMap.keys in *. rewrite IH. now destruct (OrderedMap.get k rest).
Qed.

Lemma omap_NoDup_set {V : Type} k (v : V) m :
  NoDup (OrderedMap.keys m) -> NoDup (OrderedMap.keys (OrderedMap.set k v m)).
Proof.
  intros Hnd. rewrite omap_keys_set. destruct (OrderedMap.get k m) eqn:E; [exact Hnd|].
  apply omap_get_None_keys in E. apply NoDup_app. split; [exact Hnd|].
  split; [|apply NoDup_singleton].
  intros x Hx Hin. apply list_elem_of_In in Hx.
  apply list_elem_of_singleton in Hin. subst. contradiction.
Qed.

Lemma omap_In_set {V : Type} k (v : V) m k0 v0 :
  In (k0, v0) (OrderedMap.set k v m) -> (k0 = k /\ v0 = v) \/ In (k0, v0) m.
Proof.
  induction m as [|[k' v'] rest IH]; cbn.
  - intros [[= <- <-]|[]]. now left.
  - destruct (String.eqb k' k) eqn:E; cbn.
    + intros [[= <- <-]|Hin]; [now left|right; now right].
    + intros [[= <- <-]|Hin]; [right; now left|].
      destruct (IH Hin) as [?|?]; [now left|right; now right].
Qed.

Lemma omap_NoDup_delete {V : Type} k (m : OrderedMap.t (V := V)) :
  NoDup (OrderedMap.keys m) -> NoDup (OrderedMap.keys (OrderedMap.delete k m)).
Proof.
  unfold OrderedMap.delete, OrderedMap.keys. induction m as [|[k' v'] rest IH]; cbn.
  - intros _. constructor.
  - intros Hnd. apply NoDup_cons in Hnd. destruct Hnd as [Hnot Hnd].
    destruct (String.eqb k' k); cbn; [now apply IH|].
    apply NoDup_cons. split; [|now apply IH].
    intros Hin. apply Hnot. apply list_elem_of_In in Hin. apply list_elem_of_In.
    apply in_map_iff in Hin. destruct Hin as ([k0 v0] & <- & Hin).
    apply filter_In in Hin. destruct Hin as [Hin _].
    apply (in_map fst) in Hin. exact Hin.
Qed.

Lemma omap_In_delete {V : Type} k (m : OrderedMap.t (V := V)) k0 v0 :
  In (k0, v0) (OrderedMap.delete k m) -> In (k0, v0) m.
Proof. unfold OrderedMap.delete. intros H. apply filter_In in H. tauto. Qed.

Lemma omap_length_set {V : Type} k (v : V) m :
  length (OrderedMap.set k v m)
  = match OrderedMap.get k m with
    | Some _ => length m
    | None => S (length m)
    end.
Proof.
  induction m as [|[k' v'] rest IH]; cbn; [reflexivity|].
  destruct (String.eqb k' k); cbn; [reflexivity|]. rewrite IH.
  now destruct (OrderedMap.get k rest).
Qed.

Lemma omap_length_delete {V : Type} k (m : OrderedMap.t (V := V)) :
  NoDup (OrderedMap.keys m) ->
  length (OrderedMap.delete k m)
  = match OrderedMap.get k m with
    | Some _ => pred (length m)
    | None => length m
    end.
Proof.
  unfold OrderedMap.delete. induction m as [|[k' v'] rest IH]; cbn; [reflexivity|].
  intros Hnd. apply NoDup_cons in Hnd. destruct Hnd as [Hnot Hnd].
  destruct (String.eqb k' k) eqn:E; cbn.
  - apply String.eqb_eq in E. subst k'.
    assert (Hno : OrderedMap.get k rest = None).
    { apply omap_get_None_keys. intros Hin. apply Hnot. now apply list_elem_of_In. }
    rewrite (IH Hnd), Hno. reflexivity.
  - rewrite (IH Hnd). destruct (OrderedMap.get k rest) eqn:G; [|reflexivity].
    destruct rest; [discriminate|reflexivity].
Qed.

(** ** Sizes *)

Lemma sum_sizes_from {A : Type} (sz : A -> Z) (l : list A) (acc : Z) :
  fold_left (fun total x => total + sz x) l acc
  = acc + fold_left (fun total x => total + sz x) l 0.
Proof.
  revert acc. induction l as [|x l IH]; intros acc; cbn [fold_left]; [lia|].
  rewrite (IH (acc + sz x)), (IH (0 + sz x)). lia.
Qed.

Lemma storage_total_set k (file : Storage.StoredFile) m :
  fold_left (fun total x => total + Storage.f_size x)
    (OrderedMap.values (OrderedMap.set k file m)) 0
  = fold_left (fun total x => total + Storage.f_size x) (OrderedMap.values m) 0
    - from_option Storage.f_size 0 (OrderedMap.get k m) + Storage.f_size file.
Proof.
  unfold OrderedMap.values. induction m as [|[k' v'] rest IH]; cbn; [lia|].
  destruct (String.eqb k' k); cbn.
  - rewrite (sum_sizes_from _ _ (Storage.f_size file)),
            (sum_sizes_from _ _ (Storage.f_size v')). lia.
  - rewrite (sum_sizes_from _ _ (Storage.f_size v')), IH,
            (sum_sizes_from _ (map snd rest) (Storage.f_size v')). lia.
Qed.

Lemma storage_total_delete k (m : OrderedMap.t (V := Storage.StoredFile)) :
  NoDup (OrderedMap.keys m) ->
  fold_left (fun total x => total + Storage.f_size x)
    (OrderedMap.values (OrderedMap.delete k m)) 0
  = fold_left (fun total x => total + Storage.f_size x) (OrderedMap.values m) 0
    - from_option Storage.f_size 0 (OrderedMap.get k m).
Proof.
  unfold OrderedMap.values, OrderedMap.delete.
  induction m as [|[k' v'] rest IH]; cbn; [lia|].
  intros Hnd. apply NoDup_cons in Hnd. destruct Hnd as [Hnot Hnd].
  destruct (String.eqb k' k) eqn:E; cbn.
  - apply String.eqb_eq in E. subst k'.
    assert (Hno : OrderedMap.get k rest = None).
    { apply omap_get_None_keys. intros Hin. apply Hnot. now apply list_elem_of_In. }
    rewrite (IH Hnd), Hno, (sum_sizes_from _ (map snd rest) (Storage.f_size v')). cbn. lia.
  - rewrite (sum_sizes_from _ _ (Storage.f_size v')), (IH Hnd),
            (sum_sizes_from _ (map snd rest) (Storage.f_size v')). lia.
Qed.

(** ** Every storage is well keyed *)

Lemma wellKeyed_set {V : Type} (id : V -> string) (v : V) m :
  StorageFacts.wellKeyed id m -> StorageFacts.wellKeyed id (OrderedMap.set (id v) v m).
Proof.
  intros [Hnd Hid]. split; [now apply omap_NoDup_set|].
  intros k0 v0 Hin. apply omap_In_set in Hin.
  destruct Hin as [[-> ->]|Hin]; [reflexivity|now apply Hid].
Qed.

Lemma wellKeyed_delete {V : Type} (id : V -> string) k m :
  StorageFacts.wellKeyed id m -> StorageFacts.wellKeyed id (OrderedMap.delete k m).
Proof.
  intros [Hnd Hid]. split; [now apply omap_NoDup_delete|].
  intros k0 v0 Hin. apply Hid. now apply omap_In_delete in Hin.
Qed.

Lemma storage_call_wellKeyed st c :
  StorageFacts.wellKeyed Storage.f_cid (Storage.files st) ->
  StorageFacts.wellKeyed MockDatasets.ds_id (Storage.datasets st) ->
  StorageFacts.wellKeyed Storage.f_cid (Storage.files (Storage.call st c)) /\
  StorageFacts.wellKeyed MockDatasets.ds_id (Storage.datasets (Storage.call st c)).
Proof.
  intros Hf Hd. destruct c as [file|cid|dataset|datasetId deleteFiles|cid pinned|]; cbn.
  - split; [now apply wellKeyed_set|exact Hd].
  - split; [now apply wellKeyed_delete|exact Hd].
  - split; [exact Hf|now apply wellKeyed_set].
  - split; [|now apply wellKeyed_delete].
    destruct deleteFiles; [|exact Hf].
    destruct (OrderedMap.get datasetId (Storage.datasets st)) as [dataset|]; [|exact Hf].
    generalize (Storage.files st) Hf.
    induction (MockDatasets.ds_files dataset) as [|f rest IH]; intros fs Hfs; cbn;
      [exact Hfs|].
    apply IH. now apply wellKeyed_delete.
  - unfold Storage.updateFilePinned.
    destruct (OrderedMap.get cid (Storage.files st)) as [file|] eqn:E; [|split; assumption].
    cbn. split; [|exact Hd].
    assert (Hcid : Storage.f_cid file = cid).
    { destruct Hf as [_ Hid]. apply Hid. now apply omap_get_In. }
    rewrite <- Hcid at 1.
    apply (wellKeyed_set Storage.f_cid
             {| Storage.f_cid := Storage.f_cid file;
                Storage.f_filePath := Storage.f_filePath file;
                Storage.f_size := Storage.f_size file;
                Storage.f_encrypted := Storage.f_encrypted file;
                Storage.f_accessConditions := Storage.f_accessConditions file;
                Storage.f_tags := Storage.f_tags file;
                Storage.f_uploadedAt := Storage.f_uploadedAt file;
                Storage.f_pinned := pinned;
                Storage.f_hash := Storage.f_hash file |}).
    exact Hf.
  - split; split; try constructor; intros k v [].
Qed.

Lemma storage_after_wellKeyed cs :
  StorageFacts.wellKeyed Storage.f_cid (Storage.files (Storage.after cs)) /\
  StorageFacts.wellKeyed MockDatasets.ds_id (Storage.datasets (Storage.after cs)).
Proof.
  unfold Storage.after.
  assert (H0 : StorageFacts.wellKeyed Storage.f_cid (Storage.files Storage.create) /\
               StorageFacts.wellKeyed MockDatasets.ds_id (Storage.datasets Storage.create)).
  { split; split; try constructor; intros k v []. }
  revert H0. generalize Storage.create.
  induction cs as [|c cs IH]; intros st [Hf Hd]; cbn; [split; assumption|].
  apply IH. now apply storage_call_wellKeyed.
Qed.

(** X17.  The in-memory storage keeps exact books.  In every state the
    service can reach, a saved file is returned by [getFile] under its
    CID (and no other CID is affected), a deleted file is gone, the file
    count changes by one exactly when a CID is new or was present, and
    [getTotalSize] changes by exactly the size that was added and the
    size that was replaced or removed. *)
Theorem storage_keeps_exact_books cs file cid :
  Storage.getFile (Storage.f_cid file) (Storage.saveFile file (Storage.after cs))
    = Some file /\
  (cid <> Storage.f_cid file ->
   Storage.getFile cid (Storage.saveFile file (Storage.after cs))
   = Storage.getFile cid (Storage.after cs)) /\
  Storage.getFileCount (Storage.saveFile file (Storage.after cs))
    = match Storage.getFile (Storage.f_cid file) (Storage.after cs) with
      | Some _ => Storage.getFileCount (Storage.after cs)
      | None => S (Storage.getFileCount (Storage.after cs))
      end /\
  Storage.getTotalSize (Storage.saveFile file (Storage.after cs))
    = Storage.getTotalSize (Storage.after cs)
      - from_option Storage.f_size 0
          (Storage.getFile (Storage.f_cid file) (Storage.after cs))
      + Storage.f_size file /\
  Storage.getFile cid (Storage.deleteFile cid (Storage.after cs)) = None /\
  Storage.getFileCount (Storage.deleteFile cid (Storage.after cs))
    = match Storage.getFile cid (Storage.after cs) with
      | Some _ => pred (Storage.getFileCount (Storage.after cs))
      | None => Storage.getFileCount (Storage.after cs)
      end /\
  Storage.getTotalSize (Storage.deleteFile cid (Storage.after cs))
    = Storage.getTotalSize (Storage.after cs)
      - from_option Storage.f_size 0 (Storage.getFile cid (Storage.after cs)).
Proof.
  destruct (storage_after_wellKeyed cs) as [[Hnd _] _].
  unfold Storage.getFile, Storage.getFileCount, Storage.getTotalSize,
    Storage.saveFile, Storage.deleteFile. cbn [Storage.files].
  split; [apply omap_get_set_eq|].
  split; [intros Hne; now apply omap_get_set_ne|].
  split; [apply omap_length_set|].
  split; [apply storage_total_set|].
  split; [apply omap_get_delete_eq|].
  split; [now apply omap_length_delete|now apply storage_total_delete].
Qed.

(** ** Listing *)

Lemma insertDesc_perm {A : Type} (key : A -> Z) x l :
  Permutation (Storage.insertDesc key x l) (x :: l).
Proof.
  induction l as [|y rest IH]; cbn; [reflexivity|].
  destruct (key y <? key x); [reflexivity|].
  rewrite IH. apply perm_swap.
Qed.

Lemma sortDesc_from_perm {A : Type} (key : A -> Z) l :
  forall acc,
    Permutation (fold_left (fun sorted x => Storage.insertDesc key x sorted) l acc) (acc ++ l).
Proof.
  induction l as [|x rest IH]; intros acc; cbn.
  - now rewrite app_nil_r.
  - rewrite IH, insertDesc_perm. apply Permutation_middle.
Qed.

Lemma insertDesc_descending {A : Type} (key : A -> Z) x l :
  StorageFacts.descending key l -> StorageFacts.descending key (Storage.insertDesc key x l).
Proof.
  induction l as [|y rest IH]; cbn.
  - intros _. split; [constructor|exact I].
  - intros [Hall Hrest]. destruct (key y <? key x) eqn:E.
    + apply Z.ltb_lt in E. cbn. split; [|split; assumption].
      constructor; [lia|]. eapply Forall_impl; [exact Hall|]. cbn. intros z Hz. lia.
    + apply Z.ltb_ge in E. cbn. split; [|now apply IH].
      eapply Permutation_Forall; [symmetry; apply insertDesc_perm|].
      constructor; assumption.
Qed.

Lemma sortDesc_descending {A : Type} (key : A -> Z) l :
  StorageFacts.descending key (Storage.sortDesc key l).
Proof.
  unfold Storage.sortDesc.
  assert (H : StorageFacts.descending key (@nil A)) by exact I.
  revert H. generalize (@nil A).
  induction l as [|x rest IH]; intros acc Hacc; cbn; [exact Hacc|].
  apply IH. now apply insertDesc_descending.
Qed.

Lemma slice_all {A : Type} (l : list A) : Arrays.slice 0 None l = l.
Proof.
  unfold Arrays.slice, Arrays.relativeIndex. cbn [Z.ltb Z.compare].
  rewrite Z.min_l by lia. cbn [Z.to_nat drop]. rewrite Z.sub_0_r, Nat2Z.id.
  apply firstn_all.
Qed.

Lemma page_window {A : Type} (limit offset : Z) (l : list A) :
  0 < limit -> 0 <= offset ->
  Storage.page (Some limit) (Some offset) l
  = take (Z.to_nat limit) (drop (Z.to_nat offset) l).
Proof.
  intros Hl Ho. unfold Storage.page.
  assert (Hz : (limit =? 0) = false) by (apply Z.eqb_neq; lia). rewrite Hz.
  cbn [orDefault]. now apply slice_window.
Qed.

(** X18.  [listFiles] lists the newest upload first.  Without limit and
    offset it returns every stored file once, ordered by upload time
    from the latest to the earliest; a limit of 0 is no limit; and for a
    positive limit and an offset that is not negative it returns the
    window of [limit] files after the first [offset] of that order. *)
Theorem storage_list_files_newest_first st :
  StorageFacts.descending Storage.f_uploadedAt (Storage.listFiles None None st) /\
  Permutation (Storage.listFiles None None st) (OrderedMap.values (Storage.files st)) /\
  (forall offset, Storage.listFiles (Some 0) offset st = Storage.listFiles None offset st) /\
  (forall limit offset, 0 < limit -> 0 <= offset ->
     Storage.listFiles (Some limit) (Some offset) st
     = take (Z.to_nat limit)
         (drop (Z.to_nat offset) (Storage.listFiles None None st))).
Proof.
  assert (Hall : Storage.listFiles None None st
                 = Storage.sortDesc Storage.f_uploadedAt (OrderedMap.values (Storage.files st))).
  { unfold Storage.listFiles, Storage.page. cbn [orDefault]. apply slice_all. }
  split; [rewrite Hall; apply sortDesc_descending|].
  split; [rewrite Hall; unfold Storage.sortDesc; apply (sortDesc_from_perm _ _ [])|].
  split; [reflexivity|].
  intros limit offset Hl Ho. rewrite Hall. unfold Storage.listFiles.
  now apply page_window.
Qed.

(** The three sample files: listed newest first, paged, and added up. *)
Example storage_sample_listing :
  map Storage.f_cid (Storage.listFiles None None (Storage.after StorageFacts.three))
  = ["b"; "c"; "a"]%string /\
  map Storage.f_cid (Storage.listFiles (Some 1) (Some 1) (Storage.after StorageFacts.three))
  = ["c"]%string /\
  Storage.getTotalSize (Storage.after StorageFacts.three) = 60.
Proof. vm_compute. repeat split. Qed.

(** ** Migration *)

Lemma storage_save_all files :
  forall st,
    NoDup (map Storage.f_cid files) ->
    (forall file, In file files ->
       Storage.getFile (Storage.f_cid file)
         (fold_left (fun s file => Storage.saveFile file s) files st) = Some file) /\
    (forall cid, ~ In cid (map Storage.f_cid files) ->
       Storage.getFile cid (fold_left (fun s file => Storage.saveFile file s) files st)
       = Storage.getFile cid st) /\
    Storage.datasets (fold_left (fun s file => Storage.saveFile file s) files st)
    = Storage.datasets st.
Proof.
  induction files as [|f rest IH]; intros st Hnd; cbn [fold_left map].
  - split; [intros file []|]. split; reflexivity.
  - cbn [map] in Hnd. apply NoDup_cons in Hnd. destruct Hnd as [Hnot Hnd].
    destruct (IH (Storage.saveFile f st) Hnd) as (H1 & H2 & H3).
    split; [|split].
    + intros file [<-|Hin]; [|now apply H1].
      rewrite H2; [apply omap_get_set_eq|].
      intros Hin. apply Hnot. now apply list_elem_of_In.
    + intros cid Hcid. cbn in Hcid. rewrite H2 by tauto.
      apply omap_get_set_ne. intros ->. tauto.
    + rewrite H3. reflexivity.
Qed.

Lemma storage_save_all_datasets dss :
  forall st,
    NoDup (map MockDatasets.ds_id dss) ->
    (forall ds, In ds dss ->
       Storage.getDataset (MockDatasets.ds_id ds)
         (fold_left (fun s ds => Storage.saveDataset ds s) dss st) = Some ds) /\
    (forall id, ~ In id (map MockDatasets.ds_id dss) ->
       Storage.getDataset id (fold_left (fun s ds => Storage.saveDataset ds s) dss st)
       = Storage.getDataset id st) /\
    Storage.files (fold_left (fun s ds => Storage.saveDataset ds s) dss st)
    = Storage.files st.
Proof.
  induction dss as [|d rest IH]; intros st Hnd; cbn [fold_left map].
  - split; [intros ds []|]. split; reflexivity.
  - cbn [map] in Hnd. apply NoDup_cons in Hnd. destruct Hnd as [Hnot Hnd].
    destruct (IH (Storage.saveDataset d st) Hnd) as (H1 & H2 & H3).
    split; [|split].
    + intros ds [<-|Hin]; [|now apply H1].
      rewrite H2; [apply omap_get_set_eq|].
      intros Hin. apply Hnot. now apply list_elem_of_In.
    + intros id Hid. cbn in Hid. rewrite H2 by tauto.
      apply omap_get_set_ne. intros ->. tauto.
    + rewrite H3. reflexivity.
Qed.

Lemma wellKeyed_ids {V : Type} (id : V -> string) m :
  StorageFacts.wellKeyed id m -> map id (OrderedMap.values m) = OrderedMap.keys m.
Proof.
  intros [_ Hid]. unfold OrderedMap.values, OrderedMap.keys.
  induction m as [|[k v] rest IH]; cbn; [reflexivity|].
  rewrite (Hid k v) by now left. f_equal. apply IH. intros k0 v0 Hin. apply Hid. now right.
Qed.

Lemma listed_ids {V : Type} (id : V -> string) (key : V -> Z) m :
  StorageFacts.wellKeyed id m ->
  NoDup (map id (Storage.sortDesc key (OrderedMap.values m))) /\
  (forall k v, OrderedMap.get k m = Some v ->
     In v (Storage.sortDesc key (OrderedMap.values m)) /\ id v = k) /\
  (forall k, OrderedMap.get k m = None ->
     ~ In k (map id (Storage.sortDesc key (OrderedMap.values m)))).
Proof.
  intros Hwk.
  assert (Hperm : Permutation (Storage.sortDesc key (OrderedMap.values m))
                    (OrderedMap.values m))
    by (unfold Storage.sortDesc; apply (sortDesc_from_perm _ _ [])).
  assert (Hids : Permutation (map id (Storage.sortDesc key (OrderedMap.values m)))
                   (OrderedMap.keys m)).
  { rewrite <- (wellKeyed_ids id m Hwk). now apply Permutation_map. }
  destruct Hwk as [Hnd Hid]. split; [|split].
  - rewrite Hids. exact Hnd.
  - intros k v Hget. apply omap_get_In in Hget. split; [|now apply Hid].
    eapply Permutation_in; [symmetry; exact Hperm|].
    unfold OrderedMap.values. apply (in_map snd) in Hget. exact Hget.
  - intros k Hget Hin. apply omap_get_None_keys in Hget. apply Hget.
    eapply Permutation_in; [exact Hids|exact Hin].
Qed.

(** X19.  Migrating an in-memory storage loses nothing.  After
    [migrateStorage(old, new)], for an old storage in any state it can
    reach, every file and every dataset of the old storage is found in
    the new one under the same key and with the same record, and what
    the new storage held under other keys is still there. *)
Theorem storage_migration_keeps_everything cs newStorage :
  (forall cid file,
     Storage.getFile cid (Storage.after cs) = Some file ->
     Storage.getFile cid (Storage.migrateStorage (Storage.after cs) newStorage)
     = Some file) /\
  (forall cid,
     Storage.getFile cid (Storage.after cs) = None ->
     Storage.getFile cid (Storage.migrateStorage (Storage.after cs) newStorage)
     = Storage.getFile cid newStorage) /\
  (forall id dataset,
     Storage.getDataset id (Storage.after cs) = Some dataset ->
     Storage.getDataset id (Storage.migrateStorage (Storage.after cs) newStorage)
     = Some dataset) /\
  (forall id,
     Storage.getDataset id (Storage.after cs) = None ->
     Storage.getDataset id (Storage.migrateStorage (Storage.after cs) newStorage)
     = Storage.getDataset id newStorage).
Proof.
  destruct (storage_after_wellKeyed cs) as [Hf Hd].
  destruct (listed_ids Storage.f_cid Storage.f_uploadedAt _ Hf) as (Hnf & Hinf & Houtf).
  destruct (listed_ids MockDatasets.ds_id MockDatasets.ds_updatedAt _ Hd)
    as (Hnd & Hind & Houtd).
  unfold Storage.migrateStorage, Storage.listFiles, Storage.listDatasets, Storage.page.
  cbn [orDefault fst]. rewrite !slice_all.
  set (fs := Storage.sortDesc Storage.f_uploadedAt
               (OrderedMap.values (Storage.files (Storage.after cs)))) in *.
  set (dss := Storage.sortDesc MockDatasets.ds_updatedAt
                (OrderedMap.values (Storage.datasets (Storage.after cs)))) in *.
  destruct (storage_save_all fs newStorage Hnf) as (F1 & F2 & F3).
  set (st1 := fold_left (fun s file => Storage.saveFile file s) fs newStorage) in *.
  destruct (storage_save_all_datasets dss st1 Hnd) as (D1 & D2 & D3).
  unfold Storage.getFile in *. unfold Storage.getDataset in *.
  split; [|split; [|split]].
  - intros cid file Hget. rewrite D3. destruct (Hinf cid file Hget) as [Hin <-].
    now apply F1.
  - intros cid Hget. rewrite D3. apply F2. now apply Houtf.
  - intros id dataset Hget. destruct (Hind id dataset Hget) as [Hin <-]. now apply D1.
  - intros id Hget. rewrite D2 by now apply Houtd. rewrite F3. reflexivity.
Qed.

(* ===================================================================== *)
(** * The metrics collector                                                *)
(* ===================================================================== *)

Section MetricsCollectorFacts.
Import MetricsCollector MetricsFacts.

Lemma metrics_after_snoc cfg cs c : after cfg (cs ++ [c]) = call (after cfg cs) c.
Proof. unfold after. now rewrite fold_left_app. Qed.

Lemma recordSecurityEvent_events now event st :
  exists es, recordSecurityEvent now event st = withEvents es st.
Proof.
  unfold recordSecurityEvent. destruct (negb (enabled (config st))).
  - exists (securityEvents st). now destruct st.
  - eexists. reflexivity.
Qed.

Lemma checkSuspiciousActivity_events now keyHash st :
  exists es, checkSuspiciousActivity now keyHash st = withEvents es st.
Proof.
  unfold checkSuspiciousActivity.
  destruct (OrderedMap.get _ _); [|exists (securityEvents st); now destruct st].
  match goal with |- context [if ?b then _ else _] => destruct b end.
  - apply recordSecurityEvent_events.
  - exists (securityEvents st). now destruct st.
Qed.

Lemma updateAverageAuthTime_events es st :
  updateAverageAuthTime (withEvents es st) = withEvents es (updateAverageAuthTime st).
Proof.
  unfold updateAverageAuthTime. cbn [authTimings withEvents].
  destruct (_ =? 0)%nat; reflexivity.
Qed.

Lemma recordAuthentication_counted now result st :
  enabled (config st) = true ->
  exists es,
    recordAuthentication now result st
    = withEvents es (timed result (withMetrics (counted now result (metrics st)) st)).
Proof.
  intros Hen. unfold recordAuthentication, counted, timed. rewrite Hen. cbn [negb]. cbv zeta.
  repeat match goal with
         | |- context [recordSecurityEvent ?n ?e ?s] =>
             let es := fresh "es" in
             destruct (recordSecurityEvent_events n e s) as [es ->]
         end.
  destruct (ar_success result), (ar_rateLimited result), (ar_authTime result);
    cbn [withEvents withMetrics metrics config securityEvents authTimings cacheHits
         cacheMisses withTimings].
  all: match goal with
       | |- exists _, checkSuspiciousActivity ?n ?k ?s = _ =>
           let es := fresh "es" in
           destruct (checkSuspiciousActivity_events n k s) as [es ->]
       end.
  all: eexists; unfold updateAverageAuthTime;
    cbn [authTimings withTimings withMetrics withEvents];
    try destruct (length _ =? 0)%nat; reflexivity.
Qed.


Lemma recordAuthentication_disabled now result st :
  enabled (config st) = false -> recordAuthentication now result st = st.
Proof. intros Hen. unfold recordAuthentication. now rewrite Hen. Qed.

Lemma timed_fields result st :
  config (timed result st) = config st /\
  securityEvents (timed result st) = securityEvents st /\
  cacheHits (timed result st) = cacheHits st /\
  cacheMisses (timed result st) = cacheMisses st /\
  exists x, metrics (timed result st) = withAverageAuthTime x (metrics st).
Proof.
  assert (Hsame : exists x, metrics st = withAverageAuthTime x (metrics st)).
  { exists (averageAuthTime (metrics st)). now destruct (metrics st). }
  unfold timed, updateAverageAuthTime. destruct (ar_authTime result).
  - cbn [authTimings withTimings]. destruct (_ =? 0)%nat; cbn; repeat split; try exact Hsame.
    eexists; reflexivity.
  - repeat split. exact Hsame.
Qed.

(** ** The counters *)

Lemma countersAgree_counted now result m :
  countersAgree m -> countersAgree (counted now result m).
Proof.
  unfold countersAgree, counted, updateKeyStats, withKeyUsageStats, countRateLimited,
    countRequest.
  intros (Ht & Hf & Hr).
  destruct (ar_rateLimited result), (ar_success result), (ar_usedFallback result);
    cbn; lia.
Qed.

Lemma countersAgree_call st c :
  countersAgree (metrics st) -> countersAgree (metrics (call st c)).
Proof.
  intros H. destruct c as [now result|hit|now event| |now]; cbn [call].
  - destruct (enabled (config st)) eqn:Hen.
    + destruct (recordAuthentication_counted now result st Hen) as [es ->].
      cbn [metrics withEvents].
      destruct (timed_fields result (withMetrics (counted now result (metrics st)) st))
        as (_ & _ & _ & _ & x & ->).
      cbn [metrics withMetrics]. now apply (countersAgree_counted now result).
    + now rewrite recordAuthentication_disabled.
  - unfold recordCacheAccess. destruct (negb (enabled (config st))); exact H.
  - destruct (recordSecurityEvent_events now event st) as [es ->]. exact H.
  - cbn. unfold countersAgree. cbn. lia.
  - exact H.
Qed.

(** ** The statistics of the keys *)

Lemma omap_sum_set {V : Type} (f : V -> nat) k v m :
  (list_sum (map f (OrderedMap.values (OrderedMap.set k v m)))
   + from_option f 0 (OrderedMap.get k m)
   = list_sum (map f (OrderedMap.values m)) + f v)%nat.
Proof.
  unfold OrderedMap.values, list_sum.
  induction m as [|[k' v'] rest IH]; cbn; [lia|].
  destruct (String.eqb k' k); cbn; lia.
Qed.

Lemma omap_sum_delete {V : Type} (f : V -> nat) k (m : OrderedMap.t (V := V)) :
  (list_sum (map f (OrderedMap.values (OrderedMap.delete k m)))
   <= list_sum (map f (OrderedMap.values m)))%nat.
Proof.
  unfold OrderedMap.values, OrderedMap.delete, list_sum.
  induction m as [|[k' v'] rest IH]; cbn; [lia|].
  destruct (String.eqb k' k); cbn; lia.
Qed.

Lemma omap_Forall_set {V : Type} (P : string * V -> Prop) k v m :
  Forall P m -> P (k, v) -> Forall P (OrderedMap.set k v m).
Proof.
  intros Hall Hv. induction Hall as [|[k' v'] rest Hx Hrest IH]; cbn.
  - now constructor.
  - destruct (String.eqb k' k); constructor; assumption.
Qed.

Lemma omap_Forall_delete {V : Type} (P : string * V -> Prop) k (m : OrderedMap.t (V := V)) :
  Forall P m -> Forall P (OrderedMap.delete k m).
Proof.
  intros Hall. apply List.Forall_forall. intros [k0 v0] Hin.
  apply omap_In_delete in Hin. rewrite List.Forall_forall in Hall. now apply Hall.
Qed.

Lemma updateKeyStats_keys now result m :
  let m' := updateKeyStats now (ar_keyHash result) result m in
  totalRequests m' = totalRequests m /\
  failedAuthentications m' = failedAuthentications m /\
  (NoDup (OrderedMap.keys (keyUsageStats m)) ->
   NoDup (OrderedMap.keys (keyUsageStats m'))) /\
  (uniqueApiKeys m = length (keyUsageStats m) ->
   uniqueApiKeys m' = length (keyUsageStats m')) /\
  (Forall keyStatsAgree (keyUsageStats m) -> Forall keyStatsAgree (keyUsageStats m')) /\
  requestsByKey m' = S (requestsByKey m) /\
  errorsByKey m' = (if ar_success result then errorsByKey m else S (errorsByKey m)).
Proof.
  unfold updateKeyStats, withKeyUsageStats, requestsByKey, errorsByKey. cbv zeta.
  cbn [totalRequests failedAuthentications keyUsageStats uniqueApiKeys].
  split; [reflexivity|]. split; [reflexivity|].
  split; [apply omap_NoDup_set|].
  split.
  { intros Hu. rewrite omap_length_set.
    destruct (OrderedMap.get (ar_keyHash result) (keyUsageStats m)); [exact Hu|].
    reflexivity. }
  split.
  { intros Hall. apply omap_Forall_set; [exact Hall|].
    unfold keyStatsAgree. cbn [fst snd ks_keyHash ks_requestCount ks_errorCount
                                 ks_rateLimitedCount].
    destruct (OrderedMap.get (ar_keyHash result) (keyUsageStats m)) as [s|] eqn:Hget.
    - apply omap_get_In in Hget. rewrite List.Forall_forall in Hall.
      destruct (Hall _ Hget) as (Hk & H1 & He & Hr). cbn [fst snd] in *.
      destruct (ar_success result), (ar_rateLimited result); repeat split; auto; lia.
    - cbn. destruct (ar_success result), (ar_rateLimited result); repeat split; auto; lia. }
  split.
  - match goal with
    | |- context [OrderedMap.set ?k ?v ?mm] =>
        pose proof (omap_sum_set ks_requestCount k v mm) as Hs
    end.
    destruct (OrderedMap.get (ar_keyHash result) (keyUsageStats m));
      match type of Hs with
      | (?a + _)%nat = (?b + _)%nat => set (A := a) in *; set (B := b) in *; clearbody A B
      end; cbn in Hs; lia.
  - match goal with
    | |- context [OrderedMap.set ?k ?v ?mm] =>
        pose proof (omap_sum_set ks_errorCount k v mm) as Hs
    end.
    destruct (OrderedMap.get (ar_keyHash result) (keyUsageStats m));
      match type of Hs with
      | (?a + _)%nat = (?b + _)%nat => set (A := a) in *; set (B := b) in *; clearbody A B
      end; cbn in Hs; destruct (ar_success result); lia.
Qed.

Lemma counted_keys now result m :
  totalRequests (counted now result m) = S (totalRequests m) /\
  failedAuthentications (counted now result m)
    = (if ar_success result then failedAuthentications m
       else S (failedAuthentications m)) /\
  (NoDup (OrderedMap.keys (keyUsageStats m)) ->
   NoDup (OrderedMap.keys (keyUsageStats (counted now result m)))) /\
  (uniqueApiKeys m = length (keyUsageStats m) ->
   uniqueApiKeys (counted now result m) = length (keyUsageStats (counted now result m))) /\
  (Forall keyStatsAgree (keyUsageStats m) ->
   Forall keyStatsAgree (keyUsageStats (counted now result m))) /\
  requestsByKey (counted now result m) = S (requestsByKey m) /\
  errorsByKey (counted now result m)
    = (if ar_success result then errorsByKey m else S (errorsByKey m)).
Proof.
  unfold counted.
  set (m0 := if ar_rateLimited result then countRateLimited (countRequest result m)
             else countRequest result m).
  assert (H0 : totalRequests m0 = S (totalRequests m) /\
               failedAuthentications m0
                 = (if ar_success result then failedAuthentications m
                    else S (failedAuthentications m)) /\
               keyUsageStats m0 = keyUsageStats m /\
               uniqueApiKeys m0 = uniqueApiKeys m).
  { subst m0. unfold countRateLimited, countRequest.
    destruct (ar_rateLimited result), (ar_success result); cbn; auto. }
  destruct H0 as (Ht & Hf & Hk & Hu).
  destruct (updateKeyStats_keys now result m0) as (Ht' & Hf' & Hnd & Hlen & Hall & Hreq & Herr).
  unfold requestsByKey, errorsByKey in *. rewrite Hk, Hu in *.
  rewrite Ht', Hf', Ht, Hf. repeat split; assumption.
Qed.

Lemma cleanup_keys (stale : string * KeyUsageStats -> bool)
    (P : string * KeyUsageStats -> Prop) (f : KeyUsageStats -> nat) entries :
  forall m,
    let m' := fold_left
                (fun m kv => if stale kv then OrderedMap.delete (fst kv) m else m)
                entries m in
    (NoDup (OrderedMap.keys m) -> NoDup (OrderedMap.keys m')) /\
    (Forall P m -> Forall P m') /\
    (list_sum (map f (OrderedMap.values m')) <= list_sum (map f (OrderedMap.values m)))%nat.
Proof.
  induction entries as [|kv entries IH]; intros m; cbn [fold_left].
  - repeat split; auto.
  - destruct (stale kv).
    + destruct (IH (OrderedMap.delete (fst kv) m)) as (Hnd & Hall & Hsum).
      split; [intros H; apply Hnd; now apply omap_NoDup_delete|].
      split; [intros H; apply Hall; now apply omap_Forall_delete|].
      etransitivity; [exact Hsum|apply omap_sum_delete].
    + apply IH.
Qed.

Lemma keysAgree_call st c :
  keysAgree (metrics st) -> keysAgree (metrics (call st c)).
Proof.
  intros H. destruct c as [now result|hit|now event| |now]; cbn [call].
  - destruct (enabled (config st)) eqn:Hen.
    + destruct (recordAuthentication_counted now result st Hen) as [es ->].
      cbn [metrics withEvents].
      destruct (timed_fields result (withMetrics (counted now result (metrics st)) st))
        as (_ & _ & _ & _ & x & ->).
      cbn [metrics withMetrics].
      destruct H as (Hnd & Hu & Hall & Hreq & Herr).
      destruct (counted_keys now result (metrics st))
        as (Ht & Hf & Hnd' & Hu' & Hall' & Hreq' & Herr').
      unfold keysAgree, requestsByKey, errorsByKey in *.
      cbn [withAverageAuthTime keyUsageStats uniqueApiKeys totalRequests
           failedAuthentications].
      rewrite Ht, Hf, Hreq', Herr'.
      split; [auto|]. split; [auto|]. split; [auto|].
      destruct (ar_success result); lia.
    + now rewrite recordAuthentication_disabled.
  - unfold recordCacheAccess. destruct (negb (enabled (config st))); exact H.
  - destruct (recordSecurityEvent_events now event st) as [es ->]. exact H.
  - cbn. unfold keysAgree, requestsByKey, errorsByKey. cbn.
    repeat split; auto; constructor.
  - unfold cleanupOldData. cbn [metrics withMetrics].
    destruct H as (Hnd & Hu & Hall & Hreq & Herr).
    unfold keysAgree, requestsByKey, errorsByKey in *.
    cbn [withKeyUsageStats keyUsageStats uniqueApiKeys totalRequests failedAuthentications].
    match goal with
    | |- context [fold_left ?g ?l ?m0] =>
        destruct (cleanup_keys
                    (fun kv => earlierThan (cutoffTime now (config st)) (ks_lastUsed (snd kv)))
                    keyStatsAgree ks_requestCount l m0) as (Hnd' & Hall' & Hreq');
        destruct (cleanup_keys
                    (fun kv => earlierThan (cutoffTime now (config st)) (ks_lastUsed (snd kv)))
                    keyStatsAgree ks_errorCount l m0) as (_ & _ & Herr')
    end.
    cbv zeta in Hnd', Hall', Hreq', Herr'.
    split; [auto|]. split; [reflexivity|]. split; [auto|]. split; lia.
Qed.

Lemma metrics_config_call st c : config (call st c) = config st.
Proof.
  destruct c as [now result|hit|now event| |now]; cbn [call].
  - destruct (enabled (config st)) eqn:Hen.
    + destruct (recordAuthentication_counted now result st Hen) as [es ->].
      cbn [config withEvents].
      now destruct (timed_fields result (withMetrics (counted now result (metrics st)) st))
        as (-> & _).
    + now rewrite recordAuthentication_disabled.
  - unfold recordCacheAccess. destruct (negb (enabled (config st))); reflexivity.
  - now destruct (recordSecurityEvent_events now event st) as [es ->].
  - reflexivity.
  - reflexivity.
Qed.

Lemma metrics_config_after cfg cs : config (after cfg cs) = cfg.
Proof.
  induction cs as [|c cs IH] using rev_ind; [reflexivity|].
  now rewrite metrics_after_snoc, metrics_config_call.
Qed.

Lemma metrics_after_agree cfg cs :
  countersAgree (metrics (after cfg cs)) /\ keysAgree (metrics (after cfg cs)).
Proof.
  induction cs as [|c cs [IHc IHk]] using rev_ind.
  - unfold countersAgree, keysAgree, requestsByKey, errorsByKey. cbn.
    repeat split; auto; constructor.
  - rewrite metrics_after_snoc. split; [now apply countersAgree_call|now apply keysAgree_call].
Qed.

Lemma percentage_of_counts (a b : nat) :
  (0 < b)%nat -> (a <= b)%nat ->
  exists q,
    scale (div (inject_Z (Z.of_nat a)) (inject_Z (Z.of_nat b))) 100 = Fin q /\
    (q == inject_Z (Z.of_nat a) / inject_Z (Z.of_nat b) * 100)%Q /\
    (0 <= q)%Q /\ (q <= 100)%Q.
Proof.
  intros Hb Hab. rewrite div_by_count_finite by exact Hb. cbn [scale].
  eexists. split; [reflexivity|]. split; [reflexivity|].
  assert (Hpos : (0 < inject_Z (Z.of_nat b))%Q) by (unfold Qlt; cbn; lia).
  split.
  - apply Qmult_le_0_compat; [|discriminate].
    apply Qle_shift_div_l; [exact Hpos|]. rewrite Qmult_0_l. unfold Qle. cbn. lia.
  - apply Qle_trans with (1 * 100)%Q; [|discriminate].
    apply Qmult_le_compat_r; [|discriminate].
    apply Qle_shift_div_r; [exact Hpos|]. rewrite Qmult_1_l. rewrite <- Zle_Qle. lia.
Qed.

Lemma percentage_endpoints (a b : nat) (q : Q) :
  (0 < b)%nat ->
  (q == inject_Z (Z.of_nat a) / inject_Z (Z.of_nat b) * 100)%Q ->
  (a = 0%nat -> (q == 0)%Q) /\ (a = b -> (q == 100)%Q).
Proof.
  intros Hb Hq.
  assert (Hnz : ~ (inject_Z (Z.of_nat b) == 0)%Q) by (unfold Qeq; cbn; lia).
  split; intros ->; rewrite Hq.
  - cbn [Z.of_nat]. unfold Qdiv. now rewrite !Qmult_0_l.
  - field. exact Hnz.
Qed.

(** X20.  The request counters of the metrics collector add up.  After
    any sequence of calls on a new collector, whatever its configuration,
    [totalRequests] is the sum of [authenticatedRequests] and
    [failedAuthentications], the requests that fell back to the default
    key are among the authenticated ones, and the rate-limited requests
    are among all requests. *)
Theorem metrics_counters_add_up cfg cs :
  totalRequests (metrics (after cfg cs))
  = (authenticatedRequests (metrics (after cfg cs))
     + failedAuthentications (metrics (after cfg cs)))%nat /\
  (fallbackRequests (metrics (after cfg cs))
   <= authenticatedRequests (metrics (after cfg cs)))%nat /\
  (rateLimitedRequests (metrics (after cfg cs))
   <= totalRequests (metrics (after cfg cs)))%nat.
Proof. exact (proj1 (metrics_after_agree cfg cs)). Qed.

(** X21.  The statistics the collector keeps for a key are consistent.
    Whenever [getKeyMetrics] finds statistics under a key hash, they
    carry that key hash, count at least one request, and count no more
    errors and no more rate-limited requests than requests; so
    [getKeyFailureRate] of the key is a finite percentage between 0 and
    100, which is 0 for a key without errors and 100 for a key with
    nothing but errors. *)
Theorem metrics_key_statistics_agree cfg cs keyHash stats :
  getKeyMetrics keyHash (after cfg cs) = Some stats ->
  ks_keyHash stats = keyHash /\
  (1 <= ks_requestCount stats)%nat /\
  (ks_errorCount stats <= ks_requestCount stats)%nat /\
  (ks_rateLimitedCount stats <= ks_requestCount stats)%nat /\
  exists q,
    getKeyFailureRate keyHash (after cfg cs) = Fin q /\
    (0 <= q)%Q /\ (q <= 100)%Q /\
    (ks_errorCount stats = 0%nat -> (q == 0)%Q) /\
    (ks_errorCount stats = ks_requestCount stats -> (q == 100)%Q).
Proof.
  unfold getKeyMetrics, getKeyFailureRate. intros Hget. rewrite Hget.
  destruct (metrics_after_agree cfg cs) as (_ & _ & _ & Hall & _).
  rewrite List.Forall_forall in Hall.
  destruct (Hall _ (omap_get_In _ _ _ Hget)) as (Hk & H1 & He & Hr). cbn [fst snd] in *.
  repeat (split; [assumption|]).
  destruct (ks_requestCount stats =? 0)%nat eqn:E; [apply Nat.eqb_eq in E; lia|].
  destruct (percentage_of_counts (ks_errorCount stats) (ks_requestCount stats))
    as (q & Hq & Hval & Hlo & Hhi); [lia|lia|].
  exists q. repeat (split; [assumption|]).
  apply percentage_endpoints; [lia|exact Hval].
Qed.

(** X22.  The per-key statistics agree with the totals of the
    collector.  After any sequence of calls, [uniqueApiKeys] is the
    number of keys with statistics, the requests counted under the keys
    are at most [totalRequests] and their errors at most
    [failedAuthentications]; and as long as the cleanup has not run, both
    are equal: every request and every failure is counted under exactly
    one key. *)
Theorem metrics_keys_account_for_requests cfg cs :
  uniqueApiKeys (metrics (after cfg cs)) = length (keyUsageStats (metrics (after cfg cs))) /\
  NoDup (OrderedMap.keys (keyUsageStats (metrics (after cfg cs)))) /\
  (requestsByKey (metrics (after cfg cs)) <= totalRequests (metrics (after cfg cs)))%nat /\
  (errorsByKey (metrics (after cfg cs))
   <= failedAuthentications (metrics (after cfg cs)))%nat /\
  (noCleanup cs = true ->
   requestsByKey (metrics (after cfg cs)) = totalRequests (metrics (after cfg cs)) /\
   errorsByKey (metrics (after cfg cs)) = failedAuthentications (metrics (after cfg cs))).
Proof.
  destruct (metrics_after_agree cfg cs) as (_ & Hnd & Hu & _ & Hreq & Herr).
  repeat (split; [assumption|]).
  clear. induction cs as [|c cs IH] using rev_ind; [intros _; now cbn|].
  unfold noCleanup in *. rewrite forallb_app, andb_true_iff. cbn [forallb].
  intros [Hcs Hc]. specialize (IH Hcs). destruct IH as [IHr IHe].
  rewrite metrics_after_snoc. set (st := after cfg cs) in *.
  destruct c as [now result|hit|now event| |now]; cbn [call].
  - destruct (enabled (config st)) eqn:Hen.
    + destruct (recordAuthentication_counted now result st Hen) as [es ->].
      cbn [metrics withEvents].
      destruct (timed_fields result (withMetrics (counted now result (metrics st)) st))
        as (_ & _ & _ & _ & x & ->).
      cbn [metrics withMetrics].
      destruct (counted_keys now result (metrics st))
        as (Ht & Hf & _ & _ & _ & Hreq' & Herr').
      unfold requestsByKey, errorsByKey in *.
      cbn [withAverageAuthTime keyUsageStats totalRequests failedAuthentications].
      rewrite Ht, Hf, Hreq', Herr'. destruct (ar_success result); lia.
    + rewrite recordAuthentication_disabled by exact Hen. now split.
  - unfold recordCacheAccess. destruct (negb (enabled (config st))); now split.
  - destruct (recordSecurityEvent_events now event st) as [es ->]. now split.
  - now cbn.
  - discriminate.
Qed.

(** ** The cache hit rate *)

Lemma hitRate_percentage hits misses :
  exists q,
    hitRate hits misses = Fin q /\ (0 <= q)%Q /\ (q <= 100)%Q /\
    (hits = 0%nat -> (q == 0)%Q) /\
    (misses = 0%nat -> (0 < hits)%nat -> (q == 100)%Q).
Proof.
  unfold hitRate. destruct (0 <? hits + misses)%nat eqn:E.
  - apply Nat.ltb_lt in E.
    destruct (percentage_of_counts hits (hits + misses)) as (q & Hq & Hval & Hlo & Hhi);
      [lia|lia|].
    rewrite div_by_count_finite in Hq by lia. cbn [scale] in Hq.
    destruct (percentage_endpoints hits (hits + misses) q E Hval) as [Hzero Hall].
    exists q. split; [exact Hq|]. split; [exact Hlo|]. split; [exact Hhi|].
    split; [exact Hzero|]. intros Hm _. apply Hall. lia.
  - apply Nat.ltb_ge in E. exists 0%Q. split; [reflexivity|].
    split; [discriminate|]. split; [discriminate|]. split; [reflexivity|]. lia.
Qed.

Lemma accessesGiven_snoc cs c :
  accessesGiven (cs ++ [c])
  = match c with
    | RecordCacheAccess true => (S (fst (accessesGiven cs)), snd (accessesGiven cs))
    | RecordCacheAccess false => (fst (accessesGiven cs), S (snd (accessesGiven cs)))
    | Reset => (0, 0)%nat
    | _ => accessesGiven cs
    end.
Proof. unfold accessesGiven. now rewrite fold_left_app. Qed.

(** X23.  The cache hit rate follows the cache counters.  After any
    sequence of calls, [cacheHitRate] is a finite percentage between 0
    and 100; it is 0 when [getCacheCounters] reports no hit (in
    particular when nothing was recorded) and 100 when it reports hits
    and no miss; and for an enabled collector the counters are the hits
    and the misses recorded since the last reset. *)
Theorem metrics_cache_hit_rate cfg cs :
  (exists q,
     cacheHitRate (metrics (after cfg cs)) = Fin q /\ (0 <= q)%Q /\ (q <= 100)%Q /\
     (fst (getCacheCounters (after cfg cs)) = 0%nat -> (q == 0)%Q) /\
     (snd (getCacheCounters (after cfg cs)) = 0%nat ->
      (0 < fst (getCacheCounters (after cfg cs)))%nat -> (q == 100)%Q)) /\
  (enabled cfg = true -> getCacheCounters (after cfg cs) = accessesGiven cs).
Proof.
  assert (H : cacheHitRate (metrics (after cfg cs))
              = hitRate (cacheHits (after cfg cs)) (cacheMisses (after cfg cs)) /\
              (enabled cfg = true ->
               (cacheHits (after cfg cs), cacheMisses (after cfg cs)) = accessesGiven cs)).
  { induction cs as [|c cs [IHr IHc]] using rev_ind; [now split|].
    rewrite metrics_after_snoc, accessesGiven_snoc.
    pose proof (metrics_config_after cfg cs) as Hcfg.
    set (st := after cfg cs) in *.
    destruct c as [now result|hit|now event| |now]; cbn [call].
    - destruct (enabled (config st)) eqn:Hen.
      + destruct (recordAuthentication_counted now result st Hen) as [es ->].
        cbn [metrics withEvents cacheHits cacheMisses].
        destruct (timed_fields result (withMetrics (counted now result (metrics st)) st))
          as (_ & _ & -> & -> & x & ->).
        cbn [metrics withMetrics cacheHits cacheMisses withAverageAuthTime cacheHitRate].
        split; [|exact IHc].
        rewrite <- IHr. unfold counted, updateKeyStats, withKeyUsageStats.
        cbn [cacheHitRate]. unfold countRateLimited, countRequest.
        now destruct (ar_rateLimited result).
      + rewrite recordAuthentication_disabled by exact Hen. now split.
    - unfold recordCacheAccess. rewrite Hcfg.
      destruct (enabled cfg) eqn:Hen; cbn [negb].
      + unfold updateCacheHitRate.
        cbn [metrics withMetrics cacheHits cacheMisses withCacheHitRate cacheHitRate].
        split.
        * unfold hitRate.
          destruct (0 <? _)%nat eqn:E; [|reflexivity].
          apply Nat.ltb_lt in E. now rewrite div_by_count_finite.
        * intros _. specialize (IHc eq_refl). rewrite <- IHc. now destruct hit.
      + split; [exact IHr|discriminate].
    - destruct (recordSecurityEvent_events now event st) as [es ->]. now split.
    - now split.
    - now split. }
  destruct H as [Hr Hc]. unfold getCacheCounters. cbn [fst snd].
  split; [|exact Hc].
  rewrite Hr. apply hitRate_percentage.
Qed.

(** ** The authentication times *)

Lemma lastN_short {A : Type} (n : nat) (l : list A) :
  (length l <= n)%nat -> lastN n l = l.
Proof. intros H. unfold lastN. now replace (length l - n)%nat with 0%nat by lia. Qed.

Lemma lastN_length {A : Type} (n : nat) (l : list A) : (length (lastN n l) <= n)%nat.
Proof. unfold lastN. rewrite length_drop. lia. Qed.

Lemma lastN_snoc {A : Type} (n : nat) (l : list A) x :
  (1 <= n)%nat -> lastN n (lastN n l ++ [x]) = lastN n (l ++ [x]).
Proof.
  intros Hn. destruct (le_lt_dec (length l) n) as [Hle|Hgt].
  - now rewrite (lastN_short n l).
  - unfold lastN. rewrite !length_app, length_drop. cbn [length].
    replace (length l - (length l - n) + 1 - n)%nat with 1%nat by lia.
    replace (length l + 1 - n)%nat with ((length l - n) + 1)%nat by lia.
    rewrite <- drop_drop. f_equal. rewrite drop_app_le by lia. reflexivity.
Qed.

Lemma slice_last {A : Type} (n : Z) (l : list A) :
  0 < n -> Arrays.slice (- n) None l = lastN (Z.to_nat n) l.
Proof.
  intros Hn. unfold Arrays.slice, Arrays.relativeIndex, lastN.
  assert (Hneg : (- n <? 0) = true) by (apply Z.ltb_lt; lia). rewrite Hneg.
  replace (Z.to_nat (Z.max (Z.of_nat (length l) + - n) 0))
    with (length l - Z.to_nat n)%nat by lia.
  apply take_ge. rewrite length_drop. lia.
Qed.

Lemma timingsGiven_snoc cs c :
  timingsGiven (cs ++ [c])
  = match c with
    | RecordAuthentication _ result =>
        match ar_authTime result with
        | Some t => timingsGiven cs ++ [t]
        | None => timingsGiven cs
        end
    | Reset => []
    | _ => timingsGiven cs
    end.
Proof. unfold timingsGiven. now rewrite fold_left_app. Qed.

Lemma mean_of_nonempty (ts : list Z) :
  (0 < length ts)%nat ->
  div (inject_Z (fold_left Z.add ts 0)) (inject_Z (Z.of_nat (length ts))) = mean ts.
Proof.
  intros H. rewrite div_by_count_finite by exact H.
  destruct ts; [cbn in H; lia|reflexivity].
Qed.

Lemma sum_within (ts : list Z) (lo hi : Z) :
  Forall (fun t => lo <= t <= hi) ts ->
  forall acc,
    acc + Z.of_nat (length ts) * lo <= fold_left Z.add ts acc
    /\ fold_left Z.add ts acc <= acc + Z.of_nat (length ts) * hi.
Proof.
  induction 1 as [|t ts Ht _ IH]; intros acc; cbn [fold_left length]; [lia|].
  specialize (IH (acc + t)). rewrite Nat2Z.inj_succ. nia.
Qed.

Lemma mean_within (ts : list Z) :
  exists q,
    mean ts = Fin q /\
    (ts = [] -> (q == 0)%Q) /\
    (forall lo hi, ts <> [] -> Forall (fun t => lo <= t <= hi) ts ->
                   (inject_Z lo <= q)%Q /\ (q <= inject_Z hi)%Q).
Proof.
  destruct ts as [|t ts].
  - exists 0%Q. split; [reflexivity|]. split; [reflexivity|]. intros lo hi H. congruence.
  - eexists. split; [reflexivity|]. split; [discriminate|].
    intros lo hi _ Hall. set (l := t :: ts) in *.
    destruct (sum_within l lo hi Hall 0) as [Hlo Hhi].
    assert (Hpos : (0 < inject_Z (Z.of_nat (length l)))%Q).
    { unfold Qlt. cbn. lia. }
    split.
    + apply Qle_shift_div_l; [exact Hpos|].
      rewrite <- inject_Z_mult, <- Zle_Qle. lia.
    + apply Qle_shift_div_r; [exact Hpos|].
      rewrite <- inject_Z_mult, <- Zle_Qle. lia.
Qed.

(** X24.  The average authentication time is taken over the last 1000
    times.  For an enabled collector, after any sequence of calls, the
    timings it holds are the last 1000 (or all, if fewer) of the
    authentication times recorded since the last reset, never more than
    1000; and [averageAuthTime] is a finite number that is 0 when there
    are none and otherwise lies between any two bounds of these timings:
    not below the smallest, not above the largest, and equal to the
    common value when they are all the same.  (The times are whole
    milliseconds, differences of two [Date.now()] readings: their sum
    is exact, and the double nearest to a quotient that lies between
    two whole numbers lies between them too.) *)
Theorem metrics_average_over_last_1000 cfg cs :
  enabled cfg = true ->
  authTimings (after cfg cs) = lastN 1000 (timingsGiven cs) /\
  (length (authTimings (after cfg cs)) <= 1000)%nat /\
  exists q,
    averageAuthTime (metrics (after cfg cs)) = Fin q /\
    (lastN 1000 (timingsGiven cs) = [] -> (q == 0)%Q) /\
    (forall lo hi,
       lastN 1000 (timingsGiven cs) <> [] ->
       Forall (fun t => lo <= t <= hi) (lastN 1000 (timingsGiven cs)) ->
       (inject_Z lo <= q)%Q /\ (q <= inject_Z hi)%Q).
Proof.
  intros Hen.
  assert (H : authTimings (after cfg cs) = lastN 1000 (timingsGiven cs) /\
              averageAuthTime (metrics (after cfg cs)) = mean (authTimings (after cfg cs))).
  { induction cs as [|c cs [IHt IHa]] using rev_ind; [now split|].
    rewrite metrics_after_snoc, timingsGiven_snoc.
    pose proof (metrics_config_after cfg cs) as Hcfg.
    set (st := after cfg cs) in *.
    destruct c as [now result|hit|now event| |now]; cbn [call].
    - assert (Hen' : enabled (config st) = true) by now rewrite Hcfg.
      destruct (recordAuthentication_counted now result st Hen') as [es ->].
      cbn [metrics withEvents authTimings].
      assert (Hsame : averageAuthTime (counted now result (metrics st))
                      = averageAuthTime (metrics st)).
      { unfold counted, updateKeyStats, withKeyUsageStats. cbn [averageAuthTime].
        unfold countRateLimited, countRequest. now destruct (ar_rateLimited result). }
      unfold timed. destruct (ar_authTime result) as [t|].
      + unfold updateAverageAuthTime. cbn [authTimings withTimings withMetrics].
        rewrite length_app. cbn [length].
        replace (length (authTimings st) + 1 =? 0)%nat with false
          by (symmetry; apply Nat.eqb_neq; lia).
        cbn [authTimings withTimings withMetrics metrics withAverageAuthTime averageAuthTime].
        assert (Hkept : (if (1000 <? length (authTimings st) + 1)%nat
                         then Arrays.slice (-1000) None (authTimings st ++ [t])
                         else authTimings st ++ [t])
                        = lastN 1000 (timingsGiven cs ++ [t])).
        { rewrite <- (lastN_snoc 1000 (timingsGiven cs) t) by lia. rewrite <- IHt.
          destruct (1000 <? length (authTimings st) + 1)%nat eqn:E.
          - now rewrite (slice_last 1000) by lia.
          - apply Nat.ltb_ge in E. rewrite lastN_short; [reflexivity|].
            rewrite length_app. cbn [length]. lia. }
        rewrite Hkept. split; [reflexivity|].
        apply mean_of_nonempty. unfold lastN. rewrite length_drop, length_app.
        cbn [length]. lia.
      + cbn [authTimings withMetrics metrics]. split; [exact IHt|].
        now rewrite Hsame.
    - unfold recordCacheAccess. destruct (negb (enabled (config st))); now split.
    - destruct (recordSecurityEvent_events now event st) as [es ->]. now split.
    - now split.
    - now split. }
  destruct H as [Ht Ha]. split; [exact Ht|].
  split; [rewrite Ht; apply lastN_length|].
  rewrite Ha, Ht. apply mean_within.
Qed.

(** X25.  A disabled collector collects nothing.  When the configuration
    has [enabled: false], every sequence of calls leaves the collector as
    it was constructed: all counters 0, no key statistics, no security
    events, no timings. *)
Theorem metrics_disabled_collects_nothing cfg cs :
  enabled cfg = false -> after cfg cs = create cfg.
Proof.
  intros Hen. induction cs as [|c cs IH] using rev_ind; [reflexivity|].
  rewrite metrics_after_snoc, IH.
  destruct c as [now result|hit|now event| |now]; cbn [call].
  - now apply recordAuthentication_disabled.
  - unfold recordCacheAccess. cbn [config create]. now rewrite Hen.
  - unfold recordSecurityEvent. cbn [config create]. now rewrite Hen.
  - reflexivity.
  - reflexivity.
Qed.

(** ** Alerts *)

Lemma not_above (q threshold : Q) :
  (q <= threshold)%Q -> gtb (Fin q) (Fin threshold) = false.
Proof.
  intros Hle. unfold gtb, ltb.
  destruct (Qle_bool threshold q) eqn:E; [|reflexivity].
  apply Qle_bool_iff in E.
  assert (Heq : (threshold == q)%Q) by now apply Qle_antisym.
  apply Qeq_bool_iff in Heq. now rewrite Heq.
Qed.

Lemma alerts_appended {A B : Type} (raise : A -> bool) (alert : A -> B) (l : list A) :
  forall alerts,
    fold_left (fun alerts x => if raise x then alerts ++ [alert x] else alerts) l alerts
    = alerts ++ map alert (List.filter raise l).
Proof.
  induction l as [|x l IH]; intros alerts; cbn [fold_left List.filter map].
  - now rewrite app_nil_r.
  - rewrite IH. destruct (raise x); [|reflexivity].
    cbn [map]. now rewrite <- app_assoc.
Qed.

Lemma filter_none {A : Type} (p : A -> bool) (l : list A) :
  (forall x, In x l -> p x = false) -> List.filter p l = [].
Proof.
  induction l as [|x l IH]; intros H; cbn [List.filter]; [reflexivity|].
  rewrite (H x) by now left. apply IH. intros y Hy. apply H. now right.
Qed.

Lemma in_list_sum {A : Type} (f : A -> nat) (l : list A) x :
  In x l -> (f x <= list_sum (map f l))%nat.
Proof.
  unfold list_sum. induction l as [|y l IH]; cbn; [tauto|].
  intros [->|Hin]; [lia|]. specialize (IH Hin). lia.
Qed.

Lemma keyFailureRate_percentage cfg cs keyHash :
  exists q,
    getKeyFailureRate keyHash (after cfg cs) = Fin q /\ (0 <= q)%Q /\ (q <= 100)%Q /\
    (failedAuthentications (metrics (after cfg cs)) = 0%nat -> (q == 0)%Q).
Proof.
  destruct (metrics_after_agree cfg cs) as (_ & _ & _ & Hall & _ & Herr).
  unfold getKeyFailureRate.
  destruct (OrderedMap.get keyHash (keyUsageStats (metrics (after cfg cs))))
    as [stats|] eqn:Hget.
  - apply omap_get_In in Hget. rewrite List.Forall_forall in Hall.
    destruct (Hall _ Hget) as (_ & H1 & He & _). cbn [fst snd] in *.
    destruct (ks_requestCount stats =? 0)%nat eqn:E; [apply Nat.eqb_eq in E; lia|].
    destruct (percentage_of_counts (ks_errorCount stats) (ks_requestCount stats))
      as (q & Hq & Hval & Hlo & Hhi); [lia|lia|].
    exists q. repeat (split; [assumption|]).
    intros Hnone. rewrite Hval.
    assert (Hzero : ks_errorCount stats = 0%nat).
    { pose proof (in_list_sum ks_errorCount _ _ (in_map snd _ _ Hget)) as Hle.
      unfold errorsByKey, OrderedMap.values in Herr. cbn [snd] in Hle. lia. }
    rewrite Hzero. cbn [Z.of_nat]. unfold Qdiv. now rewrite !Qmult_0_l.
  - exists 0%Q. split; [reflexivity|]. split; [discriminate|]. split; [discriminate|].
    reflexivity.
Qed.

Lemma overallFailureRate_percentage cfg cs :
  exists q,
    overallFailureRate (metrics (after cfg cs)) = Fin q /\ (q <= 100)%Q /\
    (failedAuthentications (metrics (after cfg cs)) = 0%nat -> (q == 0)%Q).
Proof.
  destruct (metrics_after_agree cfg cs) as ((Ht & _ & _) & _).
  unfold overallFailureRate.
  destruct (0 <? totalRequests (metrics (after cfg cs)))%nat eqn:E.
  - apply Nat.ltb_lt in E.
    destruct (percentage_of_counts (failedAuthentications (metrics (after cfg cs)))
                (totalRequests (metrics (after cfg cs))))
      as (q & Hq & Hval & _ & Hhi); [lia|lia|].
    exists q. split; [exact Hq|]. split; [exact Hhi|].
    intros Hnone. rewrite Hval, Hnone. cbn [Z.of_nat]. unfold Qdiv.
    now rewrite !Qmult_0_l.
  - exists 0%Q. split; [reflexivity|]. split; [discriminate|]. reflexivity.
Qed.

(** X26.  [checkAlerts] raises alerts on failures only.  After any
    sequence of calls: with a threshold [failureRatePercent] of 100 or
    more no alert is ever returned; with a threshold that is not negative
    no alert is returned while no authentication has failed; and every
    alert returned is the alert of the key hash "system" or names a key
    whose statistics count at least 10 requests. *)
Theorem metrics_alerts_need_failures cfg cs now :
  ((100 <= failureRatePercent cfg)%Q -> checkAlerts now (after cfg cs) = []) /\
  ((0 <= failureRatePercent cfg)%Q ->
   failedAuthentications (metrics (after cfg cs)) = 0%nat ->
   checkAlerts now (after cfg cs) = []) /\
  (forall alert,
     In alert (checkAlerts now (after cfg cs)) ->
     ev_keyHash alert = "system"%string \/
     exists stats,
       getKeyMetrics (ev_keyHash alert) (after cfg cs) = Some stats /\
       (10 <= ks_requestCount stats)%nat).
Proof.
  pose proof (metrics_config_after cfg cs) as Hcfg.
  destruct (metrics_after_agree cfg cs) as (_ & Hnd & _).
  destruct (overallFailureRate_percentage cfg cs) as (q0 & Hq0 & Hhi0 & Hnone0).
  unfold checkAlerts. cbv zeta. rewrite Hcfg.
  rewrite (alerts_appended
             (fun kv => gtb (getKeyFailureRate (fst kv) (after cfg cs))
                          (Fin (failureRatePercent cfg))
                        && (10 <=? ks_requestCount (snd kv))%nat)).
  assert (Hquiet : forall bound,
            (bound <= failureRatePercent cfg)%Q ->
            (forall q, (q <= 100)%Q ->
                       (failedAuthentications (metrics (after cfg cs)) = 0%nat -> (q == 0)%Q) ->
                       (q <= bound)%Q) ->
            gtb (overallFailureRate (metrics (after cfg cs))) (Fin (failureRatePercent cfg))
            = false /\
            List.filter
              (fun kv => gtb (getKeyFailureRate (fst kv) (after cfg cs))
                           (Fin (failureRatePercent cfg))
                         && (10 <=? ks_requestCount (snd kv))%nat)
              (keyUsageStats (metrics (after cfg cs))) = []).
  { intros bound Hbound Hrate. split.
    - rewrite Hq0. apply not_above.
      apply Qle_trans with bound; [|exact Hbound]. now apply Hrate.
    - apply filter_none. intros kv _.
      destruct (keyFailureRate_percentage cfg cs (fst kv)) as (q & Hq & _ & Hhi & Hnone).
      rewrite Hq, not_above; [reflexivity|].
      apply Qle_trans with bound; [|exact Hbound]. now apply Hrate. }
  split; [|split].
  - intros Hthr. destruct (Hquiet 100%Q Hthr) as [-> ->]; [|reflexivity].
    intros q Hq _. exact Hq.
  - intros Hthr Hnone. destruct (Hquiet 0%Q Hthr) as [-> ->]; [|reflexivity].
    intros q _ Hq. rewrite (Hq Hnone). discriminate.
  - intros alert Hin. apply in_app_or in Hin. destruct Hin as [Hin|Hin].
    + left. destruct (gtb _ _); [|destruct Hin].
      destruct Hin as [<-|[]]. reflexivity.
    + right. apply in_map_iff in Hin. destruct Hin as ([k stats] & <- & Hin).
      apply filter_In in Hin. destruct Hin as [Hin Hraise].
      apply andb_true_iff in Hraise. destruct Hraise as [_ Hten].
      cbn [fst snd ev_keyHash] in *. exists stats. split.
      * unfold getKeyMetrics. now apply omap_In_get.
      * now apply Nat.leb_le.
Qed.

Lemma metrics_key_statistics_agree_witness :
  exists stats,
    getKeyMetrics "k1" (after DEFAULT_METRICS_CONFIG sampleCalls) = Some stats /\
    (ks_errorCount stats <= ks_requestCount stats)%nat.
Proof.
  eexists. split; [vm_compute; reflexivity|].
  eapply (metrics_key_statistics_agree DEFAULT_METRICS_CONFIG sampleCalls "k1").
  vm_compute. reflexivity.
Defined.

Lemma metrics_average_over_last_1000_witness :
  authTimings (after DEFAULT_METRICS_CONFIG sampleCalls) = [5; 7] /\
  exists q,
    averageAuthTime (metrics (after DEFAULT_METRICS_CONFIG sampleCalls)) = Fin q /\
    (5 <= q)%Q /\ (q <= 7)%Q.
Proof.
  destruct (metrics_average_over_last_1000 DEFAULT_METRICS_CONFIG sampleCalls eq_refl)
    as (Ht & _ & q & Hq & _ & Hbounds).
  split; [exact Ht|]. exists q. split; [exact Hq|].
  apply (Hbounds 5 7); [discriminate|].
  repeat constructor; lia.
Defined.

Lemma metrics_disabled_collects_nothing_witness :
  after disabledConfig sampleCalls = create disabledConfig.
Proof. apply metrics_disabled_collects_nothing. reflexivity. Defined.

End MetricsCollectorFacts.

(* ===================================================================== *)
(** * The batch tools: what validation lets through                        *)
(* ===================================================================== *)

Lemma length_zero_nil {A : Type} (l : list A) : (0 <? length l)%nat = false -> l = [].
Proof. destruct l; [reflexivity|discriminate]. Qed.

Lemma checkFilePaths_accepts w paths :
  forall invalidFiles oversizedFiles invalid oversized,
    Tools.checkFilePaths w paths invalidFiles oversizedFiles = inr (invalid, oversized) ->
    exists more moreOversized,
      invalid = invalidFiles ++ more /\
      oversized = oversizedFiles ++ moreOversized /\
      (more = [] -> moreOversized = [] ->
       exists filePaths,
         paths = map VString filePaths /\
         Forall (fun filePath =>
                   filePath <> ""%string /\
                   exists stats,
                     fsStat w filePath = Some stats /\
                     isFile stats = true /\
                     st_size stats <= 100 * 1024 * 1024)
                filePaths).
Proof.
  induction paths as [|v rest IH]; intros inv over inv' over'; cbn [Tools.checkFilePaths].
  - intros [= <- <-]. exists [], []. rewrite !app_nil_r. repeat split.
    intros _ _. exists []. split; [reflexivity|constructor].
  - destruct v as [| | | |filePath| |]; try discriminate.
    destruct (String.length filePath =? 0)%nat eqn:Hlen; [discriminate|].
    destruct (fsStat w filePath) as [stats|] eqn:Hstat.
    + destruct (isFile stats) eqn:Hfile; cbn [negb].
      * destruct (st_size stats >? 100 * 1024 * 1024) eqn:Hsize.
        -- intros H. destruct (IH _ _ _ _ H) as (a & b & -> & -> & _).
           eexists a, (_ :: b). rewrite <- !app_assoc. repeat split. discriminate.
        -- intros H. destruct (IH _ _ _ _ H) as (a & b & -> & -> & Hok).
           exists a, b. repeat split. intros Ha Hb.
           destruct (Hok Ha Hb) as (filePaths & -> & Hall).
           exists (filePath :: filePaths). split; [reflexivity|].
           constructor; [|exact Hall]. split.
           ++ intros ->. discriminate.
           ++ exists stats. repeat split; auto.
              rewrite Z.gtb_ltb in Hsize. apply Z.ltb_ge in Hsize. exact Hsize.
      * intros H. destruct (IH _ _ _ _ H) as (a & b & -> & -> & _).
        eexists (_ :: a), b. rewrite <- !app_assoc. repeat split. discriminate.
    + intros H. destruct (IH _ _ _ _ H) as (a & b & -> & -> & _).
      eexists (_ :: a), b. rewrite <- !app_assoc. repeat split. discriminate.
Qed.

Lemma checkTags_accepts tags :
  forall i, Tools.checkTags i tags = None -> exists texts, tags = map VString texts.
Proof.
  induction tags as [|t tags IH]; intros i; cbn [Tools.checkTags].
  - intros _. now exists [].
  - destruct t as [| | | |s| |]; try discriminate.
    intros H. destruct (IH _ H) as (texts & ->). now exists (s :: texts).
Qed.

Lemma stringsOf_strings (texts : list string) : Tools.stringsOf (map VString texts) = texts.
Proof.
  unfold Tools.stringsOf. induction texts as [|s texts IH]; [reflexivity|].
  cbn. now rewrite IH.
Qed.

Lemma boolean_or_absent (v : value) :
  negb (isUndefined v) && negb (type_tag_eqb (typeof v) TBoolean) = false ->
  v = VUndefined \/ exists b, v = VBool b.
Proof. destruct v; cbn; try discriminate; eauto. Qed.

Lemma validateUpload_files w params :
  Tools.validateUploadParams w params = None ->
  exists filePaths,
    Tools.u_filePaths params = VArray (map VString filePaths) /\
    (1 <= length filePaths <= 100)%nat /\
    Tools.stringsOf (default [] (Tools.asArray (Tools.u_filePaths params))) = filePaths /\
    Forall (fun filePath =>
              filePath <> ""%string /\
              exists stats,
                fsStat w filePath = Some stats /\
                isFile stats = true /\
                st_size stats <= 100 * 1024 * 1024)
           filePaths.
Proof.
  unfold Tools.validateUploadParams.
  destruct (Tools.u_filePaths params) as [| | | | |paths|]; try discriminate.
  destruct (length paths =? 0)%nat eqn:Hempty; [discriminate|].
  destruct (100 <? length paths)%nat eqn:Hmany; [discriminate|].
  destruct (Tools.checkFilePaths w paths [] []) as [err|[invalid oversized]] eqn:Hcheck;
    [discriminate|].
  destruct (0 <? length invalid)%nat eqn:Hinv; [discriminate|].
  destruct (0 <? length oversized)%nat eqn:Hover; [discriminate|].
  intros _.
  apply length_zero_nil in Hinv, Hover. subst invalid oversized.
  destruct (checkFilePaths_accepts w paths _ _ _ _ Hcheck) as (a & b & Ha & Hb & Hok).
  cbn [app] in Ha, Hb. subst a b.
  destruct (Hok eq_refl eq_refl) as (filePaths & -> & Hall).
  apply Nat.eqb_neq in Hempty. apply Nat.ltb_ge in Hmany. rewrite length_map in *.
  exists filePaths.
  split; [reflexivity|]. split; [lia|].
  split; [cbn [Tools.asArray default]; apply stringsOf_strings|exact Hall].
Qed.

Lemma checkFilePaths_complete w filePaths :
  Forall (fun filePath =>
            filePath <> ""%string /\
            exists stats,
              fsStat w filePath = Some stats /\
              isFile stats = true /\
              st_size stats <= 100 * 1024 * 1024)
         filePaths ->
  forall invalidFiles oversizedFiles,
    Tools.checkFilePaths w (map VString filePaths) invalidFiles oversizedFiles
    = inr (invalidFiles, oversizedFiles).
Proof.
  induction 1 as [|filePath rest (Hne & stats & Hstat & Hfile & Hsize) _ IH];
    intros inv over; cbn [map Tools.checkFilePaths]; [reflexivity|].
  destruct (String.length filePath =? 0)%nat eqn:Hlen.
  { apply Nat.eqb_eq in Hlen. destruct filePath; [congruence|discriminate]. }
  rewrite Hstat, Hfile. cbn [negb].
  replace (st_size stats >? 100 * 1024 * 1024) with false
    by (symmetry; rewrite Z.gtb_ltb; apply Z.ltb_ge; exact Hsize).
  apply IH.
Qed.

Lemma checkTags_complete (texts : list string) :
  forall i, Tools.checkTags i (map VString texts) = None.
Proof.
  induction texts as [|s texts IH]; intros i; cbn [map Tools.checkTags]; [reflexivity|].
  apply IH.
Qed.

Lemma concurrency_check (c : value) :
  negb (isUndefined c) && Tools.concurrencyRejected c = false <->
  c = VUndefined \/ Tools.concurrencyRejected c = false.
Proof.
  destruct c; cbn; try tauto; split; intros H; auto;
    try (destruct H as [H|H]; [discriminate|exact H]).
Qed.

Lemma boolean_check (v : value) :
  negb (isUndefined v) && negb (type_tag_eqb (typeof v) TBoolean) = false <->
  v = VUndefined \/ exists b, v = VBool b.
Proof.
  split; [apply boolean_or_absent|].
  intros [->|[b ->]]; reflexivity.
Qed.

(** X27.  What the batch upload tool accepts, and what it then does.
    [validateParams] accepts a request exactly when: [filePaths] is an
    array of 1 to 100 non-empty strings, each the path of an existing
    regular file of at most 100 MB; [concurrency] is absent or a number
    that is neither below 1 nor above 10; [encrypt] is absent or a
    boolean; [accessConditions], when truthy, is an array, and an empty
    one unless [encrypt] is [true]; and [tags], when truthy, is an array
    of strings.  Falsy values of [accessConditions] and [tags]
    ([null], [false], [0], the empty string) are not checked at all.
    For an accepted request [execute] makes one call to the batch method
    of the service, with exactly these file paths and the options built
    from the request, and answers from its outcome. *)
Theorem upload_tool_accepts_only_checked_files w params :
  (Tools.validateUploadParams w params = None <->
   (exists filePaths,
      Tools.u_filePaths params = VArray (map VString filePaths) /\
      (1 <= length filePaths <= 100)%nat /\
      Forall (fun filePath =>
                filePath <> ""%string /\
                exists stats,
                  fsStat w filePath = Some stats /\
                  isFile stats = true /\
                  st_size stats <= 100 * 1024 * 1024)
             filePaths) /\
   (Tools.u_concurrency params = VUndefined \/
    Tools.concurrencyRejected (Tools.u_concurrency params) = false) /\
   (Tools.u_encrypt params = VUndefined \/ exists b, Tools.u_encrypt params = VBool b) /\
   (truthy (Tools.u_accessConditions params) = true ->
    exists conditions,
      Tools.u_accessConditions params = VArray conditions /\
      (conditions = [] \/ Tools.u_encrypt params = VBool true)) /\
   (truthy (Tools.u_tags params) = true ->
    exists tags, Tools.u_tags params = VArray (map VString tags))) /\
  (Tools.validateUploadParams w params = None ->
   exists filePaths,
     Tools.u_filePaths params = VArray (map VString filePaths) /\
     (forall S (service : Tools.Service S) batchUpload (st : S),
        Tools.batchUploadFiles service = Some batchUpload ->
        Requests.answeredFrom Tools.uploadResponseItem "Batch upload failed: "
          (batchUpload filePaths (Some (Tools.uploadOptions params)) st)
          (Tools.executeUpload w service params st)) /\
     snd (Tools.executeUpload w Requests.recorder params [])
     = [ Requests.UploadCall filePaths (Some (Tools.uploadOptions params)) ]).
Proof.
  split; [split|].
  - intros Hvalid.
    destruct (validateUpload_files w params Hvalid)
      as (filePaths & Hpaths & Hlen & _ & Hall).
    split; [exists filePaths; repeat split; try assumption; lia|].
    revert Hvalid. unfold Tools.validateUploadParams. rewrite Hpaths.
    destruct (length (map VString filePaths) =? 0)%nat; [discriminate|].
    destruct (100 <? length (map VString filePaths))%nat; [discriminate|].
    destruct (Tools.checkFilePaths w (map VString filePaths) [] [])
      as [err|[invalid oversized]]; [discriminate|].
    destruct (0 <? length invalid)%nat; [discriminate|].
    destruct (0 <? length oversized)%nat; [discriminate|].
    destruct (negb (isUndefined (Tools.u_concurrency params)) && _) eqn:Hconc;
      [discriminate|].
    apply concurrency_check in Hconc.
    destruct (negb (isUndefined (Tools.u_encrypt params)) && _) eqn:Henc; [discriminate|].
    apply boolean_or_absent in Henc.
    intros Hrest. split; [exact Hconc|]. split; [exact Henc|].
    assert (Htags : forall rest,
              (if truthy (Tools.u_tags params)
               then match Tools.u_tags params with
                    | VArray tags => Tools.checkTags 0 tags
                    | _ => Some "tags must be an array"%string
                    end
               else None) = rest -> rest = None ->
              truthy (Tools.u_tags params) = true ->
              exists tags, Tools.u_tags params = VArray (map VString tags)).
    { intros rest Hr -> Ht. rewrite Ht in Hr.
      destruct (Tools.u_tags params) as [| | | | |tags|]; try discriminate.
      destruct (checkTags_accepts tags 0 Hr) as (texts & ->). now exists texts. }
    destruct (truthy (Tools.u_accessConditions params)) eqn:Hac.
    + destruct (Tools.u_accessConditions params) as [| | | | |conditions|];
        try discriminate.
      destruct (0 <? length conditions)%nat eqn:Hsome.
      * destruct (truthy (Tools.u_encrypt params)) eqn:Htrue; [|discriminate].
        cbn [andb negb] in Hrest. split; [|now apply (Htags _ eq_refl)].
        intros _. exists conditions. split; [reflexivity|]. right.
        destruct Henc as [He|[b He]]; rewrite He in *; cbn in Htrue;
          [discriminate|now subst b].
      * cbn [andb] in Hrest. split; [|now apply (Htags _ eq_refl)].
        intros _. exists conditions. split; [reflexivity|]. left.
        now apply length_zero_nil.
    + split; [discriminate|now apply (Htags _ eq_refl)].
  - intros ((filePaths & Hpaths & Hlen & Hall) & Hconc & Henc & Hac & Htags).
    unfold Tools.validateUploadParams. rewrite Hpaths, length_map.
    replace (length filePaths =? 0)%nat with false
      by (symmetry; apply Nat.eqb_neq; lia).
    replace (100 <? length filePaths)%nat with false
      by (symmetry; apply Nat.ltb_ge; lia).
    rewrite (checkFilePaths_complete w filePaths Hall). cbn [length Nat.ltb Nat.leb].
    apply concurrency_check in Hconc. rewrite Hconc.
    pose proof (proj2 (boolean_check _) Henc) as Hencb. rewrite Hencb.
    assert (Htagsok : (if truthy (Tools.u_tags params)
                       then match Tools.u_tags params with
                            | VArray tags => Tools.checkTags 0 tags
                            | _ => Some "tags must be an array"%string
                            end
                       else None) = None).
    { destruct (truthy (Tools.u_tags params)) eqn:Ht; [|reflexivity].
      destruct (Htags eq_refl) as (texts & ->). apply checkTags_complete. }
    destruct (truthy (Tools.u_accessConditions params)) eqn:Hact; [|exact Htagsok].
    destruct (Hac eq_refl) as (conditions & -> & [->|Htrue]).
    + cbn [length Nat.ltb Nat.leb andb]. exact Htagsok.
    + rewrite Htrue. cbn [truthy negb]. rewrite andb_false_r. exact Htagsok.
  - intros Hvalid.
    destruct (validateUpload_files w params Hvalid)
      as (filePaths & Hpaths & _ & Hgiven & _).
    exists filePaths. split; [exact Hpaths|]. split.
    + intros S service batchUpload st Hservice. rewrite <- Hgiven.
      exact (executeUpload_answers w service batchUpload params st Hvalid Hservice).
    + rewrite <- Hgiven.
      exact (proj1 (executeUpload_answers w Requests.recorder _ params [] Hvalid eq_refl)).
Qed.

(** ** Well-formed CIDs *)

Lemma isBase58_isAlnum c : Tools.isBase58 c = true -> Tools.isAlnum c = true.
Proof.
  destruct c as [[] [] [] [] [] [] [] []]; vm_compute; intros H;
    first [reflexivity | discriminate H].
Qed.

Lemma forallb_weaken {A : Type} (p q : A -> bool) (l : list A) :
  (forall x, p x = true -> q x = true) -> forallb p l = true -> forallb q l = true.
Proof.
  intros Hpq. induction l as [|x l IH]; cbn [forallb]; [reflexivity|].
  rewrite !andb_true_iff. intros [Hx Hl]. split; [now apply Hpq|now apply IH].
Qed.

Lemma prefix_cons c a s :
  String.prefix (String c a) s = true ->
  exists rest, s = String c rest /\ String.prefix a rest = true.
Proof.
  destruct s as [|c' rest]; cbn [String.prefix]; [discriminate|].
  destruct (ascii_dec c c') as [<-|]; [|discriminate].
  intros H. now exists rest.
Qed.

Lemma prefix_shorter a b s :
  String.prefix (a +:+ b) s = true -> String.prefix a s = true.
Proof.
  revert s. induction a as [|c a IH]; intros s; [now destruct s|].
  rewrite string_app_cons. intros H. apply prefix_cons in H.
  destruct H as (rest & -> & H). cbn [String.prefix].
  destruct (ascii_dec c c) as [_|Hne]; [now apply IH|congruence].
Qed.

Lemma substring_whole s : String.substring 0 (String.length s) s = s.
Proof. induction s as [|c s IH]; cbn; [reflexivity|now rewrite IH]. Qed.

Lemma isValidCID_wellformed v :
  Tools.isValidCID v = true ->
  exists cid,
    v = VString cid /\
    Tools.allChars Tools.isAlnum cid = true /\
    (32 <= String.length cid)%nat /\
    (String.prefix "Qm" cid = true \/ String.prefix "baf" cid = true).
Proof.
  destruct v as [| | | |cid| |]; try discriminate. cbn [Tools.isValidCID].
  intros H. exists cid. split; [reflexivity|].
  destruct (String.length cid =? 0)%nat; [discriminate|].
  assert (Halnum : forall n, (n <= String.length cid)%nat -> (32 <= n)%nat ->
                             Tools.alnumOnly cid = true ->
                             Tools.allChars Tools.isAlnum cid = true /\
                             (32 <= String.length cid)%nat).
  { intros n Hn H32 Ha. unfold Tools.alnumOnly in Ha. apply andb_true_iff in Ha.
    split; [tauto|lia]. }
  destruct (String.prefix "Qm" cid) eqn:Hqm.
  - assert (Hor : true = true \/ String.prefix "baf" cid = true) by now left.
    destruct (String.length cid =? 46)%nat eqn:H46; cbn [andb] in H.
    + apply Nat.eqb_eq in H46.
      apply prefix_cons in Hqm. destruct Hqm as (r1 & -> & Hqm).
      apply prefix_cons in Hqm. destruct Hqm as (rest & -> & _).
      cbn [String.length] in H46. cbn [String.substring] in H.
      replace 44%nat with (String.length rest) in H by lia.
      rewrite substring_whole in H.
      split; [|split; [cbn [String.length]; lia|exact Hor]].
      unfold Tools.allChars in *. cbn [list_ascii_of_string forallb].
      rewrite (forallb_weaken _ _ _ isBase58_isAlnum H). reflexivity.
    + destruct (String.prefix "baf" cid && (59 <=? String.length cid)%nat) eqn:Hbaf.
      { apply andb_true_iff in Hbaf. destruct Hbaf as [_ H59]. apply Nat.leb_le in H59.
        destruct (Halnum 59%nat H59 ltac:(lia) H). now repeat split. }
      destruct (String.prefix "QmTest" cid || String.prefix "QmNonExist" cid).
      { apply andb_true_iff in H. destruct H as [H32 H]. apply Nat.leb_le in H32.
        destruct (Halnum 32%nat H32 ltac:(lia) H). now repeat split. }
      cbn [andb] in H.
      destruct (46 <=? String.length cid)%nat eqn:Hlong; [|discriminate].
      apply Nat.leb_le in Hlong.
      destruct (Halnum 46%nat Hlong ltac:(lia) H). now repeat split.
  - cbn [andb] in H.
    destruct (String.prefix "baf" cid) eqn:Hbaf.
    + assert (Hor : false = true \/ true = true) by now right.
      destruct (59 <=? String.length cid)%nat eqn:H59; cbn [andb] in H.
      * apply Nat.leb_le in H59.
        destruct (Halnum 59%nat H59 ltac:(lia) H). now repeat split.
      * destruct (String.prefix "QmTest" cid) eqn:Ht.
        { apply (prefix_shorter "Qm" "Test") in Ht. congruence. }
        destruct (String.prefix "QmNonExist" cid) eqn:Hn.
        { apply (prefix_shorter "Qm" "NonExist") in Hn. congruence. }
        discriminate.
    + cbn [andb] in H.
      destruct (String.prefix "QmTest" cid) eqn:Ht.
      { apply (prefix_shorter "Qm" "Test") in Ht. congruence. }
      destruct (String.prefix "QmNonExist" cid) eqn:Hn.
      { apply (prefix_shorter "Qm" "NonExist") in Hn. congruence. }
      discriminate.
Qed.

Lemma all_cids_valid values :
  (0 <? length (List.filter (fun cid => negb (Tools.isValidCID cid)) values))%nat = false <->
  exists cids,
    values = map VString cids /\
    Forall (fun cid => Tools.isValidCID (VString cid) = true) cids.
Proof.
  induction values as [|v values IH]; cbn [List.filter].
  - split; [|reflexivity]. intros _. exists []. split; [reflexivity|constructor].
  - destruct (Tools.isValidCID v) eqn:Hv; cbn [negb].
    + rewrite IH. split.
      * intros (cids & -> & Hall).
        destruct (isValidCID_wellformed v Hv) as (cid & -> & _).
        exists (cid :: cids). split; [reflexivity|]. now constructor.
      * intros ([|cid cids] & Heq & Hall); [discriminate|].
        injection Heq as -> ->. exists cids. split; [reflexivity|]. now inversion Hall.
    + split; [discriminate|].
      intros ([|cid cids] & Heq & Hall); [discriminate|].
      injection Heq as -> ->. inversion Hall. congruence.
Qed.

(** X28.  What the batch download tool accepts, and what it then does.
    [validateParams] accepts a request exactly when: [cids] is an array
    of 1 to 100 strings that [isValidCID] accepts; [outputDir], when
    truthy, is a string naming a directory that is writable or can be
    created; [concurrency] is absent or a number that is neither below 1
    nor above 10; and [decrypt] is absent or a boolean.  A falsy
    [outputDir] (the empty string, [0], [null], [false]) is not checked
    at all.  Every CID that [isValidCID] accepts consists of ASCII
    letters and digits only, is at least 32 characters long and starts
    with "Qm" or "baf".  For an accepted request [execute] makes one call
    to the batch method of the service, with exactly these CIDs and the
    options built from the request, and answers from its outcome. *)
Theorem download_tool_accepts_only_wellformed_cids w params :
  (Tools.validateDownloadParams w params = None <->
   (exists cids,
      Tools.b_cids params = VArray (map VString cids) /\
      (1 <= length cids <= 100)%nat /\
      Forall (fun cid => Tools.isValidCID (VString cid) = true) cids) /\
   (truthy (Tools.b_outputDir params) = true ->
    exists dir,
      Tools.b_outputDir params = VString dir /\
      (canWrite w dir = true \/ canMkdir w dir = true)) /\
   (Tools.b_concurrency params = VUndefined \/
    Tools.concurrencyRejected (Tools.b_concurrency params) = false) /\
   (Tools.b_decrypt params = VUndefined \/ exists b, Tools.b_decrypt params = VBool b)) /\
  (forall cid,
     Tools.isValidCID (VString cid) = true ->
     Tools.allChars Tools.isAlnum cid = true /\
     (32 <= String.length cid)%nat /\
     (String.prefix "Qm" cid = true \/ String.prefix "baf" cid = true)) /\
  (Tools.validateDownloadParams w params = None ->
   exists cids,
     Tools.b_cids params = VArray (map VString cids) /\
     (forall S (service : Tools.Service S) batchDownload (st : S),
        Tools.batchDownloadFiles service = Some batchDownload ->
        Requests.answeredFrom Tools.downloadResponseItem "Batch download failed: "
          (batchDownload cids (Some (Tools.downloadOptions params)) st)
          (Tools.executeDownload w service params st)) /\
     snd (Tools.executeDownload w Requests.recorder params [])
     = [ Requests.DownloadCall cids (Some (Tools.downloadOptions params)) ]).
Proof.
  assert (Hshape :
            Tools.validateDownloadParams w params = None <->
            (exists cids,
               Tools.b_cids params = VArray (map VString cids) /\
               (1 <= length cids <= 100)%nat /\
               Forall (fun cid => Tools.isValidCID (VString cid) = true) cids) /\
            (truthy (Tools.b_outputDir params) = true ->
             exists dir,
               Tools.b_outputDir params = VString dir /\
               (canWrite w dir = true \/ canMkdir w dir = true)) /\
            (Tools.b_concurrency params = VUndefined \/
             Tools.concurrencyRejected (Tools.b_concurrency params) = false) /\
            (Tools.b_decrypt params = VUndefined \/
             exists b, Tools.b_decrypt params = VBool b)).
  { unfold Tools.validateDownloadParams. split.
    - destruct (Tools.b_cids params) as [| | | | |values|]; try discriminate.
      destruct (length values =? 0)%nat eqn:Hempty; [discriminate|].
      destruct (100 <? length values)%nat eqn:Hmany; [discriminate|].
      cbv zeta.
      destruct (0 <? length (List.filter _ values))%nat eqn:Hvalid; [discriminate|].
      apply all_cids_valid in Hvalid. destruct Hvalid as (cids & -> & Hall).
      apply Nat.eqb_neq in Hempty. apply Nat.ltb_ge in Hmany. rewrite length_map in *.
      intros Hrest.
      split; [exists cids; split; [reflexivity|]; split; [lia|exact Hall]|].
      assert (Hflags : forall rest,
                (if negb (isUndefined (Tools.b_concurrency params))
                    && Tools.concurrencyRejected (Tools.b_concurrency params)
                 then Some "concurrency must be a number between 1 and 10"%string
                 else if negb (isUndefined (Tools.b_decrypt params))
                         && negb (type_tag_eqb (typeof (Tools.b_decrypt params)) TBoolean)
                 then Some "decrypt must be a boolean"%string
                 else None) = rest -> rest = None ->
                (Tools.b_concurrency params = VUndefined \/
                 Tools.concurrencyRejected (Tools.b_concurrency params) = false) /\
                (Tools.b_decrypt params = VUndefined \/
                 exists b, Tools.b_decrypt params = VBool b)).
      { intros rest Hr ->.
        destruct (negb (isUndefined (Tools.b_concurrency params)) && _) eqn:Hconc;
          [discriminate|].
        destruct (negb (isUndefined (Tools.b_decrypt params)) && _) eqn:Hdec;
          [discriminate|].
        split; [now apply concurrency_check|now apply boolean_or_absent]. }
      destruct (truthy (Tools.b_outputDir params)) eqn:Hdir.
      + destruct (Tools.b_outputDir params) as [| | | |dir| |]; try discriminate.
        destruct (canWrite w dir) eqn:Hw.
        * split; [intros _; exists dir; auto|]. now apply (Hflags _ eq_refl).
        * destruct (canMkdir w dir) eqn:Hm; [|discriminate].
          split; [intros _; exists dir; auto|]. now apply (Hflags _ eq_refl).
      + split; [discriminate|]. now apply (Hflags _ eq_refl).
    - intros ((cids & Hcids & Hlen & Hall) & Hdir & Hconc & Hdec).
      rewrite Hcids, length_map.
      replace (length cids =? 0)%nat with false by (symmetry; apply Nat.eqb_neq; lia).
      replace (100 <? length cids)%nat with false by (symmetry; apply Nat.ltb_ge; lia).
      cbv zeta.
      replace (0 <? length (List.filter (fun cid => negb (Tools.isValidCID cid))
                              (map VString cids)))%nat with false
        by (symmetry; apply all_cids_valid; now exists cids).
      apply concurrency_check in Hconc. rewrite Hconc.
      pose proof (proj2 (boolean_check _) Hdec) as Hdecb. rewrite Hdecb.
      destruct (truthy (Tools.b_outputDir params)) eqn:Ht; [|reflexivity].
      destruct (Hdir eq_refl) as (dir & -> & [Hw|Hm]).
      + now rewrite Hw.
      + rewrite Hm. now destruct (canWrite w dir). }
  split; [exact Hshape|]. split.
  - intros cid Hcid. destruct (isValidCID_wellformed _ Hcid) as (cid' & [= <-] & H).
    exact H.
  - intros Hvalid.
    destruct (proj1 Hshape Hvalid) as ((cids & Hcids & _) & _).
    assert (Hgiven : Requests.cidsOf params = cids).
    { unfold Requests.cidsOf. rewrite Hcids. cbn [Tools.asArray default].
      apply stringsOf_strings. }
    exists cids. split; [exact Hcids|]. split.
    + intros S service batchDownload st Hservice. rewrite <- Hgiven.
      exact (executeDownload_answers w service batchDownload params st Hvalid Hservice).
    + rewrite <- Hgiven.
      exact (proj1 (executeDownload_answers w Requests.recorder _ params [] Hvalid eq_refl)).
Qed.

Lemma upload_tool_accepts_only_checked_files_witness :
  Tools.validateUploadParams Fixtures.world (Requests.oneFile VUndefined) = None /\
  snd (Tools.executeUpload Fixtures.world Requests.recorder (Requests.oneFile VUndefined) [])
  = [ Requests.UploadCall ["/data/a.txt"%string]
        (Some (Tools.uploadOptions (Requests.oneFile VUndefined))) ].
Proof.
  split; [reflexivity|].
  destruct (proj2 (upload_tool_accepts_only_checked_files Fixtures.world
                     (Requests.oneFile VUndefined)) eq_refl)
    as (filePaths & Hpaths & _ & Hrecorded).
  injection Hpaths as Hpaths. destruct filePaths as [|p [|]]; try discriminate.
  injection Hpaths as <-. exact Hrecorded.
Defined.

Lemma download_tool_accepts_only_wellformed_cids_witness :
  Tools.validateDownloadParams Fixtures.world (Requests.oneCid VUndefined) = None /\
  snd (Tools.executeDownload Fixtures.world Requests.recorder (Requests.oneCid VUndefined) [])
  = [ Requests.DownloadCall ["QmTestAAAAAAAAAAAAAAAAAAAAAAAAAAAAAA"%string]
        (Some (Tools.downloadOptions (Requests.oneCid VUndefined))) ].
Proof.
  split; [reflexivity|].
  destruct (proj2 (proj2 (download_tool_accepts_only_wellformed_cids Fixtures.world
                            (Requests.oneCid VUndefined))) eq_refl)
    as (cids & Hcids & _ & Hrecorded).
  injection Hcids as Hcids. destruct cids as [|c [|]]; try discriminate.
  injection Hcids as <-. exact Hrecorded.
Defined.

(* ===================================================================== *)
(** * The upload tool on the mock service                                  *)
(* ===================================================================== *)

Lemma mock_uploadFile_succeeds w params st stats :
  fsStat w (Mock.up_filePath params) = Some stats ->
  Mock.currentStorageSize st + st_size stats <= Mock.maxStorageSize st ->
  exists r st', Mock.uploadFile w params st = (Return r, st').
Proof.
  intros Hstat Hroom. destruct (Mock.uploadFile w params st) as [[r|e] st'] eqn:E.
  - now exists r, st'.
  - apply mock_uploadFile_throw in E. destruct E as [_ [[Hnone _]|(stats' & Hs & Hfull & _)]].
    + congruence.
    + rewrite Hstat in Hs. injection Hs as <-. lia.
Qed.

Lemma mock_uploadLoop_all_stored w options filePaths :
  (forall p stats, fsStat w p = Some stats -> 0 <= st_size stats) ->
  Forall (fun p => is_Some (fsStat w p)) filePaths ->
  forall results st,
    Mock.currentStorageSize st + MockFacts.totalSizeOf w filePaths
      <= Mock.maxStorageSize st ->
    MockFacts.stored_successes results st ->
    exists rs st',
      Mock.uploadLoop w options filePaths results st = (Return (results ++ rs), st') /\
      map Types.id rs = filePaths /\
      Forall (fun r => success r = true /\ is_Some (data r)) rs /\
      MockFacts.stored_successes (results ++ rs) st' /\
      Mock.currentStorageSize st'
        = Mock.currentStorageSize st + MockFacts.totalSizeOf w filePaths.
Proof.
  intros Hsizes Hall. induction Hall as [|p rest [stats Hstat] Hrest IH];
    intros results st Hroom Hinv.
  - exists [], st. rewrite app_nil_r. cbn. repeat split; auto. lia.
  - unfold MockFacts.totalSizeOf in Hroom |- *. cbn [foldr] in Hroom |- *.
    fold (MockFacts.totalSizeOf w rest) in Hroom |- *.
    rewrite Hstat in Hroom |- *. cbn [from_option] in Hroom |- *.
    assert (Hpos : 0 <= st_size stats) by now apply (Hsizes p).
    assert (Hrestpos : 0 <= MockFacts.totalSizeOf w rest).
    { clear -Hsizes. unfold MockFacts.totalSizeOf.
      induction rest as [|q rest IH]; cbn [foldr]; [lia|].
      destruct (fsStat w q) as [s|] eqn:E; cbn [from_option]; [|lia].
      specialize (Hsizes q s E). lia. }
    cbn [Mock.uploadLoop].
    match goal with
    | |- context [Mock.uploadFile w ?ps st] =>
        destruct (mock_uploadFile_succeeds w ps st stats Hstat ltac:(lia)) as (r & st1 & E);
        rewrite E; apply mock_uploadFile_return in E
    end.
    destruct E as (stats' & Hs' & _ & _ & Hsize & _ & _ & Hm & Hc & Hmax).
    cbn [Mock.up_filePath] in Hs'. rewrite Hstat in Hs'. injection Hs' as <-.
    match goal with
    | |- context [Mock.uploadLoop w options rest ?rs st1] =>
        destruct (IH rs st1) as (rs' & st' & HL & Hids & Hok & Hst & Hcur)
    end.
    { rewrite Hc, Hmax. lia. }
    { intros x info Hin Hd. apply in_app_or in Hin. destruct Hin as [Hin|[<-|[]]].
      - rewrite Hm. apply lookup_insert_is_Some.
        assert (Hs := Hinv x info Hin Hd).
        destruct (decide (Mock.ur_cid r = hash info)) as [Heq|Hne].
        + left. exact Heq.
        + right. split; [exact Hne|exact Hs].
      - cbn in Hd. injection Hd as <-. cbn. rewrite Hm.
        apply lookup_insert_is_Some. now left. }
    eexists (_ :: rs'), st'. split; [rewrite HL; now rewrite <- app_assoc|].
    split; [cbn; now rewrite Hids|].
    split; [constructor; [cbn; split; [reflexivity|eexists; reflexivity]|exact Hok]|].
    split; [now rewrite <- app_assoc in Hst|].
    rewrite Hcur, Hc. lia.
Qed.

Lemma count_all_successful {T : Type} (rs : list (BatchFileResult T)) :
  Forall (fun r => success r = true /\ is_Some (data r)) rs ->
  countSuccess rs = length rs /\ countFailed rs = 0%nat.
Proof.
  unfold countSuccess, countFailed.
  induction 1 as [|r rs [Hr _] _ [IH1 IH2]]; cbn [List.filter length]; [now split|].
  rewrite Hr. cbn [negb length]. now rewrite IH1, IH2.
Qed.

(** X29.  The upload tool on the mock service stores every file of an
    accepted request that fits the quota.  When [validateParams] accepts
    the request, [fs.stat] reports no negative size, and the sizes of the
    files fit into what is left of the quota, then [execute] succeeds:
    it reports as many successful uploads as paths and none failed, one
    result per path in the order of the request, each with a CID under
    which the service afterwards holds a file, and the storage counter
    has grown by the sizes of the files. *)
Theorem upload_tool_stores_every_checked_file w params st :
  Tools.validateUploadParams w params = None ->
  (forall p stats, fsStat w p = Some stats -> 0 <= st_size stats) ->
  Mock.currentStorageSize st
  + MockFacts.totalSizeOf w
      (Tools.stringsOf (default [] (Tools.asArray (Tools.u_filePaths params))))
    <= Mock.maxStorageSize st ->
  exists response st',
    Tools.executeUpload w (Tools.mockService w) params st = (response, st') /\
    Tools.tr_success response = true /\
    Tools.tr_error response = None /\
    (exists data,
       Tools.tr_data response = Some data /\
       Tools.rd_total data
         = length (Tools.stringsOf (default [] (Tools.asArray (Tools.u_filePaths params)))) /\
       Tools.rd_successful data = Tools.rd_total data /\
       Tools.rd_failed data = 0%nat /\
       map Tools.ri_id (Tools.rd_results data)
         = Tools.stringsOf (default [] (Tools.asArray (Tools.u_filePaths params))) /\
       Forall (fun item =>
                 Tools.ri_success item = true /\
                 exists cid,
                   Tools.ri_cid item = Some cid /\
                   is_Some (MockFiles.getFileInfo cid st'))
              (Tools.rd_results data)) /\
    Mock.currentStorageSize st'
      = Mock.currentStorageSize st
        + MockFacts.totalSizeOf w
            (Tools.stringsOf (default [] (Tools.asArray (Tools.u_filePaths params)))).
Proof.
  intros Hvalid Hsizes Hroom.
  destruct (validateUpload_files w params Hvalid) as (filePaths & _ & _ & Hgiven & Hall).
  rewrite Hgiven in *.
  assert (Hexist : Forall (fun p => is_Some (fsStat w p)) filePaths).
  { eapply Forall_impl; [exact Hall|]. intros p (_ & stats & Hs & _). now exists stats. }
  destruct (mock_uploadLoop_all_stored w (Some (Tools.uploadOptions params)) filePaths
              Hsizes Hexist [] st Hroom)
    as (rs & st' & HL & Hids & Hok & Hst & Hcur).
  { intros x info []. }
  cbn [app] in HL, Hst.
  destruct (count_all_successful rs Hok) as [Hcount Hfailed].
  assert (Hlen : length rs = length filePaths) by now rewrite <- Hids, length_map.
  unfold Tools.executeUpload. rewrite Hvalid.
  cbn [Tools.mockService Tools.batchUploadFiles Tools.now]. rewrite Hgiven.
  unfold Mock.batchUploadFiles. rewrite HL.
  eexists _, st'. split; [reflexivity|].
  cbn [Tools.tr_success Tools.tr_error Tools.tr_data failed successful total results
       Mock.summarize].
  rewrite Hfailed. split; [reflexivity|]. split; [reflexivity|].
  split; [|exact Hcur].
  eexists. split; [reflexivity|].
  cbn [Tools.rd_total Tools.rd_successful Tools.rd_failed Tools.rd_results].
  split; [reflexivity|]. split; [now rewrite Hcount, Hlen|]. split; [reflexivity|].
  split.
  - rewrite <- Hids. rewrite map_map. reflexivity.
  - apply Forall_forall. intros item Hin. apply list_elem_of_In in Hin.
    apply in_map_iff in Hin. destruct Hin as (r & <- & Hin).
    rewrite List.Forall_forall in Hok. destruct (Hok r Hin) as [Hr [info Hinfo]].
    unfold Tools.uploadResponseItem. cbn [Tools.ri_success Tools.ri_cid].
    split; [exact Hr|]. exists (hash info). rewrite Hinfo. split; [reflexivity|].
    unfold MockFiles.getFileInfo. exact (Hst r info Hin Hinfo).
Qed.

Lemma upload_tool_stores_every_checked_file_witness :
  exists response st',
    Tools.executeUpload Fixtures.world (Tools.mockService Fixtures.world)
      (Requests.oneFile VUndefined) MockFacts.fresh = (response, st') /\
    Tools.tr_success response = true /\
    Mock.currentStorageSize st' = 10.
Proof.
  destruct (upload_tool_stores_every_checked_file Fixtures.world
              (Requests.oneFile VUndefined) MockFacts.fresh eq_refl)
    as (response & st' & H & Hok & _ & _ & Hcur).
  - intros p stats. cbn [Fixtures.world fsStat].
    repeat (destruct (String.eqb p _); [intros [= <-]; cbn; lia|]). discriminate.
  - vm_compute. discriminate.
  - exists response, st'. split; [exact H|]. split; [exact Hok|].
    rewrite Hcur. vm_compute. reflexivity.
Defined.

(* ===================================================================== *)
(** * The download tool on the mock service                                *)
(* ===================================================================== *)

Lemma mock_downloadLoop_each w o cids store :
  d_continueOnError o = Some true ->
  forall results st,
    Mock.fileStore st = store ->
    exists rs st',
      Mock.downloadLoop w (Some o) cids results st = (Return (results ++ rs), st') /\
      Mock.fileStore st' = store /\
      Forall2 (fun cid r =>
                 Types.id r = cid /\
                 (success r = true <->
                  cidIsValid w cid = true /\ is_Some (store !! cid)) /\
                 (success r = true ->
                  dl_cid <$> data r = Some cid /\
                  dl_size <$> data r = Mock.sf_size <$> store !! cid))
              cids rs.
Proof.
  intros Ho. induction cids as [|cid rest IH]; intros results st Hstore.
  - exists [], st. rewrite app_nil_r. cbn. repeat split; auto.
  - cbn [Mock.downloadLoop]. unfold Mock.fetchFile. cbn [Mock.fp_cid].
    unfold Mock.stopOnError. rewrite Ho. cbn [negb]. rewrite Hstore.
    destruct (cidIsValid w cid) eqn:Hvalid; cbn [negb].
    + destruct (store !! cid) as [file|] eqn:Hfile.
      * match goal with
        | |- context [Mock.downloadLoop w (Some o) rest ?rs ?st1] =>
            destruct (IH rs st1) as (rs' & st' & HL & Hst & Hall); [exact Hstore|]
        end.
        eexists (_ :: rs'), st'. split; [rewrite HL; now rewrite <- app_assoc|].
        split; [exact Hst|]. constructor; [|exact Hall].
        cbn. rewrite Hfile. split; [reflexivity|]. split; [|intros _; now split].
        split; [intros _; split; [exact Hvalid|now exists file]|reflexivity].
      * match goal with
        | |- context [Mock.downloadLoop w (Some o) rest ?rs ?st1] =>
            destruct (IH rs st1) as (rs' & st' & HL & Hst & Hall); [exact Hstore|]
        end.
        eexists (_ :: rs'), st'. split; [rewrite HL; now rewrite <- app_assoc|].
        split; [exact Hst|]. constructor; [|exact Hall].
        cbn. rewrite Hfile. split; [reflexivity|]. split; [|discriminate].
        split; [discriminate|]. intros [_ [x Hx]]. discriminate.
    + match goal with
      | |- context [Mock.downloadLoop w (Some o) rest ?rs ?st1] =>
          destruct (IH rs st1) as (rs' & st' & HL & Hst & Hall); [exact Hstore|]
      end.
      eexists (_ :: rs'), st'. split; [rewrite HL; now rewrite <- app_assoc|].
      split; [exact Hst|]. constructor; [|exact Hall].
      cbn. split; [reflexivity|]. split; [|discriminate].
      split; [discriminate|]. intros [Hno _]. congruence.
Qed.

Lemma none_failed {T : Type} (rs : list (BatchFileResult T)) :
  (countFailed rs =? 0)%nat = true <-> Forall (fun r => success r = true) rs.
Proof.
  unfold countFailed. rewrite Nat.eqb_eq. induction rs as [|r rs IH]; cbn [List.filter].
  - split; [constructor|reflexivity].
  - destruct (success r) eqn:Hr; cbn [negb length].
    + rewrite IH. split; [now constructor|]. intros H. now inversion H.
    + split; [discriminate|]. intros H. inversion H. congruence.
Qed.

(** X30.  The download tool on the mock service reports on every CID.
    When [validateParams] accepts the request and [continueOnError] is
    left at its default, [execute] returns data with one result per CID,
    in request order and under the CID as id.  A result is successful
    exactly when [CIDGenerator.isValid] accepts the CID and the service
    holds a file under it, and then it carries the CID and the size of
    that file; the response as a whole is successful exactly when every
    CID is.  The files the service holds are as before. *)
Theorem download_tool_reports_each_cid w params st :
  Tools.validateDownloadParams w params = None ->
  Tools.b_continueOnError params = VUndefined ->
  exists response st' data,
    Tools.executeDownload w (Tools.mockService w) params st = (response, st') /\
    Tools.tr_error response = None /\
    Tools.tr_data response = Some data /\
    Tools.rd_total data
      = length (Tools.stringsOf (default [] (Tools.asArray (Tools.b_cids params)))) /\
    Forall2 (fun cid item =>
               Tools.di_id item = cid /\
               (Tools.di_success item = true <->
                cidIsValid w cid = true /\ is_Some (MockFiles.getFileInfo cid st)) /\
               (Tools.di_success item = true ->
                Tools.di_cid item = Some cid /\
                Tools.di_size item = Mock.sf_size <$> MockFiles.getFileInfo cid st))
            (Tools.stringsOf (default [] (Tools.asArray (Tools.b_cids params))))
            (Tools.rd_results data) /\
    (Tools.tr_success response = true <->
     Forall (fun cid => cidIsValid w cid = true /\ is_Some (MockFiles.getFileInfo cid st))
            (Tools.stringsOf (default [] (Tools.asArray (Tools.b_cids params))))) /\
    Mock.fileStore st' = Mock.fileStore st.
Proof.
  intros Hvalid Hcontinue.
  set (cids := Tools.stringsOf (default [] (Tools.asArray (Tools.b_cids params)))).
  assert (Ho : d_continueOnError (Tools.downloadOptions params) = Some true).
  { unfold Tools.downloadOptions. cbn [d_continueOnError]. now rewrite Hcontinue. }
  destruct (mock_downloadLoop_each w (Tools.downloadOptions params) cids (Mock.fileStore st)
              Ho [] st eq_refl) as (rs & st' & HL & Hst & Hall).
  cbn [app] in HL.
  unfold Tools.executeDownload. rewrite Hvalid.
  cbn [Tools.mockService Tools.batchDownloadFiles Tools.now]. fold cids.
  unfold Mock.batchDownloadFiles. rewrite HL.
  eexists _, st', _. split; [reflexivity|].
  cbn [Tools.tr_success Tools.tr_error Tools.tr_data failed successful total results
       Mock.summarize Tools.rd_total Tools.rd_results].
  split; [reflexivity|]. split; [reflexivity|]. split; [reflexivity|].
  unfold MockFiles.getFileInfo.
  split; [|split; [|exact Hst]].
  - clear -Hall. induction Hall as [|cid r cids rs (Hid & Hiff & Hdata) _ IH]; cbn [map].
    + constructor.
    + constructor; [|exact IH]. unfold Tools.downloadResponseItem.
      cbn [Tools.di_id Tools.di_success Tools.di_cid Tools.di_size].
      split; [exact Hid|]. split; [exact Hiff|exact Hdata].
  - rewrite none_failed. clear -Hall.
    induction Hall as [|cid r cids rs (_ & Hiff & _) _ IH].
    + split; constructor.
    + split; intros H; inversion H; subst; constructor; tauto.
Qed.

Lemma download_tool_reports_each_cid_witness :
  exists response st',
    Tools.executeDownload Fixtures.world (Tools.mockService Fixtures.world)
      (Requests.oneCid VUndefined) MockFacts.afterA = (response, st') /\
    Tools.tr_success response = false /\
    Mock.fileStore st' = Mock.fileStore MockFacts.afterA.
Proof.
  destruct (download_tool_reports_each_cid Fixtures.world (Requests.oneCid VUndefined)
              MockFacts.afterA eq_refl eq_refl)
    as (response & st' & data & H & _ & _ & _ & _ & Hok & Hst).
  exists response, st'. split; [exact H|]. split; [|exact Hst].
  destruct (Tools.tr_success response); [|reflexivity].
  destruct Hok as [Hok _]. specialize (Hok eq_refl).
  cbn in Hok. inversion Hok as [|? ? [_ [file Hfile]] _]. vm_compute in Hfile. discriminate.
Defined.
